(* ===== verification/_CoqProject ===== *)
-Q . S2P
Prelude.v
PyStr.v
PyFloat.v
FloatBounds.v
Json.v
Domain.v
Config.v
Uuid.v
DateTime.v
Encoding.v
Pagination.v
Models.v
Schema.v
Effects.v
Repositories.v
Queue.v
Notifications.v
Catalog.v
Submission.v
Cancellation.v
Execution.v
Scheduling.v
Worker.v
Read.v
Api.v
Client.v
Logic.v
Total.v
Lifecycle.v
Invariant.v
Steps.v
Transactions.v
Programs.v
System.v
Demo.v
Guarantees.v
SentSpec.v
Termination.v
BoardSpec.v
WorkerSpec.v
ServiceSpec.v
ReadSpec.v
ApiSpec.v
FollowSpec.v
SchedulerSpec.v
QueueSpec.v
Frame.v
DispatchSpec.v
RecoverySpec.v
DeliverySpec.v
DomainSpec.v
AttemptSpec.v
HandlerSpec.v
ExecutionSpec.v
CancelSpec.v
PipelineSpec.v
SubmitSpec.v
RetrySpec.v
NotificationSpec.v
EndToEnd.v
RescueSpec.v
TickSpec.v
ClientSpec.v
SchemaSpec.v
Findings.v
Scenarios.v
