(* ===== verification/Prelude.v ===== *)
(** * Distributed Job Orchestrator: a verified model of the backend

    The program (Python, [src/backend/app]) accepts jobs over HTTP, keeps them in
    PostgreSQL, hands their ids to worker processes through Redis, and executes
    them at least once, with retries, leases, cancellation, expiry and
    notifications of the outcome.  The database is the source of truth; the queue
    only carries ids and may lose them.

    ** How the parts interact

    - [api/routes] parse a request and call one service per route; each service
      runs its statements in a transaction of the request.
    - [JobSubmissionService] inserts the job, its first event and a row of the
      dispatch outbox in one transaction; the scheduler publishes that row later.
    - A scheduler process repeats [tick]: publish the dispatch outbox, promote due
      retries, reap expired leases, redeliver stuck jobs, expire stale ones,
      deliver notifications.
    - A worker process runs several consumer coroutines.  Each takes an id from
      the queue, claims the row (QUEUED or RETRYING to RUNNING, with a lease under
      the worker's identity), runs the handler of the job's type, and finalizes
      the row under the guard that it still holds the lease.
    - Every transaction that ends a job also writes its last event and its entry
      of the notification outbox.

    ** Files

    Text, numbers and formats (the standard library, as far as the code uses it):
    - [PyStr]: strings, decimal and hexadecimal digits; [PyFloat]: binary64
      arithmetic over Stdlib's specification floats; [Json]: values and
      [json.dumps]; [Uuid]; [DateTime]: [isoformat] and [fromisoformat];
      [Encoding]: UTF-8 and URL-safe base64.

    The program:
    - [Domain]: [domain/enums.py], [state_machine.py], [errors.py]; [Config]:
      [core/config.py], [domain/backoff.py]; [Catalog]: [domain/job_catalog.py].
    - [Models]: the rows of [db/models.py], the constraints a statement can
      violate, the database as a record of tables.  [Schema]: the same classes as
      table descriptions, the operations of the initial migration and what
      they do.
    - [Effects]: the environment ([Env]: clock, ids, random draws, locks of other
      sessions, Redis availability, HTTP answers), the world, the monad [M] of one
      atomic action and the type [co] of coroutines, whose awaits are the points
      where other tasks run.
    - [Repositories]: [repositories/*.py], one definition per method, in a
      Module per class; [Queue]: [queue/redis_queue.py].
    - [Submission], [Cancellation], [Execution], [Notifications], [Scheduling]:
      the services of the same names and [workers/scheduler.py]; [Worker]:
      [workers/worker.py], [workers/identity.py].
    - [Pagination]: [core/pagination.py]; [Read]: [schemas/jobs.py] and
      [services/job_read_service.py]; [Api]: [api/routes], [api/deps.py], the
      exception handlers of [main.py].

    The client: [Client]: [scripts/submit_jobs.py] and [scripts/seed.py].

    The proofs:
    - [FloatBounds]: bounds of the rounding and of the percentage of progress.
    - [Logic]: weakest preconditions of [M] and of [co] under interference;
      [Total]: total correctness of actions, for the theorems that one returns,
      and the identifiers that are new; [Lifecycle]: what one change of a job row
      may be ([job_step]) and their sequences ([job_history]); [Invariant]: the
      invariant of the database and its preservation by each statement; [Steps],
      [Transactions], [Programs]: the same for statements, transactions and
      coroutines.
    - [System]: a step relation of any number of requests, workers, heartbeats and
      schedulers over one database and one Redis, interleaved at their awaits,
      each of which may crash there; reachable states satisfy the invariant.
      [Demo]: an executable scheduler of it and the states the witnesses use.
    - [Guarantees]: theorems of every reachable state or run; [SentSpec]: the same
      of the deliveries that were made; [Termination]: the
      bound on a job's changes of status; [BoardSpec]: an abstract orchestrator,
      and that the system refines it.
    - [WorkerSpec], [ServiceSpec], [SchedulerSpec]: what the transactions do on
      every branch; [DispatchSpec], [RecoverySpec]: a pass of the dispatcher, of
      the promoter, of the reaper, of the redelivery and of the expiry does its
      work on every row of its batch; [DeliverySpec]: every outcome of a
      notification's delivery.
    - [AttemptSpec]: a handler run with the callbacks of the service has the
      outcome of the same handler run alone; [HandlerSpec]: that outcome, for each
      job type; [ExecutionSpec]: an undisturbed execution from the claim to the
      end; [CancelSpec]: an execution whose job is being cancelled;
      [PipelineSpec]: submission, dispatch, queue and worker together;
      [SubmitSpec]: the answers of the submission route.
    - [Frame]: what an execution leaves alone (the waiting messages, the entries
      of the notification outbox), by a class of the relations its statements
      keep; [RetrySpec]: worker and promoter take turns on a job that fails;
      [NotificationSpec]: the passes of the delivery loop over a notification;
      [EndToEnd]: the three composed, from the submission to the owner's
      notification; [RescueSpec]: a job whose worker died or whose message was
      lost is executed again; [TickSpec]: the six passes of a tick, one after the
      other.
    - [ReadSpec], [ApiSpec]: pages, counts and the answers of the routes;
      [FollowSpec]: the job behind a 202 and its URL, at any later moment;
      [ClientSpec]: the demonstration client against the API; [QueueSpec]: the
      refinement of an abstract priority queue; [SchemaSpec]: the migration builds
      the declared schema, and the statements of the model fail exactly as it says; [DomainSpec]: the lifecycle
      table, backoff, normalisation; [Findings]: where the code falls short of its
      intent; [Scenarios]: complete runs.

    ** What the theorems show

    - Refinement: every run of the system, interleaved and crashing in any way, is
      a run of an abstract board on which a job ends once, with the one thing its
      owner is told, and, unless workers share an identity, starts only below its
      limit of attempts.
    - Life of a job: terminal rows never change, statuses follow the table, the
      columns fit the status, attempts are numbered without gaps and bounded by
      [max_attempts], cancelled jobs start no attempt, every job changes status a
      bounded number of times.
    - Outbox patterns: a pending job has an unpublished dispatch row and no job has
      two, a terminal job has exactly one notification, and nothing is delivered
      for a notification that was sent or given up.
    - Fencing: a worker that lost its lease changes nothing; two claims of one
      job do not both succeed.
    - Total correctness, with Redis up, the rows free, new identifiers, outcomes
      that the columns take and backoffs that can be computed: a submitted job is dispatched, tried until its handler is satisfied or its
      attempts are used up, ends as the handler decides, and its owner is told
      once, or given up after the attempts allowed; a job whose worker died or
      whose message was lost is found by one pass of the scheduler and executed
      again; a pass of each control loop returns and handles every due row; a whole
      tick leaves nothing overdue and touches no job that is not; an
      attempt whose cancellation is requested before a check of its handler ends
      its job as cancelled, and one whose request comes later is not retried.
    - API: each route's status code and body on every branch, idempotent
      submission, an accepted job that stays readable at its URL, isolation of
      users, pages that list every job once; the
      demonstration client's requests are all accepted.
    - Data: cursor round trip, the queue's refinement, agreement of the two
      descriptions of the schema, handlers' results, backoff and its limits.

    ** Bounds

    - Loops of the processes ([run_scheduler], [_consume_loop], [worker_run]) take
      the number of turns until the stop event; theorems hold for every number.
    - [ReadSpec.pages] takes the number of requests a client sends; any number
      above the number of listed jobs reaches the last page.
    - The progress of a handler lies between 0 and 100 for every number of steps
      below 2 ** 53, and is checked digit by digit up to 128 steps; backoff is
      evaluated for attempts 1 to 1024, the last before [2 ** n] overflows.
    - The environment is read by number: [w_count] counts the readings so far.
      The theorems that an operation returns ask for identifiers new to the
      tables in a window of readings as long as the operation takes, and no
      longer ([new_to], [distinct_ids]).  Where time must pass, the theorem takes
      the readings at which the next passes begin ([pause]).
    - Integers are unbounded where Python's are, and 32 bits wide ([int4]) where a
      column is; floats are binary64.

    ** Modelling decisions

    - A transaction is one atomic step.  The count of active jobs in a submission
      is a step of its own, as no lock protects it, and so is each query of a
      read.  Row locks held by other sessions are readings of the environment.
    - [strict] in the system's theorems means that no worker identity runs two
      executions at once.  The consumers of one process share an identity, so the
      theorems that need it say so, and [Findings] shows what happens without.
    - The heartbeat is a coroutine of its own that may beat at any time, more often
      than the code's interval.  A cancelled task is a coroutine that stops at
      one of its awaits.
    - A statement or a query fails only for what the schema or the driver refuses:
      that the database cannot be reached is not modelled, other than as a process
      that stops there.  A beat of the heartbeat then never raises
      ([ExecutionSpec.heartbeat_returns]), so the [await] of its task at the end of
      [execute] raises nothing again.
    - An UPDATE of a job or of an attempt checks the columns it may violate.  Those
      of the two outboxes check nothing: their counters are bounded by the passes
      that count, and the text of an error of the HTTP client holds no NUL.
    - [DataError] stands for every error of the database about a value; error
      texts of libraries are readings of the environment.
    - Text is Latin-1, one character per code point below 256.  JSON objects keep
      their insertion order; JSONB's own order of keys is not modelled.

    ** Not modelled, and why

    - FastAPI and pydantic: parsing of requests, rendering of responses, the CORS
      headers, the error list of a 422; the routes start from parsed values.  ISO
      texts that [isoformat] does not write are the parameter [other_isoformat],
      which may denote an instant without UTC time stamp: the query of such a
      cursor fails in the driver.
    - The lifespan of the API, signal handlers, logging, the engine and sessions,
      Alembic's environment, reading of settings from the environment, closing of
      clients: wiring of libraries, no logic of the program.
    - The frontend and the tests.

    ** Plan

    What is left: the retries of several jobs at once (the theorems over the
    retries follow one job in a queue of its own), and a tick among workers that
    run at the same time (its theorem takes the tick alone; the invariants and the
    refinement hold among others). *)

From Stdlib Require Export Ascii ZArith Lia.
From stdpp Require Export base gmap strings list sorting pretty.

Declare Scope orch_scope.
Delimit Scope orch_scope with orch.

(** * Functional record update

    SQL [UPDATE ... SET c1 = v1, c2 = v2] statements and attribute assignments
    are written [r <| c1 := v1 |> <| c2 := v2 |>].  A record type opts in with
    an eta-expansion ([Settable]); the setter of a projection is computed by
    replacing that projection in the eta-expansion. *)
Class Settable (R : Type) := { eta_expand : R -> R }.

Class Setter {R T : Type} (proj : R -> T) := { set_field : T -> R -> R }.
Arguments set_field {R T} proj {_} v r.

Ltac solve_setter :=
  lazymatch goal with
  | |- @Setter ?R ?T ?proj =>
      let eta := constr:(@eta_expand R _) in
      let eta' := eval hnf in eta in
      let f := constr:(fun (v : T) (r : R) =>
        ltac:(let body := eval cbv beta in (eta' r) in
              lazymatch eval pattern (proj r) in body with
              | ?g _ => let result := eval cbv beta in (g v) in exact result
              end)) in
      exact {| set_field := f |}
  end.

#[export] Hint Extern 1 (Setter _) => solve_setter : typeclass_instances.

Notation "r <| proj := v |>" := (set_field proj v r)
  (at level 1, left associativity, proj at level 9, v at level 99,
   format "r  <| proj  :=  v |>") : orch_scope.

#[global] Open Scope Z_scope.
#[global] Open Scope orch_scope.

(** * Hint databases: [orch] closes goals, [keeps] those about
    rows a statement leaves alone, [orch_str] normalises text. *)
Create HintDb orch.
Create HintDb keeps.
Create Rewrite HintDb orch_str.

(** * Lists *)

Lemma forallb_false {A} (f : A → bool) (l : list A) :
  forallb f l = false → ∃ x, x ∈ l ∧ f x = false.
Proof.
  induction l as [|a l IH]; [done|]. simpl. intros [Ha|Hl]%andb_false_iff.
  - exists a. split; [apply list_elem_of_here | done].
  - destruct (IH Hl) as (x & Hx & Hf). exists x. split; [by apply list_elem_of_further | done].
Qed.

Lemma forallb_true {A} (f : A → bool) (l : list A) x :
  forallb f l = true → x ∈ l → f x = true.
Proof. rewrite List.forallb_forall. intros H Hx. by apply H, list_elem_of_In. Qed.

Lemma elem_of_middle {A} (x y : A) (l1 l2 : list A) :
  x ∈ l1 ++ y :: l2 ↔ x = y ∨ x ∈ l1 ++ l2.
Proof. rewrite !elem_of_app, elem_of_cons. tauto. Qed.

(** * Maps *)

Lemma alter_as_insert `{Countable K} {A} (f : A → A) (k : K) (m : gmap K A) x :
  m !! k = Some x → alter f k m = <[k := f x]> m.
Proof.
  intros Hk. apply map_eq. intros y. destruct (decide (k = y)) as [->|?].
  - by rewrite lookup_alter_eq, lookup_insert_eq, Hk.
  - by rewrite lookup_alter_ne, lookup_insert_ne.
Qed.

Lemma alter_absent `{Countable K} {A} (f : A → A) (k : K) (m : gmap K A) :
  m !! k = None → alter f k m = m.
Proof.
  intros Hk. apply map_eq. intros y. destruct (decide (k = y)) as [->|?].
  - by rewrite lookup_alter_eq, Hk.
  - by rewrite lookup_alter_ne.
Qed.

(** Distributes conjunctions of booleans, and turns tests into propositions. *)
Ltac bool_simpl :=
  repeat match goal with
  | H : (_ && _) = true |- _ => apply andb_prop in H as [? ?]
  | H : negb _ = true |- _ => apply negb_true_iff in H
  | H : bool_decide _ = true |- _ => apply bool_decide_eq_true_1 in H
  | H : bool_decide _ = false |- _ => apply bool_decide_eq_false_1 in H
  | H : String.eqb _ _ = true |- _ => apply String.eqb_eq in H
  end.
