(* ===== verification/PyStr.v ===== *)
(** Python text as the program uses it: [str] and [bytes] values are sequences
    of code points below 256 (one [ascii] each), and the parts of the language
    that the source calls on them: [str.strip], [str.replace], [str.split] with
    a separator and a limit, [int(text, base)], [repr] of text, and the decimal
    and hexadecimal formats of f-strings. *)

From S2P Require Import Prelude.

Definition code (c : ascii) : N := Ascii.N_of_ascii c.
Definition chr (n : N) : ascii := Ascii.ascii_of_N n.

Lemma chr_code c : chr (code c) = c.
Proof. apply Ascii.ascii_N_embedding. Qed.

Lemma code_chr n : (n < 256)%N → code (chr n) = n.
Proof. apply Ascii.N_ascii_embedding. Qed.

Lemma code_lt c : (code c < 256)%N.
Proof. apply Ascii.N_ascii_bounded. Qed.

(** ** Character classes *)

(** [str.isspace] on the first 256 code points. *)
Definition is_space (c : ascii) : bool :=
  let n := code c in
  ((9 <=? n) && (n <=? 13) || (28 <=? n) && (n <=? 32) || (n =? 133) || (n =? 160))%N.

Definition digit_value (c : ascii) : option Z :=
  let n := code c in
  if ((48 <=? n) && (n <=? 57))%N then Some (Z.of_N n - 48)
  else if ((97 <=? n) && (n <=? 122))%N then Some (Z.of_N n - 87)
  else if ((65 <=? n) && (n <=? 90))%N then Some (Z.of_N n - 55)
  else None.

Definition is_digit (c : ascii) : bool :=
  let n := code c in ((48 <=? n) && (n <=? 57))%N.

Definition to_lower (c : ascii) : ascii :=
  let n := code c in if ((65 <=? n) && (n <=? 90))%N then chr (n + 32) else c.

(** ** Methods of [str] *)

Fixpoint map_str (f : ascii → ascii) (s : string) : string :=
  match s with
  | EmptyString => EmptyString
  | String c s' => String (f c) (map_str f s')
  end.

Definition lower : string → string := map_str to_lower.

Fixpoint lstrip_by (p : ascii → bool) (s : string) : string :=
  match s with
  | EmptyString => EmptyString
  | String c s' => if p c then lstrip_by p s' else s
  end.

Fixpoint rstrip_by (p : ascii → bool) (s : string) : string :=
  match s with
  | EmptyString => EmptyString
  | String c s' =>
      match rstrip_by p s' with
      | EmptyString => if p c then EmptyString else String c EmptyString
      | t => String c t
      end
  end.

Definition strip_by (p : ascii → bool) (s : string) : string := rstrip_by p (lstrip_by p s).
Definition strip : string → string := strip_by is_space.

(** [s.replace(c, "")] for a single character. *)
Fixpoint remove_char (c : ascii) (s : string) : string :=
  match s with
  | EmptyString => EmptyString
  | String d s' => if Ascii.eqb c d then remove_char c s' else String d (remove_char c s')
  end.

Fixpoint drop_prefix (p s : string) : option string :=
  match p, s with
  | EmptyString, _ => Some s
  | String c p', String d s' => if Ascii.eqb c d then drop_prefix p' s' else None
  | _, EmptyString => None
  end.

(** [s.replace(p, "")] for a non-empty [p]: left to right, without rescanning;
    [skip] characters of the current match are still to be passed over. *)
Fixpoint remove_str_aux (p : string) (skip : nat) (s : string) : string :=
  match s with
  | EmptyString => EmptyString
  | String c s' =>
      match skip with
      | S k => remove_str_aux p k s'
      | O => match drop_prefix p s with
             | Some _ => remove_str_aux p (String.length p - 1) s'
             | None => String c (remove_str_aux p 0 s')
             end
      end
  end.
Definition remove_str (p s : string) : string := remove_str_aux p 0 s.

(** [s.split(c)] *)
Fixpoint split_on (c : ascii) (s : string) : list string :=
  match s with
  | EmptyString => [EmptyString]
  | String x s' =>
      if Ascii.eqb x c then EmptyString :: split_on c s'
      else match split_on c s' with
           | w :: ws => String x w :: ws
           | [] => [String x EmptyString]
           end
  end.

(** [s.split(c, 1)]: one piece when the separator is absent, else two. *)
Fixpoint split1 (c : ascii) (s : string) : option (string * string) :=
  match s with
  | EmptyString => None
  | String d s' =>
      if Ascii.eqb c d then Some (EmptyString, s')
      else match split1 c s' with
           | Some (a, b) => Some (String d a, b)
           | None => None
           end
  end.

(** ** [int(text, base)] *)

(** Digits with single underscores between them; [us] holds when an underscore
    (or nothing yet) precedes, so that a digit must follow. *)
Fixpoint parse_digits (base : Z) (us : bool) (acc : Z) (s : string) : option Z :=
  match s with
  | EmptyString => if us then None else Some acc
  | String c s' =>
      if Ascii.eqb c "_" then if us then None else parse_digits base true acc s'
      else match digit_value c with
           | Some d => if d <? base then parse_digits base false (acc * base + d) s' else None
           | None => None
           end
  end.

Definition parse_unsigned (base : Z) (s : string) : option Z :=
  match base, s with
  | 16, String "0" (String x s') =>
      if Ascii.eqb (to_lower x) "x"
      then match s' with
           | String "_" s'' => parse_digits base true 0 s''
           | _ => parse_digits base true 0 s'
           end
      else parse_digits base true 0 s
  | _, _ => parse_digits base true 0 s
  end.

(** The interpreter's limit on decimal conversions ([sys.int_info]). *)
Definition max_str_digits : nat := 4300.

Definition decimal_too_long (base : Z) (s : string) : bool :=
  (base =? 10) && Nat.ltb max_str_digits (String.length (remove_char "_" s)).

(** The optional sign of a number: is it negative, and what follows. *)
Definition split_sign (s : string) : bool * string :=
  match s with
  | String "-" s' => (true, s')
  | String "+" s' => (false, s')
  | _ => (false, s)
  end.

(** [int(text, base)]; [None] is [ValueError]. *)
Definition int_of_str (base : Z) (text : string) : option Z :=
  let '(neg, body) := split_sign (strip text) in
  if decimal_too_long base body then None
  else match parse_unsigned base body with
       | Some n => Some (if neg : bool then - n else n)
       | None => None
       end.

(** ** Formatting *)

(** [str(n)] of an integer. *)
Definition str_of_int (n : Z) : string := pretty n.

Definition hex_digit (n : N) : ascii :=
  if (n <? 10)%N then chr (48 + n) else chr (87 + n).

(** The [k] low hexadecimal digits of [n], most significant first. *)
Fixpoint hex_digits (k : nat) (n : N) : string :=
  match k with
  | O => EmptyString
  | S k' => hex_digits k' (n / 16) +:+ String (hex_digit (n mod 16)) EmptyString
  end.

Definition hex2 (c : ascii) : string := hex_digits 2 (code c).

(** [repr] of text: single quotes unless the text holds one and no double
    quote; backslash escapes for the rest. *)
Definition dquote : ascii := "034".
Definition squote : ascii := "039".
Definition backslash : ascii := "092".

Fixpoint contains (c : ascii) (s : string) : bool :=
  match s with
  | EmptyString => false
  | String d s' => Ascii.eqb c d || contains c s'
  end.

Definition printable (c : ascii) : bool :=
  let n := code c in
  ((32 <=? n) && (n <=? 126) || (161 <=? n) && negb (n =? 173))%N.

Definition esc (s : string) : string := String backslash s.

Definition repr_char (q c : ascii) : string :=
  if Ascii.eqb c q || Ascii.eqb c backslash then esc (String c EmptyString)
  else if (code c =? 9)%N then esc "t"
  else if (code c =? 10)%N then esc "n"
  else if (code c =? 13)%N then esc "r"
  else if printable c then String c EmptyString
  else esc ("x" +:+ hex2 c).

Fixpoint concat_map_str (f : ascii → string) (s : string) : string :=
  match s with
  | EmptyString => EmptyString
  | String c s' => f c +:+ concat_map_str f s'
  end.

Definition repr_str (s : string) : string :=
  let q := if contains squote s && negb (contains dquote s) then dquote else squote in
  String q (concat_map_str (repr_char q) s +:+ String q EmptyString).

(** ** Lemmas *)

Fixpoint all_str (p : ascii → bool) (s : string) : bool :=
  match s with
  | EmptyString => true
  | String c s' => p c && all_str p s'
  end.

Lemma str_app_cons c a b : String c a +:+ b = String c (a +:+ b).
Proof. reflexivity. Qed.

Lemma str_app_nil_l (b : string) : EmptyString +:+ b = b.
Proof. reflexivity. Qed.

#[export] Hint Rewrite str_app_cons str_app_nil_l : orch_str.

Lemma str_app_assoc (a b c : string) : (a +:+ b) +:+ c = a +:+ (b +:+ c).
Proof. induction a as [|x a IH]; [done|]. autorewrite with orch_str. by rewrite IH. Qed.

Lemma str_app_nil_r (a : string) : a +:+ EmptyString = a.
Proof. induction a as [|x a IH]; [done|]. autorewrite with orch_str. by rewrite IH. Qed.

Lemma str_length_app (a b : string) :
  String.length (a +:+ b) = (String.length a + String.length b)%nat.
Proof. induction a as [|x a IH]; [done|]. autorewrite with orch_str. simpl. by rewrite IH. Qed.

Lemma all_str_app p a b : all_str p (a +:+ b) = all_str p a && all_str p b.
Proof.
  induction a as [|x a IH]; [done|]. autorewrite with orch_str. simpl.
  by rewrite IH, andb_assoc.
Qed.

Lemma all_str_impl (p q : ascii → bool) s :
  (∀ c, p c = true → q c = true) → all_str p s = true → all_str q s = true.
Proof.
  intros Hpq. induction s as [|c s IH]; [done|]. simpl.
  intros [Hc Hs]%andb_prop. apply andb_true_intro. auto.
Qed.

(** Appending is injective once the lengths of the left parts agree. *)
Lemma str_app_inj (a1 a2 b1 b2 : string) :
  String.length a1 = String.length a2 →
  a1 +:+ b1 = a2 +:+ b2 → a1 = a2 ∧ b1 = b2.
Proof.
  revert a2. induction a1 as [|c a1 IH]; intros [|d a2]; simpl; try done.
  autorewrite with orch_str.
  intros [= Hlen] [= -> Happ]. destruct (IH a2 Hlen Happ) as [-> ->]. done.
Qed.

Lemma hex_digits_length k n : String.length (hex_digits k n) = k.
Proof.
  revert n. induction k as [|k IH]; intros n; [done|].
  simpl. rewrite str_length_app, IH. simpl. lia.
Qed.

Lemma remove_char_app c a b : remove_char c (a +:+ b) = remove_char c a +:+ remove_char c b.
Proof.
  induction a as [|d a IH]; [done|]. autorewrite with orch_str. simpl.
  destruct (Ascii.eqb c d); [exact IH|]. autorewrite with orch_str. by rewrite IH.
Qed.

Lemma remove_char_id c s :
  all_str (λ d, negb (Ascii.eqb c d)) s = true → remove_char c s = s.
Proof.
  induction s as [|d s IH]; [done|]. simpl. intros [Hd Hs]%andb_prop.
  apply negb_true_iff in Hd. rewrite Hd. f_equal. auto.
Qed.

Lemma drop_prefix_other p c s d s' :
  p = String c s' → Ascii.eqb c d = false → drop_prefix p (String d s) = None.
Proof. intros -> Hcd. simpl. by rewrite Hcd. Qed.

(** A pattern whose first character does not occur is never removed. *)
Lemma remove_str_id c p s :
  all_str (λ d, negb (Ascii.eqb c d)) s = true → remove_str (String c p) s = s.
Proof.
  unfold remove_str. induction s as [|d s IH]; [done|].
  cbn [all_str]. intros [Hd Hs]%andb_prop. apply negb_true_iff in Hd.
  cbn [remove_str_aux]. rewrite (drop_prefix_other _ c s d p eq_refl Hd).
  f_equal. auto.
Qed.

Lemma lstrip_by_id p s : all_str (λ c, negb (p c)) s = true → lstrip_by p s = s.
Proof.
  destruct s as [|c s]; [done|]. simpl. intros [Hc _]%andb_prop.
  apply negb_true_iff in Hc. by rewrite Hc.
Qed.

Lemma rstrip_by_id p s : all_str (λ c, negb (p c)) s = true → rstrip_by p s = s.
Proof.
  induction s as [|c s IH]; [done|]. simpl. intros [Hc Hs]%andb_prop.
  apply negb_true_iff in Hc. rewrite (IH Hs). by destruct s; rewrite ?Hc.
Qed.

Lemma strip_by_id p s : all_str (λ c, negb (p c)) s = true → strip_by p s = s.
Proof.
  intros H. unfold strip_by. rewrite (lstrip_by_id p s H). by apply rstrip_by_id.
Qed.
