(* ===== verification/PyFloat.v ===== *)
(** Python [float]: IEEE 754 binary64 as the Standard Library's executable
    [spec_float], with the operations of the language that the source uses:
    arithmetic between floats and integers, [/] on integers, comparisons,
    [min]/[max], [int(x)], [float(text)], [repr], and the conversion of a
    number of seconds to a [timedelta] in microseconds. *)

From Stdlib Require Export SpecFloat.
From S2P Require Import Prelude PyStr.

Definition prec : Z := 53.
Definition emax : Z := 1024.

Abbreviation pyfloat := spec_float (only parsing).

(** What a Python numeric operation raises. *)
Inductive num_error := OverflowErr | ValueErr | ZeroDivErr.

Definition num_result (A : Type) : Type := num_error + A.

(** ** Arithmetic *)

Definition fmul (x y : pyfloat) : pyfloat := SFmul prec emax x y.
Definition fadd (x y : pyfloat) : pyfloat := SFadd prec emax x y.
Definition fsub (x y : pyfloat) : pyfloat := SFsub prec emax x y.
Definition fneg (x : pyfloat) : pyfloat := SFopp x.
Definition fltb (x y : pyfloat) : bool := SFltb x y.
Definition fleb (x y : pyfloat) : bool := SFleb x y.
Definition feqb (x y : pyfloat) : bool := SFeqb x y.

Definition fzero : pyfloat := S754_zero false.

Definition is_finite (x : pyfloat) : bool :=
  match x with S754_zero _ | S754_finite _ _ _ => true | _ => false end.

(** The correctly rounded quotient of the integers [a] and [b > 0]. *)
Definition ratio (a b : Z) : pyfloat :=
  match a, b with
  | Zpos p, Zpos q => SFdiv prec emax (S754_finite false p 0) (S754_finite false q 0)
  | Zneg p, Zpos q => SFdiv prec emax (S754_finite true p 0) (S754_finite false q 0)
  | _, _ => fzero
  end.

(** [float(n)]: round to nearest even, [OverflowError] when too large. *)
Definition float_of_int (n : Z) : num_result pyfloat :=
  let x := binary_normalize prec emax n 0 false in
  if is_finite x then inr x else inl OverflowErr.

(** [a / b] on integers ([b > 0] in the source). *)
Definition int_truediv (a b : Z) : num_result pyfloat :=
  if b =? 0 then inl ZeroDivErr
  else let x := ratio (Z.sgn b * a) (Z.abs b) in
       if is_finite x then inr x else inl OverflowErr.

(** [x / y] on floats. *)
Definition fdiv (x y : pyfloat) : num_result pyfloat :=
  match y with
  | S754_zero _ => inl ZeroDivErr
  | _ => inr (SFdiv prec emax x y)
  end.

(** [x * n] with [x] a float and [n] an integer. *)
Definition fmul_int (x : pyfloat) (n : Z) : num_result pyfloat :=
  match float_of_int n with
  | inr y => inr (fmul x y)
  | inl e => inl e
  end.

(** [min(a, b)] and [max(a, b)]: the second argument only when it compares
    strictly better. *)
Definition fmin (a b : pyfloat) : pyfloat := if fltb b a then b else a.
Definition fmax (a b : pyfloat) : pyfloat := if fltb a b then b else a.

(** [int(x)]: truncation toward zero. *)
Definition trunc_mag (m : positive) (e : Z) : Z :=
  if 0 <=? e then Zpos m * 2 ^ e else Zpos m / 2 ^ (- e).

Definition int_of_float (x : pyfloat) : num_result Z :=
  match x with
  | S754_zero _ => inr 0
  | S754_finite s m e => inr (if s then - trunc_mag m e else trunc_mag m e)
  | S754_infinity _ => inl OverflowErr
  | S754_nan => inl ValueErr
  end.

(** [int(float)] of a comparison with an integer literal is exact in the
    source: [value < minimum] always compares two floats. *)

(** ** Decimal text to float *)

(** The float nearest to [mant * 10 ^ e10]; far exponents are decided without
    computing the power. *)
Definition float_of_decimal (mant : Z) (e10 : Z) : pyfloat :=
  if mant <=? 0 then fzero
  else let digits := Z.log2 mant * 30103 / 100000 in
       if 400 <? digits + e10 then S754_infinity false
       else if digits + e10 <? -400 then fzero
       else if 0 <=? e10 then binary_normalize prec emax (mant * 10 ^ e10) 0 false
       else ratio mant (10 ^ (- e10)).

(** Underscores may only stand between digits. *)
Fixpoint underscores_ok (prev_digit : bool) (s : string) : bool :=
  match s with
  | EmptyString => true
  | String c s' =>
      if Ascii.eqb c "_"
      then prev_digit && match s' with
                         | String d _ => is_digit d
                         | EmptyString => false
                         end && underscores_ok false s'
      else underscores_ok (is_digit c) s'
  end.

(** A run of decimal digits: value, how many, and the rest. *)
Fixpoint take_digits (acc : Z) (n : Z) (s : string) : Z * Z * string :=
  match s with
  | String c s' =>
      match digit_value c with
      | Some d => if d <? 10 then take_digits (acc * 10 + d) (n + 1) s' else (acc, n, s)
      | None => (acc, n, s)
      end
  | EmptyString => (acc, n, s)
  end.

(** The optional exponent part; it must end the text. *)
Definition parse_exponent (s : string) : option Z :=
  match s with
  | EmptyString => Some 0
  | String c s' =>
      if Ascii.eqb (to_lower c) "e" then
        let '(neg, body) := split_sign s' in
        match take_digits 0 0 body with
        | (v, n, EmptyString) =>
            if n =? 0 then None else Some (if neg : bool then - v else v)
        | _ => None
        end
      else None
  end.

Definition parse_decimal (s : string) : option pyfloat :=
  let '(ip, ni, s1) := take_digits 0 0 s in
  let '(m, nf, s2) := match s1 with
                      | String "." t => take_digits ip 0 t
                      | _ => (ip, 0, s1)
                      end in
  if ni + nf =? 0 then None
  else match parse_exponent s2 with
       | Some e => Some (float_of_decimal m (e - nf))
       | None => None
       end.

(** [float(text)]; [None] is [ValueError]. *)
Definition float_of_str (text : string) : option pyfloat :=
  let s := strip text in
  if underscores_ok false s then
    let '(neg, body) := split_sign (remove_char "_" s) in
    let name := lower body in
    let value :=
      if String.eqb name "inf" || String.eqb name "infinity"
      then Some (S754_infinity false)
      else if String.eqb name "nan" then Some S754_nan
      else parse_decimal body in
    match value with
    | Some x => Some (if neg : bool then fneg x else x)
    | None => None
    end
  else None.

(** ** Float to text: the shortest decimal that reads back as the same float *)

(** The largest [k] with [10 ^ k <= p / q]. *)
Definition pow10_le (k p q : Z) : bool :=
  if 0 <=? k then 10 ^ k * q <=? p else q <=? p * 10 ^ (- k).

Definition decimal_exponent (p q : Z) : Z :=
  let k := (Z.log2 p - Z.log2 q) * 30103 / 100000 - 1 in
  if pow10_le (k + 2) p q then k + 2
  else if pow10_le (k + 1) p q then k + 1 else k.

Definition reads_back (m : positive) (e : Z) (d e10 : Z) : bool :=
  feqb (float_of_decimal d e10) (S754_finite false m e).

(** Among the two [n]-digit neighbours of the value, the nearest one that
    reads back. *)
Definition shortest_at (n : Z) (m : positive) (e : Z) (p q k : Z) : option (Z * Z) :=
  let e10 := k - n + 1 in
  let '(num, den) := if 0 <=? e10 then (p, q * 10 ^ e10) else (p * 10 ^ (- e10), q) in
  let lo := num / den in
  let hi := lo + 1 in
  let nearer_lo := 2 * (num - lo * den) <=? den in
  let '(c1, c2) := if nearer_lo then (lo, hi) else (hi, lo) in
  if reads_back m e c1 e10 then Some (c1, e10)
  else if reads_back m e c2 e10 then Some (c2, e10)
  else None.

Fixpoint shortest_from (fuel : nat) (n : Z) (m : positive) (e : Z) (p q k : Z) : Z * Z :=
  match fuel with
  | O => (p, 0)
  | S fuel' =>
      match shortest_at n m e p q k with
      | Some r => r
      | None => shortest_from fuel' (n + 1) m e p q k
      end
  end.

(** Seventeen digits always suffice for binary64. *)
Definition shortest (m : positive) (e : Z) : Z * Z :=
  let '(p, q) := if 0 <=? e then (Zpos m * 2 ^ e, 1) else (Zpos m, 2 ^ (- e)) in
  shortest_from 17 1 m e p q (decimal_exponent p q).

Fixpoint zeros (n : nat) : string :=
  match n with O => EmptyString | S n' => String "0" (zeros n') end.

Fixpoint split_at (n : nat) (s : string) : string * string :=
  match n, s with
  | S n', String c s' => let '(a, b) := split_at n' s' in (String c a, b)
  | _, _ => (EmptyString, s)
  end.

(** Layout of [repr]: fixed notation for decimal points in (-4, 16]. *)
Definition layout (digits : string) (e10 : Z) : string :=
  let n := Z.of_nat (String.length digits) in
  let point := n + e10 in
  if (-4 <? point) && (point <=? 16) then
    if point <=? 0 then "0." +:+ zeros (Z.to_nat (- point)) +:+ digits
    else if n <=? point then digits +:+ zeros (Z.to_nat (point - n)) +:+ ".0"
    else let '(a, b) := split_at (Z.to_nat point) digits in a +:+ "." +:+ b
  else
    let x := point - 1 in
    let '(a, b) := split_at 1 digits in
    let mant := match b with EmptyString => a | _ => a +:+ "." +:+ b end in
    let ax := str_of_int (Z.abs x) in
    mant +:+ "e" +:+ (if x <? 0 then "-" else "+")
      +:+ (if Z.abs x <? 10 then "0" +:+ ax else ax).

(** Digits without trailing zeros (the mantissa may carry over to [10 ^ n]). *)
Fixpoint strip_zeros (fuel : nat) (d e10 : Z) : Z * Z :=
  match fuel with
  | O => (d, e10)
  | S f => if (d mod 10 =? 0) && negb (d =? 0) then strip_zeros f (d / 10) (e10 + 1) else (d, e10)
  end.

Definition repr_float (x : pyfloat) : string :=
  match x with
  | S754_nan => "nan"
  | S754_infinity s => if s then "-inf" else "inf"
  | S754_zero s => if s then "-0.0" else "0.0"
  | S754_finite s m e =>
      let '(d, e10) := shortest m e in
      let '(d, e10) := strip_zeros 18 d e10 in
      let body := layout (str_of_int d) e10 in
      if s then "-" +:+ body else body
  end.

(** ** [timedelta(seconds=x)] in microseconds

    The whole seconds convert exactly; the fractional part is multiplied by a
    million as a float and rounded half to even. *)
Definition us_per_second : Z := 1000000.

Definition round_half_even_div (num den : Z) : Z :=
  let q := num / den in
  let r := num mod den in
  if 2 * r <? den then q
  else if den <? 2 * r then q + 1
  else if Z.even q then q else q + 1.

Definition round_half_even (x : pyfloat) : Z :=
  match x with
  | S754_finite s m e =>
      let mag := if 0 <=? e then Zpos m * 2 ^ e else round_half_even_div (Zpos m) (2 ^ (- e)) in
      if s then - mag else mag
  | _ => 0
  end.

(** The fractional part of a finite float, with its sign. *)
Definition frac_part (x : pyfloat) : pyfloat :=
  match x with
  | S754_finite s m e =>
      if 0 <=? e then S754_zero s
      else match Zpos m mod 2 ^ (- e) with
           | Zpos r => binary_normalize prec emax (if s then Zneg r else Zpos r) e s
           | _ => S754_zero s
           end
  | _ => x
  end.

(** 999999999 days, the bound of [timedelta]. *)
Definition max_timedelta_us : Z := 999999999 * 86400 * us_per_second.

Definition timedelta_of_seconds (x : pyfloat) : num_result Z :=
  match int_of_float x with
  | inl e => inl e
  | inr whole =>
      let million := binary_normalize prec emax us_per_second 0 false in
      let us := whole * us_per_second + round_half_even (fmul million (frac_part x)) in
      if Z.abs us <=? max_timedelta_us then inr us else inl OverflowErr
  end.

(** ** Lemmas *)

(** [max(0.0, x)] is never negative and never NaN. *)
Lemma fmax_zero_nonneg (x : pyfloat) :
  fleb fzero (fmax fzero x) = true.
Proof.
  unfold fmax, fleb, fltb, SFleb, SFltb, fzero.
  destruct x as [[]|[]| |[] m e]; reflexivity.
Qed.
