(* ===== verification/FloatBounds.v ===== *)
(** Rounding never passes a bound that is a small integer: for [0 < a <= b] the
    float quotient [a / b] is at most 1, its product with an integer at most that
    integer.  The argument follows the mantissa through the shifts of the
    rounding: [within] says that the exact value, as far as its location is
    known, stays below the bound. *)

From S2P Require Import Prelude PyStr PyFloat.

Lemma digits2_log2 p : Zpos (digits2_pos p) = Z.log2 (Zpos p) + 1.
Proof.
  induction p as [p IH|p IH|]; simpl digits2_pos; [| |done]; rewrite Pos2Z.inj_succ, IH.
  - rewrite Pos2Z.inj_xI, Z.log2_succ_double by lia. lia.
  - rewrite Pos2Z.inj_xO, Z.log2_double by lia. lia.
Qed.

Section Bound.
Context (B : Z).
Hypothesis B_pos : 0 < B.
Hypothesis B_small : B < 2 ^ 52.

(** The bound in units of [2 ^ e]. *)
Definition units (e : Z) : Z := B * 2 ^ (- e).

Lemma units_step e : e + 1 <= 0 → units e = 2 * units (e + 1).
Proof.
  intros He. unfold units. replace (- e) with (1 + - (e + 1)) by lia.
  rewrite Z.pow_add_r by lia. lia.
Qed.

(** The value [m * 2 ^ e], more when the record has lost bits, is at most [B]. *)
Definition within (mrs : shr_record) (e : Z) : Prop :=
  0 <= shr_m mrs
  ∧ if shr_r mrs || shr_s mrs then shr_m mrs < units e else shr_m mrs <= units e.

Lemma shr_1_within mrs e : e + 1 <= 0 → within mrs e → within (shr_1 mrs) (e + 1).
Proof.
  intros He. unfold within. rewrite (units_step e He). destruct mrs as [m r s].
  destruct m as [|[p|p|]|p]; cbn; destruct r, s; cbn; lia.
Qed.

Lemma iter_shr_within p mrs e :
  e + Zpos p <= 0 → within mrs e → within (SpecFloat.iter_pos shr_1 p mrs) (e + Zpos p).
Proof.
  revert mrs e. induction p as [p IH|p IH|]; intros mrs e He Hw; cbn [SpecFloat.iter_pos].
  - replace (e + Zpos p~1) with (e + 1 + Zpos p + Zpos p) by lia.
    apply IH; [lia|]. apply IH; [lia|]. apply shr_1_within; [lia|done].
  - replace (e + Zpos p~0) with (e + Zpos p + Zpos p) by lia. apply IH; [lia|]. by apply IH; [lia|].
  - by apply shr_1_within.
Qed.

(** The exponent of a value below the bound is not positive. *)
Lemma fexp_within m e :
  0 <= m <= units e → e <= 0 → fexp prec emax (Zdigits2 m + e) <= 0.
Proof.
  intros [Hm Hle] He. destruct m as [|p|p]; [cbn; unfold fexp, emin, prec, emax; lia| |lia].
  unfold Zdigits2. rewrite digits2_log2.
  apply Z.log2_le_mono in Hle. unfold units in Hle. rewrite Z.log2_mul_pow2 in Hle by lia.
  assert (Z.log2 B < 52) by (apply Z.log2_lt_pow2; lia).
  unfold fexp, emin, prec, emax. lia.
Qed.

Lemma record_of_loc_m m l : shr_m (shr_record_of_loc m l) = m.
Proof. by destruct l as [|[]]. Qed.

Lemma within_le mrs e : within mrs e → 0 <= shr_m mrs <= units e.
Proof. unfold within. destruct (shr_r mrs || shr_s mrs); lia. Qed.

Lemma shr_fexp_within m e l :
  e <= 0 → within (shr_record_of_loc m l) e →
  within (shr_fexp prec emax m e l).1 (shr_fexp prec emax m e l).2
  ∧ (shr_fexp prec emax m e l).2 <= 0.
Proof.
  intros He Hw. pose proof (within_le _ _ Hw) as Hm. rewrite record_of_loc_m in Hm.
  pose proof (fexp_within m e Hm He) as Hf.
  unfold shr_fexp, shr. destruct (fexp prec emax (Zdigits2 m + e) - e) as [|p|p] eqn:E; [done| |done].
  cbn [fst snd]. rewrite <-E. split; [|lia]. rewrite E. apply iter_shr_within; [lia|done].
Qed.

Lemma round_within mrs e :
  within mrs e → 0 <= round_nearest_even (shr_m mrs) (loc_of_shr_record mrs) <= units e.
Proof.
  unfold within. destruct mrs as [m [] []]; cbn -[Z.even Z.add units]; try destruct (Z.even m); lia.
Qed.

(** A float between zero and the bound. *)
Definition at_most (x : pyfloat) : Prop :=
  match x with
  | S754_zero s => s = false
  | S754_finite s m e => s = false ∧ e <= 0 ∧ Zpos m <= units e
  | _ => False
  end.

Lemma binary_round_within m e l :
  e <= 0 → within (shr_record_of_loc m l) e → at_most (binary_round_aux prec emax false m e l).
Proof.
  intros He Hw. unfold binary_round_aux.
  destruct (shr_fexp_within m e l He Hw) as [Hw1 He1].
  destruct (shr_fexp prec emax m e l) as [mrs1 e1]. cbn [fst snd] in *.
  pose proof (round_within _ _ Hw1) as Hr. set (r := round_nearest_even _ _) in *.
  destruct (shr_fexp_within r e1 loc_Exact He1) as [Hw2 He2]; [by split; cbn; lia|].
  destruct (shr_fexp prec emax r e1 loc_Exact) as [mrs2 e2]. cbn [fst snd] in *.
  apply within_le in Hw2. destruct (shr_m mrs2) as [|p|p]; cbn; [done| |lia].
  rewrite (proj2 (Z.leb_le e2 _)) by (unfold prec, emax; lia). cbn. lia.
Qed.

Lemma at_most_finite x : at_most x → is_finite x = true.
Proof. by destruct x. Qed.

(** Truncation. *)
Lemma int_of_at_most x : at_most x → ∃ p, int_of_float x = inr p ∧ 0 <= p <= B.
Proof.
  destruct x as [s|s| |s m e]; try done; cbn.
  - intros _. exists 0. split; [done|lia].
  - intros (-> & He & Hm). eexists. split; [reflexivity|]. unfold trunc_mag, units in *.
    destruct (Z.leb_spec 0 e) as [H0|H0].
    + assert (e = 0) as -> by lia. rewrite Z.pow_0_r in *. change (2 ^ (- 0)) with 1 in Hm. lia.
    + assert (0 < 2 ^ (- e)) by (apply Z.pow_pos_nonneg; lia). split; [apply Z.div_pos; lia|].
      apply Z.div_le_upper_bound; lia.
Qed.
End Bound.

(** ** Quotients and products *)

Lemma ratio_at_most_one p q : (p <= q)%positive → at_most 1 (ratio (Zpos p) (Zpos q)).
Proof.
  intros Hpq. unfold ratio, SFdiv, SFdiv_core_binary. rewrite !Z.add_0_r, Z.sub_0_r.
  set (e := Z.min _ _). assert (e <= 0) as He by (unfold e; lia). clearbody e.
  replace (0 - e) with (- e) by lia.
  assert (match - e with Z0 => Zpos p | Zpos _ => Z.shiftl (Zpos p) (- e) | Zneg _ => 0 end
          = Zpos p * 2 ^ (- e)) as ->.
  { destruct (- e) as [|x|x] eqn:E; [lia|rewrite Z.shiftl_mul_pow2 by lia; done|lia]. }
  pose proof (Z_div_mod (Zpos p * 2 ^ (- e)) (Zpos q) ltac:(lia)) as Hdm.
  destruct (Z.div_eucl _ _) as [m r]. destruct Hdm as [Hdm Hr]. cbn [xorb].
  assert (Hpow : 0 < 2 ^ (- e)) by (apply Z.pow_pos_nonneg; lia).
  apply (binary_round_within 1); [lia|reflexivity|done|].
  unfold within, units. rewrite record_of_loc_m.
  assert (Hle : Zpos p * 2 ^ (- e) <= Zpos q * 2 ^ (- e)) by nia.
  split; [nia|].
  destruct (Z.eqb_spec r 0) as [->|Hr0].
  - assert (new_location (Zpos q) 0 = loc_Exact) as ->
      by (unfold new_location, new_location_even, new_location_odd; by destruct (Z.even _)).
    cbn. nia.
  - destruct (shr_r _ || shr_s _); nia.
Qed.

(** The product of a fraction with an integer that is exact as a float. *)
Lemma product_at_most B m e x :
  0 < B < 2 ^ 52 → float_of_int B = inr (S754_finite false m e) → e <= 0 → Zpos m = B * 2 ^ (- e) →
  at_most 1 x → ∃ y, fmul_int x B = inr y ∧ at_most B y.
Proof.
  intros HB Hf He Hm Hx. unfold fmul_int. rewrite Hf. eexists. split; [reflexivity|].
  destruct x as [s|s| |s mx ex]; try done; cbn in Hx |- *.
  - by rewrite Hx.
  - destruct Hx as (-> & Hex & Hmx). unfold units in Hmx. cbn [xorb].
    apply binary_round_within; [lia|lia|lia|]. split; cbn; [lia|].
    unfold units. replace (- (ex + e)) with (- ex + - e) by lia.
    rewrite Z.pow_add_r, Pos2Z.inj_mul, Hm by lia. nia.
Qed.

(** [int(a / b * 100)] is a percentage, whatever the magnitude of [a] and [b]. *)
Lemma percentage (a b : Z) :
  0 < a <= b → ∃ q x p, int_truediv a b = inr q ∧ fmul_int q 100 = inr x ∧ int_of_float x = inr p
    ∧ 0 <= p <= 100.
Proof.
  intros Hab. destruct a as [|a|a], b as [|b|b]; try lia.
  assert (H1 : at_most 1 (ratio (Zpos a) (Zpos b))) by (apply ratio_at_most_one; lia).
  exists (ratio (Zpos a) (Zpos b)).
  destruct (product_at_most 100 7036874417766400 (-46) (ratio (Zpos a) (Zpos b)))
    as (x & Hx & Hxm); [lia|by vm_compute|lia|reflexivity|done|].
  destruct (int_of_at_most 100 ltac:(lia) x Hxm) as (p & Hp & Hr).
  exists x, p. split; [|done]. change (int_truediv (Zpos a) (Zpos b)) with
    (let x := ratio (Zpos a) (Zpos b) in if is_finite x then inr x else inl OverflowErr).
  cbv zeta. by rewrite (at_most_finite 1 _ H1).
Qed.

(** ** Small integers *)

Lemma digits_shift k m : Zpos (digits2_pos (Pos.iter xO m k)) = Zpos (digits2_pos m) + Zpos k.
Proof.
  induction k as [|k IH] using Pos.peano_ind.
  - change (Zpos (Pos.succ (digits2_pos m)) = Zpos (digits2_pos m) + 1). lia.
  - rewrite Pos.iter_succ. change (Zpos (Pos.succ (digits2_pos (Pos.iter xO m k)))
      = Zpos (digits2_pos m) + Zpos (Pos.succ k)). lia.
Qed.

(** A mantissa of 53 digits is not rounded. *)
Lemma round_exact m e :
  Zpos (digits2_pos m) = 53 → -1074 <= e <= 971 →
  binary_round_aux prec emax false (Zpos m) e loc_Exact = S754_finite false m e.
Proof.
  intros Hd He.
  assert (shr_fexp prec emax (Zpos m) e loc_Exact = (Build_shr_record (Zpos m) false false, e)) as E.
  { unfold shr_fexp, shr. cbn [Zdigits2]. rewrite Hd. unfold fexp, emin, prec, emax.
    by replace (Z.max (53 + e - 53) (3 - 1024 - 53) - e) with 0 by lia. }
  unfold binary_round_aux. rewrite E. cbn [shr_m loc_of_shr_record round_nearest_even]. rewrite E.
  cbn [shr_m]. by rewrite (proj2 (Z.leb_le e _)) by (unfold prec, emax; lia).
Qed.

(** A positive integer below [2 ^ 53] is a float, and not zero. *)
Lemma float_of_small_int n :
  0 < n < 2 ^ 53 → ∃ m e, float_of_int n = inr (S754_finite false m e).
Proof.
  intros Hn. destruct n as [|m|m]; try lia. unfold float_of_int, binary_normalize, binary_round.
  assert (Zpos (digits2_pos m) <= 53) as Hd.
  { rewrite digits2_log2. assert (Z.log2 (Zpos m) < 53) by (apply Z.log2_lt_pow2; lia). lia. }
  assert (fexp prec emax (Zpos (digits2_pos m) + 0) = Zpos (digits2_pos m) - 53) as ->
    by (unfold fexp, emin, prec, emax; lia).
  unfold shl_align. rewrite Z.sub_0_r. destruct (_ - 53) as [|k|k] eqn:E; [|lia|].
  - rewrite round_exact by lia. by eexists _, _.
  - rewrite round_exact; [by eexists _, _|rewrite digits_shift; lia|lia].
Qed.
