(* ===== verification/Json.v ===== *)
(** JSON values as Python objects ([None], [bool], [int], [float], [str],
    [list], [dict]) and what the source does with them: [dict.get],
    [key in d], item assignment, [int(x)], [float(x)], [str(x)], [bool(x)]
    and [json.dumps]. A [dict] is its items in insertion order. *)

From S2P Require Import Prelude PyStr PyFloat.

Inductive json :=
| JNull
| JBool (b : bool)
| JInt (n : Z)
| JFloat (x : pyfloat)
| JStr (s : string)
| JList (l : list json)
| JDict (d : list (string * json)).

Abbreviation dict := (list (string * json)) (only parsing).

(** ** Dictionaries *)

Fixpoint dict_find (key : string) (d : dict) : option json :=
  match d with
  | [] => None
  | (k, v) :: d' => if String.eqb k key then Some v else dict_find key d'
  end.

(** [d.get(key, default)] *)
Definition dict_get (key : string) (default : json) (d : dict) : json :=
  match dict_find key d with Some v => v | None => default end.

(** [key in d] *)
Definition dict_mem (key : string) (d : dict) : bool :=
  match dict_find key d with Some _ => true | None => false end.

(** [d[key] = v] *)
Fixpoint dict_set (key : string) (v : json) (d : dict) : dict :=
  match d with
  | [] => [(key, v)]
  | (k, w) :: d' => if String.eqb k key then (k, v) :: d' else (k, w) :: dict_set key v d'
  end.

(** ** Conversions; [TypeErr] is [TypeError] *)

Inductive conv_error := TypeErr | NumErr (e : num_error).

Definition conv_result (A : Type) : Type := conv_error + A.

Definition of_num {A} (r : num_result A) : conv_result A :=
  match r with inr x => inr x | inl e => inl (NumErr e) end.

Definition of_text {A} (r : option A) : conv_result A :=
  match r with Some x => inr x | None => inl (NumErr ValueErr) end.

(** [int(x)] *)
Definition py_int (v : json) : conv_result Z :=
  match v with
  | JBool b => inr (if b then 1 else 0)
  | JInt n => inr n
  | JFloat x => of_num (int_of_float x)
  | JStr s => of_text (int_of_str 10 s)
  | _ => inl TypeErr
  end.

(** [float(x)] *)
Definition py_float (v : json) : conv_result pyfloat :=
  match v with
  | JBool b => of_num (float_of_int (if b then 1 else 0))
  | JInt n => of_num (float_of_int n)
  | JFloat x => inr x
  | JStr s => of_text (float_of_str s)
  | _ => inl TypeErr
  end.

(** [bool(x)] *)
Definition py_bool (v : json) : bool :=
  match v with
  | JNull => false
  | JBool b => b
  | JInt n => negb (n =? 0)
  | JFloat x => negb (feqb x fzero)
  | JStr s => negb (String.eqb s EmptyString)
  | JList l => match l with [] => false | _ => true end
  | JDict d => match d with [] => false | _ => true end
  end.

Fixpoint intercalate (sep : string) (l : list string) : string :=
  match l with
  | [] => EmptyString
  | [x] => x
  | x :: l' => x +:+ sep +:+ intercalate sep l'
  end.

(** [repr(x)] and [str(x)] *)
Fixpoint py_repr (v : json) : string :=
  match v with
  | JNull => "None"
  | JBool b => if b then "True" else "False"
  | JInt n => str_of_int n
  | JFloat x => repr_float x
  | JStr s => repr_str s
  | JList l => "[" +:+ intercalate ", " (map py_repr l) +:+ "]"
  | JDict d =>
      "{" +:+ intercalate ", " (map (λ '(k, w), repr_str k +:+ ": " +:+ py_repr w) d) +:+ "}"
  end.

Definition py_str (v : json) : string :=
  match v with JStr s => s | _ => py_repr v end.

(** ** [json.dumps(x)] with the default separators and [ensure_ascii] *)

Definition dumps_char (c : ascii) : string :=
  let n := code c in
  if Ascii.eqb c dquote || Ascii.eqb c backslash then esc (String c EmptyString)
  else if (n =? 10)%N then esc "n"
  else if (n =? 13)%N then esc "r"
  else if (n =? 9)%N then esc "t"
  else if (n =? 12)%N then esc "f"
  else if (n =? 8)%N then esc "b"
  else if ((32 <=? n) && (n <=? 126))%N then String c EmptyString
  else esc ("u00" +:+ hex2 c).

Definition dumps_str (s : string) : string :=
  String dquote (concat_map_str dumps_char s +:+ String dquote EmptyString).

Definition dumps_float (x : pyfloat) : string :=
  match x with
  | S754_nan => "NaN"
  | S754_infinity s => if s then "-Infinity" else "Infinity"
  | _ => repr_float x
  end.

Fixpoint dumps (v : json) : string :=
  match v with
  | JNull => "null"
  | JBool b => if b then "true" else "false"
  | JInt n => str_of_int n
  | JFloat x => dumps_float x
  | JStr s => dumps_str s
  | JList l => "[" +:+ intercalate ", " (map dumps l) +:+ "]"
  | JDict d =>
      "{" +:+ intercalate ", " (map (λ '(k, w), dumps_str k +:+ ": " +:+ dumps w) d) +:+ "}"
  end.

(** ** Lemmas *)

Lemma dict_find_set_eq key v d : dict_find key (dict_set key v d) = Some v.
Proof.
  induction d as [|[k w] d IH]; simpl.
  - by rewrite String.eqb_refl.
  - destruct (String.eqb k key) eqn:E; simpl; rewrite E; [done | exact IH].
Qed.

Lemma dict_find_set_ne key key' v d :
  key ≠ key' → dict_find key' (dict_set key v d) = dict_find key' d.
Proof.
  intros Hne. induction d as [|[k w] d IH]; simpl.
  - destruct (String.eqb key key') eqn:E; [|done]. by apply String.eqb_eq in E.
  - destruct (String.eqb k key) eqn:E; simpl; [|by rewrite IH].
    apply String.eqb_eq in E as ->.
    destruct (String.eqb key key') eqn:E'; [|done]. by apply String.eqb_eq in E'.
Qed.

Lemma dict_get_set_eq key v dflt d : dict_get key dflt (dict_set key v d) = v.
Proof. unfold dict_get. by rewrite dict_find_set_eq. Qed.

Lemma dict_get_set_ne key key' v dflt d :
  key ≠ key' → dict_get key' dflt (dict_set key v d) = dict_get key' dflt d.
Proof. intros Hne. unfold dict_get. by rewrite dict_find_set_ne. Qed.
