(* ===== verification/Domain.v ===== *)
(** The domain layer: the enumerations of [domain/enums.py] with their string
    values, the exceptions of [domain/errors.py] (with those of Python and of
    the libraries that cross module boundaries in the source), and the
    lifecycle table of [domain/state_machine.py]. *)

From S2P Require Import Prelude PyStr.

(** * Enumerations *)

Module JobStatus.
Inductive JobStatus :=
| PENDING | QUEUED | RUNNING | RETRYING | SUCCEEDED | FAILED
| CANCELLING | CANCELLED | EXPIRED.

Definition JobStatus_value (s : JobStatus) : string :=
  match s with
  | PENDING => "pending"
  | QUEUED => "queued"
  | RUNNING => "running"
  | RETRYING => "retrying"
  | SUCCEEDED => "succeeded"
  | FAILED => "failed"
  | CANCELLING => "cancelling"
  | CANCELLED => "cancelled"
  | EXPIRED => "expired"
  end.

#[global] Instance JobStatus_eq_dec : EqDecision JobStatus.
Proof. solve_decision. Defined.

Definition all : list JobStatus :=
  [PENDING; QUEUED; RUNNING; RETRYING; SUCCEEDED; FAILED; CANCELLING; CANCELLED; EXPIRED].
End JobStatus.
Abbreviation JobStatus := JobStatus.JobStatus.
Abbreviation JobStatus_value := JobStatus.JobStatus_value.

Module JobPriority.
Inductive JobPriority := LOW | NORMAL | HIGH.

Definition JobPriority_value (p : JobPriority) : string :=
  match p with LOW => "low" | NORMAL => "normal" | HIGH => "high" end.

#[global] Instance JobPriority_eq_dec : EqDecision JobPriority.
Proof. solve_decision. Defined.
End JobPriority.
Abbreviation JobPriority := JobPriority.JobPriority.
Abbreviation JobPriority_value := JobPriority.JobPriority_value.

Module JobType.
Inductive JobType := SLEEP | REPORT | FLAKY | ALWAYS_FAIL | LLM_SUMMARY.

Definition JobType_value (t : JobType) : string :=
  match t with
  | SLEEP => "sleep"
  | REPORT => "report"
  | FLAKY => "flaky"
  | ALWAYS_FAIL => "always_fail"
  | LLM_SUMMARY => "llm_summary"
  end.

(** What an f-string writes for a member (Python 3.12: the name, not the value). *)
Definition JobType_str (t : JobType) : string :=
  match t with
  | SLEEP => "JobType.SLEEP"
  | REPORT => "JobType.REPORT"
  | FLAKY => "JobType.FLAKY"
  | ALWAYS_FAIL => "JobType.ALWAYS_FAIL"
  | LLM_SUMMARY => "JobType.LLM_SUMMARY"
  end.

#[global] Instance JobType_eq_dec : EqDecision JobType.
Proof. solve_decision. Defined.
End JobType.
Abbreviation JobType := JobType.JobType.
Abbreviation JobType_value := JobType.JobType_value.
Abbreviation JobType_str := JobType.JobType_str.

Module JobEventType.
Inductive JobEventType :=
| SUBMITTED | QUEUED | STARTED | SUCCEEDED | FAILED | RETRY_SCHEDULED
| CANCEL_REQUESTED | CANCELLED | REQUEUED | EXPIRED.

Definition JobEventType_value (e : JobEventType) : string :=
  match e with
  | SUBMITTED => "submitted"
  | QUEUED => "queued"
  | STARTED => "started"
  | SUCCEEDED => "succeeded"
  | FAILED => "failed"
  | RETRY_SCHEDULED => "retry_scheduled"
  | CANCEL_REQUESTED => "cancel_requested"
  | CANCELLED => "cancelled"
  | REQUEUED => "requeued"
  | EXPIRED => "expired"
  end.

#[global] Instance JobEventType_eq_dec : EqDecision JobEventType.
Proof. solve_decision. Defined.
End JobEventType.
Abbreviation JobEventType := JobEventType.JobEventType.
Abbreviation JobEventType_value := JobEventType.JobEventType_value.

Module NotificationChannel.
Inductive NotificationChannel := EMAIL | WEBHOOK | LOG.

Definition NotificationChannel_value (c : NotificationChannel) : string :=
  match c with EMAIL => "email" | WEBHOOK => "webhook" | LOG => "log" end.

#[global] Instance NotificationChannel_eq_dec : EqDecision NotificationChannel.
Proof. solve_decision. Defined.
End NotificationChannel.
Abbreviation NotificationChannel := NotificationChannel.NotificationChannel.

Module NotificationStatus.
Inductive NotificationStatus := PENDING | SENT | FAILED.

Definition NotificationStatus_value (s : NotificationStatus) : string :=
  match s with PENDING => "pending" | SENT => "sent" | FAILED => "failed" end.

#[global] Instance NotificationStatus_eq_dec : EqDecision NotificationStatus.
Proof. solve_decision. Defined.
End NotificationStatus.
Abbreviation NotificationStatus := NotificationStatus.NotificationStatus.

Module OutboxStatus.
Inductive OutboxStatus := PENDING | PUBLISHED.

Definition OutboxStatus_value (s : OutboxStatus) : string :=
  match s with PENDING => "pending" | PUBLISHED => "published" end.

#[global] Instance OutboxStatus_eq_dec : EqDecision OutboxStatus.
Proof. solve_decision. Defined.
End OutboxStatus.
Abbreviation OutboxStatus := OutboxStatus.OutboxStatus.

(** * Lifecycle table *)

Module StateMachine.
Import JobStatus.

Definition TERMINAL_STATUSES : list JobStatus := [SUCCEEDED; FAILED; CANCELLED; EXPIRED].

Definition VALID_TRANSITIONS (s : JobStatus) : list JobStatus :=
  match s with
  | PENDING => [QUEUED; CANCELLED; EXPIRED]
  | QUEUED => [RUNNING; CANCELLED; EXPIRED]
  | RUNNING => [SUCCEEDED; FAILED; RETRYING; CANCELLING; QUEUED]
  | RETRYING => [QUEUED; CANCELLED]
  | CANCELLING => [CANCELLED; SUCCEEDED; FAILED]
  | SUCCEEDED => []
  | FAILED => []
  | CANCELLED => []
  | EXPIRED => []
  end.

Definition can_transition (source target : JobStatus) : bool :=
  bool_decide (target ∈ VALID_TRANSITIONS source).

Definition is_terminal (status : JobStatus) : bool :=
  bool_decide (status ∈ TERMINAL_STATUSES).

Lemma is_terminal_no_transition s : is_terminal s = true ↔ ∀ t, can_transition s t = false.
Proof.
  split.
  - destruct s; try discriminate; intros _ []; reflexivity.
  - destruct s; intros H; try reflexivity;
      (discriminate (H QUEUED) || discriminate (H CANCELLED)).
Qed.

(** The statuses that can follow one another along the table. *)
Definition paths (s t : JobStatus) : Prop :=
  rtc (λ a b, can_transition a b = true) s t.

Lemma terminal_path s t : is_terminal s = true → paths s t → t = s.
Proof.
  intros Hs [->|(b & Hb & _)]%rtc_inv; [done|].
  by rewrite (proj1 (is_terminal_no_transition s) Hs) in Hb.
Qed.
End StateMachine.

(** * Exceptions *)

(** The exceptions that the modelled code raises or catches.  [HTTPError] is
    [httpx.HTTPError] with its text, [HTTPException] is FastAPI's; [OtherError] is any exception the source
    names nowhere. *)
Inductive exn :=
| RetryableError (code message : string)
| NonRetryableError (code message : string)
| JobCancelledError
| UnknownJobTypeError (message : string)
| PayloadTooLargeError (message : string)
| TooManyActiveJobsError (limit : Z)
| InvalidCursorError (message : string)
| ValueError (message : string)
| TypeError (message : string)
| KeyError (key : string)
| OverflowError (message : string)
| ZeroDivisionError (message : string)
| IntegrityError (message : string)
| DataError (message : string)
| OperationalError (message : string)
| RedisError (message : string)
| HTTPError (message : string)
| HTTPException (status_code : Z) (detail : string)
| OtherError (message : string).

(** [isinstance(e, ValueError)] *)
Definition is_ValueError (e : exn) : bool :=
  match e with
  | ValueError _ | UnknownJobTypeError _ | PayloadTooLargeError _ | InvalidCursorError _ => true
  | _ => false
  end.

(** [isinstance(e, SQLAlchemyError)] *)
Definition is_SQLAlchemyError (e : exn) : bool :=
  match e with IntegrityError _ | DataError _ | OperationalError _ => true | _ => false end.

(** [str(e)] *)
Definition exn_str (e : exn) : string :=
  match e with
  | RetryableError _ m | NonRetryableError _ m | UnknownJobTypeError m
  | PayloadTooLargeError m | InvalidCursorError m | ValueError m | TypeError m
  | OverflowError m | ZeroDivisionError m | IntegrityError m | DataError m | OperationalError m
  | RedisError m | HTTPError m | OtherError m => m
  | HTTPException status_code detail => str_of_int status_code +:+ ": " +:+ detail
  | TooManyActiveJobsError limit =>
      "too many active jobs for this user, the limit is " +:+ str_of_int limit
  | KeyError k => repr_str k
  | JobCancelledError => EmptyString
  end.

(** Results of fallible code. *)
Inductive res (A : Type) := Ok (a : A) | Err (e : exn).
Arguments Ok {A} a.
Arguments Err {A} e.

#[export] Instance res_ret : MRet res := λ A a, Ok a.
#[export] Instance res_bind : MBind res := λ A B f r,
  match r with Ok a => f a | Err e => Err e end.

Definition is_ok {A} (r : res A) : bool := match r with Ok _ => true | Err _ => false end.
