(* ===== verification/Uuid.v ===== *)
(** UUIDs as 128-bit numbers: [str(u)], [uuid.UUID(text)], and the round trip
    between them.  The queue carries job ids as text, and the pagination cursor
    and the deduplication key embed them. *)

From S2P Require Import Prelude PyStr.

Abbreviation uuid := N (only parsing).

Definition uuid_bound : N := 2 ^ 128.

(** [str(u)]: 8-4-4-4-12 lower-case hexadecimal digits. *)
Definition uuid_str (u : uuid) : string :=
  hex_digits 8 (u / 2 ^ 96) +:+ "-" +:+
  hex_digits 4 (u / 2 ^ 80) +:+ "-" +:+
  hex_digits 4 (u / 2 ^ 64) +:+ "-" +:+
  hex_digits 4 (u / 2 ^ 48) +:+ "-" +:+
  hex_digits 12 u.

Definition is_brace (c : ascii) : bool := Ascii.eqb c "{" || Ascii.eqb c "}".

(** [uuid.UUID(text)]; [None] is [ValueError].  The constructor removes the
    ['urn:'] and ['uuid:'] markers, strips braces, removes hyphens, and wants 32
    characters that [int(_, 16)] accepts and that denote 128 bits. *)
Definition uuid_of_str (text : string) : option uuid :=
  let hex := remove_char "-" (strip_by is_brace (remove_str "uuid:" (remove_str "urn:" text))) in
  if Nat.eqb (String.length hex) 32
  then match int_of_str 16 hex with
       | Some n => if (0 <=? n) && (n <? 2 ^ 128) then Some (Z.to_N n) else None
       | None => None
       end
  else None.

(** ** Hexadecimal digits read back *)

Definition is_hex (c : ascii) : bool :=
  match digit_value c with
  | Some d => (d <? 16) && negb (Ascii.eqb c "_") && negb (is_space c) && negb (is_brace c)
      && negb (Ascii.eqb c "-") && negb (Ascii.eqb c "+") && negb (Ascii.eqb c "u")
      && negb (Ascii.eqb (to_lower c) "x")
  | None => false
  end.

Lemma forall_below (k : nat) (P : N → bool) :
  forallb (λ i, P (N.of_nat i)) (List.seq 0 k) = true →
  ∀ n, (n < N.of_nat k)%N → P n = true.
Proof.
  intros H n Hn. rewrite List.forallb_forall in H.
  rewrite <- (N2Nat.id n). apply H. apply List.in_seq. lia.
Qed.

Lemma hex_digit_value n : (n < 16)%N → digit_value (hex_digit n) = Some (Z.of_N n).
Proof.
  intros Hn.
  assert (match digit_value (hex_digit n) with Some d => d =? Z.of_N n | None => false end = true)
    as H.
  { apply (forall_below 16 (λ n, match digit_value (hex_digit n) with
                                 | Some d => d =? Z.of_N n | None => false end));
      [by vm_compute | lia]. }
  destruct (digit_value (hex_digit n)) as [d|]; [|done]. apply Z.eqb_eq in H. by rewrite H.
Qed.

Lemma hex_digit_is_hex n : (n < 16)%N → is_hex (hex_digit n) = true.
Proof. intros Hn. apply (forall_below 16 (λ n, is_hex (hex_digit n))); [by vm_compute | lia]. Qed.

Lemma hex_digits_is_hex k n : all_str is_hex (hex_digits k n) = true.
Proof.
  revert n. induction k as [|k IH]; intros n; [done|].
  cbn [hex_digits]. rewrite all_str_app, IH. cbn [all_str].
  rewrite hex_digit_is_hex; [done|]. apply N.mod_lt. lia.
Qed.

Lemma parse_digits_app us acc a b n :
  all_str is_hex a = true → a ≠ EmptyString →
  parse_digits 16 us acc a = Some n → parse_digits 16 us acc (a +:+ b) = parse_digits 16 false n b.
Proof.
  revert us acc. induction a as [|c a IH]; intros us acc; [done|].
  cbn [all_str]. intros [Hc Ha]%andb_prop _. autorewrite with orch_str. cbn [parse_digits].
  unfold is_hex in Hc. destruct (digit_value c) as [d|] eqn:Hd; [|done].
  repeat (apply andb_prop in Hc as [Hc ?]).
  destruct (Ascii.eqb c "_"); [done|]. rewrite Hc.
  destruct a as [|c' a]; [|apply IH; done].
  cbn [parse_digits]. intros [= <-]. done.
Qed.

(** Reading [k] digits after [acc] shifts [acc] by [k] digits. *)
Lemma parse_hex_digits k n us acc :
  0 ≤ acc → (0 < k)%nat →
  parse_digits 16 us acc (hex_digits k n) = Some (acc * 16 ^ Z.of_nat k + Z.of_N n mod 16 ^ Z.of_nat k).
Proof.
  revert n us acc. induction k as [|k IH]; intros n us acc Hacc Hk; [lia|].
  assert (Hd : (n mod 16 < 16)%N) by (apply N.mod_lt; lia).
  assert (Hlast : ∀ us' acc', parse_digits 16 us' acc' (String (hex_digit (n mod 16)) EmptyString)
                     = Some (acc' * 16 + Z.of_N (n mod 16))).
  { intros us' acc'. cbn [parse_digits]. rewrite (hex_digit_value _ Hd).
    pose proof (hex_digit_is_hex _ Hd) as Hh. unfold is_hex in Hh.
    rewrite (hex_digit_value _ Hd) in Hh.
    repeat (apply andb_prop in Hh as [Hh ?]).
    destruct (Ascii.eqb (hex_digit (n mod 16)) "_"); [done|]. by rewrite Hh. }
  replace (Z.of_nat (S k)) with (Z.of_nat k + 1) by lia.
  assert (Hsplit : Z.of_N n mod 16 ^ (Z.of_nat k + 1) =
                   (Z.of_N (n / 16) mod 16 ^ Z.of_nat k) * 16 + Z.of_N (n mod 16)).
  { rewrite Z.pow_add_r, Z.pow_1_r, (Z.mul_comm (16 ^ _)) by lia.
    rewrite Z.rem_mul_r by lia. rewrite N2Z.inj_div, N2Z.inj_mod. lia. }
  cbn [hex_digits]. destruct k as [|k].
  - cbn [hex_digits]. rewrite str_app_nil_l, Hlast, Hsplit. f_equal.
    change (16 ^ Z.of_nat 0) with 1. rewrite Z.mod_1_r. change (16 ^ (Z.of_nat 0 + 1)) with 16. lia.
  - erewrite parse_digits_app; [| apply hex_digits_is_hex | | apply IH; lia].
    + rewrite Hlast, Hsplit. f_equal. rewrite Z.pow_add_r, Z.pow_1_r by lia. ring.
    + cbn [hex_digits]. intros H%(f_equal String.length).
      rewrite str_length_app in H. simpl in H. lia.
Qed.

(** ** The round trip *)

Definition uuid_char (c : ascii) : bool := is_hex c || Ascii.eqb c "-".

Lemma uuid_str_chars u : all_str uuid_char (uuid_str u) = true.
Proof.
  assert (Hh : ∀ k n, all_str uuid_char (hex_digits k n) = true).
  { intros k n. apply (all_str_impl is_hex); [|apply hex_digits_is_hex].
    intros c Hc. unfold uuid_char. by rewrite Hc. }
  unfold uuid_str. rewrite !all_str_app, !Hh. done.
Qed.

Lemma uuid_char_not (p : ascii → bool) s :
  forallb (λ i, negb (uuid_char (chr (N.of_nat i)) && p (chr (N.of_nat i)))) (List.seq 0 256) = true →
  all_str uuid_char s = true → all_str (λ c, negb (p c)) s = true.
Proof.
  intros H. apply all_str_impl. intros c Hc.
  pose proof (forall_below 256 (λ n, negb (uuid_char (chr n) && p (chr n))) H _ (code_lt c)) as Hn.
  cbv beta in Hn. rewrite chr_code, Hc in Hn. exact Hn.
Qed.

Lemma hex_not (p : ascii → bool) s :
  forallb (λ i, negb (is_hex (chr (N.of_nat i)) && p (chr (N.of_nat i)))) (List.seq 0 256) = true →
  all_str is_hex s = true → all_str (λ c, negb (p c)) s = true.
Proof.
  intros H. apply all_str_impl. intros c Hc.
  pose proof (forall_below 256 (λ n, negb (is_hex (chr n) && p (chr n))) H _ (code_lt c)) as Hn.
  cbv beta in Hn. rewrite chr_code, Hc in Hn. exact Hn.
Qed.

(** The hexadecimal text of a UUID without the hyphens. *)
Definition uuid_hex (u : uuid) : string :=
  hex_digits 8 (u / 2 ^ 96) +:+ hex_digits 4 (u / 2 ^ 80) +:+ hex_digits 4 (u / 2 ^ 64) +:+
  hex_digits 4 (u / 2 ^ 48) +:+ hex_digits 12 u.

Lemma remove_hyphens u : remove_char "-" (uuid_str u) = uuid_hex u.
Proof.
  assert (Hh : ∀ k n, remove_char "-" (hex_digits k n) = hex_digits k n).
  { intros k n. apply remove_char_id.
    apply (hex_not (λ c, Ascii.eqb "-" c)); [by vm_compute | apply hex_digits_is_hex]. }
  unfold uuid_str, uuid_hex. rewrite !remove_char_app, !Hh. done.
Qed.

Lemma uuid_hex_is_hex u : all_str is_hex (uuid_hex u) = true.
Proof. unfold uuid_hex. by rewrite !all_str_app, !hex_digits_is_hex. Qed.

Lemma uuid_hex_length u : String.length (uuid_hex u) = 32%nat.
Proof. unfold uuid_hex. by rewrite !str_length_app, !hex_digits_length. Qed.

Lemma uuid_hex_eq u : (u < uuid_bound)%N → uuid_hex u = hex_digits 32 u.
Proof.
  intros _.
  assert (Happ : ∀ j k n, hex_digits (k + j) n = hex_digits k (n / 16 ^ N.of_nat j) +:+ hex_digits j n).
  { induction j as [|j IH]; intros k n.
    - rewrite Nat.add_0_r. cbn [hex_digits]. change (16 ^ N.of_nat 0)%N with 1%N.
      by rewrite N.div_1_r, str_app_nil_r.
    - rewrite Nat.add_succ_r. cbn [hex_digits]. rewrite IH, str_app_assoc.
      rewrite N.Div0.div_div. repeat f_equal.
      rewrite Nat2N.inj_succ, N.pow_succ_r'. done. }
  unfold uuid_hex.
  replace 32%nat with (8 + (4 + (4 + (4 + 12))))%nat by lia.
  rewrite !Happ. done.
Qed.

(** On hexadecimal digits [int(_, 16)] only reads digits: no sign, prefix or
    blank is recognised. *)
Lemma int_of_hex s : all_str is_hex s = true → int_of_str 16 s = parse_digits 16 true 0 s.
Proof.
  intros Hs. unfold int_of_str.
  assert (strip s = s) as -> by (apply strip_by_id, hex_not; [by vm_compute | done]).
  assert (Hp : parse_unsigned 16 s = parse_digits 16 true 0 s).
  { destruct s as [|c [|d s]]; cbn [all_str] in Hs.
    - done.
    - destruct c as [[] [] [] [] [] [] [] []]; reflexivity.
    - apply andb_prop in Hs as [_ [Hd _]%andb_prop].
      destruct c as [[] [] [] [] [] [] [] []]; try reflexivity. cbn [parse_unsigned].
      unfold is_hex in Hd. destruct (digit_value d); [|done].
      apply andb_prop in Hd as [_ ->%negb_true_iff]. done. }
  assert (split_sign s = (false, s)) as ->.
  { destruct s as [|c s]; [done|]. cbn [all_str] in Hs. apply andb_prop in Hs as [Hc _].
    destruct c as [[] [] [] [] [] [] [] []]; try discriminate Hc; reflexivity. }
  unfold decimal_too_long. cbn [Z.eqb Pos.eqb andb]. rewrite Hp.
  by destruct (parse_digits _ _ _ _).
Qed.

(** [uuid.UUID(str(u)) == u]. *)
Lemma uuid_of_str_str u : (u < uuid_bound)%N → uuid_of_str (uuid_str u) = Some u.
Proof.
  intros Hu. unfold uuid_of_str.
  assert (Hnot : ∀ p,
    forallb (λ i, negb (uuid_char (chr (N.of_nat i)) && p (chr (N.of_nat i)))) (List.seq 0 256) = true →
    all_str (λ c, negb (p c)) (uuid_str u) = true)
    by (intros p Hp; apply uuid_char_not; [exact Hp | apply uuid_str_chars]).
  rewrite (remove_str_id "u" "rn:"), (remove_str_id "u" "uid:"), strip_by_id
    by (apply Hnot; by vm_compute).
  rewrite remove_hyphens, uuid_hex_length, int_of_hex by apply uuid_hex_is_hex.
  rewrite (uuid_hex_eq u Hu), parse_hex_digits by lia. cbn [Nat.eqb].
  change (16 ^ Z.of_nat 32) with (2 ^ 128). unfold uuid_bound in Hu.
  rewrite Z.mod_small by lia.
  destruct ((0 <=? 0 * 2 ^ 128 + Z.of_N u) && (0 * 2 ^ 128 + Z.of_N u <? 2 ^ 128)) eqn:E; [|lia].
  f_equal. lia.
Qed.

Lemma uuid_str_inj u v : (u < uuid_bound)%N → (v < uuid_bound)%N → uuid_str u = uuid_str v → u = v.
Proof.
  intros Hu Hv H. apply (f_equal uuid_of_str) in H.
  rewrite !uuid_of_str_str in H by done. congruence.
Qed.

Lemma uuid_str_length u : String.length (uuid_str u) = 36%nat.
Proof. unfold uuid_str. by rewrite !str_length_app, !hex_digits_length. Qed.
