(* ===== verification/DateTime.v ===== *)
(** Timestamps as text: [datetime.isoformat()] of an aware UTC timestamp given
    in microseconds since the epoch, and [datetime.fromisoformat], its inverse. *)

From S2P Require Import Prelude PyStr PyFloat.

Definition us_per_day : Z := 86400 * us_per_second.

(** The proleptic Gregorian date of a day number (0 is 1970-01-01): years of
    400-year eras counted from March, so that the leap day comes last. *)
Definition civil_of_days (days : Z) : Z * Z * Z :=
  let z := days + 719468 in
  let era := z / 146097 in
  let doe := z mod 146097 in
  let yoe := (doe - doe / 1460 + doe / 36524 - doe / 146096) / 365 in
  let doy := doe - (365 * yoe + yoe / 4 - yoe / 100) in
  let mp := (5 * doy + 2) / 153 in
  let d := doy - (153 * mp + 2) / 5 + 1 in
  let m := if mp <? 10 then mp + 3 else mp - 9 in
  (yoe + era * 400 + (if m <=? 2 then 1 else 0), m, d).

(** The inverse: the day number of a date. *)
Definition days_of_civil (y m d : Z) : Z :=
  let y := if m <=? 2 then y - 1 else y in
  let era := y / 400 in
  let yoe := y mod 400 in
  let doy := (153 * (if 2 <? m then m - 3 else m + 9) + 2) / 5 + d - 1 in
  let doe := yoe * 365 + yoe / 4 - yoe / 100 + doy in
  era * 146097 + doe - 719468.

(** [f"{n:0kd}"] of a non-negative number below [10 ^ k]. *)
Fixpoint dec_digits (k : nat) (n : Z) : string :=
  match k with
  | O => EmptyString
  | S k' => dec_digits k' (n / 10) +:+ String (chr (Z.to_N (48 + n mod 10))) EmptyString
  end.

Definition isoformat (t : Z) : string :=
  let days := t / us_per_day in
  let us_of_day := t mod us_per_day in
  let '(y, m, d) := civil_of_days days in
  let sec := us_of_day / us_per_second in
  let us := us_of_day mod us_per_second in
  dec_digits 4 y +:+ "-" +:+ dec_digits 2 m +:+ "-" +:+ dec_digits 2 d +:+ "T" +:+
  dec_digits 2 (sec / 3600) +:+ ":" +:+ dec_digits 2 (sec / 60 mod 60) +:+ ":" +:+
  dec_digits 2 (sec mod 60) +:+
  (if us =? 0 then EmptyString else "." +:+ dec_digits 6 us) +:+ "+00:00".

Example isoformat_epoch : isoformat 1749340800000001 = "2025-06-08T00:00:00.000001+00:00".
Proof. reflexivity. Qed.

(** ** Reading a timestamp back *)

(** [k] decimal digits, and what follows them. *)
Fixpoint read_dec (k : nat) (acc : Z) (s : string) : option (Z * string) :=
  match k with
  | O => Some (acc, s)
  | S k' =>
      match s with
      | String c s' =>
          if is_digit c then read_dec k' (acc * 10 + (Z.of_N (code c) - 48)) s' else None
      | EmptyString => None
      end
  end.

(** The fields of [YYYY-MM-DDTHH:MM:SS[.ffffff]+00:00] as an instant. *)
Definition read_isoformat (s : string) : option Z :=
  '(y, s) ← read_dec 4 0 s; s ← drop_prefix "-" s;
  '(m, s) ← read_dec 2 0 s; s ← drop_prefix "-" s;
  '(d, s) ← read_dec 2 0 s; s ← drop_prefix "T" s;
  '(hh, s) ← read_dec 2 0 s; s ← drop_prefix ":" s;
  '(mm, s) ← read_dec 2 0 s; s ← drop_prefix ":" s;
  '(ss, s) ← read_dec 2 0 s;
  '(us, s) ← match drop_prefix "." s with Some s => read_dec 6 0 s | None => Some (0, s) end;
  Some (days_of_civil y m d * us_per_day + (hh * 3600 + mm * 60 + ss) * us_per_second + us).

(** [datetime.min] and [datetime.max], UTC. *)
Definition min_datetime : Z := -719162 * us_per_day.
Definition max_datetime : Z := 2932897 * us_per_day - 1.
Definition valid_datetime (t : Z) : bool := (min_datetime <=? t) && (t <=? max_datetime).

(** [datetime.fromisoformat(s)]: a text that [isoformat] writes denotes the
    instant it was written for.  The method reads many other texts (other
    offsets, week dates, compact forms, naive timestamps): what it makes of
    those is the parameter [other]: the instant the text denotes, with its offset
    taken off (which may fall before the year 1 or after the year 9999), or
    [None] for [ValueError]. *)
Definition fromisoformat (other : string → option Z) (s : string) : option Z :=
  match read_isoformat s with
  | Some t => if valid_datetime t && String.eqb (isoformat t) s then Some t else other s
  | None => other s
  end.

Example read_isoformat_epoch :
  read_isoformat "2025-06-08T00:00:00.000001+00:00" = Some 1749340800000001.
Proof. reflexivity. Qed.

Lemma digit_code n : 0 <= n < 10 → code (chr (Z.to_N (48 + n))) = Z.to_N (48 + n).
Proof. intros H. apply code_chr. lia. Qed.

Lemma read_dec_digits k n acc s :
  0 <= n < 10 ^ Z.of_nat k →
  read_dec k acc (dec_digits k n +:+ s) = Some (acc * 10 ^ Z.of_nat k + n, s).
Proof.
  intros Hn. revert n acc s Hn.
  assert (Hsplit : ∀ k acc s, read_dec (S k) acc s
    = ('(a, s') ← read_dec k acc s; read_dec 1 a s')).
  { clear. induction k as [|k IH]; intros acc s; [done|].
    change (read_dec (S (S k)) acc s) with (match s with
      | String c s' =>
          if is_digit c then read_dec (S k) (acc * 10 + (Z.of_N (code c) - 48)) s' else None
      | EmptyString => None end).
    destruct s as [|c s]; [done|]. cbn [read_dec]. destruct (is_digit c); [|done].
    apply IH. }
  induction k as [|k IH]; intros n acc s Hn.
  - simpl in *. rewrite str_app_nil_l. do 2 f_equal. lia.
  - rewrite Hsplit. cbn [dec_digits]. rewrite str_app_assoc, IH.
    2: { rewrite Nat2Z.inj_succ, Z.pow_succ_r in Hn by lia. split; [apply Z.div_pos; lia|].
         apply Z.div_lt_upper_bound; lia. }
    pose proof (Z.mod_pos_bound n 10 ltac:(lia)) as Hm.
    cbn [mbind option_bind]. autorewrite with orch_str. cbn [read_dec].
    assert (is_digit (chr (Z.to_N (48 + n mod 10))) = true) as ->.
    { unfold is_digit. rewrite digit_code by done.
      apply andb_true_intro. split; apply N.leb_le; lia. }
    rewrite digit_code by done. do 2 f_equal.
    rewrite Nat2Z.inj_succ, Z.pow_succ_r by lia. pose proof (Z.div_mod n 10). lia.
Qed.

(** The date algorithms are inverse to each other; a date of the range of
    [datetime] has a year of four digits. *)
Lemma civil_days z :
  let '(y, m, d) := civil_of_days z in
  days_of_civil y m d = z ∧ 1 <= m <= 12 ∧ 1 <= d <= 31
  ∧ (-719162 <= z <= 2932896 → 0 <= y < 10000).
Proof.
  unfold civil_of_days.
  pose proof (Z.div_mod (z + 719468) 146097 ltac:(lia)) as Hz.
  pose proof (Z.mod_pos_bound (z + 719468) 146097 ltac:(lia)) as Hdoe.
  set (era := (z + 719468) / 146097) in *. set (doe := (z + 719468) mod 146097) in *.
  set (yoe := (doe - doe / 1460 + doe / 36524 - doe / 146096) / 365).
  assert (Hyoe : 0 <= yoe < 400) by (unfold yoe; Z.div_mod_to_equations; lia).
  set (doy := doe - (365 * yoe + yoe / 4 - yoe / 100)).
  assert (Hdoy : 0 <= doy <= 365) by (unfold doy, yoe; Z.div_mod_to_equations; lia).
  assert (Hdoe_doy : doe = 365 * yoe + yoe / 4 - yoe / 100 + doy) by (unfold doy; lia).
  clearbody yoe doy era doe.
  set (mp := (5 * doy + 2) / 153).
  assert (Hmp : 0 <= mp < 12 ∧ 153 * mp <= 5 * doy + 2 < 153 * mp + 153)
    by (unfold mp; Z.div_mod_to_equations; lia).
  clearbody mp.
  assert (Hmonth : ((if mp <? 10 then mp + 3 else mp - 9) <=? 2) = negb (mp <? 10)).
  { destruct (Z.ltb_spec mp 10); [apply Z.leb_gt|apply Z.leb_le]; simpl; lia. }
  rewrite Hmonth. unfold days_of_civil. rewrite Hmonth.
  assert (Hy : (if negb (mp <? 10) then yoe + era * 400 + (if negb (mp <? 10) then 1 else 0) - 1
                else yoe + era * 400 + (if negb (mp <? 10) then 1 else 0)) = yoe + era * 400)
    by (destruct (mp <? 10); simpl; lia).
  rewrite Hy, Z.div_add, (Z.div_small yoe), Z_mod_plus_full, (Z.mod_small yoe) by lia.
  assert (Hm : (if 2 <? (if mp <? 10 then mp + 3 else mp - 9)
                then (if mp <? 10 then mp + 3 else mp - 9) - 3
                else (if mp <? 10 then mp + 3 else mp - 9) + 9) = mp).
  { destruct (Z.ltb_spec mp 10); destruct (Z.ltb_spec 2 (mp + 3)); destruct (Z.ltb_spec 2 (mp - 9)); lia. }
  rewrite Hm. split; [lia|].
  split; [destruct (Z.ltb_spec mp 10); lia|].
  split; [Z.div_mod_to_equations; lia|].
  intros Hrange. assert (0 <= era <= 24) by lia.
  destruct (Z.ltb_spec mp 10); simpl; [lia|].
  Z.div_mod_to_equations; lia.
Qed.

(** A field, or a separator, read where it was written. *)
Lemma read_field {A} k n rest (f : Z * string → option A) :
  0 <= n < 10 ^ Z.of_nat k → (read_dec k 0 (dec_digits k n +:+ rest) ≫= f) = f (n, rest).
Proof. intros H. rewrite read_dec_digits by done. reflexivity. Qed.

Lemma read_separator {A} c rest (f : string → option A) :
  (drop_prefix (String c EmptyString) (String c EmptyString +:+ rest) ≫= f) = f rest.
Proof. autorewrite with orch_str. cbn [drop_prefix]. by rewrite Ascii.eqb_refl. Qed.

(** [datetime.fromisoformat(t.isoformat()) == t]. *)
Lemma read_isoformat_spec t : valid_datetime t = true → read_isoformat (isoformat t) = Some t.
Proof.
  unfold valid_datetime, min_datetime, max_datetime, isoformat, us_per_day. intros Ht.
  apply andb_prop in Ht as [H1%Z.leb_le H2%Z.leb_le].
  pose proof (civil_days (t / (86400 * us_per_second))) as Hc.
  destruct (civil_of_days _) as [[y m] d]. destruct Hc as (Hdays & Hm & Hd & Hy).
  assert (0 <= y < 10000) as Hy' by (apply Hy; unfold us_per_second in *; Z.div_mod_to_equations; lia).
  set (us_of_day := t mod (86400 * us_per_second)).
  assert (0 <= us_of_day < 86400 * us_per_second) by (apply Z.mod_pos_bound; reflexivity).
  set (sec := us_of_day / us_per_second). set (us := us_of_day mod us_per_second).
  assert (Hsec : 0 <= sec < 86400) by (unfold sec, us_per_second in *; Z.div_mod_to_equations; lia).
  assert (Hus : 0 <= us < 1000000) by (apply Z.mod_pos_bound; reflexivity).
  assert (Hfields : 0 <= sec / 3600 < 100 ∧ 0 <= sec / 60 mod 60 < 100 ∧ 0 <= sec mod 60 < 100
    ∧ (sec / 3600 * 3600 + sec / 60 mod 60 * 60 + sec mod 60) = sec)
    by (clearbody sec; Z.div_mod_to_equations; lia).
  destruct Hfields as (Hhh & Hmm & Hss & Hsum). unfold read_isoformat.
  repeat (first [rewrite read_field by (simpl; lia)|rewrite read_separator]; cbv beta iota).
  assert (match drop_prefix "." ((if us =? 0 then EmptyString else "." +:+ dec_digits 6 us) +:+ "+00:00")
          with
          | Some s => read_dec 6 0 s
          | None => Some (0, (if us =? 0 then EmptyString else "." +:+ dec_digits 6 us) +:+ "+00:00")
          end = Some (us, "+00:00")) as ->.
  { destruct (Z.eqb_spec us 0) as [->|Hne]; [reflexivity|].
    rewrite str_app_assoc. autorewrite with orch_str. cbn [drop_prefix].
    rewrite Ascii.eqb_refl, read_dec_digits by done. reflexivity. }
  cbn [mbind option_bind]. f_equal. rewrite Hdays, Hsum.
  assert (H3 : t = 86400 * us_per_second * (t / (86400 * us_per_second)) + us_of_day)
    by (by apply Z.div_mod).
  assert (H4 : us_of_day = us_per_second * sec + us) by (by apply Z.div_mod).
  clearbody us_of_day sec us. unfold us_per_day. lia.
Qed.

Lemma fromisoformat_isoformat other t :
  valid_datetime t = true → fromisoformat other (isoformat t) = Some t.
Proof.
  intros Ht. unfold fromisoformat. by rewrite read_isoformat_spec, Ht, String.eqb_refl.
Qed.

(** The characters of a timestamp. *)
Definition iso_char (c : ascii) : bool :=
  is_digit c || Ascii.eqb c "-" || Ascii.eqb c "T" || Ascii.eqb c ":" || Ascii.eqb c "."
  || Ascii.eqb c "+".

Lemma dec_digits_chars k n : all_str is_digit (dec_digits k n) = true.
Proof.
  revert n. induction k as [|k IH]; intros n; [done|]. cbn [dec_digits].
  rewrite all_str_app, IH. cbn [all_str]. unfold is_digit.
  pose proof (Z.mod_pos_bound n 10 ltac:(lia)). rewrite digit_code by done.
  cbn [andb]. rewrite andb_true_r. apply andb_true_intro. split; apply N.leb_le; lia.
Qed.

Lemma isoformat_chars t : all_str iso_char (isoformat t) = true.
Proof.
  assert (Hd : ∀ k n, all_str iso_char (dec_digits k n) = true).
  { intros k n. apply (all_str_impl is_digit); [|apply dec_digits_chars].
    intros c Hc. unfold iso_char. by rewrite Hc. }
  unfold isoformat. destruct (civil_of_days _) as [[y m] d].
  destruct (_ =? 0); rewrite !all_str_app, !Hd; done.
Qed.
