(* ===== verification/Encoding.v ===== *)
(** The parts of the standard library behind a pagination cursor: UTF-8,
    URL-safe base64 ([base64], [binascii]) and [datetime.fromisoformat], each
    with its round trip. *)

From S2P Require Import Prelude PyStr PyFloat Uuid DateTime.

(** * UTF-8

    Text is Latin-1 in this development: a code point from 128 to 255 takes two
    bytes, and bytes that denote anything else do not decode. *)

Definition utf8_char (c : ascii) : string :=
  let n := code c in
  if (n <? 128)%N then String c EmptyString
  else String (chr (192 + n / 64)) (String (chr (128 + n mod 64)) EmptyString).

(** [text.encode()] *)
Definition utf8_encode : string → string := concat_map_str utf8_char.

(** [data.decode()]; [None] is [UnicodeDecodeError]. *)
Fixpoint utf8_decode (s : string) : option string :=
  match s with
  | EmptyString => Some EmptyString
  | String c s' =>
      let n := code c in
      if (n <? 128)%N then String c <$> utf8_decode s'
      else match s' with
           | String d s'' =>
               let m := code d in
               if ((194 <=? n) && (n <=? 195) && (128 <=? m) && (m <? 192))%N
               then String (chr ((n - 192) * 64 + (m - 128))) <$> utf8_decode s''
               else None
           | EmptyString => None
           end
  end.

Definition is_ascii (c : ascii) : bool := (code c <? 128)%N.

Lemma utf8_encode_ascii s : all_str is_ascii s = true → utf8_encode s = s.
Proof.
  induction s as [|c s IH]; [done|]. simpl. intros [Hc Hs]%andb_prop.
  unfold utf8_encode in *. simpl. rewrite IH by done. unfold utf8_char, is_ascii in *.
  by rewrite Hc.
Qed.

Lemma utf8_decode_ascii s : all_str is_ascii s = true → utf8_decode s = Some s.
Proof.
  induction s as [|c s IH]; [done|]. cbn [all_str utf8_decode]. intros [Hc Hs]%andb_prop.
  unfold is_ascii in Hc. by rewrite Hc, IH.
Qed.

(** * Base64 *)

(** The standard alphabet: the character of a 6-bit value, and back. *)
Definition b64_char (n : N) : ascii :=
  (if n <? 26 then chr (65 + n)
   else if n <? 52 then chr (71 + n)
   else if n <? 62 then chr (n - 4)
   else if n =? 62 then "+"%char else "/"%char)%N.

Definition b64_value (c : ascii) : option N :=
  let n := code c in
  (if (65 <=? n) && (n <=? 90) then Some (n - 65)
   else if (97 <=? n) && (n <=? 122) then Some (n - 71)
   else if (48 <=? n) && (n <=? 57) then Some (n + 4)
   else if n =? 43 then Some 62
   else if n =? 47 then Some 63 else None)%N.

(** [binascii.b2a_base64(data, newline=False)] *)
Fixpoint b64encode (s : string) : string :=
  match s with
  | EmptyString => EmptyString
  | String a s1 =>
      let a := code a in
      String (b64_char (a / 4))
      match s1 with
      | EmptyString => String (b64_char (a mod 4 * 16)) "=="
      | String b s2 =>
          let b := code b in
          String (b64_char (a mod 4 * 16 + b / 16))
          match s2 with
          | EmptyString => String (b64_char (b mod 16 * 4)) "="
          | String c s3 =>
              let c := code c in
              String (b64_char (b mod 16 * 4 + c / 64)) (String (b64_char (c mod 64)) (b64encode s3))
          end
      end
  end%N.

(** [binascii.a2b_base64(data)], not strict: characters outside the alphabet are
    skipped, and enough padding ends the data.  The state is the position in the
    current group of four, the bits left over, and the padding seen. *)
Fixpoint a2b_base64 (quad : nat) (left : N) (pads : nat) (s : string) : option string :=
  match s with
  | EmptyString => match quad with O => Some EmptyString | _ => None end
  | String c s' =>
      if Ascii.eqb c "=" then
        if Nat.leb 2 quad then
          if Nat.leb 4 (quad + S pads) then Some EmptyString else a2b_base64 quad left (S pads) s'
        else a2b_base64 quad left pads s'
      else match b64_value c with
           | None => a2b_base64 quad left pads s'
           | Some v =>
               match quad with
               | O => a2b_base64 1 v 0 s'
               | 1%nat => String (chr (left * 4 + v / 16)) <$> a2b_base64 2 (v mod 16) 0 s'
               | 2%nat => String (chr (left * 16 + v / 4)) <$> a2b_base64 3 (v mod 4) 0 s'
               | _ => String (chr (left * 64 + v)) <$> a2b_base64 0 0 0 s'
               end
           end
  end%N.

Definition to_urlsafe (c : ascii) : ascii :=
  if Ascii.eqb c "+" then "-"%char else if Ascii.eqb c "/" then "_"%char else c.
Definition from_urlsafe (c : ascii) : ascii :=
  if Ascii.eqb c "-" then "+"%char else if Ascii.eqb c "_" then "/"%char else c.

Definition urlsafe_b64encode (s : string) : string := map_str to_urlsafe (b64encode s).
Definition urlsafe_b64decode (s : string) : option string :=
  a2b_base64 0 0 0 (map_str from_urlsafe s).

Example urlsafe_b64encode_ex : urlsafe_b64encode "2026|~?" = "MjAyNnx-Pw==".
Proof. reflexivity. Qed.
Example urlsafe_b64decode_junk : urlsafe_b64decode "Mj AyNn!x-Pw==trailing" = Some "2026|~?".
Proof. reflexivity. Qed.
Example urlsafe_b64decode_short : urlsafe_b64decode "MjAyN" = None.
Proof. reflexivity. Qed.

(** ** The round trip *)

Lemma b64_value_char n : (n < 64)%N → b64_value (b64_char n) = Some n.
Proof.
  intros Hn.
  pose proof (forall_below 64 (λ n, bool_decide (b64_value (b64_char n) = Some n))
    ltac:(by vm_compute) n Hn) as H.
  by apply bool_decide_eq_true in H.
Qed.

(** A digit, written and read in the URL-safe alphabet, is not padding. *)
Lemma b64_char_read n :
  (n < 64)%N → from_urlsafe (to_urlsafe (b64_char n)) = b64_char n
             ∧ Ascii.eqb (b64_char n) "=" = false.
Proof.
  intros Hn.
  pose proof (forall_below 64 (λ n, Ascii.eqb (from_urlsafe (to_urlsafe (b64_char n))) (b64_char n)
    && negb (Ascii.eqb (b64_char n) "=")) ltac:(by vm_compute) n Hn) as H. simpl in H.
  apply andb_prop in H as [H1 H2]. split; [by apply Ascii.eqb_eq|by apply negb_true_iff].
Qed.

(** One digit read in each position. *)
Lemma a2b_digit quad left pads n s :
  (n < 64)%N →
  a2b_base64 quad left pads (map_str from_urlsafe (map_str to_urlsafe (String (b64_char n) s)))
  = match quad with
    | O => a2b_base64 1 n 0 (map_str from_urlsafe (map_str to_urlsafe s))
    | 1%nat => String (chr (left * 4 + n / 16))
                 <$> a2b_base64 2 (n mod 16) 0 (map_str from_urlsafe (map_str to_urlsafe s))
    | 2%nat => String (chr (left * 16 + n / 4))
                 <$> a2b_base64 3 (n mod 4) 0 (map_str from_urlsafe (map_str to_urlsafe s))
    | _ => String (chr (left * 64 + n)) <$> a2b_base64 0 0 0 (map_str from_urlsafe (map_str to_urlsafe s))
    end%N.
Proof.
  intros Hn. destruct (b64_char_read n Hn) as [Hr Heq]. cbn [map_str a2b_base64].
  by rewrite Hr, Heq, (b64_value_char n Hn).
Qed.

Lemma chr_eq n c : n = code c → chr n = c.
Proof. intros ->. apply chr_code. Qed.

Lemma triple_ind (P : string → Prop) :
  P EmptyString → (∀ a, P (String a EmptyString)) → (∀ a b, P (String a (String b EmptyString))) →
  (∀ a b c s, P s → P (String a (String b (String c s)))) → ∀ s, P s.
Proof.
  intros H0 H1 H2 H3. fix IH 1. intros [|a [|b [|c s]]]; [done|done|done|]. apply H3, IH.
Qed.

Lemma code_parts c :
  (code c / 4 < 64 ∧ code c mod 4 < 4 ∧ code c / 16 < 16 ∧ code c mod 16 < 16
   ∧ code c / 64 < 4 ∧ code c mod 64 < 64)%N.
Proof.
  pose proof (code_lt c).
  repeat split; first [apply N.Div0.div_lt_upper_bound|apply N.mod_lt]; lia.
Qed.

(** The three bytes of a group, put together again. *)
Lemma first_byte a h : (h < 16)%N → (code a / 4 * 4 + (code a mod 4 * 16 + h) / 16)%N = code a.
Proof.
  intros Hh. rewrite N.add_comm, N.div_add_l, (N.div_small h) by lia.
  pose proof (N.div_mod' (code a) 4). lia.
Qed.
Lemma second_byte a b h :
  (h < 4)%N →
  ((code a mod 4 * 16 + code b / 16) mod 16 * 16 + (code b mod 16 * 4 + h) / 4)%N = code b.
Proof.
  intros Hh. pose proof (code_parts b).
  assert ((code a mod 4 * 16 + code b / 16) mod 16 = code b / 16)%N as ->.
  { rewrite N.add_comm, N.Div0.mod_add. apply N.mod_small. lia. }
  rewrite N.div_add_l, (N.div_small h) by lia. pose proof (N.div_mod' (code b) 16). lia.
Qed.
Lemma third_byte b c :
  ((code b mod 16 * 4 + code c / 64) mod 4 * 64 + code c mod 64)%N = code c.
Proof.
  pose proof (code_parts c). rewrite (N.add_comm (_ * 4)), N.Div0.mod_add, N.mod_small by lia.
  pose proof (N.div_mod' (code c) 64). lia.
Qed.

Lemma urlsafe_b64_roundtrip s : urlsafe_b64decode (urlsafe_b64encode s) = Some s.
Proof.
  unfold urlsafe_b64decode, urlsafe_b64encode.
  induction s as [|a|a b|a b c s IH] using triple_ind; [done|..]; cbn [b64encode];
    pose proof (code_parts a); try pose proof (code_parts b); try pose proof (code_parts c);
    rewrite !a2b_digit by lia.
  - cbn [map_str]. change (a2b_base64 2 _ 0 _) with (Some EmptyString). cbn.
    by rewrite (chr_eq _ a) by (pose proof (first_byte a 0 eq_refl) as F; by rewrite N.add_0_r in F).
  - change (a2b_base64 3 _ 0 _) with (Some EmptyString). cbn [fmap option_fmap option_map].
    rewrite (chr_eq _ a) by (apply first_byte; lia).
    by rewrite (chr_eq _ b) by (pose proof (second_byte a b 0 eq_refl) as F; by rewrite N.add_0_r in F).
  - rewrite IH. cbn [fmap option_fmap option_map].
    rewrite (chr_eq _ a) by (apply first_byte; lia).
    rewrite (chr_eq _ b) by (apply second_byte; lia).
    by rewrite (chr_eq _ c) by apply third_byte.
Qed.

Lemma b64_char_ascii n : (n < 64)%N → is_ascii (to_urlsafe (b64_char n)) = true.
Proof.
  intros Hn. apply (forall_below 64 (λ n, is_ascii (to_urlsafe (b64_char n)))); [by vm_compute|lia].
Qed.

Lemma urlsafe_b64encode_ascii s : all_str is_ascii (urlsafe_b64encode s) = true.
Proof.
  unfold urlsafe_b64encode.
  induction s as [|a|a b|a b c s IH] using triple_ind; [done|..]; cbn [b64encode map_str all_str];
    pose proof (code_parts a); try pose proof (code_parts b); try pose proof (code_parts c);
    rewrite ?b64_char_ascii by lia; done.
Qed.
