(* ===== verification/Pagination.v ===== *)
(** [core/pagination.py]: the opaque cursor of a page of jobs. *)

From S2P Require Import Prelude PyStr PyFloat Domain Uuid DateTime Encoding.

Record CursorPosition := mkCursorPosition {
  cp_created_at : Z;
  cp_job_id : uuid;
}.

(** [f"{position.created_at.isoformat()}|{position.job_id}"] *)
Definition cursor_text (position : CursorPosition) : string :=
  isoformat (cp_created_at position) +:+ "|" +:+ uuid_str (cp_job_id position).

Definition encode_cursor (position : CursorPosition) : string :=
  urlsafe_b64encode (utf8_encode (cursor_text position)).

Section Decode.
(** What [fromisoformat] makes of the texts that [isoformat] does not write. *)
Variable iso_other : string → option Z.

Definition parse_cursor (raw : string) : option CursorPosition :=
  '(created_raw, id_raw) ← split1 "|" raw;
  created_at ← fromisoformat iso_other created_raw;
  job_id ← uuid_of_str id_raw;
  Some (mkCursorPosition created_at job_id).

(** [binascii.Error], [ValueError] and [UnicodeDecodeError] alike become
    [InvalidCursorError]. *)
Definition decode_cursor (cursor : string) : res CursorPosition :=
  match data ← urlsafe_b64decode (utf8_encode cursor);
        raw ← utf8_decode data;
        parse_cursor raw
  with
  | Some position => Ok position
  | None => Err (InvalidCursorError "invalid cursor")
  end.
End Decode.

(** ** The round trip *)

Lemma split1_app c a b :
  all_str (λ d, negb (Ascii.eqb c d)) a = true → split1 c (a +:+ String c b) = Some (a, b).
Proof.
  induction a as [|d a IH].
  - intros _. cbn [split1]. change (EmptyString +:+ String c b) with (String c b). cbn [split1].
    by rewrite Ascii.eqb_refl.
  - cbn [all_str]. intros [Hd Ha]%andb_prop. apply negb_true_iff in Hd.
    autorewrite with orch_str. cbn [split1]. by rewrite Hd, (IH Ha).
Qed.

(** Characters of a class are all of another, checked on the 256 code points. *)
Lemma class_incl (p q : ascii → bool) s :
  forallb (λ i, negb (p (chr (N.of_nat i))) || q (chr (N.of_nat i))) (List.seq 0 256) = true →
  all_str p s = true → all_str q s = true.
Proof.
  intros H. apply all_str_impl. intros c Hc.
  pose proof (forall_below 256 (λ n, negb (p (chr n)) || q (chr n)) H _ (code_lt c)) as Hn.
  cbv beta in Hn. rewrite chr_code, Hc in Hn. exact Hn.
Qed.

Lemma iso_char_ascii s : all_str iso_char s = true → all_str is_ascii s = true.
Proof. apply class_incl. by vm_compute. Qed.
Lemma iso_char_bar s : all_str iso_char s = true → all_str (λ d, negb (Ascii.eqb "|" d)) s = true.
Proof. apply class_incl. by vm_compute. Qed.
Lemma uuid_char_ascii s : all_str uuid_char s = true → all_str is_ascii s = true.
Proof. apply class_incl. by vm_compute. Qed.

Lemma cursor_text_ascii p : all_str is_ascii (cursor_text p) = true.
Proof.
  unfold cursor_text. rewrite !all_str_app.
  by rewrite (iso_char_ascii _ (isoformat_chars _)), (uuid_char_ascii _ (uuid_str_chars _)).
Qed.

Lemma parse_cursor_text other p :
  valid_datetime (cp_created_at p) = true → (cp_job_id p < uuid_bound)%N →
  parse_cursor other (cursor_text p) = Some p.
Proof.
  intros Ht Hi. unfold parse_cursor, cursor_text. autorewrite with orch_str.
  rewrite (split1_app _ _ _ (iso_char_bar _ (isoformat_chars _))). cbn [mbind option_bind].
  rewrite fromisoformat_isoformat by done. cbn [mbind option_bind].
  rewrite uuid_of_str_str by done. by destruct p.
Qed.

Lemma utf8_encode_cursor p : utf8_encode (encode_cursor p) = encode_cursor p.
Proof. apply utf8_encode_ascii, urlsafe_b64encode_ascii. Qed.

Lemma decode_encode_cursor other p :
  valid_datetime (cp_created_at p) = true → (cp_job_id p < uuid_bound)%N →
  decode_cursor other (encode_cursor p) = Ok p.
Proof.
  intros Ht Hi. unfold decode_cursor. rewrite utf8_encode_cursor. unfold encode_cursor.
  rewrite (utf8_encode_ascii (cursor_text p)) by apply cursor_text_ascii.
  rewrite urlsafe_b64_roundtrip. cbn [mbind option_bind].
  rewrite utf8_decode_ascii by apply cursor_text_ascii. cbn [mbind option_bind].
  rewrite parse_cursor_text by done. reflexivity.
Qed.
