(* ===== verification/Models.v ===== *)
(** [db/models.py]: the five tables as records, the schema's checks, and the
    database as a map per table.  Timestamps are microseconds since the epoch
    (UTC); a column that only ever holds the [.value] of an enumeration is
    stored as that enumeration. *)

From S2P Require Import Prelude PyStr PyFloat Json Domain Uuid.

Abbreviation datetime := Z (only parsing).

Record Job := mkJob {
  j_id : uuid;
  j_user_id : string;
  j_type : JobType;
  j_status : JobStatus;
  j_priority : JobPriority;
  j_payload : dict;
  j_result : option dict;
  j_error_code : option string;
  j_error_message : option string;
  j_progress : Z;
  j_attempts : Z;
  j_max_attempts : Z;
  j_idempotency_key : option string;
  j_next_attempt_at : option datetime;
  j_cancellation_requested_at : option datetime;
  j_cancel_reason : option string;
  j_locked_by : option string;
  j_lock_expires_at : option datetime;
  j_heartbeat_at : option datetime;
  j_last_dispatched_at : option datetime;
  j_dead_lettered_at : option datetime;
  j_created_at : datetime;
  j_queued_at : option datetime;
  j_started_at : option datetime;
  j_completed_at : option datetime;
  j_updated_at : datetime;
}.

#[export] Instance Job_settable : Settable Job := {| eta_expand := λ j,
  mkJob (j_id j) (j_user_id j) (j_type j) (j_status j) (j_priority j) (j_payload j)
    (j_result j) (j_error_code j) (j_error_message j) (j_progress j) (j_attempts j)
    (j_max_attempts j) (j_idempotency_key j) (j_next_attempt_at j)
    (j_cancellation_requested_at j) (j_cancel_reason j) (j_locked_by j)
    (j_lock_expires_at j) (j_heartbeat_at j) (j_last_dispatched_at j)
    (j_dead_lettered_at j) (j_created_at j) (j_queued_at j) (j_started_at j)
    (j_completed_at j) (j_updated_at j) |}.

Record JobAttempt := mkJobAttempt {
  a_id : uuid;
  a_job_id : uuid;
  a_attempt_number : Z;
  a_worker_id : string;
  a_status : JobStatus;
  a_started_at : datetime;
  a_completed_at : option datetime;
  a_error_code : option string;
  a_error_message : option string;
}.

#[export] Instance JobAttempt_settable : Settable JobAttempt := {| eta_expand := λ a,
  mkJobAttempt (a_id a) (a_job_id a) (a_attempt_number a) (a_worker_id a) (a_status a)
    (a_started_at a) (a_completed_at a) (a_error_code a) (a_error_message a) |}.

Record JobEvent := mkJobEvent {
  e_id : uuid;
  e_job_id : uuid;
  e_event_type : JobEventType;
  e_from_status : option JobStatus;
  e_to_status : option JobStatus;
  e_detail : dict;
  e_created_at : datetime;
}.

Record DispatchOutbox := mkDispatchOutbox {
  d_id : uuid;
  d_job_id : uuid;
  d_status : OutboxStatus;
  d_attempts : Z;
  d_created_at : datetime;
  d_published_at : option datetime;
}.

#[export] Instance DispatchOutbox_settable : Settable DispatchOutbox := {| eta_expand := λ d,
  mkDispatchOutbox (d_id d) (d_job_id d) (d_status d) (d_attempts d) (d_created_at d)
    (d_published_at d) |}.

Record NotificationOutbox := mkNotificationOutbox {
  n_id : uuid;
  n_job_id : uuid;
  n_user_id : string;
  n_channel : NotificationChannel;
  n_destination : string;
  n_event_type : JobEventType;
  n_payload : dict;
  n_status : NotificationStatus;
  n_attempts : Z;
  n_next_attempt_at : datetime;
  n_dedupe_key : string;
  n_last_error : option string;
  n_created_at : datetime;
  n_sent_at : option datetime;
}.

#[export] Instance NotificationOutbox_settable : Settable NotificationOutbox := {| eta_expand := λ n,
  mkNotificationOutbox (n_id n) (n_job_id n) (n_user_id n) (n_channel n) (n_destination n)
    (n_event_type n) (n_payload n) (n_status n) (n_attempts n) (n_next_attempt_at n)
    (n_dedupe_key n) (n_last_error n) (n_created_at n) (n_sent_at n) |}.

(** The database. *)
Record Db := mkDb {
  jobs : gmap uuid Job;
  job_attempts : gmap uuid JobAttempt;
  job_events : gmap uuid JobEvent;
  dispatch_outbox : gmap uuid DispatchOutbox;
  notification_outbox : gmap uuid NotificationOutbox;
}.

#[export] Instance Db_settable : Settable Db := {| eta_expand := λ d,
  mkDb (jobs d) (job_attempts d) (job_events d) (dispatch_outbox d) (notification_outbox d) |}.

Definition empty_db : Db := mkDb ∅ ∅ ∅ ∅ ∅.

(** * The checks of the schema *)

(** Text without the character NUL, the only text PostgreSQL stores. *)
Definition pg_text (s : string) : bool := negb (contains (chr 0) s).

(** [String(n)] and [Text] *)
Definition varchar (n : nat) (s : string) : bool := Nat.leb (String.length s) n && pg_text s.
Definition if_set {A} (ok : A → bool) (o : option A) : bool :=
  match o with Some a => ok a | None => true end.

(** [JSONB]: the serialised value holds no [NaN] or [Infinity], which are not
    JSON, and no NUL. *)
Definition finite (x : pyfloat) : bool :=
  match x with S754_zero _ | S754_finite _ _ _ => true | _ => false end.
Fixpoint jsonb (v : json) : bool :=
  match v with
  | JNull | JBool _ | JInt _ => true
  | JFloat x => finite x
  | JStr s => pg_text s
  | JList l => forallb jsonb l
  | JDict d => forallb (λ '(k, w), pg_text k && jsonb w) d
  end.

(** [Integer]: 32-bit signed. *)
Definition int4 (n : Z) : bool := (- 2 ^ 31 <=? n) && (n <? 2 ^ 31).

(** Column types that can be violated: the database raises [DataError]. *)
Definition job_types_ok (j : Job) : bool :=
  varchar 64 (j_user_id j) && if_set (varchar 64) (j_error_code j)
  && if_set (varchar 128) (j_idempotency_key j) && if_set (varchar 64) (j_locked_by j)
  && int4 (j_progress j) && int4 (j_attempts j) && int4 (j_max_attempts j)
  && jsonb (JDict (j_payload j)) && if_set (λ r, jsonb (JDict r)) (j_result j)
  && if_set pg_text (j_error_message j) && if_set pg_text (j_cancel_reason j).

(** What an attempt ends with. *)
Definition attempt_result_ok (a : JobAttempt) : bool :=
  if_set (varchar 64) (a_error_code a) && if_set pg_text (a_error_message a).
Definition attempt_types_ok (a : JobAttempt) : bool :=
  varchar 64 (a_worker_id a) && int4 (a_attempt_number a) && attempt_result_ok a.

Definition event_types_ok (e : JobEvent) : bool := jsonb (JDict (e_detail e)).
Definition dispatch_types_ok (o : DispatchOutbox) : bool := int4 (d_attempts o).
Definition notification_types_ok (n : NotificationOutbox) : bool :=
  varchar 64 (n_user_id n) && varchar 255 (n_destination n) && varchar 160 (n_dedupe_key n)
  && jsonb (JDict (n_payload n)) && int4 (n_attempts n) && if_set pg_text (n_last_error n).

(** [ck_jobs_progress_range] and [ck_jobs_max_attempts_positive]: the database
    raises [IntegrityError]. *)
Definition job_checks_ok (j : Job) : bool :=
  (0 <=? j_progress j) && (j_progress j <=? 100) && (1 <=? j_max_attempts j).

(** [uq_jobs_user_idempotency_key], partial on [idempotency_key IS NOT NULL]. *)
Definition same_idempotency_key (j k : Job) : bool :=
  String.eqb (j_user_id j) (j_user_id k)
  && match j_idempotency_key j, j_idempotency_key k with
     | Some a, Some b => String.eqb a b
     | _, _ => false
     end.

Definition idempotency_key_free (j : Job) (t : gmap uuid Job) : bool :=
  forallb (λ p, negb (same_idempotency_key j p.2)) (map_to_list t).

(** [uq_job_attempt_number] *)
Definition attempt_number_free (a : JobAttempt) (t : gmap uuid JobAttempt) : bool :=
  forallb (λ p, negb ((a_job_id a =? a_job_id p.2)%N
                      && (a_attempt_number a =? a_attempt_number p.2))) (map_to_list t).

(** [uq_notification_dedupe_key] *)
Definition dedupe_key_free (key : string) (t : gmap uuid NotificationOutbox) : bool :=
  forallb (λ p, negb (String.eqb key (n_dedupe_key p.2))) (map_to_list t).

(** * Statements that add or change rows, with the errors of the schema *)

(** What the schema refuses: a constraint or a column type. *)
Inductive db_error := ConstraintViolated | BadValue.

Definition is_free {A} (i : uuid) (t : gmap uuid A) : bool :=
  match t !! i with None => true | Some _ => false end.

Definition insert_job (j : Job) (d : Db) : db_error + Db :=
  if negb (job_types_ok j) then inl BadValue
  else if job_checks_ok j && is_free (j_id j) (jobs d) && idempotency_key_free j (jobs d)
  then inr (d <| jobs := <[j_id j := j]> (jobs d) |>)
  else inl ConstraintViolated.

(** [UPDATE jobs SET values WHERE id = i AND guard]: how many rows matched. *)
Definition update_job (i : uuid) (guard : Job → bool) (values : Job → Job) (d : Db)
  : db_error + (Z * Db) :=
  match jobs d !! i with
  | Some j =>
      if guard j then
        let j' := values j in
        if negb (job_types_ok j') then inl BadValue
        else if job_checks_ok j' then inr (1, d <| jobs := <[i := j']> (jobs d) |>)
        else inl ConstraintViolated
      else inr (0, d)
  | None => inr (0, d)
  end.

(** The foreign key [job_id REFERENCES jobs.id]. *)
Definition job_exists (i : uuid) (d : Db) : bool := negb (is_free i (jobs d)).

Definition insert_attempt (a : JobAttempt) (d : Db) : db_error + Db :=
  if negb (attempt_types_ok a) then inl BadValue
  else if is_free (a_id a) (job_attempts d) && attempt_number_free a (job_attempts d)
          && job_exists (a_job_id a) d
  then inr (d <| job_attempts := <[a_id a := a]> (job_attempts d) |>)
  else inl ConstraintViolated.

(** The statement assigns the status, the time and the result of the attempt. *)
Definition update_attempt (i : uuid) (values : JobAttempt → JobAttempt) (d : Db) : db_error + Db :=
  match job_attempts d !! i with
  | Some a =>
      if attempt_result_ok (values a)
      then inr (d <| job_attempts := <[i := values a]> (job_attempts d) |>) else inl BadValue
  | None => inr d
  end.

Definition insert_event (e : JobEvent) (d : Db) : db_error + Db :=
  if negb (event_types_ok e) then inl BadValue
  else if is_free (e_id e) (job_events d) && job_exists (e_job_id e) d
  then inr (d <| job_events := <[e_id e := e]> (job_events d) |>)
  else inl ConstraintViolated.

Definition insert_dispatch (o : DispatchOutbox) (d : Db) : db_error + Db :=
  if negb (dispatch_types_ok o) then inl BadValue
  else if is_free (d_id o) (dispatch_outbox d) && job_exists (d_job_id o) d
  then inr (d <| dispatch_outbox := <[d_id o := o]> (dispatch_outbox d) |>)
  else inl ConstraintViolated.

(** A row is published once, so its counter cannot overflow. *)
Definition update_dispatch (i : uuid) (values : DispatchOutbox → DispatchOutbox) (d : Db) : Db :=
  d <| dispatch_outbox := alter values i (dispatch_outbox d) |>.

(** [INSERT ... ON CONFLICT (dedupe_key) DO NOTHING]: was a row inserted? *)
Definition insert_notification (n : NotificationOutbox) (d : Db) : db_error + (bool * Db) :=
  if negb (notification_types_ok n) then inl BadValue
  else if negb (dedupe_key_free (n_dedupe_key n) (notification_outbox d)) then inr (false, d)
  else if is_free (n_id n) (notification_outbox d) && job_exists (n_job_id n) d
  then inr (true, d <| notification_outbox := <[n_id n := n]> (notification_outbox d) |>)
  else inl ConstraintViolated.

(** The counter stays below the setting [notification_max_attempts], and the text of
    an error of the HTTP client holds no NUL: no column can be violated. *)
Definition update_notification (i : uuid) (values : NotificationOutbox → NotificationOutbox)
  (d : Db) : Db :=
  d <| notification_outbox := alter values i (notification_outbox d) |>.
