(* ===== verification/Schema.v ===== *)
(** The schema of the database, from both of its descriptions: the mapped classes
    of [db/models.py] ([metadata]) and the operations of the initial migration
    ([upgrade], [downgrade]), with an interpreter for the operations and what a
    row of each table must satisfy. *)

From S2P Require Import Prelude PyStr PyFloat Json Domain Uuid Models.

(** * Tables *)

Inductive sql_type := SUuid | SString (n : nat) | SText | SInteger | SJsonb | STimestamptz.

Record sql_column := mkColumn {
  c_name : string;
  c_type : sql_type;
  c_nullable : bool;
  c_primary : bool;
  c_default : option string;
  c_references : option (string * string);
}.

(** A conjunct of a CHECK constraint: a column compared with a constant. *)
Inductive comparison := at_least (column : string) (n : Z) | at_most (column : string) (n : Z).

Record sql_check := check { ck_name : string; ck_conjuncts : list comparison }.

(** A column of an index, and whether it is descending. *)
Definition index_column : Type := string * bool.

Record sql_index := index {
  ix_name : string;
  ix_columns : list index_column;
  ix_unique : bool;
  ix_where : option string;
}.

Record table := mkTable {
  t_name : string;
  t_columns : list sql_column;
  t_checks : list sql_check;
  t_indexes : list sql_index;
}.

Definition schema : Type := list table.

(** ** Notation of the descriptions *)

Inductive nullability := NULLABLE | NOT_NULL | PRIMARY_KEY.

Definition column (name : string) (ty : sql_type) (n : nullability) : sql_column :=
  mkColumn name ty (match n with NULLABLE => true | _ => false end)
    (match n with PRIMARY_KEY => true | _ => false end) None None.
Definition server_default (c : sql_column) (text : string) : sql_column :=
  mkColumn (c_name c) (c_type c) (c_nullable c) (c_primary c) (Some text) (c_references c).
Definition references (c : sql_column) (table column : string) : sql_column :=
  mkColumn (c_name c) (c_type c) (c_nullable c) (c_primary c) (c_default c) (Some (table, column)).
Definition asc (name : string) : index_column := (name, false).
Definition desc (name : string) : index_column := (name, true).
Abbreviation UNIQUE := true (only parsing).
Abbreviation NOT_UNIQUE := false (only parsing).

(** * [db/models.py] *)

Definition jobs_table : table :=
  mkTable "jobs"
    [column "id" SUuid PRIMARY_KEY;
     column "user_id" (SString 64) NOT_NULL;
     column "type" (SString 40) NOT_NULL;
     column "status" (SString 20) NOT_NULL;
     column "priority" (SString 10) NOT_NULL;
     server_default (column "payload" SJsonb NOT_NULL) "'{}'::jsonb";
     column "result" SJsonb NULLABLE;
     column "error_code" (SString 64) NULLABLE;
     column "error_message" SText NULLABLE;
     server_default (column "progress" SInteger NOT_NULL) "0";
     server_default (column "attempts" SInteger NOT_NULL) "0";
     column "max_attempts" SInteger NOT_NULL;
     column "idempotency_key" (SString 128) NULLABLE;
     column "next_attempt_at" STimestamptz NULLABLE;
     column "cancellation_requested_at" STimestamptz NULLABLE;
     column "cancel_reason" SText NULLABLE;
     column "locked_by" (SString 64) NULLABLE;
     column "lock_expires_at" STimestamptz NULLABLE;
     column "heartbeat_at" STimestamptz NULLABLE;
     column "last_dispatched_at" STimestamptz NULLABLE;
     column "dead_lettered_at" STimestamptz NULLABLE;
     server_default (column "created_at" STimestamptz NOT_NULL) "now()";
     column "queued_at" STimestamptz NULLABLE;
     column "started_at" STimestamptz NULLABLE;
     column "completed_at" STimestamptz NULLABLE;
     server_default (column "updated_at" STimestamptz NOT_NULL) "now()"]
    [check "ck_jobs_progress_range" [at_least "progress" 0; at_most "progress" 100];
     check "ck_jobs_max_attempts_positive" [at_least "max_attempts" 1]]
    [index "ix_jobs_status" [asc "status"] NOT_UNIQUE None;
     index "ix_jobs_status_next_attempt_at" [asc "status"; asc "next_attempt_at"] NOT_UNIQUE None;
     index "ix_jobs_status_lock_expires_at" [asc "status"; asc "lock_expires_at"] NOT_UNIQUE None;
     index "ix_jobs_status_last_dispatched_at" [asc "status"; asc "last_dispatched_at"]
        NOT_UNIQUE None;
     index "uq_jobs_user_idempotency_key" [asc "user_id"; asc "idempotency_key"]
        UNIQUE (Some "idempotency_key IS NOT NULL");
     index "ix_jobs_user_created" [asc "user_id"; desc "created_at"; desc "id"] NOT_UNIQUE None].

Definition job_attempts_table : table :=
  mkTable "job_attempts"
    [column "id" SUuid PRIMARY_KEY;
     references (column "job_id" SUuid NOT_NULL) "jobs" "id";
     column "attempt_number" SInteger NOT_NULL;
     column "worker_id" (SString 64) NOT_NULL;
     column "status" (SString 20) NOT_NULL;
     server_default (column "started_at" STimestamptz NOT_NULL) "now()";
     column "completed_at" STimestamptz NULLABLE;
     column "error_code" (SString 64) NULLABLE;
     column "error_message" SText NULLABLE]
    []
    [index "uq_job_attempt_number" [asc "job_id"; asc "attempt_number"] UNIQUE None].

Definition job_events_table : table :=
  mkTable "job_events"
    [column "id" SUuid PRIMARY_KEY;
     references (column "job_id" SUuid NOT_NULL) "jobs" "id";
     column "event_type" (SString 40) NOT_NULL;
     column "from_status" (SString 20) NULLABLE;
     column "to_status" (SString 20) NULLABLE;
     server_default (column "detail" SJsonb NOT_NULL) "'{}'::jsonb";
     server_default (column "created_at" STimestamptz NOT_NULL) "now()"]
    []
    [index "ix_job_events_job_created" [asc "job_id"; desc "created_at"; desc "id"]
        NOT_UNIQUE None].

Definition dispatch_outbox_table : table :=
  mkTable "dispatch_outbox"
    [column "id" SUuid PRIMARY_KEY;
     references (column "job_id" SUuid NOT_NULL) "jobs" "id";
     server_default (column "status" (SString 20) NOT_NULL) "'pending'";
     server_default (column "attempts" SInteger NOT_NULL) "0";
     server_default (column "created_at" STimestamptz NOT_NULL) "now()";
     column "published_at" STimestamptz NULLABLE]
    []
    [index "ix_dispatch_outbox_status_created" [asc "status"; asc "created_at"] NOT_UNIQUE None].

Definition notification_outbox_table : table :=
  mkTable "notification_outbox"
    [column "id" SUuid PRIMARY_KEY;
     references (column "job_id" SUuid NOT_NULL) "jobs" "id";
     column "user_id" (SString 64) NOT_NULL;
     column "channel" (SString 20) NOT_NULL;
     column "destination" (SString 255) NOT_NULL;
     column "event_type" (SString 40) NOT_NULL;
     server_default (column "payload" SJsonb NOT_NULL) "'{}'::jsonb";
     server_default (column "status" (SString 20) NOT_NULL) "'pending'";
     server_default (column "attempts" SInteger NOT_NULL) "0";
     server_default (column "next_attempt_at" STimestamptz NOT_NULL) "now()";
     column "dedupe_key" (SString 160) NOT_NULL;
     column "last_error" SText NULLABLE;
     server_default (column "created_at" STimestamptz NOT_NULL) "now()";
     column "sent_at" STimestamptz NULLABLE]
    []
    [index "uq_notification_dedupe_key" [asc "dedupe_key"] UNIQUE None;
     index "ix_notification_status_next_attempt" [asc "status"; asc "next_attempt_at"]
        NOT_UNIQUE None].

Definition metadata : schema :=
  [jobs_table; job_attempts_table; job_events_table; dispatch_outbox_table; notification_outbox_table].

(** * The migration *)

Inductive operation :=
| create_table (name : string) (columns : list sql_column) (checks : list sql_check)
| create_index (name table : string) (columns : list index_column) (unique : bool)
    (where_ : option string)
| drop_table (name : string).

Definition upgrade : list operation :=
  [ create_table "jobs"
      [column "id" SUuid PRIMARY_KEY;
       column "user_id" (SString 64) NOT_NULL;
       column "type" (SString 40) NOT_NULL;
       column "status" (SString 20) NOT_NULL;
       column "priority" (SString 10) NOT_NULL;
       server_default (column "payload" SJsonb NOT_NULL) "'{}'::jsonb";
       column "result" SJsonb NULLABLE;
       column "error_code" (SString 64) NULLABLE;
       column "error_message" SText NULLABLE;
       server_default (column "progress" SInteger NOT_NULL) "0";
       server_default (column "attempts" SInteger NOT_NULL) "0";
       column "max_attempts" SInteger NOT_NULL;
       column "idempotency_key" (SString 128) NULLABLE;
       column "next_attempt_at" STimestamptz NULLABLE;
       column "cancellation_requested_at" STimestamptz NULLABLE;
       column "cancel_reason" SText NULLABLE;
       column "locked_by" (SString 64) NULLABLE;
       column "lock_expires_at" STimestamptz NULLABLE;
       column "heartbeat_at" STimestamptz NULLABLE;
       column "last_dispatched_at" STimestamptz NULLABLE;
       column "dead_lettered_at" STimestamptz NULLABLE;
       server_default (column "created_at" STimestamptz NOT_NULL) "now()";
       column "queued_at" STimestamptz NULLABLE;
       column "started_at" STimestamptz NULLABLE;
       column "completed_at" STimestamptz NULLABLE;
       server_default (column "updated_at" STimestamptz NOT_NULL) "now()"]
      [check "ck_jobs_progress_range" [at_least "progress" 0; at_most "progress" 100];
       check "ck_jobs_max_attempts_positive" [at_least "max_attempts" 1]];
    create_index "ix_jobs_status" "jobs" [asc "status"] NOT_UNIQUE None;
    create_index "ix_jobs_status_next_attempt_at" "jobs"
        [asc "status"; asc "next_attempt_at"] NOT_UNIQUE None;
    create_index "ix_jobs_status_lock_expires_at" "jobs"
        [asc "status"; asc "lock_expires_at"] NOT_UNIQUE None;
    create_index "ix_jobs_status_last_dispatched_at" "jobs"
        [asc "status"; asc "last_dispatched_at"] NOT_UNIQUE None;
    create_index "ix_jobs_user_created" "jobs"
        [asc "user_id"; desc "created_at"; desc "id"] NOT_UNIQUE None;
    create_index "uq_jobs_user_idempotency_key" "jobs"
        [asc "user_id"; asc "idempotency_key"] UNIQUE (Some "idempotency_key IS NOT NULL");
    create_table "job_attempts"
      [column "id" SUuid PRIMARY_KEY;
       references (column "job_id" SUuid NOT_NULL) "jobs" "id";
       column "attempt_number" SInteger NOT_NULL;
       column "worker_id" (SString 64) NOT_NULL;
       column "status" (SString 20) NOT_NULL;
       server_default (column "started_at" STimestamptz NOT_NULL) "now()";
       column "completed_at" STimestamptz NULLABLE;
       column "error_code" (SString 64) NULLABLE;
       column "error_message" SText NULLABLE]
      [];
    create_index "uq_job_attempt_number" "job_attempts"
        [asc "job_id"; asc "attempt_number"] UNIQUE None;
    create_table "job_events"
      [column "id" SUuid PRIMARY_KEY;
       references (column "job_id" SUuid NOT_NULL) "jobs" "id";
       column "event_type" (SString 40) NOT_NULL;
       column "from_status" (SString 20) NULLABLE;
       column "to_status" (SString 20) NULLABLE;
       server_default (column "detail" SJsonb NOT_NULL) "'{}'::jsonb";
       server_default (column "created_at" STimestamptz NOT_NULL) "now()"]
      [];
    create_index "ix_job_events_job_created" "job_events"
        [asc "job_id"; desc "created_at"; desc "id"] NOT_UNIQUE None;
    create_table "dispatch_outbox"
      [column "id" SUuid PRIMARY_KEY;
       references (column "job_id" SUuid NOT_NULL) "jobs" "id";
       server_default (column "status" (SString 20) NOT_NULL) "'pending'";
       server_default (column "attempts" SInteger NOT_NULL) "0";
       server_default (column "created_at" STimestamptz NOT_NULL) "now()";
       column "published_at" STimestamptz NULLABLE]
      [];
    create_index "ix_dispatch_outbox_status_created" "dispatch_outbox"
        [asc "status"; asc "created_at"] NOT_UNIQUE None;
    create_table "notification_outbox"
      [column "id" SUuid PRIMARY_KEY;
       references (column "job_id" SUuid NOT_NULL) "jobs" "id";
       column "user_id" (SString 64) NOT_NULL;
       column "channel" (SString 20) NOT_NULL;
       column "destination" (SString 255) NOT_NULL;
       column "event_type" (SString 40) NOT_NULL;
       server_default (column "payload" SJsonb NOT_NULL) "'{}'::jsonb";
       server_default (column "status" (SString 20) NOT_NULL) "'pending'";
       server_default (column "attempts" SInteger NOT_NULL) "0";
       server_default (column "next_attempt_at" STimestamptz NOT_NULL) "now()";
       column "dedupe_key" (SString 160) NOT_NULL;
       column "last_error" SText NULLABLE;
       server_default (column "created_at" STimestamptz NOT_NULL) "now()";
       column "sent_at" STimestamptz NULLABLE]
      [];
    create_index "uq_notification_dedupe_key" "notification_outbox" [asc "dedupe_key"] UNIQUE None;
    create_index "ix_notification_status_next_attempt" "notification_outbox"
        [asc "status"; asc "next_attempt_at"] NOT_UNIQUE None ].

Definition downgrade : list operation :=
  [ drop_table "notification_outbox";
    drop_table "dispatch_outbox";
    drop_table "job_events";
    drop_table "job_attempts";
    drop_table "jobs" ].

(** ** What an operation does, [None] when the database refuses it *)

Definition table_named (name : string) (s : schema) : option table :=
  List.find (λ t, String.eqb (t_name t) name) s.

Definition has_column (name : string) (t : table) : bool :=
  existsb (λ c, String.eqb (c_name c) name) (t_columns t).

(** The columns a foreign key of the column refers to. *)
Definition reference_ok (s : schema) (c : sql_column) : bool :=
  match c_references c with
  | Some (t, k) => match table_named t s with Some t => has_column k t | None => false end
  | None => true
  end.

Definition refers_to (name : string) (t : table) : bool :=
  existsb (λ c, match c_references c with Some (n, _) => String.eqb n name | None => false end)
    (t_columns t).

Definition index_name_free (name : string) (s : schema) : bool :=
  forallb (λ t, forallb (λ x, negb (String.eqb (ix_name x) name)) (t_indexes t)) s.

Definition apply_operation (o : operation) (s : schema) : option schema :=
  match o with
  | create_table name columns checks =>
      match table_named name s with
      | Some _ => None
      | None => if forallb (reference_ok s) columns
                then Some (s ++ [mkTable name columns checks []]) else None
      end
  | create_index name table columns unique where_ =>
      match table_named table s with
      | None => None
      | Some t =>
          if index_name_free name s && forallb (λ c, has_column c.1 t) columns
          then Some (map (λ t,
                 if String.eqb (t_name t) table
                 then mkTable (t_name t) (t_columns t) (t_checks t)
                        (t_indexes t ++ [index name columns unique where_])
                 else t) s)
          else None
      end
  | drop_table name =>
      match table_named name s with
      | None => None
      | Some _ =>
          let rest := filter (λ t, negb (String.eqb (t_name t) name) = true) s in
          if existsb (refers_to name) rest then None else Some rest
      end
  end.

Fixpoint run_operations (l : list operation) (s : schema) : option schema :=
  match l with
  | [] => Some s
  | o :: l' => s' ← apply_operation o s; run_operations l' s'
  end.

(** The schema up to the order of the indexes of a table. *)
Definition same_table (t u : table) : Prop :=
  t_name t = t_name u ∧ t_columns t = t_columns u ∧ t_checks t = t_checks u
  ∧ t_indexes t ≡ₚ t_indexes u.

Definition same_schema : schema → schema → Prop := Forall2 same_table.

(** * Rows *)

Inductive value :=
| VUuid (u : uuid) | VStr (s : string) | VInt (n : Z) | VJson (v : json) | VTime (t : datetime)
| VNull.

Definition row : Type := list (string * value).

(** Is a value that is not null one of the type? *)
Definition fits (ty : sql_type) (v : value) : bool :=
  match ty, v with
  | SUuid, VUuid _ | STimestamptz, VTime _ => true
  | SText, VStr s => pg_text s
  | SJsonb, VJson v => jsonb v
  | SString n, VStr s => varchar n s
  | SInteger, VInt n => int4 n
  | _, _ => false
  end.

Definition accepts (c : sql_column) (v : value) : bool :=
  match v with VNull => c_nullable c | _ => fits (c_type c) v end.

(** The row has the columns of the table, in order, each with a value it accepts. *)
Fixpoint conforms (cs : list sql_column) (r : row) : bool :=
  match cs, r with
  | [], [] => true
  | c :: cs', (name, v) :: r' => String.eqb (c_name c) name && (accepts c v && conforms cs' r')
  | _, _ => false
  end.

Definition field (name : string) (r : row) : value :=
  match List.find (λ p, String.eqb p.1 name) r with Some p => p.2 | None => VNull end.

(** A comparison with NULL is not false. *)
Definition holds (r : row) (c : comparison) : bool :=
  match c with
  | at_least name n => match field name r with VInt x => n <=? x | _ => true end
  | at_most name n => match field name r with VInt x => x <=? n | _ => true end
  end.

Definition checks_hold (t : table) (r : row) : bool :=
  forallb (λ k, forallb (holds r) (ck_conjuncts k)) (t_checks t).

(** Values that a unique index takes for the same: nulls are all different. *)
Definition same_value (v w : value) : bool :=
  match v, w with
  | VUuid a, VUuid b => (a =? b)%N
  | VStr a, VStr b => String.eqb a b
  | VInt a, VInt b => a =? b
  | _, _ => false
  end.

(** Do two rows violate a unique index? *)
Definition conflict (x : sql_index) (r s : row) : bool :=
  ix_unique x && forallb (λ c, same_value (field c.1 r) (field c.1 s)) (ix_columns x).

Definition v_opt {A} (f : A → value) (o : option A) : value :=
  match o with Some a => f a | None => VNull end.

Definition job_row (j : Job) : row :=
  [("id", VUuid (j_id j)); ("user_id", VStr (j_user_id j)); ("type", VStr (JobType_value (j_type j)));
   ("status", VStr (JobStatus_value (j_status j)));
   ("priority", VStr (JobPriority_value (j_priority j))); ("payload", VJson (JDict (j_payload j)));
   ("result", v_opt (λ d, VJson (JDict d)) (j_result j)); ("error_code", v_opt VStr (j_error_code j));
   ("error_message", v_opt VStr (j_error_message j)); ("progress", VInt (j_progress j));
   ("attempts", VInt (j_attempts j)); ("max_attempts", VInt (j_max_attempts j));
   ("idempotency_key", v_opt VStr (j_idempotency_key j));
   ("next_attempt_at", v_opt VTime (j_next_attempt_at j));
   ("cancellation_requested_at", v_opt VTime (j_cancellation_requested_at j));
   ("cancel_reason", v_opt VStr (j_cancel_reason j)); ("locked_by", v_opt VStr (j_locked_by j));
   ("lock_expires_at", v_opt VTime (j_lock_expires_at j));
   ("heartbeat_at", v_opt VTime (j_heartbeat_at j));
   ("last_dispatched_at", v_opt VTime (j_last_dispatched_at j));
   ("dead_lettered_at", v_opt VTime (j_dead_lettered_at j)); ("created_at", VTime (j_created_at j));
   ("queued_at", v_opt VTime (j_queued_at j)); ("started_at", v_opt VTime (j_started_at j));
   ("completed_at", v_opt VTime (j_completed_at j)); ("updated_at", VTime (j_updated_at j))].

Definition attempt_row (a : JobAttempt) : row :=
  [("id", VUuid (a_id a)); ("job_id", VUuid (a_job_id a));
   ("attempt_number", VInt (a_attempt_number a)); ("worker_id", VStr (a_worker_id a));
   ("status", VStr (JobStatus_value (a_status a))); ("started_at", VTime (a_started_at a));
   ("completed_at", v_opt VTime (a_completed_at a)); ("error_code", v_opt VStr (a_error_code a));
   ("error_message", v_opt VStr (a_error_message a))].

Definition event_row (e : JobEvent) : row :=
  [("id", VUuid (e_id e)); ("job_id", VUuid (e_job_id e));
   ("event_type", VStr (JobEventType_value (e_event_type e)));
   ("from_status", v_opt (λ s, VStr (JobStatus_value s)) (e_from_status e));
   ("to_status", v_opt (λ s, VStr (JobStatus_value s)) (e_to_status e));
   ("detail", VJson (JDict (e_detail e))); ("created_at", VTime (e_created_at e))].

Definition dispatch_row_of (o : DispatchOutbox) : row :=
  [("id", VUuid (d_id o)); ("job_id", VUuid (d_job_id o));
   ("status", VStr (OutboxStatus.OutboxStatus_value (d_status o))); ("attempts", VInt (d_attempts o));
   ("created_at", VTime (d_created_at o)); ("published_at", v_opt VTime (d_published_at o))].

Definition notification_row (n : NotificationOutbox) : row :=
  [("id", VUuid (n_id n)); ("job_id", VUuid (n_job_id n)); ("user_id", VStr (n_user_id n));
   ("channel", VStr (NotificationChannel.NotificationChannel_value (n_channel n)));
   ("destination", VStr (n_destination n));
   ("event_type", VStr (JobEventType_value (n_event_type n)));
   ("payload", VJson (JDict (n_payload n)));
   ("status", VStr (NotificationStatus.NotificationStatus_value (n_status n))); ("attempts", VInt (n_attempts n));
   ("next_attempt_at", VTime (n_next_attempt_at n)); ("dedupe_key", VStr (n_dedupe_key n));
   ("last_error", v_opt VStr (n_last_error n)); ("created_at", VTime (n_created_at n));
   ("sent_at", v_opt VTime (n_sent_at n))].

(** ** Statements, by the description of the schema *)

(** The rows of each table. *)
Definition stored_rows : Type := string → list row.

Definition rows_of (d : Db) : stored_rows := λ name,
  if String.eqb name "jobs" then job_row <$> (map_to_list (jobs d)).*2
  else if String.eqb name "job_attempts" then attempt_row <$> (map_to_list (job_attempts d)).*2
  else if String.eqb name "job_events" then event_row <$> (map_to_list (job_events d)).*2
  else if String.eqb name "dispatch_outbox" then dispatch_row_of <$> (map_to_list (dispatch_outbox d)).*2
  else if String.eqb name "notification_outbox"
  then notification_row <$> (map_to_list (notification_outbox d)).*2
  else [].

Definition same_primary_key (t : table) (r s : row) : bool :=
  forallb (λ c, same_value (field (c_name c) r) (field (c_name c) s)) (List.filter c_primary (t_columns t)).

Definition primary_key_free (t : table) (others : list row) (r : row) : bool :=
  forallb (λ s, negb (same_primary_key t r s)) others.

Definition unique_indexes_hold (t : table) (others : list row) (r : row) : bool :=
  forallb (λ x, forallb (λ s, negb (conflict x r s)) others) (t_indexes t).

Definition foreign_keys_hold (t : table) (db : stored_rows) (r : row) : bool :=
  forallb (λ c, match c_references c, field (c_name c) r with
                | None, _ | _, VNull => true
                | Some (u, k), v => existsb (λ s, same_value v (field k s)) (db u)
                end) (t_columns t).

(** The error of an INSERT, if any. *)
Definition insert_error (db : stored_rows) (t : table) (r : row) : option db_error :=
  if negb (conforms (t_columns t) r) then Some BadValue
  else if checks_hold t r && primary_key_free t (db (t_name t)) r
          && unique_indexes_hold t (db (t_name t)) r && foreign_keys_hold t db r
  then None else Some ConstraintViolated.

(** The error of an UPDATE that leaves the row [r] and changes no key. *)
Definition update_error (t : table) (r : row) : option db_error :=
  if negb (conforms (t_columns t) r) then Some BadValue
  else if checks_hold t r then None else Some ConstraintViolated.
