(* ===== verification/Effects.v ===== *)
(** The effects of the program.

    - [ListServer] is the contract of the Redis server: the commands the queue
      uses, with their documented laws over the contents of each list.
    - [Env] gathers what the program obtains from outside: clock readings, fresh
      UUIDv7s, random draws, row locks held by other sessions, the reachability
      of Redis, the answers of webhooks.  Each is a sequence indexed by a counter
      of the world, so a definition is executable for any environment and a
      theorem holds for all of them.
    - [M] is the state-and-exception monad of one atomic action (a statement, or
      a whole transaction); [co] is an asyncio coroutine, whose awaits are the
      points where other tasks run. *)

From S2P Require Import Prelude PyStr PyFloat Json Domain Uuid Models.

(** * The Redis server *)

Class ListServer (S : Type) := {
  server_empty : S;
  lpush : string → string → S → S;
  (** [BRPOP keys timeout]: the first non-empty list in order, from its tail. *)
  brpop : list string → S → option (string * string) * S;
  llen : string → S → Z;
  (** the list stored at a key, head first *)
  contents : S → string → list string;
  contents_empty : ∀ k, contents server_empty k = [];
  contents_lpush : ∀ k v s k',
    contents (lpush k v s) k' = if String.eqb k k' then v :: contents s k' else contents s k';
  brpop_none : ∀ keys s, Forall (λ k, contents s k = []) keys →
    (brpop keys s).1 = None ∧ ∀ k, contents (brpop keys s).2 k = contents s k;
  brpop_some : ∀ ks1 k ks2 l v s, Forall (λ k, contents s k = []) ks1 →
    contents s k = l ++ [v] →
    (brpop (ks1 ++ k :: ks2) s).1 = Some (k, v)
    ∧ ∀ k', contents (brpop (ks1 ++ k :: ks2) s).2 k' = if String.eqb k k' then l else contents s k';
  llen_contents : ∀ k s, llen k s = Z.of_nat (length (contents s k));
}.

(** * The environment *)

(** What a webhook answers: accepted, an [httpx.HTTPError] (whose text holds no
    NUL), or another exception ([httpx.InvalidURL] is not an [HTTPError]). *)
Inductive http_result := HttpOk | HttpFailed (message : string) | HttpRaised (message : string).

Class Env := {
  redis_state : Type;
  redis_server :: ListServer redis_state;
  (** [datetime.now(timezone.utc)], in microseconds since the epoch *)
  clock : nat → datetime;
  (** [uuid_utils.uuid7()] *)
  uuid7 : nat → uuid;
  uuid7_range : ∀ n, (uuid7 n < uuid_bound)%N;
  (** [random.random()] *)
  random_draw : nat → pyfloat;
  (** rows that [FOR UPDATE SKIP LOCKED] finds locked by another session *)
  locked_row : nat → uuid → bool;
  (** does a Redis command raise [RedisError]? *)
  redis_down : nat → bool;
  (** the answer to a signed POST: destination, body, signature *)
  http_post : nat → string → string → string → http_result;
  (** [hmac.new(secret, body, sha256).hexdigest()] *)
  hmac_sha256_hex : string → string → string;
  (** an ORM object, as loaded, after an UPDATE of its row in the same session:
      the object and the new row ([synchronize_session]) *)
  session_sync : Job → Job → Job;
  (** [datetime.fromisoformat] on a text that [isoformat] does not write: the
      instant it denotes, which may have no UTC time stamp, or [None] for
      [ValueError] *)
  other_isoformat : string → option datetime;
  (** the text of an exception raised by a library *)
  library_text : nat → string;
}.

(** A delivered notification: its row and the request or log line it made. *)
Record delivery := mkDelivery {
  dl_notification : uuid;
  dl_destination : string;
  dl_body : string;
  dl_signature : option string;
}.

Section Effects.
Context {env : Env}.

(** The shared state of the processes. *)
Record World := mkWorld {
  w_db : Db;
  w_redis : redis_state;
  w_sent : list delivery;    (** deliveries made, latest first *)
  w_txn_now : datetime;      (** [now()] of the current transaction *)
  w_count : nat;             (** readings made of the environment *)
}.

#[export] Instance World_settable : Settable World := {| eta_expand := λ w,
  mkWorld (w_db w) (w_redis w) (w_sent w) (w_txn_now w) (w_count w) |}.

Definition init_world : World := mkWorld empty_db server_empty [] 0 0.

(** * Atomic actions *)

Definition M (A : Type) : Type := World → res A * World.

#[export] Instance M_ret : MRet M := λ A a w, (Ok a, w).
#[export] Instance M_bind : MBind M := λ A B f m w,
  match m w with
  | (Ok a, w') => f a w'
  | (Err e, w') => (Err e, w')
  end.

Definition raise {A} (e : exn) : M A := λ w, (Err e, w).
Definition of_res {A} (r : res A) : M A := λ w, (r, w).

(** [try: m except e: ...], keeping the outcome as a value. *)
Definition try_M {A} (m : M A) : M (res A) := λ w, let '(r, w') := m w in (Ok r, w').

(** One reading of the environment. *)
Definition reading {A} (f : nat → A) : M A := λ w,
  (Ok (f (w_count w)), w <| w_count := S (w_count w) |>).

Definition clock_now : M datetime := reading clock.
Definition generate_uuid7 : M uuid := reading uuid7.

(** A reading of the database. *)
Definition query {A} (f : Db → A) : M A := λ w, (Ok (f (w_db w)), w).

Definition raise_db {A} (e : db_error) : M A :=
  text ← reading library_text;
  raise (match e with ConstraintViolated => IntegrityError text | BadValue => DataError text end).

(** A statement that may violate the schema. *)
Definition statement {A} (f : Db → db_error + (A * Db)) : M A := λ w,
  match f (w_db w) with
  | inr (a, d) => (Ok a, w <| w_db := d |>)
  | inl e => raise_db e w
  end.

Definition statement_ (f : Db → db_error + Db) : M unit :=
  statement (λ d, match f d with inr d' => inr (tt, d') | inl e => inl e end).

Definition modify_db (f : Db → Db) : M unit := λ w, (Ok tt, w <| w_db := f (w_db w) |>).

(** [func.now()] of the database: the start of the transaction. *)
Definition txn_now : M datetime := λ w, (Ok (w_txn_now w), w).

(** [async with session.begin(): body]: commit on return, roll the database
    back when [body] raises.  [start] is the database clock at BEGIN. *)
Definition transaction_at {A} (start : datetime) (body : M A) : M A := λ w,
  match body (w <| w_txn_now := start |>) with
  | (Ok a, w') => (Ok a, w')
  | (Err e, w') => (Err e, w' <| w_db := w_db w |>)
  end.

Definition transaction {A} (body : M A) : M A :=
  start ← clock_now; transaction_at start body.

(** A Redis command. *)
Definition redis_error {A} : M A :=
  text ← reading library_text; raise (RedisError text).

Definition on_redis {A} (f : redis_state → A * redis_state) : M A := λ w,
  let '(a, s) := f (w_redis w) in (Ok a, w <| w_redis := s |>).

Definition redis_command {A} (f : redis_state → A * redis_state) : M A :=
  down ← reading redis_down;
  if down : bool then redis_error else on_redis f.

Fixpoint for_each {A B} (l : list A) (f : A → M B) : M (list B) :=
  match l with
  | [] => mret []
  | a :: l' => b ← f a; bs ← for_each l' f; mret (b :: bs)
  end.

(** * Coroutines *)

Inductive co (A : Type) : Type :=
| Ret (a : A)
| Throw (e : exn)
| Await {B : Type} (m : M B) (k : res B → co A).
Arguments Ret {A} a.
Arguments Throw {A} e.
Arguments Await {A B} m k.

#[export] Instance co_ret : MRet co := @Ret.
#[export] Instance co_bind : MBind co := λ A B f,
  fix go (c : co A) : co B :=
    match c with
    | Ret a => f a
    | Throw e => Throw e
    | Await m k => Await m (λ r, go (k r))
    end.

(** An atomic action awaited in a coroutine. *)
Definition act {A} (m : M A) : co A :=
  Await m (λ r, match r with Ok a => Ret a | Err e => Throw e end).

(** [try: c except e: ...]: the outcome as a value. *)
Fixpoint try_co {A} (c : co A) : co (res A) :=
  match c with
  | Ret a => Ret (Ok a)
  | Throw e => Ret (Err e)
  | Await m k => Await m (λ r, try_co (k r))
  end.

Fixpoint co_for_each {A} (l : list A) (f : A → co unit) : co unit :=
  match l with
  | [] => Ret tt
  | a :: l' => _ ← f a; co_for_each l' f
  end.

(** A coroutine run alone, without interruption. *)
Fixpoint run {A} (c : co A) : M A :=
  match c with
  | Ret a => mret a
  | Throw e => raise e
  | Await m k => λ w, let '(r, w') := m w in run (k r) w'
  end.
End Effects.

Arguments Ret {_ A} a.
Arguments Throw {_ A} e.
Arguments Await {_ A B} m k.
