(* ===== verification/Repositories.v ===== *)
(** The repositories: every statement the program sends to the database, one
    Module per class of [repositories/].  Each definition is an action of [M];
    the column assignments of an UPDATE are written in the order of the source. *)

From S2P Require Import Prelude PyStr PyFloat Json Domain Uuid DateTime Pagination Models Effects.

(** * Queries with ORDER BY, LIMIT and FOR UPDATE SKIP LOCKED *)

(** Ascending order of nullable keys, NULL first. *)
Definition nulls_first (a b : option Z) : bool :=
  match a, b with
  | None, _ => true
  | Some _, None => false
  | Some x, Some y => x <=? y
  end.

Definition by_key {A} (key : A → option Z) (a b : A) : Prop :=
  nulls_first (key a) (key b) = true.

#[export] Instance by_key_dec {A} (key : A → option Z) : RelDecision (by_key key).
Proof. intros a b. unfold by_key. apply _. Defined.

Definition where_unlocked {A} (guard : A → bool) (locked : uuid → bool) (p : uuid * A) : Prop :=
  guard p.2 && negb (locked p.1) = true.

#[export] Instance where_unlocked_dec {A} (guard : A → bool) locked p :
  Decision (where_unlocked guard locked p).
Proof. unfold where_unlocked. apply _. Defined.

Definition select_rows {A} (guard : A → bool) (key : A → option Z) (limit : Z)
  (locked : uuid → bool) (t : gmap uuid A) : list A :=
  take (Z.to_nat limit)
    (merge_sort (by_key key) (filter (where_unlocked guard locked) (map_to_list t)).*2).

(** The row comparison [(created_at, id) < (created_at', id')] of SQL. *)
Definition row_before (a b : datetime * uuid) : bool :=
  (a.1 <? b.1) || (a.1 =? b.1) && (a.2 <? b.2)%N.

(** [ORDER BY created_at DESC, id DESC LIMIT limit]. *)
Definition latest_first {A} (key : A → datetime * uuid) (a b : A) : Prop :=
  row_before (key a) (key b) = false.

#[export] Instance latest_first_dec {A} (key : A → datetime * uuid) :
  RelDecision (latest_first key).
Proof. intros a b. unfold latest_first. apply _. Defined.

Definition select_latest {A} (guard : A → bool) (key : A → datetime * uuid) (limit : Z)
  (t : gmap uuid A) : list A :=
  take (Z.to_nat limit)
    (merge_sort (latest_first key) (filter (λ p : uuid * A, guard p.2 = true) (map_to_list t)).*2).

(** SQL comparisons with a nullable column are not true on NULL. *)
Definition le_opt (a : option Z) (b : Z) : bool :=
  match a with Some x => x <=? b | None => false end.
Definition lt_opt (a : option Z) (b : Z) : bool :=
  match a with Some x => x <? b | None => false end.
Definition is_null {A} (a : option A) : bool :=
  match a with None => true | Some _ => false end.

Definition status_in (l : list JobStatus) (j : Job) : bool := bool_decide (j_status j ∈ l).
Definition status_is (s : JobStatus) (j : Job) : bool := bool_decide (j_status j = s).

(** [Job.locked_by == worker_id]: not true on NULL. *)
Definition locked_by (worker_id : string) (j : Job) : bool :=
  match j_locked_by j with Some w => String.eqb w worker_id | None => false end.

(** [timedelta(seconds=n)] in microseconds. *)
Definition seconds (n : Z) : Z := n * us_per_second.

Definition coalesce {A} (a : option A) (b : A) : option A :=
  match a with Some x => Some x | None => Some b end.

Section Statements.
Context {env : Env}.

Definition select_for_update {A} (table : Db → gmap uuid A) (guard : A → bool)
  (key : A → option Z) (limit : Z) : M (list A) :=
  locked ← reading locked_row;
  query (λ d, select_rows guard key limit locked (table d)).

(** [rowcount > 0] of an UPDATE of one job. *)
Definition update_jobs (i : uuid) (guard : Job → bool) (values : Job → Job) : M bool :=
  rowcount ← statement (update_job i guard values);
  mret (0 <? rowcount).
End Statements.

(** * job_repository.py *)

Module JobRepository.
Section JobRepository.
Context {env : Env}.
Import JobStatus.

Definition _TERMINAL : list JobStatus := StateMachine.TERMINAL_STATUSES.
Definition _CLAIMABLE : list JobStatus := [QUEUED; RETRYING].
Definition _FINALIZABLE : list JobStatus := [RUNNING; CANCELLING].
Definition _INACTIVE_CANCELLABLE : list JobStatus := [PENDING; QUEUED; RETRYING].
Definition _EXPIRABLE : list JobStatus := [PENDING; QUEUED].

Definition add (job : Job) : M unit := statement_ (insert_job job).

Definition get (job_id : uuid) : M (option Job) := query (λ d, jobs d !! job_id).

Definition owned_by (user_id : string) (j : option Job) : option Job :=
  match j with
  | Some j => if String.eqb (j_user_id j) user_id then Some j else None
  | None => None
  end.

Definition get_for_user (job_id : uuid) (user_id : string) : M (option Job) :=
  query (λ d, owned_by user_id (jobs d !! job_id)).

Definition lock_for_user (job_id : uuid) (user_id : string) : M (option Job) :=
  query (λ d, owned_by user_id (jobs d !! job_id)).

Definition has_key (user_id key : string) (j : Job) : bool :=
  String.eqb (j_user_id j) user_id
  && match j_idempotency_key j with Some k => String.eqb k key | None => false end.

Definition get_by_idempotency_key (user_id idempotency_key : string) : M (option Job) :=
  query (λ d, snd <$> List.find (λ p, has_key user_id idempotency_key p.2) (map_to_list (jobs d))).

Definition created_key (j : Job) : datetime * uuid := (j_created_at j, j_id j).

(** The WHERE clauses of [list_for_user]. *)
Definition listed (user_id : string) (status : option JobStatus) (job_type : option JobType)
  (cursor : option CursorPosition) (j : Job) : bool :=
  String.eqb (j_user_id j) user_id
  && match status with Some s => status_is s j | None => true end
  && match job_type with Some t => bool_decide (j_type j = t) | None => true end
  && match cursor with
     | Some c => row_before (created_key j) (cp_created_at c, cp_job_id c)
     | None => true
     end.

(** The instant of a cursor is bound as a UTC time stamp; the driver refuses one
    that its offset takes out of the years 1 to 9999. *)
Definition cursor_binds (cursor : option CursorPosition) : bool :=
  match cursor with Some c => valid_datetime (cp_created_at c) | None => true end.

Definition list_for_user (user_id : string) (status : option JobStatus)
  (job_type : option JobType) (cursor : option CursorPosition) (limit : Z) : M (list Job) :=
  if cursor_binds cursor
  then query (λ d, select_latest (listed user_id status job_type cursor) created_key limit (jobs d))
  else raise_db BadValue.

(** [SELECT status, count(...) ... GROUP BY status]: a status without a job has
    no group. *)
Definition status_counts (user_id : string) : M (list (JobStatus * Z)) :=
  query (λ d, filter (λ g : JobStatus * Z, 0 < g.2)
    (map (λ s, (s, Z.of_nat (length (filter
       (λ p : uuid * Job, String.eqb (j_user_id p.2) user_id && status_is s p.2 = true)
       (map_to_list (jobs d)))))) JobStatus.all)).

Definition count_active_for_user (user_id : string) : M Z :=
  query (λ d, Z.of_nat (length (filter
    (λ p : uuid * Job, String.eqb (j_user_id p.2) user_id && negb (status_in _TERMINAL p.2) = true)
    (map_to_list (jobs d))))).

Definition find_due_retries (now : datetime) (limit : Z) : M (list Job) :=
  select_for_update jobs
    (λ j, status_is RETRYING j && le_opt (j_next_attempt_at j) now) j_next_attempt_at limit.

Definition find_expired_leases (now : datetime) (limit : Z) : M (list Job) :=
  select_for_update jobs
    (λ j, status_is RUNNING j && lt_opt (j_lock_expires_at j) now) j_lock_expires_at limit.

Definition find_stuck_queued (cutoff : datetime) (limit : Z) : M (list Job) :=
  select_for_update jobs
    (λ j, status_is QUEUED j
          && (is_null (j_last_dispatched_at j) || lt_opt (j_last_dispatched_at j) cutoff))
    j_last_dispatched_at limit.

Definition mark_redispatched (job_id : uuid) (now : datetime) : M bool :=
  update_jobs job_id (status_is QUEUED) (λ j,
    j <| j_last_dispatched_at := Some now |> <| j_updated_at := now |>).

Definition find_expirable (cutoff : datetime) (limit : Z) : M (list Job) :=
  select_for_update jobs
    (λ j, status_in _EXPIRABLE j && (j_created_at j <? cutoff)) (λ j, Some (j_created_at j)) limit.

(** [RETURNING attempts]: the new number of attempts, [None] when no row
    matched. *)
Definition claim_for_execution (job_id : uuid) (worker_id : string) (lease_seconds : Z)
  (now : datetime) : M (option Z) :=
  claimed ← update_jobs job_id
    (λ j, status_in _CLAIMABLE j && is_null (j_cancellation_requested_at j))
    (λ j, j <| j_status := RUNNING |>
            <| j_attempts := j_attempts j + 1 |>
            <| j_locked_by := Some worker_id |>
            <| j_lock_expires_at := Some (now + seconds lease_seconds) |>
            <| j_heartbeat_at := Some now |>
            <| j_started_at := coalesce (j_started_at j) now |>
            <| j_next_attempt_at := None |>
            <| j_updated_at := now |>);
  query (λ d, if claimed : bool then j_attempts <$> jobs d !! job_id else None).

Definition heartbeat (job_id : uuid) (worker_id : string) (lease_seconds : Z) (now : datetime)
  : M bool :=
  update_jobs job_id (λ j, locked_by worker_id j && status_is RUNNING j) (λ j,
    j <| j_heartbeat_at := Some now |>
      <| j_lock_expires_at := Some (now + seconds lease_seconds) |>
      <| j_updated_at := now |>).

Definition update_progress (job_id : uuid) (worker_id : string) (progress lease_seconds : Z)
  (now : datetime) : M bool :=
  update_jobs job_id (λ j, locked_by worker_id j && status_in _FINALIZABLE j) (λ j,
    j <| j_progress := progress |>
      <| j_heartbeat_at := Some now |>
      <| j_lock_expires_at := Some (now + seconds lease_seconds) |>
      <| j_updated_at := now |>).

Definition mark_succeeded (job_id : uuid) (worker_id : string) (result : dict) (now : datetime)
  : M bool :=
  update_jobs job_id (λ j, locked_by worker_id j && status_in _FINALIZABLE j) (λ j,
    j <| j_status := SUCCEEDED |>
      <| j_result := Some result |>
      <| j_progress := 100 |>
      <| j_completed_at := Some now |>
      <| j_locked_by := None |>
      <| j_lock_expires_at := None |>
      <| j_error_code := None |>
      <| j_error_message := None |>
      <| j_updated_at := now |>).

Definition mark_failed (job_id : uuid) (worker_id error_code error_message : string)
  (now : datetime) (dead_lettered : bool) : M bool :=
  update_jobs job_id (λ j, locked_by worker_id j && status_in _FINALIZABLE j) (λ j,
    j <| j_status := FAILED |>
      <| j_error_code := Some error_code |>
      <| j_error_message := Some error_message |>
      <| j_completed_at := Some now |>
      <| j_locked_by := None |>
      <| j_lock_expires_at := None |>
      <| j_dead_lettered_at := if dead_lettered then Some now else None |>
      <| j_updated_at := now |>).

Definition schedule_retry (job_id : uuid) (worker_id error_code error_message : string)
  (next_attempt_at now : datetime) : M bool :=
  update_jobs job_id (λ j, locked_by worker_id j && status_is RUNNING j) (λ j,
    j <| j_status := RETRYING |>
      <| j_error_code := Some error_code |>
      <| j_error_message := Some error_message |>
      <| j_next_attempt_at := Some next_attempt_at |>
      <| j_locked_by := None |>
      <| j_lock_expires_at := None |>
      <| j_updated_at := now |>).

Definition finalize_cancelled_by_worker (job_id : uuid) (worker_id : string) (now : datetime)
  : M bool :=
  update_jobs job_id (λ j, locked_by worker_id j && status_in _FINALIZABLE j) (λ j,
    j <| j_status := CANCELLED |>
      <| j_completed_at := Some now |>
      <| j_locked_by := None |>
      <| j_lock_expires_at := None |>
      <| j_updated_at := now |>).

Definition cancel_inactive (job_id : uuid) (reason : option string) (now : datetime) : M bool :=
  update_jobs job_id (status_in _INACTIVE_CANCELLABLE) (λ j,
    j <| j_status := CANCELLED |>
      <| j_cancellation_requested_at := Some now |>
      <| j_cancel_reason := reason |>
      <| j_completed_at := Some now |>
      <| j_next_attempt_at := None |>
      <| j_updated_at := now |>).

Definition request_running_cancellation (job_id : uuid) (reason : option string) (now : datetime)
  : M bool :=
  update_jobs job_id (status_is RUNNING) (λ j,
    j <| j_status := CANCELLING |>
      <| j_cancellation_requested_at := Some now |>
      <| j_cancel_reason := reason |>
      <| j_updated_at := now |>).

Definition mark_queued (job_id : uuid) (now : datetime) : M bool :=
  update_jobs job_id (status_is PENDING) (λ j,
    j <| j_status := QUEUED |>
      <| j_queued_at := Some now |>
      <| j_last_dispatched_at := Some now |>
      <| j_updated_at := now |>).

Definition requeue_expired_lease (job_id : uuid) (now : datetime) : M bool :=
  update_jobs job_id (status_is RUNNING) (λ j,
    j <| j_status := QUEUED |>
      <| j_queued_at := Some now |>
      <| j_last_dispatched_at := Some now |>
      <| j_locked_by := None |>
      <| j_lock_expires_at := None |>
      <| j_updated_at := now |>).

Definition fail_expired_lease (job_id : uuid) (error_code error_message : string)
  (now : datetime) (dead_lettered : bool) : M bool :=
  update_jobs job_id (status_is RUNNING) (λ j,
    j <| j_status := FAILED |>
      <| j_error_code := Some error_code |>
      <| j_error_message := Some error_message |>
      <| j_completed_at := Some now |>
      <| j_locked_by := None |>
      <| j_lock_expires_at := None |>
      <| j_dead_lettered_at := if dead_lettered then Some now else None |>
      <| j_updated_at := now |>).

Definition move_retry_to_queued (job_id : uuid) (now : datetime) : M bool :=
  update_jobs job_id (status_is RETRYING) (λ j,
    j <| j_status := QUEUED |>
      <| j_queued_at := Some now |>
      <| j_last_dispatched_at := Some now |>
      <| j_next_attempt_at := None |>
      <| j_updated_at := now |>).

Definition expire (job_id : uuid) (now : datetime) : M bool :=
  update_jobs job_id (status_in _EXPIRABLE) (λ j,
    j <| j_status := EXPIRED |>
      <| j_completed_at := Some now |>
      <| j_updated_at := now |>).
End JobRepository.
End JobRepository.

(** * job_attempt_repository.py *)

Module JobAttemptRepository.
Section JobAttemptRepository.
Context {env : Env}.

Definition start (job_id : uuid) (attempt_number : Z) (worker_id : string) (now : datetime)
  : M uuid :=
  attempt_id ← generate_uuid7;
  _ ← statement_ (insert_attempt (mkJobAttempt attempt_id job_id attempt_number worker_id
        JobStatus.RUNNING now None None None));
  mret attempt_id.

Definition finish (attempt_id : uuid) (status : JobStatus) (now : datetime)
  (error_code error_message : option string) : M unit :=
  statement_ (update_attempt attempt_id (λ a,
    a <| a_status := status |>
      <| a_completed_at := Some now |>
      <| a_error_code := error_code |>
      <| a_error_message := error_message |>)).
End JobAttemptRepository.
End JobAttemptRepository.

(** * job_event_repository.py *)

Module JobEventRepository.
Section JobEventRepository.
Context {env : Env}.

Definition record (job_id : uuid) (event_type : JobEventType)
  (from_status to_status : option JobStatus) (detail : dict) : M unit :=
  event_id ← generate_uuid7;
  created_at ← txn_now;
  statement_ (insert_event
    (mkJobEvent event_id job_id event_type from_status to_status detail created_at)).

Definition list_for_job (job_id : uuid) (limit : Z) : M (list JobEvent) :=
  query (λ d, select_latest (λ e, (e_job_id e =? job_id)%N) (λ e, (e_created_at e, e_id e)) limit
    (job_events d)).
End JobEventRepository.
End JobEventRepository.

(** * dispatch_outbox_repository.py *)

Module DispatchOutboxRepository.
Section DispatchOutboxRepository.
Context {env : Env}.
Import OutboxStatus.

Definition add (job_id : uuid) : M unit :=
  outbox_id ← generate_uuid7;
  created_at ← txn_now;
  statement_ (insert_dispatch (mkDispatchOutbox outbox_id job_id PENDING 0 created_at None)).

Definition claim_pending (limit : Z) : M (list DispatchOutbox) :=
  select_for_update dispatch_outbox (λ o, bool_decide (d_status o = PENDING))
    (λ o, Some (d_created_at o)) limit.

Definition mark_published (outbox_id : uuid) (now : datetime) : M unit :=
  modify_db (update_dispatch outbox_id (λ o,
    o <| d_status := PUBLISHED |>
      <| d_published_at := Some now |>
      <| d_attempts := d_attempts o + 1 |>)).

Definition count_pending : M Z :=
  query (λ d, Z.of_nat (length (filter
    (λ p : uuid * DispatchOutbox, d_status p.2 = PENDING) (map_to_list (dispatch_outbox d))))).
End DispatchOutboxRepository.
End DispatchOutboxRepository.

(** * notification_outbox_repository.py *)

Module NotificationOutboxRepository.
Section NotificationOutboxRepository.
Context {env : Env}.
Import NotificationStatus.

Definition enqueue (job_id : uuid) (user_id : string) (channel : NotificationChannel)
  (destination : string) (event_type : JobEventType) (payload : dict) (dedupe_key : string)
  (now : datetime) : M bool :=
  notification_id ← generate_uuid7;
  created_at ← txn_now;
  statement (insert_notification
    (mkNotificationOutbox notification_id job_id user_id channel destination event_type payload
       PENDING 0 now dedupe_key None created_at None)).

Definition claim_due (now : datetime) (limit : Z) : M (list NotificationOutbox) :=
  select_for_update notification_outbox
    (λ n, bool_decide (n_status n = PENDING) && (n_next_attempt_at n <=? now))
    (λ n, Some (n_next_attempt_at n)) limit.

Definition mark_sent (notification_id : uuid) (now : datetime) : M unit :=
  modify_db (update_notification notification_id (λ n,
    n <| n_status := SENT |>
      <| n_sent_at := Some now |>
      <| n_attempts := n_attempts n + 1 |>
      <| n_last_error := None |>)).

Definition reschedule (notification_id : uuid) (next_attempt_at : datetime) (last_error : string)
  : M unit :=
  modify_db (update_notification notification_id (λ n,
    n <| n_attempts := n_attempts n + 1 |>
      <| n_next_attempt_at := next_attempt_at |>
      <| n_last_error := Some last_error |>)).

Definition mark_failed (notification_id : uuid) (last_error : string) : M unit :=
  modify_db (update_notification notification_id (λ n,
    n <| n_status := FAILED |>
      <| n_attempts := n_attempts n + 1 |>
      <| n_last_error := Some last_error |>)).
End NotificationOutboxRepository.
End NotificationOutboxRepository.
