(* ===== verification/Queue.v ===== *)
(** [queue/redis_queue.py]: the delivery queue over three Redis lists, one per
    priority, and a dead-letter list.  Everything is defined over the
    [ListServer] interface; [ListMap] is an instance of it. *)

From S2P Require Import Prelude PyStr Json Domain Uuid Models Effects.

(** * An implementation of the server's contract *)

Module ListMap.
Abbreviation server := (gmap string (list string)) (only parsing).

Definition contents (s : server) (k : string) : list string := default [] (s !! k).

Definition lpush (k v : string) (s : server) : server := <[k := v :: contents s k]> s.

(** The tail of a list: Redis pops from the right. *)
Fixpoint pop_last (l : list string) : option (list string * string) :=
  match l with
  | [] => None
  | [v] => Some ([], v)
  | v :: l' => match pop_last l' with
               | Some (init, last) => Some (v :: init, last)
               | None => None
               end
  end.

Fixpoint brpop (keys : list string) (s : server) : option (string * string) * server :=
  match keys with
  | [] => (None, s)
  | k :: keys' =>
      match pop_last (contents s k) with
      | Some (init, last) => (Some (k, last), <[k := init]> s)
      | None => brpop keys' s
      end
  end.

Lemma pop_last_app l v : pop_last (l ++ [v]) = Some (l, v).
Proof.
  induction l as [|x l IH]; [done|]. simpl. rewrite IH. by destruct l.
Qed.

Lemma contents_insert s k l k' :
  contents (<[k := l]> s) k' = if String.eqb k k' then l else contents s k'.
Proof.
  unfold contents. destruct (String.eqb_spec k k') as [->|Hne].
  - by rewrite lookup_insert_eq.
  - by rewrite lookup_insert_ne.
Qed.

Lemma brpop_skip ks1 ks2 s :
  Forall (λ k, contents s k = []) ks1 → brpop (ks1 ++ ks2) s = brpop ks2 s.
Proof. induction 1 as [|k ks Hk _ IH]; [done|]. simpl. by rewrite Hk. Qed.

#[export] Program Instance list_map_server : ListServer server := {|
  Effects.server_empty := ∅;
  Effects.lpush := lpush;
  Effects.brpop := brpop;
  Effects.llen k s := Z.of_nat (length (contents s k));
  Effects.contents := contents;
|}.
Next Obligation. intros k. done. Qed.
Next Obligation. intros k v s k'. unfold lpush. rewrite contents_insert.
  destruct (String.eqb_spec k k') as [->|]; done. Qed.
Next Obligation.
  intros keys s H. pose proof (brpop_skip keys [] s H) as Hb. rewrite app_nil_r in Hb.
  by rewrite Hb.
Qed.
Next Obligation.
  intros ks1 k ks2 l v s H Hk. rewrite (brpop_skip _ _ _ H). simpl.
  rewrite Hk, pop_last_app. split; [done|]. intros k'. apply contents_insert.
Qed.
Next Obligation. done. Qed.
End ListMap.

(** * The queue *)

Module JobQueue.
Section JobQueue.
Context {env : Env}.
Variable namespace : string.
Import JobPriority.

Definition _PRIORITY_ORDER : list JobPriority := [HIGH; NORMAL; LOW].

Definition _queue_key (priority : JobPriority) : string :=
  namespace +:+ ":queue:" +:+ JobPriority_value priority.

Definition _priority_keys : list string := map _queue_key _PRIORITY_ORDER.
Definition _dead_letter_key : string := namespace +:+ ":dead_letter".

Definition publish (job_id : string) (priority : JobPriority) : M unit :=
  redis_command (λ s, (tt, lpush (_queue_key priority) job_id s)).

Definition consume : M (option string) :=
  result ← redis_command (brpop _priority_keys);
  mret (snd <$> result).

Definition dead_letter (job_id : string) : M unit :=
  redis_command (λ s, (tt, lpush _dead_letter_key job_id s)).

Definition depth : M Z :=
  lengths ← for_each _priority_keys (λ key, redis_command (λ s, (llen key s, s)));
  mret (foldl Z.add 0 lengths).

Definition dead_letter_depth : M Z := redis_command (λ s, (llen _dead_letter_key s, s)).

(** Redis answers PING, or the command fails. *)
Definition ping : M bool := redis_command (λ s, (true, s)).
End JobQueue.
End JobQueue.
