(* ===== verification/Notifications.v ===== *)
(** [services/notification_service.py]: the terminal notification written in
    the transaction of the terminal state change, and the delivery loop of the
    scheduler. *)

From S2P Require Import Prelude PyStr PyFloat Json Domain Config Uuid Models Effects.
From S2P Require Import Repositories.

Section Notifications.
Context {env : Env}.

(** A numeric error of Python as an exception, with its message. *)
Definition num_exn (message : string) (e : num_error) : exn :=
  match e with
  | OverflowErr => OverflowError message
  | ValueErr => ValueError message
  | ZeroDivErr => ZeroDivisionError message
  end.

Definition of_num_result {A} (message : string) (r : num_result A) : M A :=
  match r with inr a => mret a | inl e => raise (num_exn message e) end.

Definition json_opt_str (s : option string) : json :=
  match s with Some s => JStr s | None => JNull end.
Definition json_opt_dict (d : option dict) : json :=
  match d with Some d => JDict d | None => JNull end.

Definition dedupe_key (job_id : uuid) (event_type : JobEventType) : string :=
  uuid_str job_id +:+ ":" +:+ JobEventType_value event_type.

Definition notification_route (job : Job) : NotificationChannel * string :=
  let webhook := dict_get "notify_webhook" JNull (j_payload job) in
  if py_bool webhook then (NotificationChannel.WEBHOOK, py_str webhook)
  else (NotificationChannel.LOG, j_user_id job).

Definition notification_payload (job : Job) (event_type : JobEventType) (status : JobStatus)
  (result : option dict) (error_code error_message : option string) : dict :=
  [("job_id", JStr (uuid_str (j_id job)));
   ("type", JStr (JobType_value (j_type job)));
   ("status", JStr (JobStatus_value status));
   ("event", JStr (JobEventType_value event_type));
   ("result", json_opt_dict result);
   ("error_code", json_opt_str error_code);
   ("error_message", json_opt_str error_message)].

Definition enqueue_terminal_notification (job : Job) (event_type : JobEventType)
  (status : JobStatus) (result : option dict) (error_code error_message : option string)
  (now : datetime) : M unit :=
  let '(channel, destination) := notification_route job in
  _ ← NotificationOutboxRepository.enqueue (j_id job) (j_user_id job) channel destination
        event_type (notification_payload job event_type status result error_code error_message)
        (dedupe_key (j_id job) event_type) now;
  mret tt.

(** * NotificationDeliveryService *)

Variable settings : Settings.

Definition record_delivery (d : delivery) : M unit := λ w,
  (Ok tt, w <| w_sent := d :: w_sent w |>).

Definition _deliver_webhook (n : NotificationOutbox) : M unit :=
  let body := dumps (JDict (n_payload n)) in
  let signature := hmac_sha256_hex (notification_signing_secret settings) body in
  answer ← reading (λ i, http_post i (n_destination n) body signature);
  match answer with
  | HttpOk => record_delivery (mkDelivery (n_id n) (n_destination n) body (Some signature))
  | HttpFailed message => raise (HTTPError message)
  | HttpRaised message => raise (OtherError message)
  end.

Definition _deliver (n : NotificationOutbox) : M unit :=
  if bool_decide (n_channel n = NotificationChannel.WEBHOOK) then _deliver_webhook n
  else record_delivery (mkDelivery (n_id n) (n_destination n) EmptyString None).

Definition _on_failure (n : NotificationOutbox) (message : string) : M unit :=
  let attempts := n_attempts n + 1 in
  if notification_max_attempts settings <=? attempts
  then NotificationOutboxRepository.mark_failed (n_id n) message
  else
    draw ← reading random_draw;
    backoff ← of_num_result "int too large to convert to float"
                (compute_backoff_seconds attempts settings draw);
    now ← clock_now;
    delay ← of_num_result "cannot convert float to integer" (timedelta_of_seconds backoff);
    NotificationOutboxRepository.reschedule (n_id n) (now + delay) message.

Definition _attempt (n : NotificationOutbox) : M unit :=
  outcome ← try_M (_deliver n);
  match outcome with
  | Ok _ => now ← clock_now; NotificationOutboxRepository.mark_sent (n_id n) now
  | Err (HTTPError message) => _on_failure n message
  | Err e => raise e
  end.

Definition due_body (batch_size : Z) : M Z :=
  now ← clock_now;
  due ← NotificationOutboxRepository.claim_due now batch_size;
  _ ← for_each due _attempt;
  mret (Z.of_nat (length due)).

Definition dispatch_due (batch_size : Z) : co Z := act (transaction (due_body batch_size)).
End Notifications.
