(* ===== verification/Catalog.v ===== *)
(** [domain/job_catalog.py]: payload normalisation and the handler of each job
    type, as coroutines over the callbacks of [ExecutionContext]. *)

From S2P Require Import Prelude PyStr PyFloat Json Domain Config Uuid Models Effects.

(** * Normalisation *)

(** [except (TypeError, ValueError) as error: raise ValueError(message)]; an
    [OverflowError] is not caught. *)
Definition coerce_error (message overflow : string) (e : conv_error) : exn :=
  match e with
  | TypeErr | NumErr ValueErr => ValueError message
  | NumErr OverflowErr => OverflowError overflow
  | NumErr ZeroDivErr => ZeroDivisionError message
  end.

Definition _coerce_int (payload : dict) (key : string) (default minimum : Z) : res Z :=
  let raw := dict_get key (JInt default) payload in
  match py_int raw with
  | inl e => Err (coerce_error (key +:+ " must be an integer")
                   "cannot convert float infinity to integer" e)
  | inr value =>
      if value <? minimum
      then Err (ValueError (key +:+ " must be at least " +:+ str_of_int minimum))
      else Ok value
  end.

Definition _coerce_float (payload : dict) (key : string) (default minimum : pyfloat) : res pyfloat :=
  let raw := dict_get key (JFloat default) payload in
  match py_float raw with
  | inl e => Err (coerce_error (key +:+ " must be a number")
                   "int too large to convert to float" e)
  | inr value =>
      if fltb value minimum
      then Err (ValueError (key +:+ " must be at least " +:+ repr_float minimum))
      else Ok value
  end.

Definition _normalize_sleep (payload : dict) (settings : Settings) : res dict :=
  duration ← _coerce_float payload "duration_seconds" (job_sleep_default_seconds settings) fzero;
  steps ← _coerce_int payload "steps" (handler_progress_steps settings) 1;
  Ok [("duration_seconds", JFloat duration); ("steps", JInt steps)].

Definition _normalize_report (payload : dict) (settings : Settings) : res dict :=
  pages ← _coerce_int payload "pages" (job_report_default_pages settings) 1;
  Ok [("pages", JInt pages)].

Definition _normalize_flaky (payload : dict) (settings : Settings) : res dict :=
  fail_times ← _coerce_int payload "fail_times" 1 0;
  Ok [("fail_times", JInt fail_times)].

Definition _normalize_always_fail (payload : dict) (settings : Settings) : res dict := Ok [].

Definition _normalize_llm_summary (payload : dict) (settings : Settings) : res dict :=
  let prompt := py_str (dict_get "prompt" (JStr EmptyString) payload) in
  tokens ← _coerce_int payload "tokens" (job_llm_default_tokens settings) 1;
  Ok [("prompt", JStr prompt);
      ("tokens", JInt tokens);
      ("simulate_rate_limit", JBool (py_bool (dict_get "simulate_rate_limit" (JBool false) payload)))].

Definition _NORMALIZERS (job_type : JobType) : option (dict → Settings → res dict) :=
  match job_type with
  | JobType.SLEEP => Some _normalize_sleep
  | JobType.REPORT => Some _normalize_report
  | JobType.FLAKY => Some _normalize_flaky
  | JobType.ALWAYS_FAIL => Some _normalize_always_fail
  | JobType.LLM_SUMMARY => Some _normalize_llm_summary
  end.

Definition normalize_payload (job_type : JobType) (payload : dict) (settings : Settings) : res dict :=
  match _NORMALIZERS job_type with
  | None => Err (UnknownJobTypeError ("unknown job type " +:+ JobType_str job_type))
  | Some normalizer => normalizer payload settings
  end.

(** * Handlers *)

Section Handlers.
Context {env : Env}.

Record ExecutionContext := mkExecutionContext {
  ctx_job_id : string;
  ctx_attempt : Z;
  ctx_settings : Settings;
  ctx_check_cancelled : co unit;
  ctx_report_progress : Z → co unit;
  ctx_sleep : pyfloat → co unit;
}.

Definition co_res {A} (r : res A) : co A := match r with Ok a => Ret a | Err e => Throw e end.

(** [payload[key]] *)
Definition dict_item (key : string) (d : dict) : co json :=
  match dict_find key d with Some v => Ret v | None => Throw (KeyError key) end.

Definition conv_exn (e : conv_error) : exn :=
  match e with
  | TypeErr => TypeError "argument must be a string or a real number"
  | NumErr ValueErr => ValueError "invalid literal"
  | NumErr OverflowErr => OverflowError "cannot convert float infinity to integer"
  | NumErr ZeroDivErr => ZeroDivisionError "division by zero"
  end.

Definition co_conv {A} (r : conv_result A) : co A :=
  match r with inr a => Ret a | inl e => Throw (conv_exn e) end.

Definition co_num {A} (r : num_result A) : co A := co_conv (of_num r).

(** [int((index + 1) / steps * 100)] *)
Definition progress_at (index steps : Z) : num_result Z :=
  match int_truediv (index + 1) steps with
  | inl e => inl e
  | inr q => match fmul_int q 100 with
             | inl e => inl e
             | inr x => int_of_float x
             end
  end.

(** [for index in range(steps)]: the indexes still to run, in order. *)
Fixpoint run_steps_from (index : Z) (left : nat) (steps : Z) (step_seconds : pyfloat)
  (context : ExecutionContext) : co unit :=
  match left with
  | O => Ret tt
  | S left' =>
      _ ← ctx_check_cancelled context;
      _ ← ctx_sleep context step_seconds;
      progress ← co_num (progress_at index steps);
      _ ← ctx_report_progress context progress;
      run_steps_from (index + 1) left' steps step_seconds context
  end.

Definition _run_steps (steps : Z) (step_seconds : pyfloat) (context : ExecutionContext) : co unit :=
  run_steps_from 0 (Z.to_nat steps) steps step_seconds context.

Definition JobHandler : Type := dict → ExecutionContext → co dict.

Definition _handle_sleep : JobHandler := λ payload context,
  d ← dict_item "duration_seconds" payload;
  duration ← co_conv (py_float d);
  s ← dict_item "steps" payload;
  steps ← co_conv (py_int s);
  fsteps ← co_num (float_of_int steps);
  step_seconds ← co_num (fdiv duration fsteps);
  _ ← _run_steps steps step_seconds context;
  Ret [("slept_seconds", JFloat duration); ("steps", JInt steps)].

Definition _handle_report : JobHandler := λ payload context,
  p ← dict_item "pages" payload;
  pages ← co_conv (py_int p);
  _ ← _run_steps pages (handler_step_seconds (ctx_settings context)) context;
  Ret [("report_ref", JStr ("report://" +:+ ctx_job_id context)); ("pages", JInt pages)].

Definition _handle_flaky : JobHandler := λ payload context,
  f ← dict_item "fail_times" payload;
  fail_times ← co_conv (py_int f);
  _ ← ctx_check_cancelled context;
  if ctx_attempt context <=? fail_times
  then Throw (RetryableError "TRANSIENT_FAILURE"
                ("flaky job failing on attempt " +:+ str_of_int (ctx_attempt context)))
  else Ret [("succeeded_on_attempt", JInt (ctx_attempt context))].

Definition _handle_always_fail : JobHandler := λ payload context,
  Throw (NonRetryableError "INVALID_INPUT" "job type always_fail never succeeds by design").

(** [len(prompt)]: the prompt is text once normalised. *)
Definition prompt_summary (prompt : json) : co string :=
  match prompt with
  | JStr s =>
      Ret (if String.eqb s EmptyString then "summary of empty prompt"
           else "summary of " +:+ str_of_int (Z.of_nat (String.length s)) +:+ " character prompt")
  | JList l =>
      Ret (if py_bool prompt
           then "summary of " +:+ str_of_int (Z.of_nat (length l)) +:+ " character prompt"
           else "summary of empty prompt")
  | JDict d =>
      Ret (if py_bool prompt
           then "summary of " +:+ str_of_int (Z.of_nat (length d)) +:+ " character prompt"
           else "summary of empty prompt")
  | _ => if py_bool prompt then Throw (TypeError "object has no len()")
         else Ret "summary of empty prompt"
  end.

Definition _handle_llm_summary : JobHandler := λ payload context,
  t ← dict_item "tokens" payload;
  tokens ← co_conv (py_int t);
  limited ← dict_item "simulate_rate_limit" payload;
  if py_bool limited && (ctx_attempt context =? 1)
  then Throw (RetryableError "PROVIDER_RATE_LIMIT"
                "language model provider rate limit, retry with backoff")
  else
    _ ← _run_steps (handler_progress_steps (ctx_settings context))
          (handler_step_seconds (ctx_settings context)) context;
    prompt ← dict_item "prompt" payload;
    summary ← prompt_summary prompt;
    Ret [("summary", JStr summary); ("tokens_used", JInt tokens)].

Definition _HANDLERS (job_type : JobType) : option JobHandler :=
  match job_type with
  | JobType.SLEEP => Some _handle_sleep
  | JobType.REPORT => Some _handle_report
  | JobType.FLAKY => Some _handle_flaky
  | JobType.ALWAYS_FAIL => Some _handle_always_fail
  | JobType.LLM_SUMMARY => Some _handle_llm_summary
  end.

Definition get_handler (job_type : JobType) : res JobHandler :=
  match _HANDLERS job_type with
  | None => Err (UnknownJobTypeError ("unknown job type " +:+ JobType_str job_type))
  | Some handler => Ok handler
  end.
End Handlers.
