(* ===== verification/Submission.v ===== *)
(** [services/job_submission_service.py]: validation, idempotency and admission
    of a submission, and the transaction that creates the job, its first event
    and its dispatch-outbox row. *)

From S2P Require Import Prelude PyStr PyFloat Json Domain Config Uuid Models Effects.
From S2P Require Import Repositories Catalog.

Section Submission.
Context {env : Env}.
Variable settings : Settings.

Definition submitted_detail (job_type : JobType) (priority : JobPriority) : dict :=
  [("type", JStr (JobType_value job_type)); ("priority", JStr (JobPriority_value priority))].

Definition new_job (job_id : uuid) (user_id : string) (job_type : JobType) (payload : dict)
  (priority : JobPriority) (max_attempts : Z) (idempotency_key : option string)
  (now : datetime) : Job :=
  {| j_id := job_id;
     j_user_id := user_id;
     j_type := job_type;
     j_status := JobStatus.PENDING;
     j_priority := priority;
     j_payload := payload;
     j_result := None;
     j_error_code := None;
     j_error_message := None;
     j_progress := 0;
     j_attempts := 0;
     j_max_attempts := max_attempts;
     j_idempotency_key := idempotency_key;
     j_next_attempt_at := None;
     j_cancellation_requested_at := None;
     j_cancel_reason := None;
     j_locked_by := None;
     j_lock_expires_at := None;
     j_heartbeat_at := None;
     j_last_dispatched_at := None;
     j_dead_lettered_at := None;
     j_created_at := now;
     j_queued_at := None;
     j_started_at := None;
     j_completed_at := None;
     j_updated_at := now |}.

(** The statements of [_create] after the admission check. *)
Definition create_rows (user_id : string) (job_type : JobType) (payload : dict)
  (priority : JobPriority) (max_attempts : Z) (idempotency_key : option string)
  (now : datetime) : M Job :=
  job_id ← generate_uuid7;
  let job := new_job job_id user_id job_type payload priority max_attempts idempotency_key now in
  _ ← JobRepository.add job;
  _ ← JobEventRepository.record job_id JobEventType.SUBMITTED None (Some JobStatus.PENDING)
        (submitted_detail job_type priority);
  _ ← DispatchOutboxRepository.add job_id;
  mret job.

(** The count reads committed rows and takes no lock, so other transactions
    can commit between it and the INSERT: two actions of one transaction. *)
Definition _create (user_id : string) (job_type : JobType) (payload : dict)
  (priority : JobPriority) (max_attempts : Z) (idempotency_key : option string) : co Job :=
  now ← act clock_now;
  start ← act clock_now;
  active ← act (JobRepository.count_active_for_user user_id);
  if max_in_flight_jobs_per_user settings <=? active
  then Throw (TooManyActiveJobsError (max_in_flight_jobs_per_user settings))
  else act (transaction_at start
         (create_rows user_id job_type payload priority max_attempts idempotency_key now)).

Definition _find_existing (user_id idempotency_key : string) : co (option Job) :=
  act (transaction (JobRepository.get_by_idempotency_key user_id idempotency_key)).

(** [_find_existing], when there is a key. *)
Definition find_by_key (user_id : string) (idempotency_key : option string) : co (option Job) :=
  match idempotency_key with
  | Some key => _find_existing user_id key
  | None => Ret None
  end.

(** The payload checks and the normalised payload. *)
Definition normalized_payload (job_type : JobType) (payload : dict) : res dict :=
  if job_max_payload_bytes settings <? Z.of_nat (String.length (dumps (JDict payload)))
  then Err (PayloadTooLargeError "payload exceeds the maximum allowed size")
  else
    normalized ← normalize_payload job_type payload settings;
    Ok (if dict_mem "notify_webhook" payload
        then dict_set "notify_webhook"
               (JStr (py_str (dict_get "notify_webhook" JNull payload))) normalized
        else normalized).

Definition submit (user_id : string) (job_type : JobType) (payload : dict)
  (priority : JobPriority) (max_attempts : option Z) (idempotency_key : option string) : co Job :=
  normalized ← co_res (normalized_payload job_type payload);
  let attempts_limit := default (job_default_max_attempts settings) max_attempts in
  existing ← find_by_key user_id idempotency_key;
  match existing with
  | Some job => Ret job
  | None =>
      outcome ← try_co (_create user_id job_type normalized priority attempts_limit idempotency_key);
      match outcome with
      | Ok job => Ret job
      | Err (IntegrityError text) =>
          existing ← find_by_key user_id idempotency_key;
          match existing with
          | Some job => Ret job
          | None => Throw (IntegrityError text)
          end
      | Err e => Throw e
      end
  end.
End Submission.
