(* ===== verification/Cancellation.v ===== *)
(** [services/job_cancellation_service.py]: cancellation of a job by its owner,
    one transaction over the locked row. *)

From S2P Require Import Prelude PyStr PyFloat Json Domain Config Uuid Models Effects.
From S2P Require Import Repositories Notifications.

Record CancelOutcome := mkCancelOutcome {
  co_found : bool;
  co_status : option JobStatus;
  co_conflict : bool;
}.

Section Cancellation.
Context {env : Env}.
Import JobStatus.

Definition reason_detail (reason : option string) : dict := [("reason", json_opt_str reason)].

(** The body of the transaction of [cancel]. *)
Definition cancel_locked (job_id : uuid) (user_id : string) (reason : option string)
  (now : datetime) : M CancelOutcome :=
  locked ← JobRepository.lock_for_user job_id user_id;
  match locked with
  | None => mret (mkCancelOutcome false None false)
  | Some job =>
      let status := j_status job in
      if bool_decide (status ∈ StateMachine.TERMINAL_STATUSES)
      then mret (mkCancelOutcome true (Some status) true)
      else if bool_decide (status = CANCELLING)
      then mret (mkCancelOutcome true (Some CANCELLING) false)
      else if bool_decide (status = RUNNING) then
        _ ← JobRepository.request_running_cancellation job_id reason now;
        _ ← JobEventRepository.record job_id JobEventType.CANCEL_REQUESTED (Some status)
              (Some CANCELLING) (reason_detail reason);
        mret (mkCancelOutcome true (Some CANCELLING) false)
      else
        _ ← JobRepository.cancel_inactive job_id reason now;
        _ ← JobEventRepository.record job_id JobEventType.CANCELLED (Some status)
              (Some CANCELLED) (reason_detail reason);
        _ ← enqueue_terminal_notification job JobEventType.CANCELLED CANCELLED None None None now;
        mret (mkCancelOutcome true (Some CANCELLED) false)
  end.

Definition cancel (job_id : uuid) (user_id : string) (reason : option string) : co CancelOutcome :=
  now ← act clock_now;
  act (transaction (cancel_locked job_id user_id reason now)).
End Cancellation.
