(* ===== verification/Execution.v ===== *)
(** [services/job_execution_service.py]: one execution of a job by a worker:
    claim, run the handler, and finalize, each database access its own
    transaction. *)

From S2P Require Import Prelude PyStr PyFloat Json Domain Config Uuid DateTime Models Effects.
From S2P Require Import Repositories Queue Notifications Catalog.

Record _JobSnapshot := mkJobSnapshot {
  s_type : JobType;
  s_payload : dict;
  s_max_attempts : Z;
}.

Record Claim := mkClaim {
  c_attempt_number : Z;
  c_attempt_id : uuid;
  c_snapshot : _JobSnapshot;
}.

Section Execution.
Context {env : Env}.
Variable settings : Settings.
Variable worker_id : string.

Let publish_dead_letter (job_id : uuid) : M unit :=
  JobQueue.dead_letter (redis_queue_namespace settings) (uuid_str job_id).

(** ** Claim *)

Definition started_detail (attempt_number : Z) : dict :=
  [("attempt", JInt attempt_number); ("worker_id", JStr worker_id)].

Definition claim_body (job_id : uuid) (now : datetime) : M (option Claim) :=
  found ← JobRepository.get job_id;
  match found with
  | None => mret None
  | Some job =>
      claimed ← JobRepository.claim_for_execution job_id worker_id
                  (worker_lease_seconds settings) now;
      match claimed with
      | None => mret None
      | Some attempt_number =>
          attempt_id ← JobAttemptRepository.start job_id attempt_number worker_id now;
          _ ← JobEventRepository.record job_id JobEventType.STARTED None
                (Some JobStatus.RUNNING) (started_detail attempt_number);
          mret (Some (mkClaim attempt_number attempt_id
                        (mkJobSnapshot (j_type job) (j_payload job) (j_max_attempts job))))
      end
  end.

Definition _claim (job_id : uuid) : co (option Claim) :=
  now ← act clock_now;
  act (transaction (claim_body job_id now)).

(** ** Callbacks of the handler *)

Definition cancellation_requested_body (job_id : uuid) : M bool :=
  found ← JobRepository.get job_id;
  mret match found with
       | Some job => negb (is_null (j_cancellation_requested_at job))
       | None => false
       end.

Definition _cancellation_requested (job_id : uuid) : co bool :=
  act (transaction (cancellation_requested_body job_id)).

Definition _check_cancelled (job_id : uuid) : co unit :=
  requested ← _cancellation_requested job_id;
  if requested : bool then Throw JobCancelledError else Ret tt.

(** The time stamp is an argument of [update_progress], read inside the
    transaction. *)
Definition report_progress_body (job_id : uuid) (progress : Z) : M unit :=
  now ← clock_now;
  _ ← JobRepository.update_progress job_id worker_id progress (worker_lease_seconds settings) now;
  mret tt.

Definition _report_progress (job_id : uuid) (progress : Z) : co unit :=
  act (transaction (report_progress_body job_id progress)).

(** One beat of [_heartbeat_loop]. *)
Definition heartbeat_body (job_id : uuid) : M unit :=
  now ← clock_now;
  _ ← JobRepository.heartbeat job_id worker_id (worker_lease_seconds settings) now;
  mret tt.

Definition heartbeat_beat (job_id : uuid) : co unit := act (transaction (heartbeat_body job_id)).

(** ** Finalization *)

Definition _mark_superseded (attempt_id : uuid) (now : datetime) : M unit :=
  JobAttemptRepository.finish attempt_id JobStatus.FAILED now (Some "SUPERSEDED")
    (Some "attempt superseded before finalize").

(** Shared shape of the finalizers: when the row is missing or the guarded
    UPDATE matched nothing, the attempt is superseded. *)
Definition succeeded_body (job_id attempt_id : uuid) (result : dict) (now : datetime) : M unit :=
  found ← JobRepository.get job_id;
  match found with
  | None => _mark_superseded attempt_id now
  | Some job =>
      marked ← JobRepository.mark_succeeded job_id worker_id result now;
      if negb marked then _mark_superseded attempt_id now
      else
        _ ← JobAttemptRepository.finish attempt_id JobStatus.SUCCEEDED now None None;
        _ ← JobEventRepository.record job_id JobEventType.SUCCEEDED None
              (Some JobStatus.SUCCEEDED) [];
        enqueue_terminal_notification job JobEventType.SUCCEEDED JobStatus.SUCCEEDED
          (Some result) None None now
  end.

Definition _finalize_succeeded (job_id attempt_id : uuid) (result : dict) : co unit :=
  now ← act clock_now;
  act (transaction (succeeded_body job_id attempt_id result now)).

Definition failed_detail (code : string) (dead_lettered : bool) : dict :=
  [("error_code", JStr code); ("dead_lettered", JBool dead_lettered)].

Definition failed_body (job_id attempt_id : uuid) (code message : string) (dead_lettered : bool)
  (now : datetime) : M bool :=
  found ← JobRepository.get job_id;
  match found with
  | None => _ ← _mark_superseded attempt_id now; mret false
  | Some job =>
      marked ← JobRepository.mark_failed job_id worker_id code message now dead_lettered;
      if negb marked then _ ← _mark_superseded attempt_id now; mret false
      else
        _ ← JobAttemptRepository.finish attempt_id JobStatus.FAILED now (Some code) (Some message);
        _ ← JobEventRepository.record job_id JobEventType.FAILED None (Some JobStatus.FAILED)
              (failed_detail code dead_lettered);
        _ ← enqueue_terminal_notification job JobEventType.FAILED JobStatus.FAILED None
              (Some code) (Some message) now;
        mret true
  end.

Definition _finalize_failed (job_id attempt_id : uuid) (code message : string)
  (dead_lettered : bool) : co bool :=
  now ← act clock_now;
  act (transaction (failed_body job_id attempt_id code message dead_lettered now)).

Definition retry_detail (code : string) (next_attempt_at : datetime) : dict :=
  [("error_code", JStr code); ("next_attempt_at", JStr (isoformat next_attempt_at))].

Definition retry_body (job_id attempt_id : uuid) (code message : string)
  (next_attempt_at now : datetime) : M unit :=
  scheduled ← JobRepository.schedule_retry job_id worker_id code message next_attempt_at now;
  if negb scheduled then _mark_superseded attempt_id now
  else
    _ ← JobAttemptRepository.finish attempt_id JobStatus.FAILED now (Some code) (Some message);
    JobEventRepository.record job_id JobEventType.RETRY_SCHEDULED (Some JobStatus.RUNNING)
      (Some JobStatus.RETRYING) (retry_detail code next_attempt_at).

Definition _schedule_retry (job_id attempt_id : uuid) (code message : string)
  (next_attempt_at : datetime) : co unit :=
  now ← act clock_now;
  act (transaction (retry_body job_id attempt_id code message next_attempt_at now)).

Definition cancelled_body (job_id attempt_id : uuid) (now : datetime) : M unit :=
  found ← JobRepository.get job_id;
  match found with
  | None => _mark_superseded attempt_id now
  | Some job =>
      marked ← JobRepository.finalize_cancelled_by_worker job_id worker_id now;
      if negb marked then _mark_superseded attempt_id now
      else
        _ ← JobAttemptRepository.finish attempt_id JobStatus.CANCELLED now None None;
        _ ← JobEventRepository.record job_id JobEventType.CANCELLED None
              (Some JobStatus.CANCELLED) [];
        enqueue_terminal_notification job JobEventType.CANCELLED JobStatus.CANCELLED
          None None None now
  end.

Definition _finalize_cancelled (job_id attempt_id : uuid) : co unit :=
  now ← act clock_now;
  act (transaction (cancelled_body job_id attempt_id now)).

(** The delay before the next attempt, in microseconds. *)
Definition retry_delay (attempt_number : Z) : M Z :=
  draw ← reading random_draw;
  backoff ← of_num_result "int too large to convert to float"
              (compute_backoff_seconds attempt_number settings draw);
  of_num_result "cannot convert float to integer" (timedelta_of_seconds backoff).

Definition _handle_retryable (job_id attempt_id : uuid) (attempt_number max_attempts : Z)
  (code message : string) : co unit :=
  requested ← _cancellation_requested job_id;
  if requested : bool then _finalize_cancelled job_id attempt_id
  else if max_attempts <=? attempt_number then
    failed ← _finalize_failed job_id attempt_id code message true;
    if failed : bool then act (publish_dead_letter job_id) else Ret tt
  else
    delay ← act (retry_delay attempt_number);
    now ← act clock_now;
    _schedule_retry job_id attempt_id code message (now + delay).

(** ** The whole execution *)

Definition execution_context (job_id : uuid) (attempt_number : Z) : ExecutionContext :=
  {| ctx_job_id := uuid_str job_id;
     ctx_attempt := attempt_number;
     ctx_settings := settings;
     ctx_check_cancelled := _check_cancelled job_id;
     ctx_report_progress := _report_progress job_id;
     ctx_sleep := λ _, act (mret tt) |}.

(** The [except] and [else] clauses. *)
Definition finalize (job_id : uuid) (claim : Claim) (outcome : res dict) : co unit :=
  let attempt_id := c_attempt_id claim in
  let attempt_number := c_attempt_number claim in
  let max_attempts := s_max_attempts (c_snapshot claim) in
  match outcome with
  | Ok result => _finalize_succeeded job_id attempt_id result
  | Err JobCancelledError => _finalize_cancelled job_id attempt_id
  | Err (NonRetryableError code message) =>
      _ ← _finalize_failed job_id attempt_id code message false; Ret tt
  | Err (RetryableError code message) =>
      _handle_retryable job_id attempt_id attempt_number max_attempts code message
  | Err error =>
      _handle_retryable job_id attempt_id attempt_number max_attempts "UNEXPECTED_ERROR"
        (exn_str error)
  end.

(** [execute].  The task of [_heartbeat_loop] runs beside it as a coroutine of its
    own, any number of [heartbeat_beat]s; stopping it changes nothing here, and
    awaiting it in [finally] raises nothing: a beat raises only when the connection
    to the database fails, and failures of the connection are not modelled
    ([heartbeat_returns] in [ExecutionSpec]). *)
Definition execute (job_id : uuid) : co bool :=
  claimed ← _claim job_id;
  match claimed with
  | None => Ret false
  | Some claim =>
      handler ← co_res (get_handler (s_type (c_snapshot claim)));
      outcome ← try_co (handler (s_payload (c_snapshot claim))
                          (execution_context job_id (c_attempt_number claim)));
      _ ← finalize job_id claim outcome;
      Ret true
  end.
End Execution.
