(* ===== verification/Scheduling.v ===== *)
(** The scheduler's control loops: [services/dispatch_service.py],
    [retry_service.py], [lease_service.py], [expiry_service.py], and the tick of
    [workers/scheduler.py] that runs them in order. *)

From S2P Require Import Prelude PyStr PyFloat Json Domain Config Uuid Models Effects.
From S2P Require Import Repositories Queue Notifications.

Section Scheduling.
Context {env : Env}.
Variable settings : Settings.

Let publish (job_id : string) (priority : JobPriority) : M unit :=
  JobQueue.publish (redis_queue_namespace settings) job_id priority.

Let dead_letter (job_id : string) : M unit :=
  JobQueue.dead_letter (redis_queue_namespace settings) job_id.

(** The ids and priorities published after the commit. *)
Definition publication (job : Job) : string * JobPriority := (uuid_str (j_id job), j_priority job).

Definition omap_list {A} (l : list (option A)) : list A := omap id l.

Definition publish_all (l : list (string * JobPriority)) : co unit :=
  co_for_each l (λ p, act (publish p.1 p.2)).

Definition count_of {A} (l : list A) : Z := Z.of_nat (length l).

(** * DispatchService *)

(** One row of the outbox; the outcome of [mark_queued] is not looked at. *)
Definition dispatch_row (now : datetime) (row : DispatchOutbox)
  : M (option (string * JobPriority)) :=
  found ← JobRepository.get (d_job_id row);
  _ ← DispatchOutboxRepository.mark_published (d_id row) now;
  match found with
  | None => mret None
  | Some job =>
      _ ← JobRepository.mark_queued (d_job_id row) now;
      _ ← JobEventRepository.record (d_job_id row) JobEventType.QUEUED
            (Some JobStatus.PENDING) (Some JobStatus.QUEUED) [];
      mret (Some (uuid_str (d_job_id row), j_priority job))
  end.

Definition dispatch_body (batch_size : Z) (now : datetime) : M (list (string * JobPriority)) :=
  rows ← DispatchOutboxRepository.claim_pending batch_size;
  published ← for_each rows (dispatch_row now);
  mret (omap_list published).

Definition dispatch_pending (batch_size : Z) : co Z :=
  now ← act clock_now;
  published ← act (transaction (dispatch_body batch_size now));
  _ ← publish_all published;
  Ret (count_of published).

Definition redeliver_row (job : Job) : M (string * JobPriority) :=
  now ← clock_now;
  _ ← JobRepository.mark_redispatched (j_id job) now;
  mret (publication job).

Definition redeliver_body (batch_size : Z) (cutoff : datetime) : M (list (string * JobPriority)) :=
  stuck ← JobRepository.find_stuck_queued cutoff batch_size;
  for_each stuck redeliver_row.

Definition redeliver_stuck (batch_size : Z) : co Z :=
  now ← act clock_now;
  republished ← act (transaction
    (redeliver_body batch_size (now - seconds (queue_stuck_seconds settings))));
  _ ← publish_all republished;
  Ret (count_of republished).

(** * RetryService *)

Definition promote_row (now : datetime) (job : Job) : M (option (string * JobPriority)) :=
  moved ← JobRepository.move_retry_to_queued (j_id job) now;
  if moved : bool then
    _ ← JobEventRepository.record (j_id job) JobEventType.QUEUED (Some JobStatus.RETRYING)
          (Some JobStatus.QUEUED) [("attempt", JInt (j_attempts job))];
    mret (Some (publication job))
  else mret None.

Definition promote_body (batch_size : Z) (now : datetime) : M (list (string * JobPriority)) :=
  due ← JobRepository.find_due_retries now batch_size;
  promoted ← for_each due (promote_row now);
  mret (omap_list promoted).

Definition promote_due (batch_size : Z) : co Z :=
  now ← act clock_now;
  promoted ← act (transaction (promote_body batch_size now));
  _ ← publish_all promoted;
  Ret (count_of promoted).

(** * LeaseService *)

Definition _LEASE_EXPIRED_CODE : string := "LEASE_EXPIRED".
Definition _LEASE_EXPIRED_MESSAGE : string := "worker lease expired and retries were exhausted".

(** What becomes of one expired lease. *)
Inductive reaped := Requeued (p : string * JobPriority) | DeadLettered (job_id : string).

Definition reap_row (now : datetime) (job : Job) : M (option reaped) :=
  if j_max_attempts job <=? j_attempts job then
    failed ← JobRepository.fail_expired_lease (j_id job) _LEASE_EXPIRED_CODE
               _LEASE_EXPIRED_MESSAGE now true;
    if failed : bool then
      _ ← JobEventRepository.record (j_id job) JobEventType.FAILED (Some JobStatus.RUNNING)
            (Some JobStatus.FAILED) [("reason", JStr "lease_expired")];
      _ ← enqueue_terminal_notification job JobEventType.FAILED JobStatus.FAILED None
            (Some _LEASE_EXPIRED_CODE) (Some _LEASE_EXPIRED_MESSAGE) now;
      mret (Some (DeadLettered (uuid_str (j_id job))))
    else mret None
  else
    requeued ← JobRepository.requeue_expired_lease (j_id job) now;
    if requeued : bool then
      _ ← JobEventRepository.record (j_id job) JobEventType.REQUEUED (Some JobStatus.RUNNING)
            (Some JobStatus.QUEUED) [("reason", JStr "lease_expired")];
      mret (Some (Requeued (publication job)))
    else mret None.

Definition reap_body (batch_size : Z) (now : datetime) : M (list reaped) :=
  expired ← JobRepository.find_expired_leases now batch_size;
  outcomes ← for_each expired (reap_row now);
  mret (omap_list outcomes).

Definition requeued_of (l : list reaped) : list (string * JobPriority) :=
  omap (λ r, match r with Requeued p => Some p | DeadLettered _ => None end) l.
Definition dead_lettered_of (l : list reaped) : list string :=
  omap (λ r, match r with DeadLettered j => Some j | Requeued _ => None end) l.

Definition reap_expired (batch_size : Z) : co Z :=
  now ← act clock_now;
  outcomes ← act (transaction (reap_body batch_size now));
  _ ← co_for_each (dead_lettered_of outcomes) (λ job_id, act (dead_letter job_id));
  _ ← publish_all (requeued_of outcomes);
  Ret (count_of (requeued_of outcomes) + count_of (dead_lettered_of outcomes)).

(** * ExpiryService *)

Definition _EXPIRED_CODE : string := "EXPIRED".
Definition _EXPIRED_MESSAGE : string := "job expired before it started running".

(** [job.status] is read after the UPDATE of its row in the same session. *)
Definition status_after_update (job : Job) : M JobStatus :=
  query (λ d, match jobs d !! j_id job with
              | Some row => j_status (session_sync job row)
              | None => j_status job
              end).

Definition expire_row (now : datetime) (job : Job) : M Z :=
  expired ← JobRepository.expire (j_id job) now;
  if expired : bool then
    status ← status_after_update job;
    _ ← JobEventRepository.record (j_id job) JobEventType.EXPIRED (Some status)
          (Some JobStatus.EXPIRED) [];
    _ ← enqueue_terminal_notification job JobEventType.EXPIRED JobStatus.EXPIRED None
          (Some _EXPIRED_CODE) (Some _EXPIRED_MESSAGE) now;
    mret 1
  else mret 0.

Definition expire_body (batch_size : Z) (now cutoff : datetime) : M Z :=
  stale ← JobRepository.find_expirable cutoff batch_size;
  counts ← for_each stale (expire_row now);
  mret (foldl Z.add 0 counts).

Definition expire_stale (batch_size : Z) : co Z :=
  now ← act clock_now;
  act (transaction
    (expire_body batch_size now (now - seconds (job_queue_max_age_seconds settings)))).

End Scheduling.

(** * Scheduler *)

Section Scheduler.
Context {env : Env}.

(** The attributes of a [Scheduler]: of each service, the methods that a tick
    calls. *)
Record Scheduler := mkScheduler {
  _dispatch_pending : Z → co Z;
  _dispatch_redeliver : Z → co Z;
  _retry : Z → co Z;
  _lease : Z → co Z;
  _expiry : Z → co Z;
  _notifications : Z → co Z;
  _interval_seconds : pyfloat;
  _batch_size : Z;
}.

Definition tick (self : Scheduler) : co unit :=
  _ ← _dispatch_pending self (_batch_size self);
  _ ← _retry self (_batch_size self);
  _ ← _lease self (_batch_size self);
  _ ← _dispatch_redeliver self (_batch_size self);
  _ ← _expiry self (_batch_size self);
  _ ← _notifications self (_batch_size self);
  Ret tt.

(** [Scheduler.run] when the stop event is set during the [n]-th wait: an
    exception of a tick is logged and the loop goes on. *)
Fixpoint run_scheduler (self : Scheduler) (n : nat) : co unit :=
  match n with
  | O => Ret tt
  | S n' => _ ← try_co (tick self); _ ← act (mret tt); run_scheduler self n'
  end.

Definition build_scheduler (settings : Settings) : Scheduler :=
  {| _dispatch_pending := dispatch_pending settings;
     _dispatch_redeliver := redeliver_stuck settings;
     _retry := promote_due settings;
     _lease := reap_expired settings;
     _expiry := expire_stale settings;
     _notifications := dispatch_due settings;
     _interval_seconds := scheduler_interval_seconds settings;
     _batch_size := scheduler_batch_size settings |}.

(** [_run] *)
Definition scheduler_run (settings : Settings) (n : nat) : co unit :=
  run_scheduler (build_scheduler settings) n.
End Scheduler.
