(* ===== verification/Worker.v ===== *)
(** [workers/worker.py] and [workers/identity.py]: the identity of a worker process
    and its consumer coroutines. *)

From S2P Require Import Prelude PyStr PyFloat Json Domain Config Uuid Models Effects.
From S2P Require Import Repositories Queue Notifications Catalog Execution.

(** [f"{hostname}-{pid}-{uuid4().hex[:8]}"] *)
Definition generate_worker_id (hostname : string) (pid : Z) (random : uuid) : string :=
  hostname +:+ "-" +:+ str_of_int pid +:+ "-" +:+ hex_digits 8 (random / 2 ^ 96).

Section Worker.
Context {env : Env}.

(** The attributes of a [Worker]; of the queue and of the execution service, the
    method that it calls. *)
Record Worker := mkWorker {
  _queue : M (option string);
  _execution_service : uuid → co bool;
  _poll_timeout_seconds : Z;
  _error_backoff_seconds : pyfloat;
  _concurrency : Z;
  _worker_id : string;
}.

(** [_process]: every exception of the execution is logged and swallowed. *)
Definition _process (self : Worker) (job_id : string) : co unit :=
  match uuid_of_str job_id with
  | None => Ret tt
  | Some i => _ ← try_co (_execution_service self i); Ret tt
  end.

(** One turn of [_consume_loop]. *)
Definition consume_turn (self : Worker) : co unit :=
  message ← try_co (act (_queue self));
  match message with
  | Err (RedisError _) => act (mret tt)
  | Err e => Throw e
  | Ok None => Ret tt
  | Ok (Some job_id) => _process self job_id
  end.

(** [_consume_loop] when the stop event is set during the [n]-th turn. *)
Fixpoint _consume_loop (self : Worker) (n : nat) : co unit :=
  match n with
  | O => Ret tt
  | S n' => _ ← consume_turn self; _consume_loop self n'
  end.

(** [run]: the tasks a worker process creates, all under its one identity; the
    stop event ends each after [n] turns, and the cancellation of a task drops it
    at one of its awaits. *)
Definition worker_run (self : Worker) (n : nat) : list (option string * co unit) :=
  replicate (Z.to_nat (_concurrency self)) (Some (_worker_id self), _consume_loop self n).

(** The worker that [build_worker] makes, once its identity is drawn. *)
Definition new_worker (settings : Settings) (worker_id : string) : Worker :=
  {| _queue := JobQueue.consume (redis_queue_namespace settings);
     _execution_service := execute settings worker_id;
     _poll_timeout_seconds := worker_poll_timeout_seconds settings;
     _error_backoff_seconds := worker_error_backoff_seconds settings;
     _concurrency := worker_concurrency settings;
     _worker_id := worker_id |}.

Definition build_worker (settings : Settings) (hostname : string) (pid : Z) (random : uuid) : Worker :=
  new_worker settings (generate_worker_id hostname pid random).

(** [_run] *)
Definition start_worker (settings : Settings) (hostname : string) (pid : Z) (random : uuid) (n : nat)
  : list (option string * co unit) :=
  worker_run (build_worker settings hostname pid random) n.
End Worker.
