(* ===== verification/Read.v ===== *)
(** [schemas/jobs.py], [schemas/pagination.py] and [services/job_read_service.py]:
    the read model of the API.  A read sends one query at a time in a session of
    its own, so other transactions can commit between two queries. *)

From S2P Require Import Prelude PyStr PyFloat Json Domain Uuid Pagination Models Effects.
From S2P Require Import Repositories Catalog.

(** ** Response models, validated from the attributes of a row *)

Record JobSummary := mkJobSummary {
  js_job_id : uuid;
  js_type : JobType;
  js_status : JobStatus;
  js_priority : JobPriority;
  js_progress : Z;
  js_attempts : Z;
  js_max_attempts : Z;
  js_created_at : datetime;
  js_updated_at : datetime;
}.

Record JobRead := mkJobRead {
  jr_summary : JobSummary;
  jr_payload : dict;
  jr_result : option dict;
  jr_error_code : option string;
  jr_error_message : option string;
  jr_cancellation_requested_at : option datetime;
  jr_cancel_reason : option string;
  jr_dead_lettered_at : option datetime;
  jr_queued_at : option datetime;
  jr_started_at : option datetime;
  jr_completed_at : option datetime;
}.

(** The schema [JobEvent]: the statuses as the strings of the columns. *)
Record JobEventRead := mkJobEventRead {
  er_event_type : string;
  er_from_status : option string;
  er_to_status : option string;
  er_detail : dict;
  er_created_at : datetime;
}.

Record JobSummaryCounts := mkJobSummaryCounts {
  counts : list (string * Z);
  total : Z;
}.

Record PaginatedResponse (T : Type) := mkPaginatedResponse {
  items : list T;
  next_cursor : option string;
  has_more : bool;
}.
Arguments mkPaginatedResponse {T} items next_cursor has_more.
Arguments items {T} _.
Arguments next_cursor {T} _.
Arguments has_more {T} _.

Definition summary_of (j : Job) : JobSummary :=
  {| js_job_id := j_id j;
     js_type := j_type j;
     js_status := j_status j;
     js_priority := j_priority j;
     js_progress := j_progress j;
     js_attempts := j_attempts j;
     js_max_attempts := j_max_attempts j;
     js_created_at := j_created_at j;
     js_updated_at := j_updated_at j |}.

Definition read_of (j : Job) : JobRead :=
  {| jr_summary := summary_of j;
     jr_payload := j_payload j;
     jr_result := j_result j;
     jr_error_code := j_error_code j;
     jr_error_message := j_error_message j;
     jr_cancellation_requested_at := j_cancellation_requested_at j;
     jr_cancel_reason := j_cancel_reason j;
     jr_dead_lettered_at := j_dead_lettered_at j;
     jr_queued_at := j_queued_at j;
     jr_started_at := j_started_at j;
     jr_completed_at := j_completed_at j |}.

Definition event_of (e : JobEvent) : JobEventRead :=
  {| er_event_type := JobEventType.JobEventType_value (e_event_type e);
     er_from_status := JobStatus_value <$> e_from_status e;
     er_to_status := JobStatus_value <$> e_to_status e;
     er_detail := e_detail e;
     er_created_at := e_created_at e |}.

(** ** The service *)

Module JobReadService.
Section JobReadService.
Context {env : Env}.

Definition get (job_id : uuid) (user_id : string) : co (option JobRead) :=
  job ← act (JobRepository.get_for_user job_id user_id);
  Ret (option_map read_of job).

(** [decode_cursor(cursor) if cursor else None] *)
Definition position_of (cursor : option string) : res (option CursorPosition) :=
  match cursor with
  | Some c => if String.eqb c EmptyString then Ok None
              else position ← decode_cursor other_isoformat c; Ok (Some position)
  | None => Ok None
  end.

(** The page made of up to [limit + 1] rows. *)
Definition page_of (rows : list Job) (limit : Z) : PaginatedResponse JobSummary :=
  let has_more := limit <? Z.of_nat (length rows) in
  let page := take (Z.to_nat limit) rows in
  let next_cursor :=
    match last page with
    | Some l => if has_more then Some (encode_cursor (mkCursorPosition (j_created_at l) (j_id l)))
                else None
    | None => None
    end in
  mkPaginatedResponse (map summary_of page) next_cursor has_more.

Definition list_jobs (user_id : string) (status : option JobStatus) (job_type : option JobType)
  (cursor : option string) (limit : Z) : co (PaginatedResponse JobSummary) :=
  position ← co_res (position_of cursor);
  rows ← act (JobRepository.list_for_user user_id status job_type position (limit + 1));
  Ret (page_of rows limit).

Definition summary (user_id : string) : co JobSummaryCounts :=
  groups ← act (JobRepository.status_counts user_id);
  let counts := map (λ g, (JobStatus_value g.1, g.2)) groups in
  Ret (mkJobSummaryCounts counts (foldl Z.add 0 (map snd counts))).

Definition events (job_id : uuid) (user_id : string) (limit : Z) : co (option (list JobEventRead)) :=
  job ← act (JobRepository.get_for_user job_id user_id);
  match job with
  | None => Ret None
  | Some _ =>
      rows ← act (JobEventRepository.list_for_job job_id limit);
      Ret (Some (map event_of rows))
  end.
End JobReadService.
End JobReadService.
