(* ===== verification/Api.v ===== *)
(** [api/routes/jobs.py], [api/routes/health.py], [api/deps.py] and the exception
    handlers of [main.py]: the handlers of the routes.  A request carries the values that FastAPI
    has parsed and validated; a handler answers with a status code and a body, or
    raises. *)

From S2P Require Import Prelude PyStr PyFloat Json Domain Config Uuid Pagination Models Effects.
From S2P Require Import Repositories Queue Catalog Submission Cancellation Read.

(** [schemas/jobs.py]: request bodies *)
Record JobSubmit := mkJobSubmit {
  sub_type : JobType;
  sub_payload : dict;
  sub_priority : JobPriority;
  sub_max_attempts : option Z;
}.

Record CancelRequest := mkCancelRequest { cr_reason : option string }.

(** Response bodies *)
Record JobAccepted := mkJobAccepted {
  ja_job_id : uuid;
  ja_status : JobStatus;
  ja_status_url : string;
}.

Record CancelResult := mkCancelResult {
  cres_job_id : uuid;
  cres_status : JobStatus;
}.

Inductive body :=
| AcceptedBody (b : JobAccepted)
| PageBody (b : PaginatedResponse JobSummary)
| CountsBody (b : JobSummaryCounts)
| JobBody (b : JobRead)
| CancelBody (b : CancelResult)
| EventsBody (items : list JobEventRead)
| ErrorBody (message : string).

Record response := mkResponse { status_code : Z; content : body }.

(** A request to one of the job routes, with the [X-User-Id] header. *)
Inductive route :=
| SubmitJob (b : JobSubmit) (idempotency_key : option string)
| ListJobs (status : option JobStatus) (type : option JobType) (limit : Z) (cursor : option string)
| GetSummary
| GetJob (job_id : uuid)
| CancelJob (job_id : uuid) (b : CancelRequest)
| GetEvents (job_id : uuid).

(** The decorators of the handlers: the method and the path, under the prefix of
    the router; the other arguments travel in the query, the body and the
    headers. *)
Inductive method := GET | POST.

Definition router_prefix : string := "/jobs".
Definition submit_job_path : method * string := (POST, EmptyString).
Definition list_jobs_path : method * string := (GET, EmptyString).
Definition job_summary_path : method * string := (GET, "/summary").
Definition get_job_path (job_id : uuid) : method * string := (GET, "/" +:+ uuid_str job_id).
Definition cancel_job_path (job_id : uuid) : method * string := (POST, "/" +:+ uuid_str job_id +:+ "/cancel").
Definition job_events_path (job_id : uuid) : method * string := (GET, "/" +:+ uuid_str job_id +:+ "/events").

Definition endpoint (r : route) : method * string :=
  let '(m, path) :=
    match r with
    | SubmitJob _ _ => submit_job_path
    | ListJobs _ _ _ _ => list_jobs_path
    | GetSummary => job_summary_path
    | GetJob job_id => get_job_path job_id
    | CancelJob job_id _ => cancel_job_path job_id
    | GetEvents job_id => job_events_path job_id
    end in
  (m, router_prefix +:+ path).

Record request := mkRequest { x_user_id : option string; req_route : route }.

Definition _DEFAULT_USER_ID : string := "demo-user".
Definition _EVENTS_LIMIT : Z := 200.

(** [x_user_id or _DEFAULT_USER_ID] *)
Definition current_user_id (x_user_id : option string) : string :=
  match x_user_id with
  | Some u => if String.eqb u EmptyString then _DEFAULT_USER_ID else u
  | None => _DEFAULT_USER_ID
  end.

(** [limit: int = Query(default=50, ge=1, le=200)] and
    [max_attempts: int | None = Field(default=None, ge=1)]. *)
Definition valid_request (r : request) : bool :=
  match req_route r with
  | SubmitJob b _ => match sub_max_attempts b with Some n => 1 <=? n | None => true end
  | ListJobs _ _ limit _ => (1 <=? limit) && (limit <=? 200)
  | _ => true
  end.

Section Api.
Context {env : Env}.
Variable settings : Settings.

(** The [except] clauses of [submit_job]. *)
Definition submit_error (e : exn) : exn :=
  match e with
  | PayloadTooLargeError _ => HTTPException 413 (exn_str e)
  | TooManyActiveJobsError _ => HTTPException 429 (exn_str e)
  | _ => if is_ValueError e then HTTPException 422 (exn_str e) else e
  end.

Definition submit_job (user_id : string) (b : JobSubmit) (idempotency_key : option string)
  : co response :=
  outcome ← try_co (submit settings user_id (sub_type b) (sub_payload b) (sub_priority b)
                      (sub_max_attempts b) idempotency_key);
  match outcome with
  | Ok job =>
      Ret (mkResponse 202 (AcceptedBody
             (mkJobAccepted (j_id job) (j_status job) ("/jobs/" +:+ uuid_str (j_id job)))))
  | Err e => Throw (submit_error e)
  end.

Definition list_jobs (user_id : string) (status : option JobStatus) (type : option JobType)
  (limit : Z) (cursor : option string) : co response :=
  outcome ← try_co (JobReadService.list_jobs user_id status type cursor limit);
  match outcome with
  | Ok page => Ret (mkResponse 200 (PageBody page))
  | Err (InvalidCursorError m) => Throw (HTTPException 400 m)
  | Err e => Throw e
  end.

Definition job_summary (user_id : string) : co response :=
  counts ← JobReadService.summary user_id;
  Ret (mkResponse 200 (CountsBody counts)).

Definition not_found {A} : co A := Throw (HTTPException 404 "job not found").

Definition get_job (user_id : string) (job_id : uuid) : co response :=
  job ← JobReadService.get job_id user_id;
  match job with
  | None => not_found
  | Some job => Ret (mkResponse 200 (JobBody job))
  end.

Definition conflict_detail : string :=
  "the job has already reached a terminal state and cannot be cancelled".

Definition cancel_job (user_id : string) (job_id : uuid) (b : CancelRequest) : co response :=
  outcome ← cancel job_id user_id (cr_reason b);
  if negb (co_found outcome) then not_found
  else match co_conflict outcome, co_status outcome with
       | false, Some status =>
           Ret (mkResponse (if bool_decide (status = JobStatus.CANCELLING) then 202 else 200)
                  (CancelBody (mkCancelResult job_id status)))
       | _, _ => Throw (HTTPException 409 conflict_detail)
       end.

Definition job_events (user_id : string) (job_id : uuid) : co response :=
  events ← JobReadService.events job_id user_id _EVENTS_LIMIT;
  match events with
  | None => not_found
  | Some events => Ret (mkResponse 200 (EventsBody events))
  end.

Definition dispatch (r : request) : co response :=
  let user_id := current_user_id (x_user_id r) in
  match req_route r with
  | SubmitJob b key => submit_job user_id b key
  | ListJobs status type limit cursor => list_jobs user_id status type limit cursor
  | GetSummary => job_summary user_id
  | GetJob job_id => get_job user_id job_id
  | CancelJob job_id b => cancel_job user_id job_id b
  | GetEvents job_id => job_events user_id job_id
  end.

(** [validation_exception_handler] (without the list of errors, which is
    FastAPI's) and [http_exception_handler]; any other exception is left to the
    server. *)
Definition serve (r : request) : co response :=
  if negb (valid_request r) then Ret (mkResponse 422 (ErrorBody "request validation failed"))
  else
    outcome ← try_co (dispatch r);
    match outcome with
    | Ok response => Ret response
    | Err (HTTPException code detail) => Ret (mkResponse code (ErrorBody detail))
    | Err e => Throw e
    end.

(** [bind_request_context]: an answer carries the id of its request, drawn by
    [uuid4]; an exception passes through.  The context of the log is not part of
    the state. *)
Record http_response := mkHttpResponse { hr_response : response; hr_x_request_id : string }.

Definition bind_request_context (request_id : uuid) (call_next : co response) : co http_response :=
  response ← call_next;
  Ret (mkHttpResponse response (uuid_str request_id)).

(** [allow_origins] of the CORS middleware *)
Definition allow_origins : list string := map strip (split_on "," (frontend_origin settings)).

(** ** [GET /health] *)

Record HealthResponse := mkHealthResponse {
  h_status : string;
  h_database : string;
  h_queue : string;
}.

(** [select_1] is the probe of the database, a statement without effect. *)
Definition health (select_1 : co unit) : co HealthResponse :=
  probed ← try_co select_1;
  database ← match probed with
             | Ok _ => Ret "ok"
             | Err e => if is_SQLAlchemyError e then Ret "down" else Throw e
             end;
  pinged ← try_co (act (JobQueue.ping));
  queue_status ← match pinged with
                 | Ok up => Ret (if up : bool then "ok" else "down")
                 | Err (RedisError _) => Ret "down"
                 | Err e => Throw e
                 end;
  Ret (mkHealthResponse "ok" database queue_status).
End Api.
