(* ===== verification/Client.v ===== *)
(** [scripts/submit_jobs.py] and [scripts/seed.py]: the demonstration jobs and the
    client that posts them. *)

From S2P Require Import Prelude PyStr PyFloat Json Domain Config Uuid Models Effects.
From S2P Require Import Repositories Catalog Submission Read Api.

(** The bodies that the client posts, as the API parses them. *)
Definition demo_jobs : list JobSubmit := [
  mkJobSubmit JobType.SLEEP [("duration_seconds", JInt 8); ("steps", JInt 8)] JobPriority.NORMAL None;
  mkJobSubmit JobType.SLEEP [("duration_seconds", JInt 5); ("steps", JInt 5)] JobPriority.HIGH None;
  mkJobSubmit JobType.REPORT [("pages", JInt 4)] JobPriority.NORMAL None;
  mkJobSubmit JobType.FLAKY [("fail_times", JInt 2)] JobPriority.NORMAL None;
  mkJobSubmit JobType.LLM_SUMMARY
    [("prompt", JStr "Summarize the quarterly earnings report"); ("tokens", JInt 180)]
    JobPriority.HIGH None;
  mkJobSubmit JobType.LLM_SUMMARY
    [("prompt", JStr "Draft the release notes"); ("tokens", JInt 120);
     ("simulate_rate_limit", JBool true)] JobPriority.NORMAL None;
  mkJobSubmit JobType.ALWAYS_FAIL [] JobPriority.LOW None].

Section Client.
Context {env : Env}.

(** [client.post("/jobs", json=job)] of a client whose requests carry
    [X-User-Id]: the answer of the API at the target URL. *)
Variable post : string → JobSubmit → co response.

(** [response.raise_for_status()] *)
Definition raise_for_status (r : response) : co unit :=
  if (200 <=? status_code r) && (status_code r <? 300) then Ret tt
  else act (text ← reading library_text; raise (HTTPError text)).

(** [response.json()["job_id"]] *)
Definition job_id_of (r : response) : co uuid :=
  match content r with AcceptedBody b => Ret (ja_job_id b) | _ => Throw (KeyError "job_id") end.

(** One round; [submitted] is the number of jobs submitted before. *)
Fixpoint submit_round (user_id : string) (l : list JobSubmit) (submitted : Z) : co Z :=
  match l with
  | [] => Ret submitted
  | job :: l' =>
      response ← post user_id job;
      _ ← raise_for_status response;
      _ ← job_id_of response;
      submit_round user_id l' (submitted + 1)
  end.

Fixpoint submit_rounds (user_id : string) (rounds : nat) (submitted : Z) : co Z :=
  match rounds with
  | O => Ret submitted
  | S n => submitted ← submit_round user_id demo_jobs submitted; submit_rounds user_id n submitted
  end.

Definition submit_demo_jobs (user_id : string) (rounds : Z) : co Z :=
  submit_rounds user_id (Z.to_nat rounds) 0.

(** [main] of [submit_jobs.py] and of [seed.py] *)
Definition submit_jobs_main (settings : Settings) : co Z :=
  submit_demo_jobs (demo_user_id settings) (demo_rounds settings).
Definition seed_main (settings : Settings) : co Z := submit_demo_jobs (demo_user_id settings) 1.
End Client.

(** The API as the client sees it: the server answers 500 to an exception that no
    handler takes. *)
Definition post_to_api {env : Env} (settings : Settings) (user_id : string) (job : JobSubmit) : co response :=
  outcome ← try_co (serve settings (mkRequest (Some user_id) (SubmitJob job None)));
  match outcome with
  | Ok response => Ret response
  | Err _ => Ret (mkResponse 500 (ErrorBody "Internal Server Error"))
  end.
