(* ===== verification/Logic.v ===== *)
(** A program logic for the effects.

    [wp m Q d]: run from a world whose database is [d], the action [m] either
    raises or returns [a] with a database [d'] such that [Q a d'].  Readings of
    the environment are universally quantified.  [cwp] lifts it to coroutines,
    whose awaits are interleaved with other tasks: between two actions the
    database evolves along a rely relation, and each action must keep the
    invariant and stay within a guarantee. *)

From S2P Require Import Prelude PyStr PyFloat Json Domain Uuid Models Effects Repositories.

Section Logic.
Context {env : Env}.

(** * Actions *)

Definition wp {A} (m : M A) (Q : A → Db → Prop) (d : Db) : Prop :=
  ∀ w, w_db w = d → match m w with (Ok a, w') => Q a (w_db w') | (Err _, _) => True end.

Lemma wp_ret {A} (a : A) Q d : Q a d → wp (mret a) Q d.
Proof. by intros HQ w <-. Qed.

Lemma wp_bind {A B} (m : M A) (f : A → M B) Q d :
  wp m (λ a, wp (f a) Q) d → wp (m ≫= f) Q d.
Proof.
  intros H w Hw. specialize (H w Hw). unfold mbind, M_bind.
  destruct (m w) as [[a|e] w']; [|done]. by apply H.
Qed.

Lemma wp_mono {A} (m : M A) (Q Q' : A → Db → Prop) d :
  wp m Q d → (∀ a d', Q a d' → Q' a d') → wp m Q' d.
Proof. intros H HQ w Hw. specialize (H w Hw). destruct (m w) as [[a|e] w']; auto. Qed.

Lemma wp_raise {A} e (Q : A → Db → Prop) d : wp (raise e) Q d.
Proof. by intros w _. Qed.

Lemma wp_reading {A} (f : nat → A) Q d : (∀ n, Q (f n) d) → wp (reading f) Q d.
Proof. intros HQ w <-. apply HQ. Qed.

Lemma wp_query {A} (f : Db → A) Q d : Q (f d) d → wp (query f) Q d.
Proof. by intros HQ w <-. Qed.

Lemma wp_modify f Q d : Q tt (f d) → wp (modify_db f) Q d.
Proof. by intros HQ w <-. Qed.

Lemma wp_statement {A} (f : Db → db_error + (A * Db)) Q d :
  (∀ a d', f d = inr (a, d') → Q a d') → wp (statement f) Q d.
Proof.
  intros HQ w <-. unfold statement. destruct (f (w_db w)) as [e|[a d']] eqn:E; [|by apply HQ].
  unfold raise_db, mbind, M_bind. done.
Qed.

Lemma wp_statement_ (f : Db → db_error + Db) Q d :
  (∀ d', f d = inr d' → Q tt d') → wp (statement_ f) Q d.
Proof.
  intros HQ. apply wp_statement. intros [] d' E.
  destruct (f d) as [e|d1]; [done|]. injection E as ->. by apply HQ.
Qed.

Lemma wp_txn_now Q d : (∀ t, Q t d) → wp txn_now Q d.
Proof. intros HQ w <-. apply HQ. Qed.

Lemma wp_for_each {A B} (l : list A) (f : A → M B) (I : list A → list B → Db → Prop) Q d :
  I l [] d →
  (∀ a l' bs d', I (a :: l') bs d' → wp (f a) (λ b, I l' (bs ++ [b])) d') →
  (∀ bs d', I [] bs d' → Q bs d') →
  wp (for_each l f) Q d.
Proof.
  intros H0 Hstep HQ.
  assert (Hgen : ∀ l bs0 d, I l bs0 d → wp (for_each l f) (λ bs, I [] (bs0 ++ bs)) d).
  { clear H0 HQ d l. induction l as [|a l IH]; intros bs0 d HI.
    - apply wp_ret. by rewrite app_nil_r.
    - apply wp_bind. eapply wp_mono; [by apply Hstep|]. intros b d' HI'.
      apply wp_bind. eapply wp_mono; [apply IH, HI'|]. intros bs d'' HI''.
      apply wp_ret. by rewrite cons_middle, app_assoc. }
  eapply wp_mono; [apply (Hgen l [] d H0)|]. intros bs d'. apply HQ.
Qed.

Lemma wp_generate_uuid7 Q d : (∀ i, (i < uuid_bound)%N → Q i d) → wp generate_uuid7 Q d.
Proof. intros HQ. apply wp_reading. intros n. apply HQ, uuid7_range. Qed.

(** ** Statements of the repositories *)

Lemma wp_update_jobs i guard values Q d :
  (∀ j, jobs d !! i = Some j → guard j = true →
        job_types_ok (values j) = true → job_checks_ok (values j) = true →
        Q true (d <| jobs := <[i := values j]> (jobs d) |>)) →
  ((∀ j, jobs d !! i = Some j → guard j = false) → Q false d) →
  wp (update_jobs i guard values) Q d.
Proof.
  intros Ht Hf. apply wp_bind, wp_statement. intros n d' E. apply wp_ret.
  unfold update_job in E. destruct (jobs d !! i) as [j|] eqn:Hi.
  - destruct (guard j) eqn:Hg.
    + destruct (job_types_ok (values j)) eqn:Hty; [|done]. simpl in E.
      destruct (job_checks_ok (values j)) eqn:Hck; [|done].
      injection E as <- <-. by apply Ht.
    + injection E as <- <-. apply Hf. intros x [= <-]. done.
  - injection E as <- <-. apply Hf. done.
Qed.

Lemma wp_record i ty from to detail Q d :
  (∀ e, job_events d !! e_id e = None → e_job_id e = i → is_Some (jobs d !! i) →
        e_event_type e = ty → e_from_status e = from → e_to_status e = to →
        Q tt (d <| job_events := <[e_id e := e]> (job_events d) |>)) →
  wp (JobEventRepository.record i ty from to detail) Q d.
Proof.
  intros HQ. apply wp_bind, wp_generate_uuid7. intros k _.
  apply wp_bind, wp_txn_now. intros t. apply wp_statement_. intros d' E.
  unfold insert_event, is_free, job_exists in E. cbn [e_id e_job_id] in E.
  destruct (negb _); [done|].
  destruct (job_events d !! k) eqn:Hk; [done|]. unfold is_free in E.
  destruct (jobs d !! i) eqn:Hi; [|done]. simpl in E. injection E as <-.
  apply (HQ (mkJobEvent k i ty from to detail t)); simpl; eauto.
Qed.

Lemma wp_start i n worker now Q d :
  (∀ k, let a := mkJobAttempt k i n worker JobStatus.RUNNING now None None None in
        job_attempts d !! k = None → is_Some (jobs d !! i) →
        Q k (d <| job_attempts := <[k := a]> (job_attempts d) |>)) →
  wp (JobAttemptRepository.start i n worker now) Q d.
Proof.
  intros HQ. apply wp_bind, wp_generate_uuid7. intros k _.
  apply wp_bind, wp_statement_. intros d' E. apply wp_ret.
  unfold insert_attempt in E. destruct (negb _); [done|].
  unfold is_free, job_exists in E. cbn [a_id a_job_id] in E.
  destruct (job_attempts d !! k) eqn:Hk; [done|]. unfold is_free in E.
  destruct (attempt_number_free _ _); [|done].
  destruct (jobs d !! i) eqn:Hi; [|done]. simpl in E. injection E as <-.
  apply HQ; eauto.
Qed.

(** An attempt is closed, where it is stored. *)
Lemma update_attempt_alter k f d d' :
  update_attempt k f d = inr d' → d' = d <| job_attempts := alter f k (job_attempts d) |>.
Proof.
  unfold update_attempt. destruct (job_attempts d !! k) as [a|] eqn:Hk.
  - destruct (attempt_result_ok (f a)); [|done]. intros [= <-]. by rewrite (alter_as_insert _ _ _ a).
  - intros [= <-]. rewrite alter_absent by done. by destruct d.
Qed.

Lemma wp_finish k s now c m Q d :
  Q tt (d <| job_attempts := alter (λ a, a <| a_status := s |> <| a_completed_at := Some now |>
          <| a_error_code := c |> <| a_error_message := m |>) k (job_attempts d) |>) →
  wp (JobAttemptRepository.finish k s now c m) Q d.
Proof. intros HQ. apply wp_statement_. by intros d' ->%update_attempt_alter. Qed.

(** A notification is inserted, or one with its key is there already. *)
Lemma wp_enqueue i user channel destination ty payload key now Q d :
  (∀ n, notification_outbox d !! n_id n = None → is_Some (jobs d !! i) →
        n = mkNotificationOutbox (n_id n) i user channel destination ty payload
              NotificationStatus.PENDING 0 now key None (n_created_at n) None →
        Q true (d <| notification_outbox := <[n_id n := n]> (notification_outbox d) |>)) →
  (∀ k n, notification_outbox d !! k = Some n → n_dedupe_key n = key → Q false d) →
  wp (NotificationOutboxRepository.enqueue i user channel destination ty payload key now) Q d.
Proof.
  intros Ht Hf. apply wp_bind, wp_generate_uuid7. intros k _.
  apply wp_bind, wp_txn_now. intros t. apply wp_statement. intros b d' E.
  unfold insert_notification in E. destruct (negb _); [done|]. cbn [n_dedupe_key n_id n_job_id] in E.
  destruct (dedupe_key_free key (notification_outbox d)) eqn:Hfree; simpl in E.
  - unfold is_free, job_exists, is_free in E.
    destruct (notification_outbox d !! k) eqn:Hk; [done|].
    destruct (jobs d !! i) eqn:Hi; [|done]. simpl in E. injection E as <- <-.
    apply (Ht (mkNotificationOutbox k i user channel destination ty payload
                 NotificationStatus.PENDING 0 now key None t None)); simpl; eauto.
  - injection E as <- <-. destruct (forallb_false _ _ Hfree) as ([m n] & Hin & Hkey).
    apply negb_false_iff, String.eqb_eq in Hkey. apply elem_of_map_to_list in Hin.
    by apply (Hf m n).
Qed.

(** Rows selected FOR UPDATE: distinct, present, and satisfying the filter. *)
Lemma select_rows_spec {A} (guard : A → bool) key limit locked (t : gmap uuid A) :
  ∃ l, (select_rows guard key limit locked t) = l.*2 ∧ NoDup l.*1
    ∧ ∀ i a, (i, a) ∈ l → t !! i = Some a ∧ guard a = true.
Proof.
  set (rows := filter (where_unlocked guard locked) (map_to_list t)).
  pose proof (merge_sort_Permutation (by_key key) rows.*2) as Hperm.
  destruct (Permutation_map_inv snd _ Hperm) as (l & Hl & Hpl).
  exists (take (Z.to_nat limit) l).
  assert (Hsub : ∀ p, p ∈ take (Z.to_nat limit) l → p ∈ rows).
  { intros p Hp. rewrite Hpl. by eapply elem_of_sublist, sublist_take. }
  split; [|split].
  - unfold select_rows. fold rows. rewrite Hl. symmetry. apply fmap_take.
  - rewrite fmap_take. eapply sublist_NoDup; [|apply sublist_take]. rewrite <- Hpl.
    eapply sublist_NoDup; [apply (NoDup_fst_map_to_list t)|]. apply fmap_sublist, sublist_filter.
  - intros i a [Hw Hin]%Hsub%list_elem_of_filter. apply elem_of_map_to_list in Hin.
    unfold where_unlocked in Hw. bool_simpl. done.
Qed.
Lemma wp_select {A} (table : Db → gmap uuid A) guard key limit Q d :
  (∀ l : list (uuid * A), NoDup l.*1 →
     (∀ i a, (i, a) ∈ l → table d !! i = Some a ∧ guard a = true) → Q l.*2 d) →
  wp (select_for_update table guard key limit) Q d.
Proof.
  intros HQ. apply wp_bind, wp_reading. intros n. apply wp_query.
  destruct (select_rows_spec guard key limit (locked_row n) (table d)) as (l & -> & Hnd & Hl).
  by apply HQ.
Qed.

(** * Whole actions, with their exceptions *)

Definition wpe {A} (m : M A) (Q : res A → Db → Prop) (d : Db) : Prop :=
  ∀ w, w_db w = d → Q (m w).1 (w_db (m w).2).

(** An action that does not touch the database. *)
Definition quiet {A} (m : M A) : Prop := ∀ w, w_db (m w).2 = w_db w.

Lemma wpe_quiet {A} (m : M A) Q d : quiet m → (∀ r, Q r d) → wpe m Q d.
Proof. intros Hq HQ w <-. rewrite (Hq w). apply HQ. Qed.

Lemma wpe_transaction_at {A} t (body : M A) (Q : res A → Db → Prop) d :
  wp body (λ a, Q (Ok a)) d → (∀ e, Q (Err e) d) → wpe (transaction_at t body) Q d.
Proof.
  intros Hb He w Hw. unfold transaction_at.
  match goal with |- context [body ?x] =>
    specialize (Hb x Hw); destruct (body x) as [[a|e] w'] end.
  - exact Hb.
  - cbn. rewrite Hw. apply He.
Qed.

Lemma wpe_transaction {A} (body : M A) (Q : res A → Db → Prop) d :
  wp body (λ a, Q (Ok a)) d → (∀ e, Q (Err e) d) → wpe (transaction body) Q d.
Proof.
  intros Hb He w Hw.
  exact (wpe_transaction_at (clock (w_count w)) body Q d Hb He
           (w <| w_count := S (w_count w) |>) Hw).
Qed.

Lemma quiet_ret {A} (a : A) : quiet (mret a).
Proof. done. Qed.
Lemma quiet_raise {A} e : quiet (A:=A) (raise e).
Proof. done. Qed.
Lemma quiet_reading {A} (f : nat → A) : quiet (reading f).
Proof. done. Qed.
Lemma quiet_query {A} (f : Db → A) : quiet (query f).
Proof. done. Qed.
Lemma quiet_bind {A B} (m : M A) (f : A → M B) :
  quiet m → (∀ a, quiet (f a)) → quiet (m ≫= f).
Proof.
  intros Hm Hf w. unfold mbind, M_bind. specialize (Hm w).
  destruct (m w) as [[a|e] w']; [|done]. by rewrite (Hf a w').
Qed.
Lemma quiet_redis {A} (f : redis_state → A * redis_state) : quiet (redis_command f).
Proof.
  apply quiet_bind; [apply quiet_reading|]. intros [].
  - apply quiet_bind; [apply quiet_reading|]. intros t. apply quiet_raise.
  - intros w. unfold on_redis. by destruct (f (w_redis w)).
Qed.

Lemma wp_try_quiet {A} (m : M A) (Q : res A → Db → Prop) d :
  quiet m → (∀ r, Q r d) → wp (try_M m) Q d.
Proof.
  intros Hq HQ w <-. specialize (Hq w). unfold try_M. destruct (m w) as [r w']. simpl in *.
  rewrite Hq. apply HQ.
Qed.

(** * Coroutines among other tasks *)

Section Coroutines.
Context (I : Db → Prop) (R G : Db → Db → Prop).

Fixpoint cwp {A} (c : co A) (Q : res A → Db → Prop) (d : Db) : Prop :=
  match c with
  | Ret a => Q (Ok a) d
  | Throw e => Q (Err e) d
  | Await m k => ∀ d', I d' → R d d' →
      wpe m (λ r d'', I d'' ∧ G d' d'' ∧ cwp (k r) Q d'') d'
  end.

Lemma cwp_mono {A} (c : co A) (Q Q' : res A → Db → Prop) d :
  cwp c Q d → (∀ r d', Q r d' → Q' r d') → cwp c Q' d.
Proof.
  intros H HQ. revert d H. induction c as [a|e|B m k IH]; intros d; simpl; [apply HQ|apply HQ|].
  intros H d' HI HR w Hw. destruct (H d' HI HR w Hw) as (? & ? & ?). auto.
Qed.

Lemma cwp_bind {A B} (c : co A) (f : A → co B) Q d :
  cwp c (λ r d', match r with Ok a => cwp (f a) Q d' | Err e => Q (Err e) d' end) d →
  cwp (c ≫= f) Q d.
Proof.
  revert d. induction c as [a|e|C m k IH]; intros d; [done|done|].
  cbn. intros H d' HI HR w Hw. destruct (H d' HI HR w Hw) as (? & ? & ?). auto.
Qed.

Lemma cwp_try {A} (c : co A) Q d :
  cwp c (λ r, Q (Ok r)) d → cwp (try_co c) Q d.
Proof.
  revert d. induction c as [a|e|C m k IH]; intros d; [done|done|].
  cbn. intros H d' HI HR w Hw. destruct (H d' HI HR w Hw) as (? & ? & ?). auto.
Qed.

Lemma cwp_act {A} (m : M A) (Q : res A → Db → Prop) d :
  (∀ d', I d' → R d d' → wpe m (λ r d'', I d'' ∧ G d' d'' ∧ Q r d'') d') →
  cwp (act m) Q d.
Proof.
  intros H d' HI HR w Hw. destruct (H d' HI HR w Hw) as (? & ? & ?).
  split; [done|]. split; [done|]. by destruct (m w).1.
Qed.

(** Every action leaves the invariant. *)
Lemma cwp_inv {A} (c : co A) (Q : res A → Db → Prop) d :
  I d → cwp c Q d → cwp c (λ r d', I d' ∧ Q r d') d.
Proof.
  revert d. induction c as [a|e|B m k IH]; intros d HI; simpl; [done|done|].
  intros H d' HI' HR w Hw. destruct (H d' HI' HR w Hw) as (? & ? & ?). auto.
Qed.

(** Alone is one of the ways to run. *)
Lemma run_cwp {A} (c : co A) (Q : res A → Db → Prop) w :
  Reflexive R → I (w_db w) → cwp c Q (w_db w) → Q (run c w).1 (w_db (run c w).2).
Proof.
  intros HR. revert w. induction c as [a|e|B m k IH]; intros w HI; [done|done|]. simpl.
  intros H. destruct (H (w_db w) HI ltac:(done) w eq_refl) as (HI' & _ & Hk).
  specialize (IH (m w).1 (m w).2). destruct (m w) as [r w']. by apply IH.
Qed.

Lemma run_keeps {A} (c : co A) (Q : res A → Db → Prop) w :
  Reflexive R → cwp c Q (w_db w) → I (w_db w) → I (w_db (run c w).2).
Proof. intros HR H HI. by apply (run_cwp c _ w HR HI (cwp_inv c Q _ HI H)). Qed.

(** Facts that others, and the coroutine itself, keep. *)
Lemma cwp_frame {A} (P : Db → Prop) (c : co A) (Q : res A → Db → Prop) d :
  (∀ d1 d2, R d1 d2 → P d1 → P d2) → (∀ d1 d2, G d1 d2 → P d1 → P d2) →
  P d → cwp c Q d → cwp c (λ r d', Q r d' ∧ P d') d.
Proof.
  intros HR HG. revert d. induction c as [a|e|B m k IH]; intros d HP; simpl; [done|done|].
  intros H d' HI HRd w Hw. destruct (H d' HI HRd w Hw) as (HI' & HG' & Hk).
  split; [done|]. split; [done|]. apply IH; [|done].
  apply (HG d'); [done|]. by apply (HR d).
Qed.

Context `{!Reflexive G}.

Lemma cwp_quiet {A} (m : M A) (Q : res A → Db → Prop) d :
  quiet m → (∀ r d', I d' → R d d' → Q r d') → cwp (act m) Q d.
Proof. intros Hq HQ. apply cwp_act. intros d' HI HR. apply wpe_quiet; eauto. Qed.

Lemma cwp_reading {A} (f : nat → A) (Q : res A → Db → Prop) d :
  (∀ n d', I d' → R d d' → Q (Ok (f n)) d') → cwp (act (reading f)) Q d.
Proof. intros HQ. apply cwp_act. intros d' HI HR w <-. repeat split; [done|done|]. by apply HQ. Qed.

Lemma cwp_query {A} (f : Db → A) (Q : res A → Db → Prop) d :
  (∀ d', I d' → R d d' → Q (Ok (f d')) d') → cwp (act (query f)) Q d.
Proof. intros HQ. apply cwp_act. intros d' HI HR w <-. repeat split; [done|done|]. by apply HQ. Qed.

(** A transaction: only its successful outcome changes the database. *)
Lemma cwp_transaction {A} (body : M A) (Q : res A → Db → Prop) d :
  (∀ d', I d' → R d d' → wp body (λ a d'', I d'' ∧ G d' d'' ∧ Q (Ok a) d'') d') →
  (∀ e d', I d' → R d d' → Q (Err e) d') →
  cwp (act (transaction body)) Q d.
Proof.
  intros Hb He. apply cwp_act. intros d' HI HR. apply wpe_transaction; [by apply Hb|]. eauto.
Qed.

Lemma cwp_for_each {A} (l : list A) (f : A → co unit) (Q : res unit → Db → Prop) d :
  (∀ a d, cwp (f a) (λ _ _, True) d) → (∀ r d, Q r d) → cwp (co_for_each l f) Q d.
Proof.
  intros Hf HQ. revert d. induction l as [|a l IH]; intros d; [apply HQ|].
  apply cwp_bind. eapply cwp_mono; [apply Hf|]. intros [[]|e] d' _; [apply IH|apply HQ].
Qed.

(** A coroutine may be left to wait while others run. *)
Lemma cwp_wait {A} (c : co A) (Q : res A → Db → Prop) d d' :
  Transitive R → (∀ r d1 d2, Q r d1 → R d1 d2 → Q r d2) →
  cwp c Q d → R d d' → cwp c Q d'.
Proof.
  intros HT HQ. destruct c as [a|e|B m k]; simpl; [eauto|eauto|].
  intros H HR d2 HI HR2. apply H; [done|]. by transitivity d'.
Qed.
End Coroutines.

(** A coroutine may promise less. *)
Lemma cwp_weaken {A} (I : Db → Prop) (R G G' : Db → Db → Prop) (c : co A) Q d :
  (∀ d1 d2, G d1 d2 → G' d1 d2) → cwp I R G c Q d → cwp I R G' c Q d.
Proof.
  intros HG. revert d. induction c as [a|e|B m k IH]; intros d; simpl; [done|done|].
  intros H d' HI HR w Hw. destruct (H d' HI HR w Hw) as (? & ? & ?). auto.
Qed.

(** ** A coroutine run alone *)

Definition cwp_alone {A} : co A → (res A → Db → Prop) → Db → Prop :=
  cwp (λ _, True) eq (λ _ _, True).

Lemma run_alone {A} (c : co A) (Q : res A → Db → Prop) w :
  cwp_alone c Q (w_db w) → Q (run c w).1 (w_db (run c w).2).
Proof. by apply (run_cwp (λ _, True) eq (λ _ _, True)). Qed.

Lemma run_bind {A B} (c : co A) (f : A → co B) w :
  run (c ≫= f) w = match run c w with (Ok a, w') => run (f a) w' | (Err e, w') => (Err e, w') end.
Proof.
  revert w. induction c as [a|e|C m k IH]; intros w; [done|done|]. simpl.
  destruct (m w) as [r w']. apply IH.
Qed.

Lemma run_try {A} (c : co A) w : run (try_co c) w = let '(r, w') := run c w in (Ok r, w').
Proof.
  revert w. induction c as [a|e|C m k IH]; intros w; [done|done|]. simpl.
  destruct (m w) as [r w']. apply IH.
Qed.

Lemma run_act {A} (m : M A) w : run (act m) w = m w.
Proof. simpl. by destruct (m w) as [[a|e] w']. Qed.

Lemma run_outcome {A} (c : co A) (Q : res A → Db → Prop) w :
  cwp_alone c Q (w_db w) → let '(o, w') := run c w in Q o (w_db w').
Proof. intros H%run_alone. by destruct (run c w). Qed.

Lemma alone_bind {A B} (c : co A) (f : A → co B) Q d :
  cwp_alone c (λ r d', match r with Ok a => cwp_alone (f a) Q d' | Err e => Q (Err e) d' end) d →
  cwp_alone (c ≫= f) Q d.
Proof. apply cwp_bind. Qed.

Lemma alone_quiet {A} (m : M A) (Q : res A → Db → Prop) d :
  quiet m → (∀ r, Q r d) → cwp_alone (act m) Q d.
Proof. intros Hq HQ. apply cwp_quiet; [done|done|]. by intros r d' _ <-. Qed.

Lemma alone_transaction {A} (body : M A) (Q : res A → Db → Prop) d :
  wp body (λ a, Q (Ok a)) d → (∀ e, Q (Err e) d) → cwp_alone (act (transaction body)) Q d.
Proof.
  intros Hb He. apply cwp_transaction; [done| |by intros e d' _ <-].
  intros d' _ <-. eapply wp_mono; [exact Hb|]. done.
Qed.

Lemma alone_reading {A} (f : nat → A) (Q : res A → Db → Prop) d :
  (∀ n, Q (Ok (f n)) d) → cwp_alone (act (reading f)) Q d.
Proof. intros HQ. apply cwp_act. intros d' _ <- w <-. repeat split. apply HQ. Qed.

Lemma alone_query {A} (f : Db → A) (Q : res A → Db → Prop) d :
  Q (Ok (f d)) d → cwp_alone (act (query f)) Q d.
Proof. intros HQ. apply cwp_act. intros d' _ <- w <-. by repeat split. Qed.

(** ** Exceptions an action does not raise *)

Definition raises_only {A} (P : exn → Prop) (m : M A) : Prop :=
  ∀ w e, (m w).1 = Err e → P e.

Lemma raises_ret {A} P (a : A) : raises_only P (mret a).
Proof. by intros w e. Qed.
Lemma raises_reading {A} P (f : nat → A) : raises_only P (reading f).
Proof. by intros w e. Qed.
Lemma raises_query {A} P (f : Db → A) : raises_only P (query f).
Proof. by intros w e. Qed.
Lemma raises_bind {A B} P (m : M A) (f : A → M B) :
  raises_only P m → (∀ a, raises_only P (f a)) → raises_only P (m ≫= f).
Proof.
  intros Hm Hf w e. unfold mbind, M_bind. specialize (Hm w).
  destruct (m w) as [[a|e'] w']; [apply Hf|]. intros [= ->]. by apply Hm.
Qed.
Lemma raises_statement {A} (P : exn → Prop) (f : Db → db_error + (A * Db)) :
  (∀ t, P (IntegrityError t)) → (∀ t, P (DataError t)) → raises_only P (statement f).
Proof.
  intros H1 H2 w e. unfold statement. destruct (f (w_db w)) as [[]|[]]; simpl; intros [= <-]; auto.
Qed.
Lemma raises_transaction {A} P (m : M A) : raises_only P m → raises_only P (transaction m).
Proof.
  intros Hm. apply raises_bind; [apply raises_reading|]. intros t w e.
  unfold transaction_at. specialize (Hm (w <| w_txn_now := t |>)).
  destruct (m _) as [[a|e'] w']; [done|]. simpl. intros [= ->]. by apply Hm.
Qed.

Lemma raises_for_each {A B} P (l : list A) (f : A → M B) :
  (∀ a, raises_only P (f a)) → raises_only P (for_each l f).
Proof.
  intros Hf. induction l as [|a l IH]; [apply raises_ret|].
  apply raises_bind; [apply Hf|]. intros b. apply raises_bind; [apply IH|]. intros bs.
  apply raises_ret.
Qed.

(** The errors of the schema. *)
Definition is_db_error (e : exn) : Prop :=
  match e with IntegrityError _ | DataError _ => True | _ => False end.

(** The outcomes of a transaction whose statements are its only source of
    exceptions: it commits, or it raises an error of the schema and the
    database is what it was. *)
Definition commits {A} (body : M A) (w : World) (Q : A → Db → Prop) : Prop :=
  match transaction body w with
  | (Ok a, w') => Q a (w_db w')
  | (Err e, w') => is_db_error e ∧ w_db w' = w_db w
  end.

Lemma transaction_commits {A} (body : M A) (Q : A → Db → Prop) w :
  raises_only is_db_error body → wp body Q (w_db w) → commits body w Q.
Proof.
  intros Hr Hb. unfold commits, transaction, mbind, M_bind, transaction_at. simpl.
  match goal with |- context [body ?x] =>
    specialize (Hr x); specialize (Hb x eq_refl); destruct (body x) as [[a|e] w'] end.
  - exact Hb.
  - split; [by apply Hr|done].
Qed.

Lemma alone_transaction_at {A} t (body : M A) (Q : res A → Db → Prop) d :
  raises_only is_db_error body → wp body (λ a, Q (Ok a)) d →
  (∀ e, is_db_error e → Q (Err e) d) → cwp_alone (act (transaction_at t body)) Q d.
Proof.
  intros Hr Hb He. apply cwp_act. intros d' _ <- w Hw. split; [done|]. split; [done|].
  unfold transaction_at.
  match goal with |- context [body ?x] =>
    specialize (Hr x); specialize (Hb x Hw); destruct (body x) as [[a|e] w'] end.
  - exact Hb.
  - simpl. rewrite Hw. by apply He, Hr.
Qed.

Lemma alone_commits {A} (body : M A) (Q : res A → Db → Prop) d :
  raises_only is_db_error body → wp body (λ a, Q (Ok a)) d →
  (∀ e, is_db_error e → Q (Err e) d) → cwp_alone (act (transaction body)) Q d.
Proof.
  intros Hr Hb He. apply cwp_act. intros d' _ <- w Hw. split; [done|]. split; [done|].
  pose proof (transaction_commits body (λ a, Q (Ok a)) w Hr) as Hc. unfold commits in Hc.
  rewrite Hw in Hc. destruct (transaction body w) as [[a|e] w']; [by apply Hc|].
  destruct (Hc Hb) as [He' Hd]. simpl. rewrite Hd. by apply He.
Qed.

Lemma wpe_raises {A} P (m : M A) (Q : res A → Db → Prop) d :
  raises_only P m → wpe m (λ r d', (∀ e, r = Err e → P e) → Q r d') d → wpe m Q d.
Proof. intros Hp H w Hw. apply (H w Hw). intros e. apply Hp. Qed.
End Logic.

#[export] Hint Resolve raises_ret raises_reading raises_query raises_bind raises_statement
  raises_transaction : orch.
#[export] Hint Resolve quiet_ret quiet_raise quiet_reading quiet_query quiet_redis : orch.
