(* ===== verification/Total.v ===== *)
(** Total correctness of actions: [returns m Q w] when [m], run in the world [w],
    returns a result that satisfies [Q] and raises nothing.  The readings of
    the environment are those of [w], so hypotheses about them can be used. *)

From S2P Require Import Prelude PyStr PyFloat Json Domain Config Uuid Models Effects Repositories.
From S2P Require Import Notifications Logic.

Section Total.
Context {env : Env}.

Definition returns {A} (m : M A) (Q : A → World → Prop) (w : World) : Prop :=
  ∃ a w', m w = (Ok a, w') ∧ Q a w'.

Lemma returns_ret {A} (a : A) (Q : A → World → Prop) w : Q a w → returns (mret a) Q w.
Proof. intros HQ. by exists a, w. Qed.

Lemma returns_bind {A B} (m : M A) (f : A → M B) (Q : B → World → Prop) w :
  returns m (λ a, returns (f a) Q) w → returns (m ≫= f) Q w.
Proof.
  intros (a & w1 & Hm & b & w2 & Hf & HQ). exists b, w2. split; [|done].
  unfold mbind, M_bind. by rewrite Hm.
Qed.

Lemma returns_mono {A} (m : M A) (Q Q' : A → World → Prop) w :
  returns m Q w → (∀ a w', Q a w' → Q' a w') → returns m Q' w.
Proof. intros (a & w' & Hm & HQ) H. exists a, w'. auto. Qed.

(** The result and the world, when both are known. *)
Lemma returns_exactly {A} (m : M A) a w w' :
  returns m (λ b w1, b = a ∧ w1 = w') w → m w = (Ok a, w').
Proof. by intros (b & w1 & Hm & -> & ->). Qed.

Lemma returns_reading {A} (f : nat → A) (Q : A → World → Prop) w :
  Q (f (w_count w)) (w <| w_count := S (w_count w) |>) → returns (reading f) Q w.
Proof. intros HQ. by eexists _, _. Qed.

Lemma returns_query {A} (f : Db → A) (Q : A → World → Prop) w :
  Q (f (w_db w)) w → returns (query f) Q w.
Proof. intros HQ. by eexists _, _. Qed.

Lemma returns_modify f (Q : unit → World → Prop) w :
  Q tt (w <| w_db := f (w_db w) |>) → returns (modify_db f) Q w.
Proof. intros HQ. by eexists _, _. Qed.

Lemma returns_statement {A} (f : Db → db_error + (A * Db)) a d (Q : A → World → Prop) w :
  f (w_db w) = inr (a, d) → Q a (w <| w_db := d |>) → returns (statement f) Q w.
Proof. intros Hf HQ. eexists _, _. split; [|exact HQ]. unfold statement. by rewrite Hf. Qed.

Lemma returns_transaction_at {A} start (body : M A) (Q : A → World → Prop) w :
  returns body Q (w <| w_txn_now := start |>) → returns (transaction_at start body) Q w.
Proof.
  intros (a & w' & Hb & HQ). exists a, w'. split; [|done]. unfold transaction_at. by rewrite Hb.
Qed.

(** A transaction commits; its two readings are the clock at BEGIN. *)
Lemma returns_transaction {A} (body : M A) (Q : A → World → Prop) w :
  returns body Q (w <| w_count := S (w_count w) |> <| w_txn_now := clock (w_count w) |>) →
  returns (transaction body) Q w.
Proof.
  intros (a & w' & Hb & HQ). exists a, w'. split; [|done].
  unfold transaction, mbind, M_bind, clock_now, reading, transaction_at. by rewrite Hb.
Qed.

(** ** Statements *)

Lemma returns_update i guard values (Q : bool → World → Prop) j w :
  jobs (w_db w) !! i = Some j →
  (guard j = true → job_types_ok (values j) = true ∧ job_checks_ok (values j) = true) →
  Q (guard j) (w <| w_db := if guard j
                            then (w_db w) <| jobs := <[i := values j]> (jobs (w_db w)) |>
                            else w_db w |>) →
  returns (update_jobs i guard values) Q w.
Proof.
  intros Hi Hok HQ. apply returns_bind.
  destruct (guard j) eqn:Hg.
  - destruct (Hok eq_refl) as [Hty Hck].
    eapply (returns_statement _ 1); [|by apply returns_ret].
    unfold update_job. by rewrite Hi, Hg, Hty, Hck.
  - eapply (returns_statement _ 0); [|by apply returns_ret].
    unfold update_job. by rewrite Hi, Hg.
Qed.

Lemma returns_record i ty from to detail (Q : unit → World → Prop) w :
  is_Some (jobs (w_db w) !! i) → job_events (w_db w) !! uuid7 (w_count w) = None →
  jsonb (JDict detail) = true →
  (let e := mkJobEvent (uuid7 (w_count w)) i ty from to detail (w_txn_now w) in
   Q tt (w <| w_count := S (w_count w) |>
           <| w_db := (w_db w) <| job_events := <[e_id e := e]> (job_events (w_db w)) |> |>)) →
  returns (JobEventRepository.record i ty from to detail) Q w.
Proof.
  intros [j Hi] Hfree Hjson HQ. apply returns_bind, returns_reading, returns_bind.
  eexists _, _. split; [reflexivity|].
  eapply (returns_statement _ tt); [|exact HQ].
  unfold insert_event, event_types_ok, is_free, job_exists. cbn [e_detail e_id e_job_id w_db set_field].
  rewrite Hjson. cbn. rewrite Hfree. unfold is_free. by rewrite Hi.
Qed.

Lemma returns_start i n worker now (Q : uuid → World → Prop) w :
  is_Some (jobs (w_db w) !! i) → job_attempts (w_db w) !! uuid7 (w_count w) = None →
  varchar 64 worker = true → int4 n = true →
  (∀ k a, job_attempts (w_db w) !! k = Some a → a_job_id a = i → a_attempt_number a ≠ n) →
  (let a := mkJobAttempt (uuid7 (w_count w)) i n worker JobStatus.RUNNING now None None None in
   Q (a_id a) (w <| w_count := S (w_count w) |>
     <| w_db := (w_db w) <| job_attempts := <[a_id a := a]> (job_attempts (w_db w)) |> |>)) →
  returns (JobAttemptRepository.start i n worker now) Q w.
Proof.
  intros [j Hi] Hfree Hw Hn Hnum HQ. apply returns_bind, returns_reading, returns_bind.
  eapply (returns_statement _ tt); [|apply returns_ret, HQ].
  unfold insert_attempt, attempt_types_ok, is_free, job_exists.
  cbn [a_worker_id a_attempt_number a_id a_job_id]. rewrite Hw, Hn. cbn. rewrite Hfree. unfold is_free. rewrite Hi, andb_true_r.
  assert (attempt_number_free (mkJobAttempt (uuid7 (w_count w)) i n worker JobStatus.RUNNING now
    None None None) (job_attempts (w_db w)) = true) as ->; [|done].
  unfold attempt_number_free. apply forallb_forall. intros [k a] Hin.
  apply list_elem_of_In, elem_of_map_to_list in Hin. cbn.
  apply negb_true_iff, not_true_iff_false. intros [E1%N.eqb_eq E2%Z.eqb_eq]%andb_prop.
  by apply (Hnum k a).
Qed.

(** An attempt is closed with a code and a message that fit. *)
Lemma returns_finish k s now c m (Q : unit → World → Prop) w :
  if_set (varchar 64) c && if_set pg_text m = true →
  Q tt (w <| w_db := (w_db w) <| job_attempts := alter (λ a, a <| a_status := s |>
          <| a_completed_at := Some now |> <| a_error_code := c |> <| a_error_message := m |>) k
          (job_attempts (w_db w)) |> |>) →
  returns (JobAttemptRepository.finish k s now c m) Q w.
Proof.
  intros Hok HQ. eapply (returns_statement _ tt); [|exact HQ]. unfold update_attempt.
  destruct (job_attempts (w_db w) !! k) as [a|] eqn:Hk.
  - unfold attempt_result_ok. cbn. rewrite Hok. by rewrite (alter_as_insert _ _ _ a).
  - rewrite alter_absent by done. by destruct (w_db w).
Qed.

(** The rows that are new in [t'] have identifiers read from the [n]-th reading to
    the [n']-th. *)
Definition used {A} (n n' : nat) (t t' : gmap uuid A) : Prop :=
  ∀ k, is_Some (t' !! k) → is_Some (t !! k) ∨ ∃ m, (n ≤ m < n')%nat ∧ k = uuid7 m.

Lemma used_same {A} n n' (t : gmap uuid A) : used n n' t t.
Proof. intros k Hk. by left. Qed.

Lemma used_sub {A} n1 n1' n n' (t t' : gmap uuid A) :
  used n1 n1' t t' → (n ≤ n1)%nat → (n1' ≤ n')%nat → used n n' t t'.
Proof. intros H ?? k [Hk|(m & Hm & ->)]%H; [by left|right]. exists m. split; [lia|done]. Qed.

Lemma used_insert {A} n n' m (a : A) t : (n ≤ m < n')%nat → used n n' t (<[uuid7 m := a]> t).
Proof.
  intros Hm k. destruct (decide (uuid7 m = k)) as [<-|E]; [right; by exists m|].
  rewrite lookup_insert_ne by done. by left.
Qed.

(** The notifications of [t] are kept, and those that [t'] adds wait for their first
    delivery, which is due at [now]. *)
Definition posted (now : datetime) (t t' : gmap uuid NotificationOutbox) : Prop :=
  t ⊆ t' ∧ ∀ k n, t' !! k = Some n →
    t !! k = Some n ∨ n_status n = NotificationStatus.PENDING ∧ n_attempts n = 0 ∧ n_next_attempt_at n = now.

Lemma posted_same now t : posted now t t.
Proof. split; [done|]. by left. Qed.

Lemma posted_trans now t1 t2 t3 : posted now t1 t2 → posted now t2 t3 → posted now t1 t3.
Proof.
  intros [H1 H2] [H3 H4]. split; [by transitivity t2|].
  intros k n Hn. destruct (H4 k n Hn) as [H|H]; [by apply H2|by right].
Qed.

Lemma posted_insert now i n t :
  t !! i = None → n_status n = NotificationStatus.PENDING → n_attempts n = 0 → n_next_attempt_at n = now →
  posted now t (<[i := n]> t).
Proof.
  intros Hi Hs Ha Hn. split; [by apply insert_subseteq|].
  intros k x [[_ <-]|[_ Hx]]%lookup_insert_Some; [by right|by left].
Qed.

(** The outbox entry fits its columns. *)
Definition announceable (job : Job) (event_type : JobEventType) (status : JobStatus)
  (result : option dict) (error_code error_message : option string) : bool :=
  varchar 64 (j_user_id job) && varchar 255 (notification_route job).2
  && varchar 160 (dedupe_key (j_id job) event_type)
  && jsonb (JDict (notification_payload job event_type status result error_code error_message)).

(** One with its key is there already, or it is inserted. *)
Lemma returns_notify job ty status result code message now (Q : unit → World → Prop) w :
  is_Some (jobs (w_db w) !! j_id job) → notification_outbox (w_db w) !! uuid7 (w_count w) = None →
  announceable job ty status result code message = true →
  (∀ t k n, used (w_count w) (S (w_count w)) (notification_outbox (w_db w)) t →
     posted now (notification_outbox (w_db w)) t →
     t !! k = Some n → n_dedupe_key n = dedupe_key (j_id job) ty →
     Q tt (w <| w_count := S (w_count w) |> <| w_db := (w_db w) <| notification_outbox := t |> |>)) →
  returns (enqueue_terminal_notification job ty status result code message now) Q w.
Proof.
  intros [j Hi] Hfree Hok HQ. unfold announceable in Hok. unfold enqueue_terminal_notification.
  destruct (notification_route job) as [channel destination]. cbn [snd] in Hok. bool_simpl.
  apply returns_bind, returns_bind, returns_reading, returns_bind.
  eexists _, _. split; [reflexivity|].
  set (n := mkNotificationOutbox _ _ _ _ _ _ _ _ _ _ _ _ _ _).
  assert (negb (notification_types_ok n) = false) as Hfit.
  { unfold notification_types_ok, n.
    cbn [n_user_id n_destination n_dedupe_key n_payload n_attempts n_last_error].
    by repeat match goal with H : _ = true |- _ => rewrite H; clear H end. }
  destruct (dedupe_key_free (n_dedupe_key n) (notification_outbox (w_db w))) eqn:Hkey.
  - eapply (returns_statement _ true).
    + unfold insert_notification. rewrite Hfit. cbn [w_db set_field]. cbn -[n dedupe_key_free].
      rewrite Hkey. cbn -[n]. unfold is_free, job_exists. cbn. rewrite Hfree. unfold is_free. by rewrite Hi.
    + apply returns_ret, (HQ _ (n_id n) n); [apply used_insert; lia|by apply posted_insert|apply lookup_insert_eq|done].
  - eapply (returns_statement _ false).
    + unfold insert_notification. rewrite Hfit. cbn -[n dedupe_key_free]. by rewrite Hkey.
    + apply forallb_false in Hkey as ([k m] & Hin & Hm).
      apply negb_false_iff, String.eqb_eq in Hm. apply elem_of_map_to_list in Hin.
      apply returns_ret. destruct w as [[? ? ? ? ?] ? ? ? ?]. apply (HQ _ k m); [apply used_same|apply posted_same|done..].
Qed.

Lemma returns_add job (Q : unit → World → Prop) w :
  job_types_ok job && job_checks_ok job = true → jobs (w_db w) !! j_id job = None →
  idempotency_key_free job (jobs (w_db w)) = true →
  Q tt (w <| w_db := (w_db w) <| jobs := <[j_id job := job]> (jobs (w_db w)) |> |>) →
  returns (JobRepository.add job) Q w.
Proof.
  intros [Ht Hc]%andb_prop Hfree Hkey HQ. eapply (returns_statement _ tt); [|exact HQ].
  unfold insert_job, is_free. by rewrite Ht, Hc, Hfree, Hkey.
Qed.

Lemma returns_add_dispatch i (Q : unit → World → Prop) w :
  is_Some (jobs (w_db w) !! i) → dispatch_outbox (w_db w) !! uuid7 (w_count w) = None →
  (let o := mkDispatchOutbox (uuid7 (w_count w)) i OutboxStatus.PENDING 0 (w_txn_now w) None in
   Q tt (w <| w_count := S (w_count w) |>
           <| w_db := (w_db w) <| dispatch_outbox := <[d_id o := o]> (dispatch_outbox (w_db w)) |> |>)) →
  returns (DispatchOutboxRepository.add i) Q w.
Proof.
  intros [j Hi] Hfree HQ. apply returns_bind, returns_reading, returns_bind.
  eexists _, _. split; [reflexivity|].
  eapply (returns_statement _ tt); [|exact HQ].
  unfold insert_dispatch, job_exists. cbn [d_id d_job_id w_db w_count set_field].
  change (negb (dispatch_types_ok _)) with false. unfold is_free at 1. cbn. rewrite Hfree. unfold is_free. by rewrite Hi.
Qed.

(** A Redis command when the server answers. *)
Lemma returns_redis {A} (f : redis_state → A * redis_state) (Q : A → World → Prop) w :
  redis_down (w_count w) = false →
  Q (f (w_redis w)).1 (w <| w_count := S (w_count w) |> <| w_redis := (f (w_redis w)).2 |>) →
  returns (redis_command f) Q w.
Proof.
  intros Hup HQ. apply returns_bind, returns_reading. rewrite Hup. eexists _, _. split; [|exact HQ].
  unfold on_redis. cbn. by destruct (f (w_redis w)).
Qed.

(** ** Identifiers that are new *)

(** The identifiers of [k] readings from the [n]-th on. *)
Definition new_to {A} (n k : nat) (t : gmap uuid A) : Prop :=
  ∀ m, (n ≤ m < n + k)%nat → t !! uuid7 m = None.

Definition distinct_ids (n k : nat) : Prop :=
  ∀ m m', (n ≤ m < m')%nat → (m' < n + k)%nat → uuid7 m ≠ uuid7 m'.

Lemma new_to_sub {A} n k n' k' (t : gmap uuid A) :
  new_to n k t → (n ≤ n')%nat → (n' + k' ≤ n + k)%nat → new_to n' k' t.
Proof. intros H H1 H2 m Hm. apply H. lia. Qed.

Lemma distinct_sub n k n' k' :
  distinct_ids n k → (n ≤ n')%nat → (n' + k' ≤ n + k)%nat → distinct_ids n' k'.
Proof. intros H H1 H2 m m' Hm Hm'. apply H; lia. Qed.

(** An identifier of the window is used up. *)
Lemma new_to_insert {A} n k m n' k' (a : A) t :
  new_to n k t → distinct_ids n k → (n ≤ m < n')%nat → (n' + k' ≤ n + k)%nat →
  new_to n' k' (<[uuid7 m := a]> t).
Proof.
  intros H Hd Hm Hk x Hx. rewrite lookup_insert_ne; [apply H; lia|]. apply Hd; lia.
Qed.

Lemma used_trans {A} n1 n2 n3 (t1 t2 t3 : gmap uuid A) :
  (n1 ≤ n2 ≤ n3)%nat → used n1 n2 t1 t2 → used n2 n3 t2 t3 → used n1 n3 t1 t3.
Proof.
  intros Hn H12 H23 k [Hk|(m & Hm & ->)]%H23; [|right; exists m; split; [lia|done]].
  destruct (H12 k Hk) as [?|(m & Hm & ->)]; [by left|]. right. exists m. split; [lia|done].
Qed.

Lemma new_to_used {A} n k n' k' (t t' : gmap uuid A) :
  new_to n k t → distinct_ids n k → used n n' t t' → (n ≤ n')%nat → (n' + k' ≤ n + k)%nat →
  new_to n' k' t'.
Proof.
  intros H Hd Hu H1 H2 m Hm. apply eq_None_not_Some. intros [Hs|(x & Hx & E)]%Hu.
  - rewrite H in Hs by lia. by destruct Hs.
  - symmetry in E. destruct (Hd x m); [lia|lia|done].
Qed.

(** ** Coroutines run alone *)

Lemma returns_run_bind {A B} (c : co A) (f : A → co B) (Q : B → World → Prop) w :
  returns (run c) (λ a, returns (run (f a)) Q) w → returns (run (c ≫= f)) Q w.
Proof.
  intros (a & w1 & Hc & b & w2 & Hf & HQ). exists b, w2. split; [|done]. by rewrite run_bind, Hc.
Qed.

Lemma returns_run_act {A} (m : M A) (Q : A → World → Prop) w :
  returns m Q w → returns (run (act m)) Q w.
Proof. intros (a & w' & Hm & HQ). exists a, w'. by rewrite run_act. Qed.

Lemma returns_run_ret {A} (a : A) (Q : A → World → Prop) w : Q a w → returns (run (Ret a)) Q w.
Proof. apply returns_ret. Qed.

Lemma run_act_returns {A B} (m : M A) (f : A → co B) (Q : A → World → Prop) w :
  returns m Q w → ∃ a w', Q a w' ∧ run (act m ≫= f) w = run (f a) w'.
Proof.
  intros (a & w' & Hm & HQ). exists a, w'. split; [done|]. simpl. by rewrite Hm.
Qed.
End Total.
