(* ===== verification/Lifecycle.v ===== *)
(** The abstract specification of the persistent state: what a well-formed job
    row is ([job_ok]), how a row may change ([job_step]), and the moves of the
    database ([move]).  Every transaction of the services is shown elsewhere to
    be a sequence of moves; here the invariant [Inv] is shown to be preserved by
    each move, whatever service makes it.

    The parameter [strict] adds the retry budget to the specification; it holds
    when no worker identity runs two executions of the same job at once. *)

From S2P Require Import Prelude PyStr PyFloat Json Domain Uuid Models Effects Notifications.
Import JobStatus.

(** * Rows *)

Definition none {A} (a : option A) : Prop := a = None.
Definition some {A} (a : option A) : Prop := is_Some a.

(** The columns a status determines. *)
Definition status_ok (j : Job) : Prop :=
  match j_status j with
  | PENDING =>
      none (j_locked_by j) ∧ none (j_lock_expires_at j) ∧ none (j_next_attempt_at j)
      ∧ none (j_cancellation_requested_at j) ∧ none (j_completed_at j)
      ∧ none (j_dead_lettered_at j) ∧ none (j_started_at j) ∧ j_attempts j = 0
  | QUEUED =>
      none (j_locked_by j) ∧ none (j_lock_expires_at j) ∧ none (j_next_attempt_at j)
      ∧ none (j_cancellation_requested_at j) ∧ none (j_completed_at j)
      ∧ none (j_dead_lettered_at j) ∧ some (j_queued_at j)
  | RUNNING =>
      some (j_locked_by j) ∧ some (j_lock_expires_at j) ∧ none (j_next_attempt_at j)
      ∧ none (j_cancellation_requested_at j) ∧ none (j_completed_at j)
      ∧ none (j_dead_lettered_at j) ∧ some (j_started_at j) ∧ 1 <= j_attempts j
  | RETRYING =>
      none (j_locked_by j) ∧ none (j_lock_expires_at j) ∧ some (j_next_attempt_at j)
      ∧ none (j_cancellation_requested_at j) ∧ none (j_completed_at j)
      ∧ none (j_dead_lettered_at j) ∧ some (j_error_code j) ∧ 1 <= j_attempts j
  | CANCELLING =>
      some (j_locked_by j) ∧ some (j_lock_expires_at j) ∧ none (j_next_attempt_at j)
      ∧ some (j_cancellation_requested_at j) ∧ none (j_completed_at j)
      ∧ none (j_dead_lettered_at j) ∧ some (j_started_at j) ∧ 1 <= j_attempts j
  | SUCCEEDED =>
      none (j_locked_by j) ∧ none (j_lock_expires_at j) ∧ none (j_next_attempt_at j)
      ∧ some (j_completed_at j) ∧ none (j_dead_lettered_at j) ∧ some (j_result j)
      ∧ j_progress j = 100 ∧ none (j_error_code j)
  | FAILED =>
      none (j_locked_by j) ∧ none (j_lock_expires_at j) ∧ none (j_next_attempt_at j)
      ∧ some (j_completed_at j) ∧ some (j_error_code j)
  | CANCELLED =>
      none (j_locked_by j) ∧ none (j_lock_expires_at j) ∧ none (j_next_attempt_at j)
      ∧ some (j_completed_at j) ∧ none (j_dead_lettered_at j)
      ∧ some (j_cancellation_requested_at j)
  | EXPIRED =>
      none (j_locked_by j) ∧ none (j_lock_expires_at j) ∧ none (j_next_attempt_at j)
      ∧ some (j_completed_at j) ∧ none (j_dead_lettered_at j)
      ∧ none (j_cancellation_requested_at j)
  end.

Record job_ok (i : uuid) (j : Job) : Prop := {
  ok_id : j_id j = i;
  ok_types : job_types_ok j = true;
  ok_checks : job_checks_ok j = true;
  ok_attempts : 0 <= j_attempts j;
  ok_status : status_ok j;
}.

(** Statuses from which another attempt may start have attempts left; the
    dead-letter mark is put on exhausted jobs only. *)
Definition within_budget (j : Job) : Prop :=
  j_attempts j <= j_max_attempts j
  ∧ (j_status j ∈ [PENDING; QUEUED; RETRYING] → j_attempts j < j_max_attempts j)
  ∧ (some (j_dead_lettered_at j) → j_attempts j = j_max_attempts j).

Definition budget (strict : bool) (j : Job) : Prop := strict = true → within_budget j.

(** * How a row changes *)

(** The claim also takes jobs that wait for a retry: an edge the table of the
    domain layer does not have. *)
Definition live_transition (s t : JobStatus) : bool :=
  StateMachine.can_transition s t || bool_decide (s = RETRYING) && bool_decide (t = RUNNING).

(** The columns no statement ever assigns. *)
Definition identity_of (j : Job) :=
  (j_id j, j_user_id j, j_type j, j_priority j, j_payload j, j_max_attempts j,
   j_idempotency_key j, j_created_at j).

Record job_step (j j' : Job) : Prop := {
  step_identity : identity_of j' = identity_of j;
  step_status : j_status j' = j_status j ∨ live_transition (j_status j) (j_status j') = true;
  step_count : j_attempts j' = j_attempts j
    ∨ j_attempts j' = j_attempts j + 1 ∧ j_status j' = RUNNING ∧ j_status j ∈ [QUEUED; RETRYING]
      ∧ none (j_cancellation_requested_at j');
  step_start : j_status j' = RUNNING → j_status j = RUNNING ∨ j_attempts j' = j_attempts j + 1;
  step_cancellation : some (j_cancellation_requested_at j) →
    j_cancellation_requested_at j' = j_cancellation_requested_at j;
  step_live : StateMachine.is_terminal (j_status j) = false;
}.

Lemma step_attempts j j' : job_step j j' → j_attempts j <= j_attempts j'.
Proof. intros H. destruct (step_count _ _ H) as [?|[? _]]; lia. Qed.

(** The event announced when a job reaches a terminal status. *)
Definition terminal_event (s : JobStatus) : option JobEventType :=
  match s with
  | SUCCEEDED => Some JobEventType.SUCCEEDED
  | FAILED => Some JobEventType.FAILED
  | CANCELLED => Some JobEventType.CANCELLED
  | EXPIRED => Some JobEventType.EXPIRED
  | _ => None
  end.

Lemma terminal_event_is_terminal s e :
  terminal_event s = Some e → StateMachine.is_terminal s = true.
Proof. destruct s; intros [=]; reflexivity. Qed.

Lemma is_terminal_event s :
  StateMachine.is_terminal s = true → is_Some (terminal_event s).
Proof. destruct s; intros H; try discriminate H; eauto. Qed.

(** * Moves of the database *)

Definition same_attempt (a a' : JobAttempt) : Prop :=
  a_id a' = a_id a ∧ a_job_id a' = a_job_id a ∧ a_attempt_number a' = a_attempt_number a.

Definition same_notification (n n' : NotificationOutbox) : Prop :=
  n_id n' = n_id n ∧ n_job_id n' = n_job_id n ∧ n_event_type n' = n_event_type n
  ∧ n_dedupe_key n' = n_dedupe_key n.

Definition same_dispatch (o o' : DispatchOutbox) : Prop :=
  d_id o' = d_id o ∧ d_job_id o' = d_job_id o.

Definition set_job (i : uuid) (j : Job) (d : Db) : Db := d <| jobs := <[i := j]> (jobs d) |>.
Definition add_event (e : JobEvent) (d : Db) : Db :=
  d <| job_events := <[e_id e := e]> (job_events d) |>.
Definition set_attempt (k : uuid) (a : JobAttempt) (d : Db) : Db :=
  d <| job_attempts := <[k := a]> (job_attempts d) |>.
Definition set_dispatch (k : uuid) (o : DispatchOutbox) (d : Db) : Db :=
  d <| dispatch_outbox := <[k := o]> (dispatch_outbox d) |>.
Definition set_notification (k : uuid) (n : NotificationOutbox) (d : Db) : Db :=
  d <| notification_outbox := <[k := n]> (notification_outbox d) |>.

(** The label is the worker identity of a claim. *)
Inductive move (strict : bool) : option string → Db → Db → Prop :=
| mv_submit d j e o :
    jobs d !! j_id j = None → (j_id j < uuid_bound)%N →
    idempotency_key_free j (jobs d) = true →
    job_ok (j_id j) j → budget strict j → j_status j = PENDING →
    job_events d !! e_id e = None → e_job_id e = j_id j →
    dispatch_outbox d !! d_id o = None → d_job_id o = j_id j → d_status o = OutboxStatus.PENDING →
    move strict None d (set_dispatch (d_id o) o (add_event e (set_job (j_id j) j d)))
| mv_event d e :
    job_events d !! e_id e = None → is_Some (jobs d !! e_job_id e) →
    move strict None d (add_event e d)
| mv_job d i j j' :
    jobs d !! i = Some j → job_step j j' → job_ok i j' → budget strict j' →
    j_status j ≠ PENDING → j_status j' ≠ PENDING →
    StateMachine.is_terminal (j_status j') = false →
    j_attempts j' = j_attempts j → (j_locked_by j' = j_locked_by j ∨ j_locked_by j' = None) →
    move strict None d (set_job i j' d)
| mv_dispatched d k o o' :
    dispatch_outbox d !! k = Some o → same_dispatch o o' →
    (∀ j, jobs d !! d_job_id o = Some j → j_status j ≠ PENDING) →
    move strict None d (set_dispatch k o' d)
| mv_queued d k o o' j j' :
    dispatch_outbox d !! k = Some o → same_dispatch o o' →
    jobs d !! d_job_id o = Some j → job_step j j' → job_ok (d_job_id o) j' → budget strict j' →
    j_status j' = QUEUED → j_attempts j' = j_attempts j → j_locked_by j' = None →
    move strict None d (set_dispatch k o' (set_job (d_job_id o) j' d))
| mv_claim w d i j j' a :
    jobs d !! i = Some j → job_step j j' → job_ok i j' → budget strict j' →
    j_status j ≠ PENDING → j_status j' = RUNNING →
    j_attempts j' = j_attempts j + 1 → j_locked_by j' = Some w →
    job_attempts d !! a_id a = None → a_job_id a = i → a_attempt_number a = j_attempts j' →
    move strict (Some w) d (set_attempt (a_id a) a (set_job i j' d))
| mv_finish d i j j' n :
    jobs d !! i = Some j → job_step j j' → job_ok i j' → budget strict j' →
    j_attempts j' = j_attempts j → j_locked_by j' = None →
    terminal_event (j_status j') = Some (n_event_type n) →
    notification_outbox d !! n_id n = None → n_job_id n = i →
    n_dedupe_key n = dedupe_key i (n_event_type n) →
    move strict None d (set_notification (n_id n) n (set_job i j' d))
| mv_attempt d k a a' :
    job_attempts d !! k = Some a → same_attempt a a' →
    move strict None d (set_attempt k a' d)
| mv_notification d k n n' :
    notification_outbox d !! k = Some n → n_status n = NotificationStatus.PENDING →
    same_notification n n' →
    move strict None d (set_notification k n' d).

Definition any_move (strict : bool) (d d' : Db) : Prop := ∃ l, move strict l d d'.

(** The moves a worker [w] does not make as its own claim. *)
Definition other_move (strict : bool) (w : string) (d d' : Db) : Prop :=
  ∃ l, l ≠ Some w ∧ move strict l d d'.

(** * The invariant *)

Record Inv (strict : bool) (d : Db) : Prop := {
  inv_jobs : ∀ i j, jobs d !! i = Some j → job_ok i j ∧ (i < uuid_bound)%N ∧ budget strict j;
  inv_idempotency : ∀ i1 i2 j1 j2, jobs d !! i1 = Some j1 → jobs d !! i2 = Some j2 →
    same_idempotency_key j1 j2 = true → i1 = i2;
  (** transactional outbox: a pending job is announced to the dispatcher *)
  inv_pending : ∀ i j, jobs d !! i = Some j → j_status j = PENDING →
    ∃ k o, dispatch_outbox d !! k = Some o ∧ d_job_id o = i ∧ d_status o = OutboxStatus.PENDING;
  inv_dispatch : ∀ k o, dispatch_outbox d !! k = Some o →
    d_id o = k ∧ is_Some (jobs d !! d_job_id o);
  inv_dispatch_once : ∀ k1 k2 o1 o2, dispatch_outbox d !! k1 = Some o1 →
    dispatch_outbox d !! k2 = Some o2 → d_job_id o1 = d_job_id o2 → k1 = k2;
  (** notification outbox: one row per terminal job, none before *)
  inv_notification : ∀ k n, notification_outbox d !! k = Some n →
    n_id n = k ∧ n_dedupe_key n = dedupe_key (n_job_id n) (n_event_type n)
    ∧ ∃ j, jobs d !! n_job_id n = Some j ∧ terminal_event (j_status j) = Some (n_event_type n);
  inv_notified : ∀ i j, jobs d !! i = Some j → StateMachine.is_terminal (j_status j) = true →
    ∃ k n, notification_outbox d !! k = Some n ∧ n_job_id n = i;
  inv_notified_once : ∀ k1 k2 n1 n2, notification_outbox d !! k1 = Some n1 →
    notification_outbox d !! k2 = Some n2 → n_job_id n1 = n_job_id n2 → k1 = k2;
  (** attempts: the rows of a job are numbered 1 to [attempts] *)
  inv_attempt : ∀ k a, job_attempts d !! k = Some a →
    a_id a = k ∧ ∃ j, jobs d !! a_job_id a = Some j ∧ 1 <= a_attempt_number a <= j_attempts j;
  inv_attempt_numbers : ∀ i j n, jobs d !! i = Some j → 1 <= n <= j_attempts j →
    ∃ k a, job_attempts d !! k = Some a ∧ a_job_id a = i ∧ a_attempt_number a = n;
  inv_attempt_once : ∀ k1 k2 a1 a2, job_attempts d !! k1 = Some a1 → job_attempts d !! k2 = Some a2 →
    a_job_id a1 = a_job_id a2 → a_attempt_number a1 = a_attempt_number a2 → k1 = k2;
  inv_event : ∀ k e, job_events d !! k = Some e → e_id e = k ∧ is_Some (jobs d !! e_job_id e);
}.

Lemma Inv_empty strict : Inv strict empty_db.
Proof. split; intros *; unfold empty_db; simpl; rewrite ?lookup_empty; done. Qed.
