(* ===== verification/Invariant.v ===== *)
(** Every move of the database preserves the invariant, and what a move may do
    to a job row. *)

From S2P Require Import Prelude PyStr PyFloat Json Domain Uuid Models Effects Notifications.
From S2P Require Import Lifecycle.
Import JobStatus.

(** Unfolds the effect of a move on each table. *)
Ltac db_simpl :=
  unfold set_job, add_event, set_attempt, set_dispatch, set_notification in *;
  cbn [jobs job_attempts job_events dispatch_outbox notification_outbox set_field] in *.

(** Splits a lookup in an updated table. *)
Ltac split_lookup H :=
  let E := fresh "E" in
  rewrite lookup_insert in H; case_decide as E;
  [ injection H as <- | ].

Lemma idempotency_free_spec j t i k :
  idempotency_key_free j t = true → t !! i = Some k → same_idempotency_key j k = false.
Proof.
  unfold idempotency_key_free. rewrite forallb_forall. intros H Hk.
  apply negb_true_iff, (H (i, k)). apply list_elem_of_In, elem_of_map_to_list. exact Hk.
Qed.

Lemma same_idempotency_key_sym j k : same_idempotency_key j k = same_idempotency_key k j.
Proof.
  unfold same_idempotency_key. rewrite String.eqb_sym.
  destruct (j_idempotency_key j), (j_idempotency_key k); rewrite ?(String.eqb_sym s); done.
Qed.

Lemma identity_idempotency j j' k :
  identity_of j' = identity_of j → same_idempotency_key j' k = same_idempotency_key j k.
Proof. unfold identity_of. intros [= _ Hu _ _ _ _ Hk _]. unfold same_idempotency_key. by rewrite Hu, Hk. Qed.

Lemma live_terminal j j' e :
  StateMachine.is_terminal (j_status j) = false →
  terminal_event (j_status j') = Some e → j_status j = j_status j' → False.
Proof. intros Hl He Hs. rewrite Hs in Hl. by rewrite (terminal_event_is_terminal _ _ He) in Hl. Qed.

(** ** Rows across a move *)

(** The jobs of [d'] are those of [d], each one kept or stepped. *)
Definition jobs_evolve (d d' : Db) : Prop :=
  ∀ i j, jobs d !! i = Some j →
    ∃ j', jobs d' !! i = Some j' ∧ (j' = j ∨ job_step j j').

Lemma jobs_evolve_set d i j j' :
  jobs d !! i = Some j → job_step j j' → jobs_evolve d (set_job i j' d).
Proof.
  intros Hi Hstep k x Hk. db_simpl. destruct (decide (i = k)) as [->|Hne].
  - rewrite lookup_insert_eq. assert (x = j) as -> by congruence. eauto.
  - rewrite lookup_insert_ne by done. eauto.
Qed.

Lemma jobs_evolve_same d d' : jobs d' = jobs d → jobs_evolve d d'.
Proof. intros Heq i j Hi. rewrite Heq. eauto. Qed.

Lemma jobs_evolve_via d d1 d' : jobs d' = jobs d1 → jobs_evolve d d1 → jobs_evolve d d'.
Proof. unfold jobs_evolve. by intros ->. Qed.

Lemma move_jobs_evolve strict l d d' : move strict l d d' → jobs_evolve d d'.
Proof.
  destruct 1;
    try (eapply jobs_evolve_via; [|eapply jobs_evolve_set; eassumption]; reflexivity);
    try (apply jobs_evolve_same; reflexivity).
  intros k x Hk; db_simpl.
  destruct (decide (j_id j = k)) as [<-|]; [congruence|]. rewrite lookup_insert_ne by done. eauto.
Qed.

(** ** Replacing a live row *)

Section SetJob.
Context (strict : bool) (d : Db) (i : uuid) (j j' : Job).
Hypothesis HI : Inv strict d.
Hypothesis Hi : jobs d !! i = Some j.
Hypothesis Hstep : job_step j j'.
Hypothesis Hok : job_ok i j'.
Hypothesis Hbudget : budget strict j'.

Abbreviation jobs' := (<[i := j']> (jobs d)).

Lemma set_jobs_ok k x :
  jobs' !! k = Some x → job_ok k x ∧ (k < uuid_bound)%N ∧ budget strict x.
Proof.
  intros H. split_lookup H; [|by apply (inv_jobs _ _ HI)].
  subst k. split; [done|]. split; [|done]. by apply (inv_jobs _ _ HI i j).
Qed.

Lemma set_idempotency k1 k2 x1 x2 :
  jobs' !! k1 = Some x1 → jobs' !! k2 = Some x2 → same_idempotency_key x1 x2 = true → k1 = k2.
Proof.
  pose proof (λ x, identity_idempotency _ _ x (step_identity _ _ Hstep)) as Hk.
  intros H1 H2. split_lookup H1; split_lookup H2; try congruence.
  - rewrite Hk. intros Hs. rewrite <- E. by apply (inv_idempotency _ _ HI i k2 j x2).
  - rewrite same_idempotency_key_sym, Hk. intros Hs.
    rewrite <- E0. symmetry. by apply (inv_idempotency _ _ HI i k1 j x1).
  - by apply (inv_idempotency _ _ HI).
Qed.

Lemma set_exists k : is_Some (jobs d !! k) → is_Some (jobs' !! k).
Proof. rewrite lookup_insert. case_decide; eauto. Qed.

Lemma set_pending :
  (j_status j' = PENDING → False) →
  ∀ k x, jobs' !! k = Some x → j_status x = PENDING →
  i ≠ k ∧ ∃ m o, dispatch_outbox d !! m = Some o ∧ d_job_id o = k ∧ d_status o = OutboxStatus.PENDING.
Proof.
  intros Hp k x H Hx. split_lookup H; [done|]. split; [done|].
  by apply (inv_pending _ _ HI k x).
Qed.

(** A live job has no notification yet. *)
Lemma live_not_notified k n : notification_outbox d !! k = Some n → n_job_id n ≠ i.
Proof.
  intros Hn Heq. destruct (inv_notification _ _ HI k n Hn) as (_ & _ & x & Hx & He).
  assert (x = j) as -> by congruence.
  pose proof (step_live _ _ Hstep) as Hl. by rewrite (terminal_event_is_terminal _ _ He) in Hl.
Qed.

Lemma set_notification_kept k n :
  notification_outbox d !! k = Some n →
  n_id n = k ∧ n_dedupe_key n = dedupe_key (n_job_id n) (n_event_type n)
  ∧ ∃ x, jobs' !! n_job_id n = Some x ∧ terminal_event (j_status x) = Some (n_event_type n).
Proof.
  intros Hn. destruct (inv_notification _ _ HI k n Hn) as (Hid & Hkey & x & Hx & He).
  split; [done|]. split; [done|]. exists x. split; [|done].
  rewrite lookup_insert_ne; [done|].
  intros Heq. by apply (live_not_notified k n Hn).
Qed.

Lemma set_attempt_kept k a :
  job_attempts d !! k = Some a →
  a_id a = k ∧ ∃ x, jobs' !! a_job_id a = Some x ∧ 1 <= a_attempt_number a <= j_attempts x.
Proof.
  intros Ha. destruct (inv_attempt _ _ HI k a Ha) as (Hid & x & Hx & Hn).
  split; [done|]. destruct (decide (i = a_job_id a)) as [Heq|Hne].
  - rewrite <- Heq, lookup_insert_eq. exists j'. split; [done|].
    assert (x = j) as -> by congruence. pose proof (step_attempts _ _ Hstep). lia.
  - rewrite lookup_insert_ne by done. eauto.
Qed.
End SetJob.

Ltac inv_split := split; cbn [jobs job_attempts job_events dispatch_outbox notification_outbox set_field].

Lemma move_job_Inv strict d i j j' :
  Inv strict d → jobs d !! i = Some j → job_step j j' → job_ok i j' → budget strict j' →
  j_status j' ≠ PENDING → StateMachine.is_terminal (j_status j') = false →
  j_attempts j' = j_attempts j → Inv strict (set_job i j' d).
Proof.
  intros HI Hi Hstep Hok Hb Hp Ht Ha. unfold set_job. inv_split.
  - by apply (set_jobs_ok strict d i j j').
  - by apply (set_idempotency strict d i j j').
  - intros k x Hx Hs. by apply (set_pending strict d i j' HI Hp k x).
  - intros k o Ho. destruct (inv_dispatch _ _ HI k o Ho). split; [done|]. by apply set_exists.
  - apply HI.
  - by apply (set_notification_kept strict d i j j').
  - intros k x Hx Hterm. split_lookup Hx; [congruence|]. by apply (inv_notified _ _ HI k x).
  - apply HI.
  - by apply (set_attempt_kept strict d i j j').
  - intros k x n Hx Hn. split_lookup Hx; [|by apply (inv_attempt_numbers _ _ HI k x)].
    subst k. apply (inv_attempt_numbers _ _ HI i j n Hi). lia.
  - apply HI.
  - intros k e He. destruct (inv_event _ _ HI k e He). split; [done|]. by apply set_exists.
Qed.

Lemma move_event_Inv strict d e :
  Inv strict d → is_Some (jobs d !! e_job_id e) → Inv strict (add_event e d).
Proof.
  intros HI Hj. unfold add_event. inv_split; try apply HI.
  intros k x Hx. split_lookup Hx; [done|]. by apply (inv_event _ _ HI).
Qed.

Lemma move_attempt_Inv strict d k a a' :
  Inv strict d → job_attempts d !! k = Some a → same_attempt a a' →
  Inv strict (set_attempt k a' d).
Proof.
  intros HI Ha (Hid & Hjob & Hn). unfold set_attempt. inv_split; try apply HI.
  - intros m x Hx. split_lookup Hx; [|by apply (inv_attempt _ _ HI)].
    subst m. rewrite Hid, Hjob, Hn. by apply (inv_attempt _ _ HI).
  - intros i j n Hi Hrange.
    destruct (inv_attempt_numbers _ _ HI i j n Hi Hrange) as (m & x & Hx & Hxi & Hxn).
    destruct (decide (k = m)) as [->|Hne].
    + exists m, a'. rewrite lookup_insert_eq. assert (x = a) as -> by congruence. split; [done|].
      by rewrite Hjob, Hn.
    + exists m, x. by rewrite lookup_insert_ne.
  - intros k1 k2 a1 a2 H1 H2 Heqj Heqn. split_lookup H1; split_lookup H2; try congruence.
    + rewrite <- E. apply (inv_attempt_once _ _ HI k k2 a a2); congruence.
    + rewrite <- E0. apply (inv_attempt_once _ _ HI k1 k a1 a); congruence.
    + by apply (inv_attempt_once _ _ HI k1 k2 a1 a2).
Qed.

Lemma move_notification_Inv strict d k n n' :
  Inv strict d → notification_outbox d !! k = Some n → same_notification n n' →
  Inv strict (set_notification k n' d).
Proof.
  intros HI Hn (Hid & Hjob & Hev & Hkey). unfold set_notification. inv_split; try apply HI.
  - intros m x Hx. split_lookup Hx; [|by apply (inv_notification _ _ HI)].
    subst m. rewrite Hid, Hjob, Hev, Hkey. by apply (inv_notification _ _ HI).
  - intros i j Hi Ht. destruct (inv_notified _ _ HI i j Hi Ht) as (m & x & Hx & Hxi).
    destruct (decide (k = m)) as [->|Hne].
    + exists m, n'. rewrite lookup_insert_eq. assert (x = n) as -> by congruence. split; [done|].
      by rewrite Hjob.
    + exists m, x. by rewrite lookup_insert_ne.
  - intros k1 k2 n1 n2 H1 H2 Heq. split_lookup H1; split_lookup H2; try congruence.
    + rewrite <- E. apply (inv_notified_once _ _ HI k k2 n n2); congruence.
    + rewrite <- E0. apply (inv_notified_once _ _ HI k1 k n1 n); congruence.
    + by apply (inv_notified_once _ _ HI k1 k2 n1 n2).
Qed.

(** Publishing an outbox row whose job is not, or no longer, pending. *)
Lemma publish_Inv strict d k o o' :
  Inv strict d → dispatch_outbox d !! k = Some o → same_dispatch o o' →
  (∀ j, jobs d !! d_job_id o = Some j → j_status j ≠ PENDING) →
  Inv strict (set_dispatch k o' d).
Proof.
  intros HI Ho (Hid & Hjob) Hp. unfold set_dispatch. inv_split; try apply HI.
  - intros i j Hi Hs. destruct (inv_pending _ _ HI i j Hi Hs) as (m & x & Hx & Hxi & Hxs).
    exists m, x. rewrite lookup_insert_ne; [done|]. intros Heq. subst m.
    assert (x = o) as -> by congruence. rewrite Hxi in Hp. by apply (Hp j).
  - intros m x Hx. split_lookup Hx; [|by apply (inv_dispatch _ _ HI)].
    subst m. rewrite Hid, Hjob. by apply (inv_dispatch _ _ HI).
  - intros k1 k2 o1 o2 H1 H2 Heq. split_lookup H1; split_lookup H2; try congruence.
    + rewrite <- E. apply (inv_dispatch_once _ _ HI k k2 o o2); congruence.
    + rewrite <- E0. apply (inv_dispatch_once _ _ HI k1 k o1 o); congruence.
    + by apply (inv_dispatch_once _ _ HI k1 k2 o1 o2).
Qed.

Lemma move_queued_Inv strict d k o o' j j' :
  Inv strict d → dispatch_outbox d !! k = Some o → same_dispatch o o' →
  jobs d !! d_job_id o = Some j → job_step j j' → job_ok (d_job_id o) j' → budget strict j' →
  j_status j' = QUEUED → j_attempts j' = j_attempts j →
  Inv strict (set_dispatch k o' (set_job (d_job_id o) j' d)).
Proof.
  intros HI Ho Hsame Hi Hstep Hok Hb Hq Ha.
  apply (publish_Inv _ _ k o); [|done|done|].
  - apply (move_job_Inv _ _ _ j); try done; by rewrite Hq.
  - intros x. unfold set_job. cbn. rewrite lookup_insert_eq. intros [= <-]. by rewrite Hq.
Qed.

Lemma move_claim_Inv strict d i j j' a :
  Inv strict d → jobs d !! i = Some j → job_step j j' → job_ok i j' → budget strict j' →
  j_status j' = RUNNING → j_attempts j' = j_attempts j + 1 →
  job_attempts d !! a_id a = None → a_job_id a = i → a_attempt_number a = j_attempts j' →
  Inv strict (set_attempt (a_id a) a (set_job i j' d)).
Proof.
  intros HI Hi Hstep Hok Hb Hr Ha Hfresh Haj Han. unfold set_attempt, set_job.
  pose proof (ok_attempts _ _ (proj1 (inv_jobs _ _ HI i j Hi))) as Hpos.
  assert (Hnew : ∀ k x, job_attempts d !! k = Some x → a_job_id x = i →
                        a_attempt_number x < a_attempt_number a).
  { intros k x Hx Hxi. destruct (inv_attempt _ _ HI k x Hx) as (_ & y & Hy & Hrange).
    assert (y = j) as -> by congruence. lia. }
  inv_split.
  - by apply (set_jobs_ok strict d i j j').
  - by apply (set_idempotency strict d i j j').
  - intros k x Hx Hs. apply (set_pending strict d i j' HI) with x; [by rewrite Hr|done|done].
  - intros k o Ho. destruct (inv_dispatch _ _ HI k o Ho). split; [done|]. by apply set_exists.
  - apply HI.
  - by apply (set_notification_kept strict d i j j').
  - intros k x Hx Hterm. split_lookup Hx; [by rewrite Hr in Hterm|]. by apply (inv_notified _ _ HI k x).
  - apply HI.
  - intros k x Hx. split_lookup Hx; [|by apply (set_attempt_kept strict d i j j')].
    split; [done|]. exists j'. rewrite Haj, lookup_insert_eq. split; [done|]. lia.
  - intros k x n Hx Hn. split_lookup Hx.
    + subst k. destruct (decide (n = a_attempt_number a)) as [->|Hne].
      { exists (a_id a), a. by rewrite lookup_insert_eq. }
      destruct (inv_attempt_numbers _ _ HI i j n Hi) as (m & y & Hy & Hyi & Hyn); [lia|].
      exists m, y. rewrite lookup_insert_ne; [done|]. congruence.
    + destruct (inv_attempt_numbers _ _ HI k x n Hx Hn) as (m & y & Hy & Hyi & Hyn).
      exists m, y. rewrite lookup_insert_ne; [done|]. congruence.
  - intros k1 k2 a1 a2 H1 H2 Heqj Heqn. split_lookup H1; split_lookup H2; try congruence.
    + assert (a_job_id a2 = i) as H by congruence. pose proof (Hnew k2 a2 H2 H). lia.
    + assert (a_job_id a1 = i) as H by congruence. pose proof (Hnew k1 a1 H1 H). lia.
    + by apply (inv_attempt_once _ _ HI k1 k2 a1 a2).
  - intros k e He. destruct (inv_event _ _ HI k e He). split; [done|]. by apply set_exists.
Qed.

Lemma move_finish_Inv strict d i j j' n :
  Inv strict d → jobs d !! i = Some j → job_step j j' → job_ok i j' → budget strict j' →
  j_attempts j' = j_attempts j → terminal_event (j_status j') = Some (n_event_type n) →
  notification_outbox d !! n_id n = None → n_job_id n = i →
  n_dedupe_key n = dedupe_key i (n_event_type n) →
  Inv strict (set_notification (n_id n) n (set_job i j' d)).
Proof.
  intros HI Hi Hstep Hok Hb Ha Hev Hfresh Hnj Hkey. unfold set_notification, set_job.
  pose proof (live_not_notified strict d i j j' HI Hi Hstep) as Hnone.
  inv_split.
  - by apply (set_jobs_ok strict d i j j').
  - by apply (set_idempotency strict d i j j').
  - intros k x Hx Hs. apply (set_pending strict d i j' HI) with x; [|done|done].
    intros Hp. by rewrite Hp in Hev.
  - intros k o Ho. destruct (inv_dispatch _ _ HI k o Ho). split; [done|]. by apply set_exists.
  - apply HI.
  - intros k x Hx. split_lookup Hx; [|by apply (set_notification_kept strict d i j j')].
    split; [done|]. rewrite Hnj. split; [done|]. exists j'. by rewrite lookup_insert_eq.
  - intros k x Hx Hterm. split_lookup Hx.
    + subst k. exists (n_id n), n. by rewrite lookup_insert_eq.
    + destruct (inv_notified _ _ HI k x Hx Hterm) as (m & y & Hy & Hyk).
      exists m, y. rewrite lookup_insert_ne; [done|]. congruence.
  - intros k1 k2 n1 n2 H1 H2 Heq. split_lookup H1; split_lookup H2; try congruence.
    + exfalso. apply (Hnone k2 n2 H2). congruence.
    + exfalso. apply (Hnone k1 n1 H1). congruence.
    + by apply (inv_notified_once _ _ HI k1 k2 n1 n2).
  - by apply (set_attempt_kept strict d i j j').
  - intros k x m Hx Hm. split_lookup Hx; [|by apply (inv_attempt_numbers _ _ HI k x)].
    subst k. apply (inv_attempt_numbers _ _ HI i j m Hi). lia.
  - apply HI.
  - intros k e He. destruct (inv_event _ _ HI k e He). split; [done|]. by apply set_exists.
Qed.

Lemma move_submit_Inv strict d j e o :
  Inv strict d →
  jobs d !! j_id j = None → (j_id j < uuid_bound)%N → idempotency_key_free j (jobs d) = true →
  job_ok (j_id j) j → budget strict j → j_status j = PENDING →
  e_job_id e = j_id j →
  dispatch_outbox d !! d_id o = None → d_job_id o = j_id j → d_status o = OutboxStatus.PENDING →
  Inv strict (set_dispatch (d_id o) o (add_event e (set_job (j_id j) j d))).
Proof.
  intros HI Hnew Hrange Hkey Hok Hb Hp Hej Hfresh Hoj Hos.
  assert (Hkeep : ∀ k x, jobs d !! k = Some x → <[j_id j := j]> (jobs d) !! k = Some x).
  { intros k x Hx. rewrite lookup_insert_ne; [done|]. congruence. }
  assert (Hone : ∀ k x, jobs d !! k = Some x → same_idempotency_key j x = false)
    by (intros k x; apply idempotency_free_spec, Hkey).
  assert (Hz : j_attempts j = 0).
  { pose proof (ok_status _ _ Hok) as Hs. unfold status_ok in Hs. rewrite Hp in Hs. apply Hs. }
  unfold set_dispatch, add_event, set_job. inv_split.
  - intros k x Hx. split_lookup Hx; [by subst k|]. by apply (inv_jobs _ _ HI).
  - intros k1 k2 x1 x2 H1 H2 Hs. split_lookup H1; split_lookup H2; try congruence.
    + by rewrite (Hone k2 x2 H2) in Hs.
    + rewrite same_idempotency_key_sym in Hs. by rewrite (Hone k1 x1 H1) in Hs.
    + by apply (inv_idempotency _ _ HI k1 k2 x1 x2).
  - intros k x Hx Hs. split_lookup Hx.
    + subst k. exists (d_id o), o. by rewrite lookup_insert_eq.
    + destruct (inv_pending _ _ HI k x Hx Hs) as (m & y & Hy & Hyk).
      exists m, y. rewrite lookup_insert_ne; [done|]. congruence.
  - intros k x Hx. split_lookup Hx.
    + rewrite Hoj, lookup_insert_eq. eauto.
    + destruct (inv_dispatch _ _ HI k x Hx) as (? & y & Hy). eauto.
  - intros k1 k2 o1 o2 H1 H2 Heq.
    assert (Hno : ∀ k x, dispatch_outbox d !! k = Some x → d_job_id x ≠ j_id j).
    { intros k x Hx Hxj. destruct (inv_dispatch _ _ HI k x Hx) as (_ & y & Hy). congruence. }
    split_lookup H1; split_lookup H2; try congruence.
    + exfalso. apply (Hno k2 o2 H2). congruence.
    + exfalso. apply (Hno k1 o1 H1). congruence.
    + by apply (inv_dispatch_once _ _ HI k1 k2 o1 o2).
  - intros k n Hn. destruct (inv_notification _ _ HI k n Hn) as (? & ? & y & Hy & ?). eauto 6.
  - intros k x Hx Hterm. split_lookup Hx; [by rewrite Hp in Hterm|]. by apply (inv_notified _ _ HI k x).
  - apply HI.
  - intros k a Ha. destruct (inv_attempt _ _ HI k a Ha) as (? & y & Hy & ?). eauto.
  - intros k x n Hx Hn. split_lookup Hx; [lia|]. by apply (inv_attempt_numbers _ _ HI k x).
  - apply HI.
  - intros k x Hx. split_lookup Hx.
    + split; [done|]. rewrite Hej, lookup_insert_eq. eauto.
    + destruct (inv_event _ _ HI k x Hx) as (? & y & Hy). eauto.
Qed.

(** ** All moves *)

Lemma move_Inv strict l d d' : Inv strict d → move strict l d d' → Inv strict d'.
Proof.
  intros HI Hm. destruct Hm.
  - by apply move_submit_Inv.
  - by apply move_event_Inv.
  - by apply (move_job_Inv _ _ _ j).
  - by apply (publish_Inv _ _ _ o).
  - by apply (move_queued_Inv _ _ _ _ _ j).
  - by apply (move_claim_Inv _ _ _ j).
  - by apply (move_finish_Inv _ _ _ j).
  - by apply (move_attempt_Inv _ _ _ a).
  - by apply (move_notification_Inv _ _ _ n).
Qed.

Lemma moves_Inv strict d d' : rtc (any_move strict) d d' → Inv strict d → Inv strict d'.
Proof. induction 1 as [|d1 d2 d3 [l Hl] _ IH]; [done|]. intros HI. by apply IH, (move_Inv _ l d1). Qed.

#[export] Hint Resolve move_Inv moves_Inv Inv_empty : orch.

(** Rows across any number of moves: a chain of steps. *)
Definition job_history : Job → Job → Prop := rtc job_step.

Lemma moves_history strict d d' i j :
  rtc (any_move strict) d d' → jobs d !! i = Some j →
  ∃ j', jobs d' !! i = Some j' ∧ job_history j j'.
Proof.
  intros H. revert j. induction H as [|d1 d2 d3 [l Hl] _ IH]; intros j Hi.
  { exists j. split; [done|]. apply rtc_refl. }
  destruct (move_jobs_evolve _ _ _ _ Hl i j Hi) as (j2 & Hj2 & Hstep).
  destruct (IH j2 Hj2) as (j3 & Hj3 & Hh). exists j3. split; [done|].
  destruct Hstep as [->|Hstep]; [done|]. by apply rtc_l with j2.
Qed.

(** What a history keeps. *)
Lemma history_identity j j' : job_history j j' → identity_of j' = identity_of j.
Proof. induction 1 as [|a b c Hab _ IH]; [done|]. by rewrite IH, (step_identity _ _ Hab). Qed.

Lemma history_attempts j j' : job_history j j' → j_attempts j <= j_attempts j'.
Proof. induction 1 as [|a b c Hab _ IH]; [lia|]. pose proof (step_attempts _ _ Hab). lia. Qed.

Lemma history_cancellation j j' :
  job_history j j' → some (j_cancellation_requested_at j) →
  j_cancellation_requested_at j' = j_cancellation_requested_at j.
Proof.
  induction 1 as [|a b c Hab _ IH]; [done|]. intros Hs.
  pose proof (step_cancellation _ _ Hab Hs) as Heq. rewrite <- Heq. apply IH. by rewrite Heq.
Qed.

Lemma history_terminal j j' :
  job_history j j' → StateMachine.is_terminal (j_status j) = true → j' = j.
Proof.
  intros [->|(b & Hb & _)]%rtc_inv; [done|]. intros Ht.
  by rewrite (step_live _ _ Hb) in Ht.
Qed.

Lemma history_status j j' :
  job_history j j' → rtc (λ s t, live_transition s t = true) (j_status j) (j_status j').
Proof.
  induction 1 as [|a b c Hab _ IH]; [apply rtc_refl|].
  destruct (step_status _ _ Hab) as [Heq|Ht]; [by rewrite <- Heq|]. by apply rtc_l with (j_status b).
Qed.

(** No attempt starts once a cancellation is requested. *)
Lemma history_cancelled_attempts j j' :
  job_history j j' → some (j_cancellation_requested_at j) → j_attempts j' = j_attempts j.
Proof.
  induction 1 as [|a b c Hab _ IH]; [done|]. intros Hs.
  pose proof (step_cancellation _ _ Hab Hs) as Heq. rewrite IH by (by rewrite Heq).
  destruct (step_count _ _ Hab) as [?|(_ & _ & _ & Hn)]; [done|].
  unfold none, some in *. rewrite Heq in Hn. rewrite Hn in Hs. by destruct Hs.
Qed.

(** ** What no move changes *)

Lemma moves_keep_notification strict d d' k n :
  rtc (any_move strict) d d' → notification_outbox d !! k = Some n →
  n_status n ≠ NotificationStatus.PENDING → notification_outbox d' !! k = Some n.
Proof.
  induction 1 as [|d1 d2 d3 [l Hl] _ IH]; [done|]. intros Hk Hn. apply IH; [|done].
  destruct Hl; db_simpl; try done.
  - rewrite lookup_insert_ne; [done|congruence].
  - rewrite lookup_insert_ne; [done|congruence].
Qed.

Lemma moves_keep_event strict d d' k e :
  rtc (any_move strict) d d' → job_events d !! k = Some e → job_events d' !! k = Some e.
Proof.
  induction 1 as [|d1 d2 d3 [l Hl] _ IH]; [done|]. intros Hk. apply IH.
  destruct Hl; db_simpl; try done; rewrite lookup_insert_ne; done || congruence.
Qed.
