(* ===== verification/Steps.v ===== *)
(** Refinement, part one: what each guarded UPDATE of [job_repository.py] does
    to the row it matches, in terms of the abstract specification. *)

From S2P Require Import Prelude PyStr PyFloat Json Domain Config Uuid Models Effects.
From S2P Require Import Repositories Logic Lifecycle Invariant.
Import JobStatus.

(** A row replaced within the specification. *)
Record row_change (strict : bool) (i : uuid) (d : Db) (j j' : Job) : Prop := {
  rc_lookup : jobs d !! i = Some j;
  rc_step : job_step j j';
  rc_ok : job_ok i j';
  rc_budget : budget strict j';
  rc_attempts : j_attempts j' = j_attempts j;
  rc_lock : j_locked_by j' = j_locked_by j ∨ j_locked_by j' = None;
}.

(** The outcome of an UPDATE: a change of the row that satisfies [P], or
    nothing. *)
Definition row_changed (strict : bool) (i : uuid) (P : Job → Job → Prop) (d : Db)
  (matched : bool) (d' : Db) : Prop :=
  if matched then ∃ j j', row_change strict i d j j' ∧ P j j' ∧ d' = set_job i j' d
  else d' = d.

(** The same, with what an UPDATE that matches no row says of it. *)
Definition row_updated (strict : bool) (i : uuid) (guard : Job → bool) (P : Job → Job → Prop)
  (d : Db) (matched : bool) (d' : Db) : Prop :=
  row_changed strict i P d matched d'
  ∧ (matched = false → ∀ j, jobs d !! i = Some j → guard j = false).

(** Case analysis on the status of a row from the guard of an UPDATE. *)
Ltac guard_cases H :=
  unfold status_in, status_is in H; bool_simpl;
  repeat match goal with
  | H' : j_status _ ∈ _ |- _ => unfold JobRepository._FINALIZABLE, JobRepository._CLAIMABLE,
      JobRepository._INACTIVE_CANCELLABLE, JobRepository._EXPIRABLE in H';
      rewrite ?elem_of_cons, ?elem_of_nil in H'
  | H' : _ ∨ _ |- _ => destruct H' as [H'|H']
  | H' : False |- _ => destruct H'
  end.

Ltac row_step Hs Hst :=
  constructor; cbn;
  [ reflexivity
  | first [ right; rewrite Hs; reflexivity | left; congruence ]
  | first [ left; reflexivity
          | right; rewrite Hs; unfold none in Hst; rewrite !elem_of_cons; intuition congruence ]
  | first [ by left | by right | intros [=] | by rewrite Hs ]
  | first [ reflexivity
          | intros Hc; exfalso; destruct Hc as [? Hc]; unfold none in Hst; intuition congruence ]
  | rewrite Hs; reflexivity ].

Ltac row_ok Hok Hs Hst :=
  destruct Hok; constructor; cbn;
  [ assumption | assumption | assumption | lia
  | unfold status_ok; cbn; rewrite ?Hs; unfold none, some in *;
    intuition (eauto; try congruence; try lia) ].

(** Statuses from which an attempt may start. *)
Abbreviation startable := [PENDING; QUEUED; RETRYING].

Lemma budget_keep strict j j' :
  budget strict j → j_attempts j' = j_attempts j → j_max_attempts j' = j_max_attempts j →
  (strict = true → j_status j' ∈ startable → j_attempts j < j_max_attempts j) →
  (strict = true → some (j_dead_lettered_at j') → j_attempts j = j_max_attempts j) →
  budget strict j'.
Proof.
  intros Hb Ha Hm Hs Hd Hstr. specialize (Hb Hstr). unfold within_budget in *.
  rewrite Ha, Hm. split; [apply Hb|]. split; auto.
Qed.

Ltac row_budget j Hb Hs Hst :=
  apply (budget_keep _ j); [exact Hb|reflexivity|reflexivity| |]; cbn; rewrite ?Hs;
  [ let Hstr := fresh "Hstr" in let Hin := fresh "Hin" in intros Hstr Hin;
    first [ apply (Hb Hstr); rewrite Hs; rewrite ?elem_of_cons; tauto
          | exfalso; clear - Hin; rewrite ?elem_of_cons, elem_of_nil in Hin;
            intuition discriminate
          | idtac ]
  | let Hd := fresh "Hd" in intros ? [? Hd];
    try (exfalso; unfold none in Hst; intuition congruence) ].

(** The obligations of [wp_row], once the guard is known to hold. *)
Ltac row_solve j Hok Hb Hg :=
  let Hst := fresh "Hst" in
  pose proof (ok_status _ _ Hok) as Hst; unfold status_ok in Hst;
  guard_cases Hg;
  match goal with
  | Hs : j_status _ = _ |- _ =>
      rewrite Hs in Hst;
      refine (conj _ (conj _ (conj _ (conj _ (conj _ _)))));
      [ row_step Hs Hst | row_ok Hok Hs Hst | row_budget j Hb Hs Hst
      | reflexivity | first [left; reflexivity | right; reflexivity] | try solve [reflexivity | split; cbn; congruence] .. ]
  end.

Section Rows.
Context {env : Env} (strict : bool) (i : uuid) (d : Db).

(** What is known of the row: a consequence of the invariant. *)
Definition row_fine : Prop :=
  ∀ j, jobs d !! i = Some j → job_ok i j ∧ budget strict j.

Hypothesis HI : row_fine.

Lemma wp_row_guard guard values (P : Job → Job → Prop) :
  (∀ j, jobs d !! i = Some j → job_ok i j → budget strict j → guard j = true →
        job_types_ok (values j) = true → job_checks_ok (values j) = true →
        job_step j (values j) ∧ job_ok i (values j) ∧ budget strict (values j)
        ∧ j_attempts (values j) = j_attempts j
        ∧ (j_locked_by (values j) = j_locked_by j ∨ j_locked_by (values j) = None)
        ∧ P j (values j)) →
  wp (update_jobs i guard values) (row_updated strict i guard P d) d.
Proof.
  intros H. apply wp_update_jobs.
  - intros j Hi Hg Hty Hck.
    destruct (HI j Hi) as (Hok & Hb).
    destruct (H j Hi Hok Hb Hg Hty Hck) as (? & ? & ? & ? & ? & ?).
    split; [|done]. exists j, (values j). split; [by split|]. done.
  - intros Hf. split; [reflexivity|]. intros _. apply Hf.
Qed.

Lemma wp_row guard values (P : Job → Job → Prop) :
  (∀ j, jobs d !! i = Some j → job_ok i j → budget strict j → guard j = true →
        job_types_ok (values j) = true → job_checks_ok (values j) = true →
        job_step j (values j) ∧ job_ok i (values j) ∧ budget strict (values j)
        ∧ j_attempts (values j) = j_attempts j
        ∧ (j_locked_by (values j) = j_locked_by j ∨ j_locked_by (values j) = None)
        ∧ P j (values j)) →
  wp (update_jobs i guard values) (row_changed strict i P d) d.
Proof.
  intros H. eapply wp_mono; [by apply (wp_row_guard guard values P)|].
  by intros b d' [? _].
Qed.

Definition becomes (s : JobStatus) (j j' : Job) : Prop := j_status j' = s.
Definition goes (s t : JobStatus) (j j' : Job) : Prop := j_status j = s ∧ j_status j' = t.
Definition keeps_status (j j' : Job) : Prop :=
  j_status j' = j_status j ∧ j_status j ≠ PENDING.

Lemma wp_mark_queued now :
  wp (JobRepository.mark_queued i now)
    (row_updated strict i (status_is PENDING) (goes PENDING QUEUED) d) d.
Proof. apply wp_row_guard. intros j Hi Hok Hb Hg Hty Hck. row_solve j Hok Hb Hg. Qed.

Lemma wp_heartbeat w lease now :
  wp (JobRepository.heartbeat i w lease now) (row_changed strict i keeps_status d) d.
Proof. apply wp_row. intros j Hi Hok Hb Hg Hty Hck. row_solve j Hok Hb Hg. Qed.

Lemma wp_update_progress w progress lease now :
  wp (JobRepository.update_progress i w progress lease now)
    (row_changed strict i keeps_status d) d.
Proof. apply wp_row. intros j Hi Hok Hb Hg Hty Hck. row_solve j Hok Hb Hg. Qed.

Lemma wp_mark_redispatched now :
  wp (JobRepository.mark_redispatched i now) (row_changed strict i keeps_status d) d.
Proof. apply wp_row. intros j Hi Hok Hb Hg Hty Hck. row_solve j Hok Hb Hg. Qed.

Lemma wp_mark_succeeded w result now :
  wp (JobRepository.mark_succeeded i w result now)
    (row_changed strict i (becomes SUCCEEDED) d) d.
Proof. apply wp_row. intros j Hi Hok Hb Hg Hty Hck. row_solve j Hok Hb Hg. Qed.

(** The holder of the lease of a live execution. *)
Definition holds (w : string) (j : Job) : Prop :=
  j_locked_by j = Some w ∧ j_status j ∈ [RUNNING; CANCELLING].

(** The number of the attempt that a holder of the lease runs. *)
Definition exhausted_if_held (w : string) : Prop :=
  strict = true → ∀ j, jobs d !! i = Some j → holds w j → j_attempts j = j_max_attempts j.

Lemma locked_by_spec w j : locked_by w j = true → j_locked_by j = Some w.
Proof. unfold locked_by. destruct (j_locked_by j); [|done]. by intros ->%String.eqb_eq. Qed.

Lemma guard_holds w j :
  locked_by w j && status_in JobRepository._FINALIZABLE j = true → holds w j.
Proof.
  intros H. bool_simpl. split; [by apply locked_by_spec|]. unfold status_in in *. by bool_simpl.
Qed.

Lemma wp_mark_failed w code message now (dead : bool) :
  (dead = true → exhausted_if_held w) →
  wp (JobRepository.mark_failed i w code message now dead)
    (row_changed strict i (becomes FAILED) d) d.
Proof.
  intros Hex. apply wp_row. intros j Hi Hok Hb Hg Hty Hck. pose proof (guard_holds w j Hg) as Hh.
  row_solve j Hok Hb Hg; destruct dead; try discriminate; by apply Hex.
Qed.

Lemma wp_schedule_retry w code message next now :
  (strict = true → ∀ j, jobs d !! i = Some j → holds w j → j_attempts j < j_max_attempts j) →
  wp (JobRepository.schedule_retry i w code message next now)
    (row_changed strict i (goes RUNNING RETRYING) d) d.
Proof.
  intros Hmore. apply wp_row. intros j Hi Hok Hb Hg Hty Hck.
  assert (holds w j) as Hh.
  { bool_simpl. split; [by apply locked_by_spec|]. unfold status_is in *. bool_simpl. set_solver. }
  row_solve j Hok Hb Hg. by apply Hmore.
Qed.

(** A cancellation finalized by the worker was requested. *)
Lemma wp_finalize_cancelled w now :
  (∀ j, jobs d !! i = Some j → some (j_cancellation_requested_at j)) →
  wp (JobRepository.finalize_cancelled_by_worker i w now)
    (row_changed strict i (goes CANCELLING CANCELLED) d) d.
Proof.
  intros Hreq. apply wp_row. intros j Hi Hok Hb Hg Hty Hck. pose proof (Hreq j Hi) as Hc.
  assert (j_status j = CANCELLING) as Hs.
  { apply guard_holds in Hg as [_ Hin]. pose proof (ok_status _ _ Hok) as Hst.
    unfold status_ok in Hst. rewrite !elem_of_cons, elem_of_nil in Hin.
    destruct Hin as [Hs|[Hs|[]]]; [|done]. rewrite Hs in Hst. unfold none, some in *.
    destruct Hc as [? Hc]. intuition congruence. }
  clear Hreq. row_solve j Hok Hb Hg; try congruence.
Qed.

Lemma wp_cancel_inactive reason now :
  wp (JobRepository.cancel_inactive i reason now)
    (row_updated strict i (status_in JobRepository._INACTIVE_CANCELLABLE)
       (becomes CANCELLED) d) d.
Proof. apply wp_row_guard. intros j Hi Hok Hb Hg Hty Hck. row_solve j Hok Hb Hg. Qed.

Lemma wp_request_cancellation reason now :
  wp (JobRepository.request_running_cancellation i reason now)
    (row_updated strict i (status_is RUNNING) (goes RUNNING CANCELLING) d) d.
Proof. apply wp_row_guard. intros j Hi Hok Hb Hg Hty Hck. row_solve j Hok Hb Hg. Qed.

Lemma wp_requeue_expired_lease now :
  (∀ j, jobs d !! i = Some j → j_attempts j < j_max_attempts j) →
  wp (JobRepository.requeue_expired_lease i now) (row_changed strict i (goes RUNNING QUEUED) d) d.
Proof.
  intros Hmore. apply wp_row. intros j Hi Hok Hb Hg Hty Hck. row_solve j Hok Hb Hg.
  by apply Hmore.
Qed.

Lemma wp_fail_expired_lease code message now (dead : bool) :
  (∀ j, jobs d !! i = Some j → j_max_attempts j <= j_attempts j) →
  wp (JobRepository.fail_expired_lease i code message now dead)
    (row_changed strict i (goes RUNNING FAILED) d) d.
Proof.
  intros Hex. apply wp_row. intros j Hi Hok Hb Hg Hty Hck. specialize (Hex j Hi).
  row_solve j Hok Hb Hg. pose proof (Hb ltac:(assumption)) as (? & _). lia.
Qed.

Lemma wp_move_retry now :
  wp (JobRepository.move_retry_to_queued i now) (row_changed strict i (goes RETRYING QUEUED) d) d.
Proof. apply wp_row. intros j Hi Hok Hb Hg Hty Hck. row_solve j Hok Hb Hg. Qed.

Lemma wp_expire now :
  wp (JobRepository.expire i now) (row_changed strict i (becomes EXPIRED) d) d.
Proof. apply wp_row. intros j Hi Hok Hb Hg Hty Hck. row_solve j Hok Hb Hg. Qed.

(** The claim: it alone raises the number of attempts. *)
Record claimed_row (w : string) (j j' : Job) : Prop := {
  cr_lookup : jobs d !! i = Some j;
  cr_step : job_step j j';
  cr_ok : job_ok i j';
  cr_budget : budget strict j';
  cr_from : j_status j ≠ PENDING;
  cr_status : j_status j' = RUNNING;
  cr_attempts : j_attempts j' = j_attempts j + 1;
  cr_lock : j_locked_by j' = Some w;
}.

Lemma claim_budget j j' :
  budget strict j → j_status j ∈ startable → none (j_dead_lettered_at j) →
  j_attempts j' = j_attempts j + 1 → j_max_attempts j' = j_max_attempts j →
  j_status j' = RUNNING → j_dead_lettered_at j' = j_dead_lettered_at j → budget strict j'.
Proof.
  intros Hb Hs Hd Ha Hm Hr Hd' Hstr. destruct (Hb Hstr) as (_ & Hlt & _). specialize (Hlt Hs).
  split; [lia|]. rewrite Hr, Hd', Hd. split; [|by intros []].
  rewrite !elem_of_cons, elem_of_nil. intuition discriminate.
Qed.

Lemma wp_claim w lease now :
  wp (JobRepository.claim_for_execution i w lease now) (λ r d',
    match r with
    | Some n => ∃ j j', claimed_row w j j' ∧ n = j_attempts j' ∧ d' = set_job i j' d
    | None => d' = d
    end) d.
Proof.
  apply wp_bind, wp_update_jobs.
  - intros j Hi Hg Hty Hck. apply wp_query.
    match goal with |- context [<[i := ?v]> (jobs d)] => set (j' := v) in * end.
    cbn [jobs set_field]. rewrite lookup_insert_eq. destruct (HI j Hi) as (Hok & Hb).
    exists j, j'; split; [|split; reflexivity]. subst j'.
    pose proof (ok_status _ _ Hok) as Hst. unfold status_ok in Hst.
    guard_cases Hg;
      (match goal with Hs : j_status j = _ |- _ =>
         rewrite Hs in Hst; split;
         [ exact Hi | row_step Hs Hst | row_ok Hok Hs Hst
         | apply (claim_budget j); [exact Hb|rewrite Hs; rewrite !elem_of_cons; tauto|apply Hst|..];
           reflexivity
         | by rewrite Hs | reflexivity .. ]
       end); destruct (j_started_at j); eauto.
  - intros _. by apply wp_query.
Qed.
End Rows.

Lemma Inv_row_fine strict i d : Inv strict d → row_fine strict i d.
Proof. intros HI j Hi. destruct (inv_jobs _ _ HI i j Hi) as (? & _ & ?). done. Qed.

(** ** Sequences of moves *)

(** The moves of a worker [w], and those of every service ([None]). *)
Definition moves (strict : bool) (w : option string) : Db → Db → Prop :=
  rtc (λ d d', ∃ l, (l = None ∨ l = w) ∧ move strict l d d').

Lemma moves_one strict w l d d' : (l = None ∨ l = w) → move strict l d d' → moves strict w d d'.
Proof. intros Hl H. apply rtc_once. eauto. Qed.

Lemma moves_none strict w d d' : moves strict None d d' → moves strict w d d'.
Proof. apply rtc_subrel. intros x y (l & [->| ->] & H); eauto. Qed.

Lemma moves_any strict w d d' : moves strict w d d' → rtc (any_move strict) d d'.
Proof. apply rtc_subrel. intros x y (l & _ & H). by exists l. Qed.

#[export] Instance moves_refl strict w : Reflexive (moves strict w).
Proof. unfold moves. apply _. Qed.
#[export] Instance moves_trans strict w : Transitive (moves strict w).
Proof. unfold moves. apply _. Qed.

Lemma moves_keep_Inv strict w d d' : moves strict w d d' → Inv strict d → Inv strict d'.
Proof. intros H. by apply (moves_Inv strict d), (moves_any _ w). Qed.

Lemma then_move strict w d d1 d' : moves strict w d d1 → move strict None d1 d' → moves strict w d d'.
Proof. intros H1 H2. transitivity d1; [done|]. apply (moves_one _ _ None); eauto. Qed.

(** Updating a row of a table by [alter]. *)
Lemma update_dispatch_set k f d o :
  dispatch_outbox d !! k = Some o → update_dispatch k f d = set_dispatch k (f o) d.
Proof. intros H. unfold update_dispatch, set_dispatch. by rewrite (alter_as_insert _ _ _ o). Qed.

Lemma update_notification_set k f d n :
  notification_outbox d !! k = Some n → update_notification k f d = set_notification k (f n) d.
Proof.
  intros H. unfold update_notification, set_notification. by rewrite (alter_as_insert _ _ _ n).
Qed.

(** An update of an attempt keeps the columns [same_attempt] names. *)
Lemma update_attempt_moves strict w k f d :
  (∀ a, same_attempt a (f a)) →
  moves strict w d (d <| job_attempts := alter f k (job_attempts d) |>).
Proof.
  intros Hf. destruct (job_attempts d !! k) as [a|] eqn:Hk.
  - rewrite (alter_as_insert _ _ _ a) by done. apply (moves_one _ _ None); [by left|].
    apply (mv_attempt _ d k a (f a)); [done|apply Hf].
  - rewrite alter_absent by done. by destruct d.
Qed.
