(* ===== verification/Transactions.v ===== *)
(** Refinement, part two: the body of every transaction of the services, started
    in a database that satisfies the invariant, performs a sequence of moves of
    the abstract specification. *)

From S2P Require Import Prelude PyStr PyFloat Json Domain Config Uuid Models Effects.
From S2P Require Import Repositories Notifications Logic Lifecycle Invariant Submission.
From S2P Require Import Cancellation Execution Scheduling Steps.
Import JobStatus.

(** Dedupe keys determine the job and the event. *)
Lemma JobEventType_value_inj e f : JobEventType_value e = JobEventType_value f → e = f.
Proof. by destruct e, f. Qed.

Lemma dedupe_key_inj i1 i2 e1 e2 :
  (i1 < uuid_bound)%N → (i2 < uuid_bound)%N → dedupe_key i1 e1 = dedupe_key i2 e2 →
  i1 = i2 ∧ e1 = e2.
Proof.
  intros H1 H2 H. unfold dedupe_key in H.
  apply str_app_inj in H as [Hi He]; [|by rewrite !uuid_str_length].
  apply uuid_str_inj in Hi; [|done|done]. split; [done|].
  apply JobEventType_value_inj. injection He. done.
Qed.

Section Transactions.
Context {env : Env} (strict : bool).

(** ** Shared steps *)

(** An event of an existing job. *)
Lemma wp_event i ty from to detail (Q : unit → Db → Prop) d :
  (∀ d', move strict None d d' → jobs d' = jobs d → dispatch_outbox d' = dispatch_outbox d →
         notification_outbox d' = notification_outbox d → Q tt d') →
  wp (JobEventRepository.record i ty from to detail) Q d.
Proof.
  intros HQ. apply wp_record. intros e Hfresh Hj Hex _ _ _.
  apply HQ; try done. by apply (mv_event strict d e); [|rewrite Hj].
Qed.

(** Closing an attempt. *)
Lemma wp_finish_attempt k s now c m (Q : unit → Db → Prop) d :
  (∀ d', moves strict None d d' → jobs d' = jobs d → notification_outbox d' = notification_outbox d →
         Q tt d') →
  wp (JobAttemptRepository.finish k s now c m) Q d.
Proof. intros HQ. apply wp_finish, HQ; try done. by apply update_attempt_moves. Qed.

Lemma wp_superseded k now d :
  wp (_mark_superseded k now) (λ _, moves strict None d) d.
Proof. apply wp_finish_attempt. auto. Qed.

(** ** Between the UPDATE of a job and its notification

    The statements run in [set_job i j' d] are moved before the UPDATE: they
    write other tables. *)

Lemma row_change_same i d d' j j' :
  jobs d' = jobs d → row_change strict i d j j' → row_change strict i d' j j'.
Proof. intros Heq []. split; try done. by rewrite Heq. Qed.

Lemma wp_event_under i j j' ty from to detail (Q : unit → Db → Prop) d :
  jobs d !! i = Some j →
  (∀ d', move strict None d d' → jobs d' = jobs d → Q tt (set_job i j' d')) →
  wp (JobEventRepository.record i ty from to detail) Q (set_job i j' d).
Proof.
  intros Hi HQ. apply wp_record. intros e Hfresh Hj _ _ _ _.
  apply (HQ (add_event e d)); [|done]. apply mv_event; [done|]. rewrite Hj. eauto.
Qed.

Lemma wp_finish_attempt_under i j' k s now c m (Q : unit → Db → Prop) d :
  (∀ d', moves strict None d d' → jobs d' = jobs d → Q tt (set_job i j' d')) →
  wp (JobAttemptRepository.finish k s now c m) Q (set_job i j' d).
Proof.
  intros HQ. apply wp_finish.
  pose proof (HQ (d <| job_attempts := alter (λ a, a <| a_status := s |> <| a_completed_at := Some now |>
    <| a_error_code := c |> <| a_error_message := m |>) k (job_attempts d) |>)) as H.
  apply H; [|done].
  by apply update_attempt_moves.
Qed.

Lemma wp_terminal_notification d i job j j' ev status result code message now
  (Q : unit → Db → Prop) :
  Inv strict d → row_change strict i d j j' → j_id job = i →
  terminal_event (j_status j') = Some ev →
  (∀ d', move strict None d d' → jobs d' = <[i := j']> (jobs d) → Q tt d') →
  wp (enqueue_terminal_notification job ev status result code message now) Q (set_job i j' d).
Proof.
  intros HI Hrow Hid Hev HQ.
  unfold enqueue_terminal_notification. destruct (notification_route job) as [channel destination].
  apply wp_bind, wp_enqueue; rewrite Hid.
  - intros n Hfresh _ Hn. apply wp_ret, (HQ (set_notification (n_id n) n (set_job i j' d))); [|done].
    assert (n_event_type n = ev) as Hn' by (rewrite Hn; done).
    apply (mv_finish _ _ _ j); try apply Hrow; try done.
    + pose proof (ok_status _ _ (rc_ok _ _ _ _ _ Hrow)) as Hst. unfold status_ok in Hst.
      destruct (j_status j'); try discriminate; apply Hst.
    + by rewrite Hn'.
    + by rewrite Hn.
    + rewrite Hn'. by rewrite Hn.
  - intros k n Hk Hkey. exfalso.
    destruct (inv_notification _ _ HI k n Hk) as (_ & Hkey' & x & Hx & Hterm).
    rewrite Hkey' in Hkey. apply dedupe_key_inj in Hkey as [Hi _].
    + rewrite Hi, (rc_lookup _ _ _ _ _ Hrow) in Hx. injection Hx as <-.
      pose proof (step_live _ _ (rc_step _ _ _ _ _ Hrow)) as Hl.
      by rewrite (terminal_event_is_terminal _ _ Hterm) in Hl.
    + by apply (inv_jobs _ _ HI _ _ Hx).
    + by apply (inv_jobs _ _ HI i j), Hrow.
Qed.

(** The other jobs are left alone. *)
Definition only_job (i : uuid) (d d' : Db) : Prop :=
  ∀ k, k ≠ i → jobs d' !! k = jobs d !! k.

Lemma only_job_insert i j' d d1 d' :
  jobs d1 = jobs d → jobs d' = <[i := j']> (jobs d1) → only_job i d d'.
Proof. intros H1 H2 k Hk. by rewrite H2, lookup_insert_ne, H1. Qed.

Lemma only_job_same i d d' : jobs d' = jobs d → only_job i d d'.
Proof. intros H k _. by rewrite H. Qed.

(** What a transaction that works on one job does. *)
Definition works_on (i : uuid) (d d' : Db) : Prop := moves strict None d d' ∧ only_job i d d'.

Lemma works_on_refl i d : works_on i d d.
Proof. split; [done|]. by apply only_job_same. Qed.

Lemma works_on_after i d d1 d' j' :
  moves strict None d d1 → jobs d1 = jobs d →
  move strict None d1 d' → jobs d' = <[i := j']> (jobs d1) → works_on i d d'.
Proof. intros. split; [by apply (then_move _ _ _ d1)|by apply (only_job_insert i j' d d1)]. Qed.

(** The event and the notification that end a job, after other writes. *)
Lemma wp_announce {A} (f : unit → M A) (Q : A → Db → Prop)
  d0 d i job j j' ev ty from to detail status result code message now :
  Inv strict d0 → moves strict None d0 d → jobs d = jobs d0 →
  row_change strict i d0 j j' → j_id job = i → terminal_event (j_status j') = Some ev →
  (∀ d', works_on i d0 d' → wp (f tt) Q d') →
  wp (_ ← JobEventRepository.record i ty from to detail;
      x ← enqueue_terminal_notification job ev status result code message now; f x)
    Q (set_job i j' d).
Proof.
  intros HI Hm Hj Hrow Hid Hev HQ.
  apply wp_bind, (wp_event_under i j); [rewrite Hj; apply Hrow|]. intros d1 H1 Hj1.
  apply wp_bind, (wp_terminal_notification d1 i job j j' ev); try done.
  - apply (move_Inv _ None d); [|done]. by apply (moves_keep_Inv strict None d0).
  - apply (row_change_same i d0); [congruence|done].
  - intros d' H2 Hj2. apply HQ, (works_on_after i d0 d1 d' j'); try congruence.
    by apply (then_move _ _ _ d).
Qed.

Lemma wp_last {A B} (m : M A) (n : A → M B) (Q : B → Db → Prop) d :
  wp (a ← m; x ← n a; mret x) Q d → wp (a ← m; n a) Q d.
Proof.
  intros H w Hw. specialize (H w Hw). unfold mbind, M_bind in *.
  destruct (m w) as [[a|e] w']; [|done]. by destruct (n a w') as [[?|?] ?].
Qed.

(** A row change that is a move by itself. *)
Lemma row_change_move i d j j' :
  row_change strict i d j j' → j_status j ≠ PENDING → j_status j' ≠ PENDING →
  StateMachine.is_terminal (j_status j') = false → move strict None d (set_job i j' d).
Proof. intros [] ???. by apply (mv_job _ _ _ j). Qed.

Lemma keeps_status_moves i d b d' :
  row_changed strict i keeps_status d b d' → works_on i d d'.
Proof.
  destruct b; simpl; [|intros ->; apply works_on_refl].
  intros (j & j' & Hrow & [Hs Hp] & ->). split; [|by apply (only_job_insert i j' d d)].
  apply (moves_one _ _ None); [by left|]. apply (row_change_move i d j j' Hrow).
  - done.
  - by rewrite Hs.
  - rewrite Hs. apply (step_live _ _ (rc_step _ _ _ _ _ Hrow)).
Qed.

(** ** The worker's transactions *)

Section WorkerBodies.
Context (settings : Settings) (worker_id : string).

Lemma heartbeat_works i d :
  Inv strict d → wp (heartbeat_body settings worker_id i) (λ _, works_on i d) d.
Proof.
  intros HI. apply wp_bind, wp_reading. intros n.
  apply wp_bind. eapply wp_mono; [by apply wp_heartbeat, Inv_row_fine|].
  intros b d' H. apply wp_ret. by apply keeps_status_moves in H.
Qed.

Lemma report_progress_works i p d :
  Inv strict d → wp (report_progress_body settings worker_id i p) (λ _, works_on i d) d.
Proof.
  intros HI. apply wp_bind, wp_reading. intros n.
  apply wp_bind. eapply wp_mono; [by apply wp_update_progress, Inv_row_fine|].
  intros b d' H. apply wp_ret. by apply keeps_status_moves in H.
Qed.

Lemma superseded_works i k now d :
  wp (_mark_superseded k now) (λ _, works_on i d) d.
Proof.
  apply wp_finish_attempt. intros d' H Hj _. split; [done|]. by apply only_job_same.
Qed.

(** The shape of the finalizers that end a job. *)
Lemma wp_close {A} (f : unit → M A) (Q : A → Db → Prop)
  d i job j j' ev k s c m ty from to detail status result code message now :
  Inv strict d → row_change strict i d j j' → j_id job = i →
  terminal_event (j_status j') = Some ev → (∀ d', works_on i d d' → wp (f tt) Q d') →
  wp (_ ← JobAttemptRepository.finish k s now c m;
      _ ← JobEventRepository.record i ty from to detail;
      x ← enqueue_terminal_notification job ev status result code message now; f x)
    Q (set_job i j' d).
Proof.
  intros HI Hrow Hid Hev HQ. apply wp_bind, wp_finish_attempt_under. intros d1 H1 Hj1.
  by apply (wp_announce f Q d d1 i job j j' ev).
Qed.

Lemma succeeded_works i k result now d :
  Inv strict d → wp (succeeded_body worker_id i k result now) (λ _, works_on i d) d.
Proof.
  intros HI. apply wp_bind, wp_query. destruct (jobs d !! i) as [job|] eqn:Hi;
    [|apply superseded_works].
  apply wp_bind. eapply wp_mono; [by apply wp_mark_succeeded, Inv_row_fine|].
  intros [|] d1; simpl; [|intros ->; apply superseded_works].
  intros (j & j' & Hrow & Hs & ->).
  apply wp_bind, wp_finish_attempt_under. intros d1 H1 Hj1. apply wp_last.
  apply (wp_announce _ _ d d1 i job j j'); try done.
  - by apply (inv_jobs _ _ HI).
  - by rewrite Hs.
  - intros d' Hw. by apply wp_ret.
Qed.

Lemma failed_works i k code message dead now d :
  Inv strict d → (dead = true → exhausted_if_held strict i d worker_id) →
  wp (failed_body worker_id i k code message dead now) (λ _, works_on i d) d.
Proof.
  intros HI Hdead. apply wp_bind, wp_query. destruct (jobs d !! i) as [job|] eqn:Hi.
  2: { apply wp_bind. eapply wp_mono; [apply (superseded_works i)|]. intros. by apply wp_ret. }
  apply wp_bind. eapply wp_mono; [apply (wp_mark_failed strict); [by apply Inv_row_fine|exact Hdead]|].
  intros [|] d1; simpl.
  2: { intros ->. apply wp_bind. eapply wp_mono; [apply (superseded_works i)|].
       intros. by apply wp_ret. }
  intros (j & j' & Hrow & Hs & ->). apply (wp_close _ _ d i job j j'); try done.
  - by apply (inv_jobs _ _ HI).
  - by rewrite Hs.
  - intros d' Hw. by apply wp_ret.
Qed.

Lemma cancelled_works i k now d :
  Inv strict d → (∀ j, jobs d !! i = Some j → some (j_cancellation_requested_at j)) →
  wp (cancelled_body worker_id i k now) (λ _, works_on i d) d.
Proof.
  intros HI Hreq. apply wp_bind, wp_query. destruct (jobs d !! i) as [job|] eqn:Hi;
    [|apply superseded_works].
  apply wp_bind. eapply wp_mono.
  { apply (wp_finalize_cancelled strict); [by apply Inv_row_fine|].
    intros x Hx. apply Hreq. congruence. }
  intros [|] d1; simpl; [|intros ->; apply superseded_works].
  intros (j & j' & Hrow & [_ Hs] & ->).
  apply wp_bind, wp_finish_attempt_under. intros d1 H1 Hj1. apply wp_last.
  apply (wp_announce _ _ d d1 i job j j'); try done.
  - by apply (inv_jobs _ _ HI).
  - by rewrite Hs.
  - intros d' Hw. by apply wp_ret.
Qed.

Lemma retry_works i k code message next now d :
  Inv strict d →
  (strict = true → ∀ j, jobs d !! i = Some j → holds worker_id j →
     j_attempts j < j_max_attempts j) →
  wp (retry_body worker_id i k code message next now) (λ _, works_on i d) d.
Proof.
  intros HI Hmore. apply wp_bind.
  eapply wp_mono; [apply (wp_schedule_retry strict); [by apply Inv_row_fine|exact Hmore]|].
  intros [|] d1; simpl; [|intros ->; apply superseded_works].
  intros (j & j' & Hrow & [Hs Hs'] & ->).
  apply wp_bind, wp_finish_attempt_under. intros d1 H1 Hj1.
  apply (wp_event_under i j); [rewrite Hj1; apply Hrow|]. intros d2 H2 Hj2.
  split; [|by apply (only_job_insert i j' d d2); [congruence|]].
  apply (then_move _ _ _ d2); [by apply (then_move _ _ _ d1)|].
  apply (row_change_move i d2 j j'); [apply (row_change_same i d); [congruence|done]|..];
    by rewrite ?Hs, ?Hs'.
Qed.

(** What a claim knows of the job: it holds the lease of attempt [n]. *)
Definition just_claimed (i : uuid) (c : Claim) (d : Db) : Prop :=
  ∃ j, jobs d !! i = Some j ∧ j_status j = RUNNING ∧ j_locked_by j = Some worker_id
    ∧ j_attempts j = c_attempt_number c
    ∧ j_type j = s_type (c_snapshot c) ∧ j_payload j = s_payload (c_snapshot c)
    ∧ j_max_attempts j = s_max_attempts (c_snapshot c).

Lemma claim_moves i now d :
  Inv strict d →
  wp (claim_body settings worker_id i now) (λ r d',
    match r with
    | Some c => moves strict (Some worker_id) d d' ∧ just_claimed i c d'
    | None => d' = d
    end) d.
Proof.
  intros HI. apply wp_bind, wp_query. destruct (jobs d !! i) as [job|] eqn:Hi; [|by apply wp_ret].
  apply wp_bind. eapply wp_mono; [apply (wp_claim strict); by apply Inv_row_fine|].
  intros [n|] d1; [|intros ->; by apply wp_ret]. intros (j & j' & Hc & -> & ->).
  destruct Hc as [Hj Hstep Hok Hb Hfrom Hs Ha Hl]. assert (job = j) as -> by congruence.
  apply wp_bind, wp_start. intros k a Hfresh _.
  set (d2 := set_attempt k a (set_job i j' d)).
  assert (Hm : move strict (Some worker_id) d d2) by (by apply (mv_claim strict worker_id d i j j' a)).
  apply wp_bind, (wp_event i _ _ _ _ _ d2). intros d3 H3 Hj3 _ _. apply wp_ret. split.
  - apply (then_move _ _ _ d2); [|done]. apply (moves_one _ _ (Some worker_id)); [by right|done].
  - exists j'. rewrite Hj3. pose proof (step_identity _ _ Hstep) as Hid. injection Hid.
    intros _ _ Hmax Hpl _ Hty _ _. repeat split; try done. apply lookup_insert_eq.
Qed.
End WorkerBodies.

(** ** Cancellation *)

Lemma cancel_moves i user reason now d :
  Inv strict d → wp (cancel_locked i user reason now) (λ _, works_on i d) d.
Proof.
  intros HI. apply wp_bind, wp_query.
  assert (Hrefl : ∀ a : CancelOutcome, wp (mret a) (λ _, works_on i d) d)
    by (intros; apply wp_ret, works_on_refl).
  destruct (JobRepository.owned_by user (jobs d !! i)) as [job|] eqn:Hown; [|apply Hrefl].
  assert (jobs d !! i = Some job) as Hi.
  { unfold JobRepository.owned_by in Hown. destruct (jobs d !! i); [|done].
    by destruct (String.eqb _ _). }
  cbv zeta. case_bool_decide as Hterm; [apply Hrefl|].
  case_bool_decide as Hcancelling; [apply Hrefl|].
  case_bool_decide as Hrunning; apply wp_bind.
  - eapply wp_mono; [apply (wp_request_cancellation strict); by apply Inv_row_fine|].
    intros [|] d1 [Hb Hn]; simpl in Hb.
    2: { specialize (Hn eq_refl job Hi). unfold status_is in Hn. by bool_simpl. }
    destruct Hb as (j & j' & Hrow & [Hs Hs'] & ->).
    apply wp_bind, (wp_event_under i j); [apply Hrow|]. intros d2 H2 Hj2. apply wp_ret.
    split; [|by apply (only_job_insert i j' d d2)].
    apply (then_move _ _ _ d2); [by apply (moves_one _ _ None); auto|].
    apply (row_change_move i d2 j j'); [by apply (row_change_same i d)|..]; by rewrite ?Hs, ?Hs'.
  - eapply wp_mono; [apply (wp_cancel_inactive strict); by apply Inv_row_fine|].
    intros [|] d1 [Hb Hn]; simpl in Hb.
    2: { specialize (Hn eq_refl job Hi). unfold status_in in Hn. bool_simpl. exfalso. apply Hn.
         unfold StateMachine.TERMINAL_STATUSES, JobRepository._INACTIVE_CANCELLABLE in *.
         rewrite !elem_of_cons, elem_of_nil in *. destruct (j_status job); tauto. }
    destruct Hb as (j & j' & Hrow & Hs & ->).
    apply (wp_announce _ _ d d i job j j' JobEventType.CANCELLED); try done.
    + by apply (inv_jobs _ _ HI).
    + by rewrite Hs.
    + intros. by apply wp_ret.
Qed.

(** ** Submission *)

Lemma submit_moves user ty payload priority attempts key now d :
  Inv strict d →
  wp (create_rows user ty payload priority attempts key now) (λ job d',
    moves strict None d d' ∧ jobs d !! j_id job = None
    ∧ jobs d' = <[j_id job := job]> (jobs d)
    ∧ ∃ i, job = new_job i user ty payload priority attempts key now) d.
Proof.
  intros HI. apply wp_bind, wp_generate_uuid7. intros i Hrange.
  set (job := new_job i user ty payload priority attempts key now).
  apply wp_bind, wp_statement_. intros d1 E. unfold insert_job in E.
  destruct (job_types_ok job) eqn:Hty; [|done]. simpl in E.
  destruct (job_checks_ok job) eqn:Hck; [|done].
  unfold is_free in E. destruct (jobs d !! i) eqn:Hi; [done|].
  destruct (idempotency_key_free job (jobs d)) eqn:Hkey; [|done]. injection E as <-.
  apply wp_bind, wp_record. intros e Hfresh Hj _ _ _ _.
  apply wp_bind, wp_bind, wp_generate_uuid7. intros k _. apply wp_bind, wp_txn_now. intros t.
  apply wp_statement_. intros d2 E. unfold insert_dispatch, is_free in E. cbn [d_id d_job_id] in E.
  destruct (negb _); [done|].
  destruct (dispatch_outbox _ !! k) eqn:Hk; [done|]. destruct (job_exists _ _); [|done].
  injection E as <-. apply wp_ret. split; [|split; [done|split; [done|by exists i]]].
  apply (moves_one _ _ None); [by left|].
  apply (mv_submit _ d job e (mkDispatchOutbox k i OutboxStatus.PENDING 0 t None)); try done.
  intros _. assert (1 <= attempts) as Hpos.
  { unfold job_checks_ok in Hck. bool_simpl. simpl in *. lia. }
  split; [simpl; lia|]. split; [simpl; lia|]. intros [? Hd]. discriminate Hd.
Qed.

(** ** Batches of the scheduler *)

(** Rows selected FOR UPDATE, worked on one by one. *)
Lemma wp_batch {A B} (table : Db → gmap uuid A) (f : A → M B) (l : list (uuid * A)) d :
  Inv strict d → NoDup l.*1 → (∀ i a, (i, a) ∈ l → table d !! i = Some a) →
  (∀ d1 i a, Inv strict d1 → (i, a) ∈ l → table d1 !! i = Some a →
     wp (f a) (λ _ d2, moves strict None d1 d2
                       ∧ ∀ k, k ≠ i → table d2 !! k = table d1 !! k) d1) →
  wp (for_each l.*2 f) (λ _, moves strict None d) d.
Proof.
  intros HI Hnd Hl Hf.
  apply (wp_for_each _ _ (λ rest _ d1, moves strict None d d1 ∧
    ∃ l', rest = l'.*2 ∧ l' ⊆ l ∧ NoDup l'.*1 ∧ ∀ i a, (i, a) ∈ l' → table d1 !! i = Some a)).
  - split; [done|]. exists l. done.
  - intros a rest _ d1 (Hm & [|[i x] l'] & Heq & Hsub & Hnd' & Hrows); [done|].
    injection Heq as -> ->. simpl in Hnd'. apply NoDup_cons in Hnd' as [Hi Hnd'].
    eapply wp_mono; [apply (Hf d1 i x)|].
    + by apply (moves_keep_Inv strict None d).
    + apply Hsub, list_elem_of_here.
    + apply Hrows, list_elem_of_here.
    + intros _ d2 [Hm2 Hother]. split; [by transitivity d1|]. exists l'. split; [done|].
      split; [set_solver|]. split; [done|]. intros k y Hk. rewrite Hother.
      * apply Hrows, list_elem_of_further, Hk.
      * intros ->. apply Hi. by apply (list_elem_of_fmap_2 fst l' (i, y)).
  - intros _ d1 [Hm _]. done.
Qed.

(** A batch over jobs, each row worked on under its own id. *)
Lemma wp_job_batch {B C} guard key limit (f : Job → M B) (g : list B → C) d :
  Inv strict d →
  (∀ d1 j, Inv strict d1 → jobs d1 !! j_id j = Some j → guard j = true →
     wp (f j) (λ _, works_on (j_id j) d1) d1) →
  wp (rows ← select_for_update jobs guard key limit; bs ← for_each rows f; mret (g bs))
    (λ _, moves strict None d) d.
Proof.
  intros HI Hf. apply wp_bind, wp_select. intros l Hnd Hl.
  apply wp_bind. eapply wp_mono; [apply (wp_batch jobs f l d HI Hnd)|].
  - intros i j Hin. by apply Hl.
  - intros d1 i j HI1 Hin Hj. assert (j_id j = i) as <- by (by apply (inv_jobs _ _ HI1)).
    eapply wp_mono; [apply Hf; [done|done|by apply (Hl (j_id j))]|]. intros _ d2 [Hm Ho]. done.
  - intros bs d' Hm. by apply wp_ret.
Qed.

Lemma promote_works now j d :
  Inv strict d → jobs d !! j_id j = Some j →
  wp (promote_row now j) (λ _, works_on (j_id j) d) d.
Proof.
  intros HI Hj. apply wp_bind.
  eapply wp_mono; [apply (wp_move_retry strict); by apply Inv_row_fine|].
  intros [|] d1; simpl; [|intros ->; apply wp_ret, works_on_refl].
  intros (x & j' & Hrow & [Hs Hs'] & ->).
  apply wp_bind, (wp_event_under _ x); [apply Hrow|]. intros d2 H2 Hj2. apply wp_ret.
  apply (works_on_after _ d d2 _ j'); try done; [by apply (moves_one _ _ None); auto|].
  apply (row_change_move _ d2 x j'); [by apply (row_change_same _ d)|..]; by rewrite ?Hs, ?Hs'.
Qed.

Lemma redeliver_works j d :
  Inv strict d → jobs d !! j_id j = Some j →
  wp (redeliver_row j) (λ _, works_on (j_id j) d) d.
Proof.
  intros HI Hj. apply wp_bind, wp_reading. intros n. apply wp_bind.
  eapply wp_mono; [apply (wp_mark_redispatched strict); by apply Inv_row_fine|].
  intros b d' H. apply wp_ret. by apply keeps_status_moves in H.
Qed.

Lemma reap_works now j d :
  Inv strict d → jobs d !! j_id j = Some j → wp (reap_row now j) (λ _, works_on (j_id j) d) d.
Proof.
  intros HI Hj. unfold reap_row. destruct (Z.leb_spec (j_max_attempts j) (j_attempts j)).
  - apply wp_bind. eapply wp_mono.
    { apply (wp_fail_expired_lease strict); [by apply Inv_row_fine|].
      intros x Hx. by assert (x = j) as -> by congruence. }
    intros [|] d1; simpl; [|intros ->; apply wp_ret, works_on_refl].
    intros (x & j' & Hrow & [Hs Hs'] & ->).
    apply (wp_announce _ _ d d _ j x j' JobEventType.FAILED); try done.
    + by rewrite Hs'.
    + intros. by apply wp_ret.
  - apply wp_bind. eapply wp_mono.
    { apply (wp_requeue_expired_lease strict); [by apply Inv_row_fine|].
      intros x Hx. by assert (x = j) as -> by congruence. }
    intros [|] d1; simpl; [|intros ->; apply wp_ret, works_on_refl].
    intros (x & j' & Hrow & [Hs Hs'] & ->).
    apply wp_bind, (wp_event_under _ x); [apply Hrow|]. intros d2 H2 Hj2. apply wp_ret.
    apply (works_on_after _ d d2 _ j'); try done; [by apply (moves_one _ _ None); auto|].
    apply (row_change_move _ d2 x j'); [by apply (row_change_same _ d)|..]; by rewrite ?Hs, ?Hs'.
Qed.

Lemma expire_works now j d :
  Inv strict d → jobs d !! j_id j = Some j → wp (expire_row now j) (λ _, works_on (j_id j) d) d.
Proof.
  intros HI Hj. apply wp_bind.
  eapply wp_mono; [apply (wp_expire strict); by apply Inv_row_fine|].
  intros [|] d1; simpl; [|intros ->; apply wp_ret, works_on_refl].
  intros (x & j' & Hrow & Hs & ->). apply wp_bind, wp_query.
  apply (wp_announce _ _ d d _ j x j' JobEventType.EXPIRED); try done.
  - by rewrite Hs.
  - intros. by apply wp_ret.
Qed.

Lemma dispatch_works now o d :
  Inv strict d → dispatch_outbox d !! d_id o = Some o →
  wp (dispatch_row now o) (λ _ d', moves strict None d d'
    ∧ ∀ k, k ≠ d_id o → dispatch_outbox d' !! k = dispatch_outbox d !! k) d.
Proof.
  intros HI Ho. destruct (inv_dispatch _ _ HI _ _ Ho) as (_ & job & Hjob).
  apply wp_bind, wp_query. rewrite Hjob. apply wp_bind, wp_modify.
  rewrite (update_dispatch_set _ _ _ o) by done.
  match goal with |- context [set_dispatch _ ?x _] => set (o' := x) end.
  assert (Hsame : same_dispatch o o') by done. clearbody o'.
  set (d1 := set_dispatch (d_id o) o' d). apply wp_bind.
  eapply wp_mono; [apply (wp_mark_queued strict); by apply (Inv_row_fine strict _ d)|].
  assert (Hother : ∀ i d', dispatch_outbox d' = <[i := o']> (dispatch_outbox d) →
            ∀ k, k ≠ i → dispatch_outbox d' !! k = dispatch_outbox d !! k).
  { intros i d' H k Hk. by rewrite H, lookup_insert_ne. }
  assert (Hev : ∀ d2, move strict None d d2 → dispatch_outbox d2 = <[d_id o := o']> (dispatch_outbox d) →
    wp (_ ← JobEventRepository.record (d_job_id o) JobEventType.QUEUED
            (Some JobStatus.PENDING) (Some JobStatus.QUEUED) [];
        mret (Some (uuid_str (d_job_id o), j_priority job)))
      (λ _ d', moves strict None d d'
        ∧ ∀ k, k ≠ d_id o → dispatch_outbox d' !! k = dispatch_outbox d !! k) d2).
  { intros d2 H2 Ho2. apply wp_bind, wp_event. intros d3 H3 _ Ho3 _. apply wp_ret. split.
    - apply (then_move _ _ _ d2); [by apply (moves_one _ _ None); auto|done].
    - apply Hother. congruence. }
  intros [|] d2 [Hb Hn]; simpl in Hb.
  - destruct Hb as (j & j' & [Hlk Hstep Hok Hbud Hatt _] & [Hs Hs'] & ->).
    apply Hev; [|done]. apply (mv_queued _ d _ o o' j j'); try done.
    pose proof (ok_status _ _ Hok) as Hst. unfold status_ok in Hst. rewrite Hs' in Hst. apply Hst.
  - rewrite Hb. apply Hev; [|done]. apply (mv_dispatched _ d _ o); try done.
    intros j Hj Hp. specialize (Hn eq_refl j Hj). unfold status_is in Hn. by bool_simpl.
Qed.

Lemma dispatch_moves batch_size now d :
  Inv strict d → wp (dispatch_body batch_size now) (λ _, moves strict None d) d.
Proof.
  intros HI. apply wp_bind, wp_select. intros l Hnd Hl.
  apply wp_bind. eapply wp_mono; [apply (wp_batch dispatch_outbox _ l d HI Hnd)|].
  - intros i o Hin. by apply Hl.
  - intros d1 i o HI1 _ Ho. assert (d_id o = i) as <- by (by apply (inv_dispatch _ _ HI1)).
    by apply dispatch_works.
  - intros bs d' Hm. by apply wp_ret.
Qed.

Lemma promote_moves batch_size now d :
  Inv strict d → wp (promote_body batch_size now) (λ _, moves strict None d) d.
Proof. intros HI. apply (wp_job_batch _ _ _ _ omap_list); auto using promote_works. Qed.

Lemma redeliver_moves batch_size cutoff d :
  Inv strict d → wp (redeliver_body batch_size cutoff) (λ _, moves strict None d) d.
Proof.
  intros HI. apply wp_last. apply (wp_job_batch _ _ _ _ id); auto using redeliver_works.
Qed.

Lemma reap_moves batch_size now d :
  Inv strict d → wp (reap_body batch_size now) (λ _, moves strict None d) d.
Proof. intros HI. apply (wp_job_batch _ _ _ _ omap_list); auto using reap_works. Qed.

Lemma expire_moves batch_size now cutoff d :
  Inv strict d → wp (expire_body batch_size now cutoff) (λ _, moves strict None d) d.
Proof. intros HI. apply (wp_job_batch _ _ _ _ (foldl Z.add 0)); auto using expire_works. Qed.

(** ** Delivery of notifications *)

Section Delivery.
Context (settings : Settings).

Lemma deliver_quiet n : quiet (_deliver settings n).
Proof.
  unfold _deliver, _deliver_webhook. case_bool_decide; [|done].
  apply quiet_bind; [apply quiet_reading|]. by intros [].
Qed.

(** The outcome of an attempt, written on the row. *)
Lemma wp_write_notification n f (Q : unit → Db → Prop) d :
  notification_outbox d !! n_id n = Some n → n_status n = NotificationStatus.PENDING →
  same_notification n (f n) →
  (∀ d', moves strict None d d' →
         (∀ k, k ≠ n_id n → notification_outbox d' !! k = notification_outbox d !! k) → Q tt d') →
  wp (modify_db (update_notification (n_id n) f)) Q d.
Proof.
  intros Hn Hs Hsame HQ. apply wp_modify. rewrite (update_notification_set _ _ _ n Hn). apply HQ.
  - apply (moves_one _ _ None); [by left|]. by apply (mv_notification _ d _ n).
  - intros k Hk. apply lookup_insert_ne. done.
Qed.

Lemma attempt_works n d :
  notification_outbox d !! n_id n = Some n → n_status n = NotificationStatus.PENDING →
  wp (_attempt settings n) (λ _ d', moves strict None d d'
    ∧ ∀ k, k ≠ n_id n → notification_outbox d' !! k = notification_outbox d !! k) d.
Proof.
  intros Hn Hs. apply wp_bind, wp_try_quiet; [apply deliver_quiet|].
  assert (Hfail : ∀ message, wp (_on_failure settings n message) (λ _ d', moves strict None d d'
    ∧ ∀ k, k ≠ n_id n → notification_outbox d' !! k = notification_outbox d !! k) d).
  { intros message. unfold _on_failure. cbv zeta. destruct (_ <=? _).
    - by apply wp_write_notification.
    - apply wp_bind, wp_reading. intros draw. apply wp_bind.
      destruct (compute_backoff_seconds _ _ _) as [e|b]; [apply wp_raise|]. apply wp_ret.
      apply wp_bind, wp_reading. intros now. apply wp_bind.
      destruct (timedelta_of_seconds b) as [e|t]; [apply wp_raise|]. apply wp_ret.
      by apply wp_write_notification. }
  intros [[]|e].
  - apply wp_bind, wp_reading. intros now. by apply wp_write_notification.
  - destruct e; try apply wp_raise. apply Hfail.
Qed.

Lemma due_moves batch_size d :
  Inv strict d → wp (due_body settings batch_size) (λ _, moves strict None d) d.
Proof.
  intros HI. apply wp_bind, wp_reading. intros now. apply wp_bind, wp_select. intros l Hnd Hl.
  apply wp_bind. eapply wp_mono; [apply (wp_batch notification_outbox _ l d HI Hnd)|].
  - intros i n Hin. by apply Hl.
  - intros d1 i n HI1 Hin Hn. assert (n_id n = i) as <- by (by apply (inv_notification _ _ HI1)).
    apply attempt_works; [done|]. destruct (Hl _ _ Hin) as [_ Hg]. by bool_simpl.
  - intros bs d' Hm. by apply wp_ret.
Qed.
End Delivery.
End Transactions.
