(* ===== verification/Programs.v ===== *)
(** The coroutines of the program among other tasks: each keeps the invariant and
    makes only moves of its own, whatever the others do between its awaits.

    [rely strict o] is what a task whose claims are made under the identity [o]
    may observe of the others; [moves strict o] is what it does itself.  With
    [strict] no other task claims under that identity. *)

From S2P Require Import Prelude PyStr PyFloat Json Domain Config Uuid Models Effects.
From S2P Require Import Repositories Queue Notifications Catalog Logic Lifecycle Invariant.
From S2P Require Import Submission Cancellation Execution Scheduling Worker Steps Transactions.
From S2P Require Import Read Api.
Import JobStatus.

Definition rely (strict : bool) (o : option string) : Db → Db → Prop :=
  match strict, o with
  | true, Some w => rtc (other_move strict w)
  | _, _ => rtc (any_move strict)
  end.

#[export] Instance rely_refl strict o : Reflexive (rely strict o).
Proof. unfold rely. destruct strict, o; apply _. Qed.
#[export] Instance rely_trans strict o : Transitive (rely strict o).
Proof. unfold rely. destruct strict, o; apply _. Qed.

Lemma rely_any strict o d d' : rely strict o d d' → rtc (any_move strict) d d'.
Proof.
  unfold rely. destruct strict, o; try done. apply rtc_subrel. intros x y (l & _ & H). by exists l.
Qed.

(** The moves of one task are among what another observes, unless both claim
    under the same identity and [strict] excludes it. *)
Lemma moves_rely strict o o' d d' :
  (strict = true → o = o' → o' = None) → moves strict o d d' → rely strict o' d d'.
Proof.
  intros Hne H. unfold rely. destruct strict; [|by apply (moves_any _ o)].
  destruct o' as [w|]; [|by apply (moves_any _ o)].
  revert H. apply rtc_subrel. intros x y (l & Hl & Hm). exists l. split; [|done].
  intros ->. destruct Hl as [?|<-]; [done|]. discriminate (Hne eq_refl eq_refl).
Qed.

Lemma moves_none_rely strict o d d' : moves strict None d d' → rely strict o d d'.
Proof. apply moves_rely. by intros _ <-. Qed.

(** ** Facts about a job that other tasks keep *)

Definition requested (i : uuid) (d : Db) : Prop :=
  ∃ j, jobs d !! i = Some j ∧ some (j_cancellation_requested_at j).

Lemma requested_stable strict i d d' :
  rtc (any_move strict) d d' → requested i d → requested i d'.
Proof.
  intros Hm (j & Hj & Hc). destruct (moves_history _ _ _ _ _ Hm Hj) as (j' & Hj' & Hh).
  exists j'. split; [done|]. by rewrite (history_cancellation _ _ Hh Hc).
Qed.

(** While [w] holds the lease, the job is in the attempt it claimed. *)
Definition attempt_of (strict : bool) (w : string) (i : uuid) (c : Claim) (d : Db) : Prop :=
  ∃ j, jobs d !! i = Some j ∧ j_max_attempts j = s_max_attempts (c_snapshot c)
    ∧ (strict = true → j_locked_by j = Some w → j_attempts j = c_attempt_number c).

(** A lease of [w] that was not there before comes from a claim by [w]. *)
Lemma move_lock strict l d d' i j w :
  move strict l d d' → jobs d !! i = Some j →
  ∃ j', jobs d' !! i = Some j' ∧ j_max_attempts j' = j_max_attempts j
    ∧ (j_locked_by j' = Some w → l = Some w
       ∨ j_locked_by j = Some w ∧ j_attempts j' = j_attempts j).
Proof.
  intros Hm Hi.
  assert (Hset : ∀ k x x', jobs d !! k = Some x → job_step x x' →
    (j_locked_by x' = Some w → l = Some w ∨ j_locked_by x = Some w ∧ j_attempts x' = j_attempts x) →
    ∃ j', <[k := x']> (jobs d) !! i = Some j' ∧ j_max_attempts j' = j_max_attempts j
      ∧ (j_locked_by j' = Some w → l = Some w
         ∨ j_locked_by j = Some w ∧ j_attempts j' = j_attempts j)).
  { intros k x x' Hk Hstep Hl. destruct (decide (k = i)) as [->|?].
    - exists x'. rewrite lookup_insert_eq. assert (x = j) as -> by congruence.
      pose proof (step_identity _ _ Hstep) as Hid. injection Hid. auto.
    - exists j. rewrite lookup_insert_ne by done. auto. }
  destruct Hm; db_simpl; try (exists j; by auto).
  - exists j. rewrite lookup_insert_ne; [by auto|congruence].
  - apply (Hset i0 j0); try done. intros Hl. right. intuition congruence.
  - apply (Hset (d_job_id o) j0); try done. intros Hl. congruence.
  - apply (Hset i0 j0); try done. intros Hl. left. congruence.
  - apply (Hset i0 j0); try done. intros Hl. congruence.
Qed.

Lemma attempt_of_stable strict w i c d d' :
  rely strict (Some w) d d' → attempt_of strict w i c d → attempt_of strict w i c d'.
Proof.
  unfold rely. destruct strict.
  - induction 1 as [|d1 d2 d3 (l & Hl & Hm) _ IH]; [done|].
    intros (j & Hj & Hmax & Hlock). apply IH.
    destruct (move_lock _ _ _ _ _ _ w Hm Hj) as (j' & Hj' & Hmax' & Hlock').
    exists j'. split; [done|]. split; [congruence|]. intros _ Hw.
    destruct (Hlock' Hw) as [?|[Hw' ->]]; [done|]. by apply Hlock.
  - intros Hm (j & Hj & Hmax & _). destruct (moves_history _ _ _ _ _ Hm Hj) as (j' & Hj' & Hh).
    exists j'. split; [done|]. split; [|done].
    pose proof (history_identity _ _ Hh) as Hid. injection Hid. congruence.
Qed.

(** ** Coroutines that make no claim *)

Section Programs.
Context {env : Env} (strict : bool) (o : option string).

Abbreviation R := (rely strict o).
Abbreviation G := (moves strict None).
Abbreviation cwp0 := (cwp (Inv strict) R G).

(** A transaction whose body makes moves. *)
Lemma cwp_txn {A} (body : M A) (Q : res A → Db → Prop) d :
  (∀ d', Inv strict d' → R d d' →
     wp body (λ a d'', moves strict None d' d'' ∧ (Inv strict d'' → Q (Ok a) d'')) d') →
  (∀ e d', R d d' → Q (Err e) d') →
  cwp0 (act (transaction body)) Q d.
Proof.
  intros Hb He. apply cwp_transaction; [apply _| |by eauto].
  intros d' HI HR. eapply wp_mono; [by apply Hb|]. intros a d'' [Hm HQ].
  assert (Inv strict d'') by (by apply (moves_keep_Inv strict None d')). auto.
Qed.

(** A coroutine nothing is asked of. *)
Definition harmless {A} (c : co A) : Prop := ∀ d, cwp0 c (λ _ _, True) d.

Lemma harmless_ret {A} (a : A) : harmless (Ret a).
Proof. done. Qed.
Lemma harmless_throw {A} e : harmless (A:=A) (Throw e).
Proof. done. Qed.
Lemma harmless_bind {A B} (c : co A) (f : A → co B) :
  harmless c → (∀ a, harmless (f a)) → harmless (c ≫= f).
Proof.
  intros Hc Hf d. apply cwp_bind. eapply cwp_mono; [apply Hc|]. intros [a|e] d' _; [apply Hf|done].
Qed.
Lemma harmless_try {A} (c : co A) : harmless c → harmless (try_co c).
Proof. intros Hc d. apply cwp_try, Hc. Qed.
Lemma harmless_quiet {A} (m : M A) : quiet m → harmless (act m).
Proof. intros Hq d. by apply cwp_quiet; [apply _| |]. Qed.
Lemma harmless_txn {A} (body : M A) :
  (∀ d, Inv strict d → wp body (λ _, moves strict None d) d) → harmless (act (transaction body)).
Proof.
  intros Hb d. apply cwp_txn; [|done]. intros d' HI _.
  eapply wp_mono; [by apply Hb|]. by intros a d'' Hm.
Qed.
Lemma harmless_works {A} i (body : M A) :
  (∀ d, Inv strict d → wp body (λ _, works_on strict i d) d) → harmless (act (transaction body)).
Proof.
  intros Hb. apply harmless_txn. intros d HI. eapply wp_mono; [by apply Hb|]. by intros a d' [? _].
Qed.
Lemma harmless_co_for_each {A} (l : list A) (f : A → co unit) :
  (∀ a, harmless (f a)) → harmless (co_for_each l f).
Proof. intros Hf. induction l; [done|]. by apply harmless_bind. Qed.
Lemma harmless_clock : harmless (act clock_now).
Proof. apply harmless_quiet, quiet_reading. Qed.
Lemma harmless_query {A} (f : Db → A) : harmless (act (transaction (query f))).
Proof. apply harmless_txn. intros d _. by apply wp_query. Qed.

(** *** Requests *)

Lemma submit_harmless settings user ty payload priority attempts key :
  harmless (submit settings user ty payload priority attempts key).
Proof.
  assert (Hfind : harmless (find_by_key user key)).
  { destruct key; [|done]. apply harmless_query. }
  apply harmless_bind; [by destruct (normalized_payload _ _ _)|]. intros normalized.
  apply harmless_bind; [done|]. intros [job|]; [done|].
  apply harmless_bind.
  - apply harmless_try, harmless_bind; [apply harmless_clock|]. intros now.
    apply harmless_bind; [apply harmless_clock|]. intros start.
    apply harmless_bind; [by apply harmless_quiet|]. intros active.
    destruct (_ <=? _); [done|]. intros d. apply cwp_act. intros d' HI _.
    apply wpe_transaction_at; [|by intros e; split; [|split]].
    eapply wp_mono; [by apply submit_moves|]. intros job d'' [Hm _].
    split; [|done]. by apply (moves_keep_Inv strict None d').
  - intros [job|e]; [done|]. destruct e; try done.
    apply harmless_bind; [done|]. by intros [job|].
Qed.

Lemma cancel_harmless i user reason : harmless (cancel i user reason).
Proof.
  apply harmless_bind; [apply harmless_clock|]. intros now.
  apply (harmless_works i). intros d HI. by apply cancel_moves.
Qed.

(** *** The scheduler *)

(** *** The routes *)

Lemma harmless_reads {A} (f : Db → A) : harmless (act (query f)).
Proof. apply harmless_quiet, quiet_query. Qed.

Lemma harmless_list user status ty cursor limit :
  harmless (act (JobRepository.list_for_user user status ty cursor limit)).
Proof.
  apply harmless_quiet. unfold JobRepository.list_for_user. destruct (JobRepository.cursor_binds _); [done|].
  by apply quiet_bind.
Qed.

Lemma dispatch_request_harmless settings r : harmless (dispatch settings r).
Proof.
  unfold dispatch. destruct (req_route r).
  - apply harmless_bind; [apply harmless_try, submit_harmless|]. by intros [|].
  - apply harmless_bind; [|intros [|[]]; done]. apply harmless_try.
    apply harmless_bind; [by destruct (JobReadService.position_of _)|]. intros position.
    by apply harmless_bind; [apply harmless_list|].
  - apply harmless_bind; [|done]. by apply harmless_bind; [apply harmless_reads|].
  - apply harmless_bind; [|by intros [|]]. by apply harmless_bind; [apply harmless_reads|].
  - apply harmless_bind; [apply cancel_harmless|]. intros [found status conflict]. cbn.
    by destruct found, conflict, status.
  - apply harmless_bind; [|by intros [|]].
    apply harmless_bind; [apply harmless_reads|]. intros [job|]; [|done].
    by apply harmless_bind; [apply harmless_reads|].
Qed.

Lemma serve_harmless settings r : harmless (serve settings r).
Proof.
  unfold serve. destruct (negb _); [done|].
  apply harmless_bind; [apply harmless_try, dispatch_request_harmless|]. by intros [|[]].
Qed.

Lemma publish_harmless settings l : harmless (publish_all settings l).
Proof. apply harmless_co_for_each. intros p. apply harmless_quiet, quiet_redis. Qed.

Lemma dispatch_harmless settings batch : harmless (dispatch_pending settings batch).
Proof.
  apply harmless_bind; [apply harmless_clock|]. intros now. apply harmless_bind.
  - apply harmless_txn. intros d HI. by apply dispatch_moves.
  - intros l. apply harmless_bind; [apply publish_harmless|done].
Qed.

Lemma promote_harmless settings batch : harmless (promote_due settings batch).
Proof.
  apply harmless_bind; [apply harmless_clock|]. intros now. apply harmless_bind.
  - apply harmless_txn. intros d HI. by apply promote_moves.
  - intros l. apply harmless_bind; [apply publish_harmless|done].
Qed.

Lemma delivery_harmless settings batch : harmless (dispatch_due settings batch).
Proof. apply harmless_txn. intros d HI. by apply due_moves. Qed.

Lemma reap_harmless settings batch : harmless (reap_expired settings batch).
Proof.
  apply harmless_bind; [apply harmless_clock|]. intros now. apply harmless_bind.
  - apply harmless_txn. intros d HI. by apply reap_moves.
  - intros l. apply harmless_bind.
    + apply harmless_co_for_each. intros j. apply harmless_quiet, quiet_redis.
    + intros _. apply harmless_bind; [apply publish_harmless|done].
Qed.

Lemma redeliver_harmless settings batch : harmless (redeliver_stuck settings batch).
Proof.
  apply harmless_bind; [apply harmless_clock|]. intros now. apply harmless_bind.
  - apply harmless_txn. intros d HI. by apply redeliver_moves.
  - intros l. apply harmless_bind; [apply publish_harmless|done].
Qed.

Lemma expire_harmless settings batch : harmless (expire_stale settings batch).
Proof.
  apply harmless_bind; [apply harmless_clock|]. intros now.
  apply harmless_txn. intros d HI. by apply expire_moves.
Qed.

Lemma tick_harmless settings : harmless (tick (build_scheduler settings)).
Proof.
  apply harmless_bind; [apply dispatch_harmless|]. intros _.
  apply harmless_bind; [apply promote_harmless|]. intros _.
  apply harmless_bind; [apply reap_harmless|]. intros _.
  apply harmless_bind; [apply redeliver_harmless|]. intros _.
  apply harmless_bind; [apply expire_harmless|]. intros _.
  apply harmless_bind; [apply delivery_harmless|done].
Qed.

Lemma scheduler_harmless settings n : harmless (scheduler_run settings n).
Proof.
  induction n as [|n IH]; [done|]. apply harmless_bind; [apply harmless_try, tick_harmless|].
  intros _. apply harmless_bind; [by apply harmless_quiet|]. by intros _.
Qed.

Lemma heartbeat_harmless settings w i : harmless (heartbeat_beat settings w i).
Proof. apply (harmless_works i). intros d HI. by apply heartbeat_works. Qed.
End Programs.

#[export] Hint Resolve harmless_ret harmless_throw harmless_clock : orch.

(** ** The worker *)

Section Worker.
Context {env : Env} (strict : bool) (settings : Settings) (worker_id : string).

Abbreviation R := (rely strict (Some worker_id)).
Abbreviation G := (moves strict None).
Abbreviation cwp0 := (cwp (Inv strict) R G).

Section Handlers.
Context (i : uuid).

(** A handler stops with [JobCancelledError] only when the cancellation of
    the job was requested. *)
Definition stops_if_requested {A} (r : res A) (d : Db) : Prop :=
  r = Err JobCancelledError → requested i d.

Definition obeys {A} (c : co A) : Prop := ∀ d, cwp0 c stops_if_requested d.

Lemma obeys_ret {A} (a : A) : obeys (Ret a).
Proof. by intros d. Qed.
Lemma obeys_throw {A} e : e ≠ JobCancelledError → obeys (A:=A) (Throw e).
Proof. intros He d [=]. done. Qed.
Lemma obeys_bind {A B} (c : co A) (f : A → co B) :
  obeys c → (∀ a, obeys (f a)) → obeys (c ≫= f).
Proof.
  intros Hc Hf d. apply cwp_bind. eapply cwp_mono; [apply Hc|].
  intros [a|e] d' H; [apply Hf|]. intros [= ->]. by apply H.
Qed.

Lemma obeys_check_cancelled : obeys (_check_cancelled i).
Proof.
  intros d. apply cwp_bind, cwp_act. intros d' HI HR.
  apply (wpe_raises (λ e, e ≠ JobCancelledError)).
  { apply raises_transaction. by auto with orch. }
  apply wpe_transaction; [|intros e He; split; [done|split; [done|]]].
  - apply wp_bind, wp_query, wp_ret. intros _. split; [done|]. split; [done|].
    destruct (jobs d' !! i) as [j|] eqn:Hj; [|by intros [=]].
    destruct (j_cancellation_requested_at j) eqn:Hc; simpl; [|by intros [=]].
    intros _. exists j. split; [done|]. rewrite Hc. by eexists.
  - intros [= ->]. by destruct (He JobCancelledError eq_refl).
Qed.

Lemma obeys_report_progress p : obeys (_report_progress settings worker_id i p).
Proof.
  intros d. apply cwp_act. intros d' HI HR.
  apply (wpe_raises (λ e, e ≠ JobCancelledError)).
  { apply raises_transaction, raises_bind; [apply raises_reading|]. intros now.
    apply raises_bind; [|intros; apply raises_ret].
    apply raises_bind; [by apply raises_statement|intros; apply raises_ret]. }
  apply wpe_transaction; [|intros e He; split; [done|split; [done|]]].
  - eapply wp_mono; [by apply report_progress_works|]. intros [] d'' [Hm _] _.
    split; [by apply (moves_keep_Inv strict None d')|]. done.
  - intros [= ->]. by destruct (He JobCancelledError eq_refl).
Qed.

(** *** The handlers *)

Context (attempt : Z).
Abbreviation context := (execution_context settings worker_id i attempt).

Lemma obeys_conv {A} (r : conv_result A) : obeys (co_conv r).
Proof. destruct r as [[|[]]|a]; [by apply obeys_throw..|apply obeys_ret]. Qed.
Lemma obeys_item key d : obeys (dict_item key d).
Proof.
  unfold dict_item. destruct (dict_find key d); [apply obeys_ret|by apply obeys_throw].
Qed.

Lemma obeys_run_steps n index steps step_seconds :
  obeys (run_steps_from index n steps step_seconds context).
Proof.
  revert index. induction n as [|n IH]; intros index; [apply obeys_ret|].
  apply obeys_bind; [apply obeys_check_cancelled|]. intros _.
  apply obeys_bind; [by intros d d' HI HR w <-|]. intros _.
  apply obeys_bind; [apply obeys_conv|]. intros p.
  apply obeys_bind; [apply obeys_report_progress|]. intros _. apply IH.
Qed.

Lemma obeys_summary prompt : obeys (prompt_summary prompt).
Proof.
  unfold prompt_summary. generalize (py_bool prompt). intros b.
  destruct prompt, b; (apply obeys_ret || by apply obeys_throw).
Qed.

Lemma handler_obeys ty handler payload :
  _HANDLERS ty = Some handler → obeys (handler payload context).
Proof.
  destruct ty; intros [= <-].
  - apply obeys_bind; [apply obeys_item|]. intros v. apply obeys_bind; [apply obeys_conv|].
    intros duration. apply obeys_bind; [apply obeys_item|]. intros v'.
    apply obeys_bind; [apply obeys_conv|]. intros steps.
    apply obeys_bind; [apply obeys_conv|]. intros fsteps.
    apply obeys_bind; [apply obeys_conv|]. intros step.
    apply obeys_bind; [apply obeys_run_steps|]. intros _. apply obeys_ret.
  - apply obeys_bind; [apply obeys_item|]. intros v. apply obeys_bind; [apply obeys_conv|].
    intros pages. apply obeys_bind; [apply obeys_run_steps|]. intros _. apply obeys_ret.
  - apply obeys_bind; [apply obeys_item|]. intros v. apply obeys_bind; [apply obeys_conv|].
    intros n. apply obeys_bind; [apply obeys_check_cancelled|]. intros _.
    destruct (_ <=? _); [by apply obeys_throw|apply obeys_ret].
  - by apply obeys_throw.
  - apply obeys_bind; [apply obeys_item|]. intros v. apply obeys_bind; [apply obeys_conv|].
    intros tokens. apply obeys_bind; [apply obeys_item|]. intros limited.
    destruct (_ && _); [by apply obeys_throw|].
    apply obeys_bind; [apply obeys_run_steps|]. intros _.
    apply obeys_bind; [apply obeys_item|]. intros prompt.
    apply obeys_bind; [apply obeys_summary|]. intros s. apply obeys_ret.
Qed.
End Handlers.

(** *** Finalization *)

Section Finalize.
Context (i : uuid) (c : Claim).
Abbreviation n := (c_attempt_number c).
Abbreviation max := (s_max_attempts (c_snapshot c)).
Abbreviation running := (attempt_of strict worker_id i c).

Lemma running_stable d d' : R d d' → running d → running d'.
Proof. apply attempt_of_stable. Qed.

Lemma requested_kept d d' : R d d' → requested i d → requested i d'.
Proof. intros HR. by apply (requested_stable strict), (rely_any _ (Some worker_id)). Qed.

(** The holder of the lease runs the attempt that was claimed. *)
Lemma running_held d j :
  running d → strict = true → jobs d !! i = Some j → holds worker_id j →
  j_attempts j = n ∧ j_max_attempts j = max.
Proof.
  intros (x & Hx & Hmax & Hlock) Hstr Hj [Hl _]. assert (x = j) as -> by congruence. auto.
Qed.

Lemma finalize_succeeded_keeps k result d :
  cwp0 (_finalize_succeeded worker_id i k result) (λ _ _, True) d.
Proof.
  apply harmless_bind; [apply harmless_clock|]. intros now.
  apply (harmless_works _ _ i). intros d' HI. by apply succeeded_works.
Qed.

Lemma finalize_cancelled_keeps k d :
  requested i d → cwp0 (_finalize_cancelled worker_id i k) (λ _ _, True) d.
Proof.
  intros Hreq. apply cwp_bind, cwp_quiet; [apply _|apply quiet_reading|].
  intros [now|e] d1 _ HR1; [|done]. apply cwp_txn; [|done]. intros d2 HI HR2.
  eapply wp_mono; [apply (cancelled_works strict); [done|]|by intros a d3 [? _]].
  intros j Hj. assert (requested i d2) as (x & Hx & Hc)
    by (apply (requested_kept d1); [done|]; by apply (requested_kept d)).
  by assert (x = j) as -> by congruence.
Qed.

Lemma finalize_failed_keeps k code message dead d :
  (dead = true → max <= n) → running d →
  cwp0 (_finalize_failed worker_id i k code message dead) (λ _ _, True) d.
Proof.
  intros Hdead Hrun. apply cwp_bind, cwp_quiet; [apply _|apply quiet_reading|].
  intros [now|e] d1 _ HR1; [|done]. apply cwp_txn; [|done]. intros d2 HI HR2.
  eapply wp_mono; [apply (failed_works strict); [done|]|by intros a d3 [? _]].
  intros Hd Hstr j Hj Hh.
  destruct (running_held d2 j) as [Hn Hm]; try done.
  { by apply (running_stable d1), (running_stable d). }
  destruct (inv_jobs _ _ HI i j Hj) as (_ & _ & Hb). destruct (Hb Hstr) as [Hle _].
  specialize (Hdead Hd). lia.
Qed.

Lemma schedule_retry_keeps k code message next d :
  n < max → running d →
  cwp0 (_schedule_retry worker_id i k code message next) (λ _ _, True) d.
Proof.
  intros Hlt Hrun. apply cwp_bind, cwp_quiet; [apply _|apply quiet_reading|].
  intros [now|e] d1 _ HR1; [|done]. apply cwp_txn; [|done]. intros d2 HI HR2.
  eapply wp_mono; [apply (retry_works strict); [done|]|by intros a d3 [? _]].
  intros Hstr j Hj Hh. destruct (running_held d2 j) as [Hn Hm]; try done.
  { by apply (running_stable d1), (running_stable d). }
  lia.
Qed.

Lemma retry_delay_quiet attempt : quiet (retry_delay settings attempt).
Proof.
  apply quiet_bind; [apply quiet_reading|]. intros draw.
  apply quiet_bind; [by destruct (compute_backoff_seconds _ _ _)|].
  intros backoff. by destruct (timedelta_of_seconds backoff).
Qed.

Lemma cancellation_requested_keeps d :
  running d →
  cwp0 (_cancellation_requested i) (λ r d',
    match r with Ok b => running d' ∧ (b = true → requested i d') | Err _ => True end) d.
Proof.
  intros Hrun. apply cwp_txn; [|done]. intros d1 HI HR.
  apply wp_bind, wp_query, wp_ret. split; [done|]. intros _.
  split; [by apply (running_stable d)|].
  destruct (jobs d1 !! i) as [j|] eqn:Hj; [|done].
  destruct (j_cancellation_requested_at j) eqn:Hc; [|done].
  intros _. exists j. split; [done|]. rewrite Hc. by eexists.
Qed.

Lemma handle_retryable_keeps k code message d :
  running d →
  cwp0 (_handle_retryable settings worker_id i k n max code message) (λ _ _, True) d.
Proof.
  intros Hrun. apply cwp_bind. eapply cwp_mono; [by apply cancellation_requested_keeps|].
  intros [requested|e] d1; [|done]. intros [Hrun1 Hreq].
  destruct requested; [apply finalize_cancelled_keeps; by apply Hreq|].
  destruct (Z.leb_spec max n).
  - apply cwp_bind. eapply cwp_mono; [by apply finalize_failed_keeps|].
    intros [[|]|e] d2 _; try done. by apply cwp_quiet; [apply _|apply quiet_redis|].
  - apply cwp_bind, cwp_quiet; [apply _|apply retry_delay_quiet|].
    intros [delay|e] d2 _ HR2; [|done].
    apply cwp_bind, cwp_quiet; [apply _|apply quiet_reading|].
    intros [now|e] d3 _ HR3; [|done].
    apply schedule_retry_keeps; [done|]. by apply (running_stable d2), (running_stable d1).
Qed.

Lemma finalize_keeps outcome d :
  running d → stops_if_requested i outcome d →
  cwp0 (finalize settings worker_id i c outcome) (λ _ _, True) d.
Proof.
  intros Hrun Hstop. destruct outcome as [result|e]; [apply finalize_succeeded_keeps|].
  unfold finalize; cbv zeta; destruct e; try by apply handle_retryable_keeps.
  - apply cwp_bind. eapply cwp_mono; [by apply finalize_failed_keeps|]. by intros [?|?] d' _.
  - apply finalize_cancelled_keeps. by apply Hstop.
Qed.
End Finalize.

(** *** The whole execution *)

Abbreviation G1 := (moves strict (Some worker_id)).

Lemma claim_keeps i d :
  cwp (Inv strict) R G1 (_claim settings worker_id i) (λ r d',
    match r with
    | Ok (Some c) => attempt_of strict worker_id i c d'
    | _ => True
    end) d.
Proof.
  apply cwp_bind, cwp_quiet; [apply _|apply quiet_reading|].
  intros [now|e] d1 _ HR1; [|done].
  apply cwp_transaction; [apply _| |done]. intros d2 HI HR2.
  eapply wp_mono; [by apply claim_moves|]. intros [c|] d3.
  - intros [Hm (j & Hj & Hs & Hl & Hn & _ & _ & Hmax)].
    split; [by apply (moves_keep_Inv strict (Some worker_id) d2)|]. split; [done|].
    by exists j.
  - by intros ->.
Qed.

Lemma execute_keeps i d :
  cwp (Inv strict) R G1 (execute settings worker_id i) (λ _ _, True) d.
Proof.
  apply cwp_bind. eapply cwp_mono; [apply claim_keeps|].
  intros [[c|]|e] d1; try done. intros Hrun. apply cwp_bind.
  assert (exists handler, _HANDLERS (s_type (c_snapshot c)) = Some handler) as [handler Hh]
    by (destruct (s_type (c_snapshot c)); eauto).
  unfold get_handler. rewrite Hh.
  apply (cwp_bind _ _ _ (Ret handler)), cwp_bind, cwp_try, (cwp_weaken _ _ G); [apply moves_none|].
  eapply cwp_mono.
  - apply (cwp_frame _ _ _ (attempt_of strict worker_id i c)).
    + intros d2 d3. apply attempt_of_stable.
    + intros d2 d3 Hm. by apply attempt_of_stable, moves_none_rely.
    + exact Hrun.
    + by apply (handler_obeys i (c_attempt_number c) _ _ _ Hh).
  - intros outcome d2 [Hstop Hrun2]. apply cwp_bind, (cwp_weaken _ _ G); [apply moves_none|].
    eapply cwp_mono; [by apply finalize_keeps|]. by intros [?|?] d3 _.
Qed.

Lemma process_keeps job_id d :
  cwp (Inv strict) R G1 (_process (new_worker settings worker_id) job_id) (λ _ _, True) d.
Proof.
  unfold _process. destruct (uuid_of_str job_id) as [i|]; [|done].
  apply cwp_bind, cwp_try. eapply cwp_mono; [apply execute_keeps|]. done.
Qed.

Lemma consume_turn_keeps d :
  cwp (Inv strict) R G1 (consume_turn (new_worker settings worker_id)) (λ _ _, True) d.
Proof.
  apply cwp_bind, cwp_try, cwp_quiet; [apply _| |].
  { apply quiet_bind; [apply quiet_redis|]. done. }
  intros [[job_id|]|e] d1 _ _; [apply process_keeps|done|].
  destruct e; try done. by apply cwp_quiet; [apply _| |].
Qed.

Lemma consume_loop_keeps n d :
  cwp (Inv strict) R G1 (_consume_loop (new_worker settings worker_id) n) (λ _ _, True) d.
Proof.
  revert d. induction n as [|n IH]; intros d; [done|].
  apply cwp_bind. eapply cwp_mono; [apply consume_turn_keeps|]. intros [[]|e] d1 _; [apply IH|done].
Qed.
End Worker.
