(* ===== verification/System.v ===== *)
(** The whole system: any number of API requests, worker coroutines, heartbeats
    and schedulers over one database and one Redis server, interleaved at their
    awaits, each of which may crash at any of them.

    A state is the shared [World] and the pool of live coroutines, each with the
    worker identity it claims under.  With [strict] a coroutine that claims under
    an identity starts only when no other live one does; without it nothing is
    assumed of identities, as in a worker process, whose coroutines share one. *)

From S2P Require Import Prelude PyStr PyFloat Json Domain Config Uuid Models Effects.
From S2P Require Import Repositories Queue Notifications Catalog Logic Lifecycle Invariant.
From S2P Require Import Submission Cancellation Execution Scheduling Worker Steps Transactions.
From S2P Require Import Programs.
From S2P Require Import Read Api.
Import JobStatus.

Section System.
Context {env : Env} (strict : bool).

Definition task : Type := option string * co unit.

Record State := mkState { st_world : World; st_tasks : list task }.

Definition st_db (s : State) : Db := w_db (st_world s).

(** The coroutines the processes run, each process under its own settings. *)
Inductive program : option string → co unit → Prop :=
| pr_submit settings user ty payload priority attempts key :
    program None (_ ← submit settings user ty payload priority attempts key; Ret tt)
| pr_cancel i user reason : program None (_ ← cancel i user reason; Ret tt)
| pr_request settings r : program None (_ ← serve settings r; Ret tt)
| pr_worker settings w n : program (Some w) (_consume_loop (new_worker settings w) n)
| pr_heartbeat settings w i : program None (heartbeat_beat settings w i)
| pr_scheduler settings n : program None (scheduler_run settings n).

Definition owners (ts : list task) : list string := omap fst ts.

Inductive step : State → State → Prop :=
| step_spawn w ts o c :
    program o c → (∀ i, strict = true → o = Some i → i ∉ owners ts) →
    step (mkState w ts) (mkState w ((o, c) :: ts))
| step_run w ts1 ts2 o A (m : M A) k :
    step (mkState w (ts1 ++ (o, Await m k) :: ts2))
         (mkState (m w).2 (ts1 ++ (o, k (m w).1) :: ts2))
| step_drop w ts1 ts2 t :
    (** a coroutine ends, or its process crashes *)
    step (mkState w (ts1 ++ t :: ts2)) (mkState w (ts1 ++ ts2))
| step_redis w ts r :
    (** Redis loses or regains messages *)
    step (mkState w ts) (mkState (w <| w_redis := r |>) ts).

Definition steps : State → State → Prop := rtc step.

Definition initial : State := mkState init_world [].

Definition reachable (s : State) : Prop := steps initial s.

Lemma reachable_steps s s' : reachable s → steps s s' → reachable s'.
Proof. unfold reachable, steps. by intros H; transitivity s. Qed.

(** ** The invariant of the system *)

Definition task_ok (d : Db) (t : task) : Prop :=
  cwp (Inv strict) (rely strict t.1) (moves strict t.1) t.2 (λ _ _, True) d.

Record sys_ok (s : State) : Prop := {
  sys_inv : Inv strict (st_db s);
  sys_tasks : ∀ t, t ∈ st_tasks s → task_ok (st_db s) t;
  sys_owners : strict = true → NoDup (owners (st_tasks s));
}.

Lemma program_ok o c d : program o c → task_ok d (o, c).
Proof.
  assert (Hunit : ∀ A (c : co A) d, harmless strict None c → task_ok d (None, _ ← c; Ret tt)).
  { intros A c' d' Hc. by apply harmless_bind. }
  destruct 1; [apply Hunit, submit_harmless|apply Hunit, cancel_harmless|
    apply Hunit, serve_harmless|..].
  - apply consume_loop_keeps.
  - apply heartbeat_harmless.
  - apply scheduler_harmless.
Qed.

Lemma task_ok_wait d d' t : rely strict t.1 d d' → task_ok d t → task_ok d' t.
Proof. intros HR H. by apply (cwp_wait _ _ _ _ _ d); [apply _| | |]. Qed.

Lemma owners_app ts1 ts2 : owners (ts1 ++ ts2) = owners ts1 ++ owners ts2.
Proof. apply omap_app. Qed.

(** Another live task claims under another identity. *)
Lemma owners_differ ts1 ts2 t t' :
  NoDup (owners (ts1 ++ t :: ts2)) → t' ∈ ts1 ++ ts2 → t.1 = t'.1 → t'.1 = None.
Proof.
  rewrite owners_app. intros Hnd Hin Heq. destruct t'.1 as [w|] eqn:Ho; [|done]. exfalso.
  change (t :: ts2) with ([t] ++ ts2) in Hnd. rewrite owners_app in Hnd.
  assert (owners [t] = [w]) as Hw by (unfold owners; simpl; by rewrite Heq).
  rewrite Hw in Hnd. simpl in Hnd. rewrite <- Permutation_middle in Hnd.
  apply NoDup_cons in Hnd as [Hni _]. apply Hni.
  rewrite <- owners_app. apply list_elem_of_omap. by exists t'.
Qed.

Lemma run_task w ts1 ts2 o A (m : M A) k :
  sys_ok (mkState w (ts1 ++ (o, Await m k) :: ts2)) →
  moves strict o (w_db w) (w_db (m w).2)
  ∧ sys_ok (mkState (m w).2 (ts1 ++ (o, k (m w).1) :: ts2)).
Proof.
  intros [HI Ht Ho]. unfold st_db in *. cbn [st_world st_tasks] in *.
  assert (Hin : (o, Await m k) ∈ ts1 ++ (o, Await m k) :: ts2)
    by (apply elem_of_app; right; apply list_elem_of_here).
  destruct (Ht _ Hin (w_db w) HI) with (w := w) as (HI' & Hm & Hk); [|done|].
  { reflexivity. }
  split; [done|]. split; [done| |].
  - intros t Hin'. cbn [st_tasks] in Hin'.
    apply elem_of_middle in Hin' as [->|Hother]; [done|].
    apply (task_ok_wait (w_db w)); [|by apply Ht, elem_of_middle; right].
    apply (moves_rely _ o); [|done]. intros Hstr Heq.
    by apply (owners_differ ts1 ts2 (o, Await m k)); [apply Ho| |].
  - intros Hstr. specialize (Ho Hstr). cbn [st_tasks] in *. revert Ho.
    by rewrite !owners_app.
Qed.

Lemma step_ok s s' : step s s' → sys_ok s → rtc (any_move strict) (st_db s) (st_db s') ∧ sys_ok s'.
Proof.
  intros [w ts o c Hp Hfree|w ts1 ts2 o A m k|w ts1 ts2 t|w ts r] Hok.
  - split; [done|]. destruct Hok as [HI Ht Ho]. split; [done| |].
    + intros t [->|Hin]%elem_of_cons; [by apply program_ok|by apply Ht].
    + intros Hstr. specialize (Ho Hstr). destruct o as [i|]; [|done].
      apply NoDup_cons. split; [by apply Hfree|done].
  - destruct (run_task _ _ _ _ _ _ _ Hok) as [Hm Hok']. split; [|done]. by apply (moves_any _ o).
  - split; [done|]. destruct Hok as [HI Ht Ho]. split; [done| |].
    + intros t' Hin. by apply Ht, elem_of_middle; right.
    + intros Hstr. specialize (Ho Hstr). cbn [st_tasks] in *. revert Ho. rewrite !owners_app.
      intros Hnd. eapply sublist_NoDup; [exact Hnd|]. apply sublist_app; [done|].
      unfold owners. simpl. destruct t.1; [by apply sublist_cons|done].
  - split; [done|]. by destruct Hok.
Qed.

Lemma steps_ok s s' : steps s s' → sys_ok s → rtc (any_move strict) (st_db s) (st_db s') ∧ sys_ok s'.
Proof.
  induction 1 as [|s1 s2 s3 H12 _ IH]; [done|]. intros Hok.
  destruct (step_ok _ _ H12 Hok) as [Hm1 Hok2]. destruct (IH Hok2) as [Hm2 Hok3].
  split; [by transitivity (st_db s2)|done].
Qed.

Lemma initial_ok : sys_ok initial.
Proof. split; [apply Inv_empty| |constructor]. intros t Hin. by apply elem_of_nil in Hin. Qed.

Lemma reachable_ok s : reachable s → sys_ok s.
Proof. intros H. apply (steps_ok _ _ H initial_ok). Qed.

Lemma reachable_Inv s : reachable s → Inv strict (st_db s).
Proof. intros H. apply (reachable_ok _ H). Qed.

Lemma reachable_moves s s' : reachable s → steps s s' → rtc (any_move strict) (st_db s) (st_db s').
Proof. intros H Hs. apply (steps_ok _ _ Hs), reachable_ok, H. Qed.
End System.

(** A worker process starts all its consumers under one identity: with two or more
    of them the assumption of [strict] does not hold of it. *)
Section WorkerProcess.
Context {env : Env}.

Lemma worker_run_starts w ts settings id n :
  steps false (mkState w ts) (mkState w (worker_run (new_worker settings id) n ++ ts)).
Proof.
  unfold worker_run. cbn [_concurrency _worker_id new_worker]. induction (Z.to_nat (worker_concurrency settings)) as [|k IH]; [apply rtc_refl|].
  eapply rtc_r; [exact IH|]. apply (step_spawn _ w); [apply pr_worker|done].
Qed.

Lemma worker_run_shares settings id n :
  NoDup (owners (worker_run (new_worker settings id) n)) ↔ worker_concurrency settings <= 1.
Proof.
  unfold worker_run. cbn [_concurrency _worker_id new_worker].
  assert (∀ k, owners (replicate k (Some id, _consume_loop (new_worker settings id) n)) = replicate k id) as Ho.
  { intros k. induction k as [|k IH]; [done|]. cbn [replicate].
    match goal with |- owners (_ :: ?l) = _ => change (id :: owners l = id :: replicate k id) end.
    by rewrite IH. }
  rewrite Ho. destruct (Z.to_nat (worker_concurrency settings)) as [|[|k]] eqn:E; simpl.
  - split; [lia|]. intros _. constructor.
  - split; [lia|]. intros _. apply NoDup_singleton.
  - split; [|lia]. intros [Hn _]%NoDup_cons. destruct Hn. apply list_elem_of_here.
Qed.
End WorkerProcess.
