(* ===== verification/Demo.v ===== *)
(** A concrete environment, and whole runs of the system under it: the states
    at which the theorems on reachable states are applied. *)

From S2P Require Import Prelude PyStr PyFloat Json Domain Config Uuid DateTime Models Effects.
From S2P Require Import Repositories Queue Notifications Catalog Submission Cancellation.
From S2P Require Import Execution Scheduling Worker Total Lifecycle System.

(** The first second of the year 1, fourteen hours east of UTC. *)
Definition far_east : string := "0001-01-01T00:00:00+14:00".

(** A clock that advances a second at each reading, fresh identifiers, no
    jitter, no failure. *)
#[export] Program Instance demo_env : Env := {|
  redis_state := gmap string (list string);
  redis_server := ListMap.list_map_server;
  clock n := (1700000000 + Z.of_nat n) * us_per_second;
  uuid7 n := (N.of_nat n mod uuid_bound)%N;
  random_draw _ := fzero;
  locked_row _ _ := false;
  redis_down _ := false;
  http_post _ _ _ _ := HttpOk;
  hmac_sha256_hex _ _ := "00";
  session_sync _ row := row;
  other_isoformat s :=
    if String.eqb s far_east then Some (min_datetime - 14 * 3600 * us_per_second) else None;
  library_text _ := "error";
|}.
Next Obligation. intros n. apply N.mod_lt. done. Qed.

(** ** Coroutines run one after the other *)

Section Run.
Context {env : Env} (strict : bool).

Lemma run_steps_alone (c : co unit) o ts w :
  steps strict (mkState w ((o, c) :: ts)) (mkState (run c w).2 ts).
Proof.
  revert w. induction c as [a|e|B m k IH]; intros w.
  - apply rtc_once, (step_drop _ w []).
  - apply rtc_once, (step_drop _ w []).
  - eapply rtc_l; [apply (step_run _ w [] ts)|]. simpl. specialize (IH (m w).1 (m w).2).
    by destruct (m w).
Qed.

(** A schedule: the coroutines to run, in order. *)
Definition schedule : Type := list (option string * co unit).

Definition run_schedule (l : schedule) (w : World) : World :=
  foldl (λ w t, (run t.2 w).2) w l.

Lemma run_schedule_steps l w :
  Forall (λ t, program t.1 t.2) l →
  steps strict (mkState w []) (mkState (run_schedule l w) []).
Proof.
  intros H. revert w. induction H as [|[o c] l Hp _ IH]; intros w; [apply rtc_refl|].
  eapply rtc_l; [apply (step_spawn _ w [] o c Hp)|].
  { intros i _ _. unfold owners. simpl. set_solver. }
  etransitivity; [apply run_steps_alone|]. apply IH.
Qed.

Lemma run_schedule_reachable l :
  Forall (λ t, program t.1 t.2) l → reachable strict (mkState (run_schedule l init_world) []).
Proof. apply run_schedule_steps. Qed.
End Run.

(** ** Runs *)

Definition submit_task {env : Env} (ty : JobType) (payload : dict) (attempts : Z) (key : string)
  : option string * co unit :=
  (None, _ ← submit default_settings "alice" ty payload JobPriority.NORMAL (Some attempts) (Some key);
         Ret tt).
Definition scheduler_task {env : Env} : option string * co unit := (None, scheduler_run default_settings 1).
Definition worker_task {env : Env} : option string * co unit :=
  (Some "worker-1", _consume_loop (new_worker default_settings "worker-1") 1).
Definition cancel_task {env : Env} (i : uuid) : option string * co unit :=
  (None, _ ← cancel i "alice" (Some "no longer needed"); Ret tt).

(** A flaky job that fails once: submitted, dispatched and failed, retried and
    succeeded, notified. *)
Definition w_submitted : World :=
  run_schedule [submit_task JobType.FLAKY [("fail_times", JInt 1)] 5 "key-1"] init_world.
Definition w_queued : World := run_schedule [scheduler_task] w_submitted.
(** Claimed, its handler not run yet; and then asked to stop. *)
Definition w_running : World :=
  (transaction (claim_body default_settings "worker-1" 3%N 1700000030000000) w_queued).2.
Definition w_cancelling : World := run_schedule [cancel_task 3%N] w_running.
Definition w_retrying : World := run_schedule [scheduler_task; worker_task] w_submitted.
Definition w_succeeded : World := run_schedule [scheduler_task; worker_task] w_retrying.
Definition w_notified : World := run_schedule [scheduler_task] w_succeeded.
Definition w_later : World := run_schedule [scheduler_task; worker_task] w_notified.

(** The identifier of the first job, and its row. *)
Definition first_job : uuid := 3%N.
Definition row_at (w : World) : Job :=
  match jobs (w_db w) !! first_job with
  | Some j => j
  | None => new_job first_job EmptyString JobType.SLEEP [] JobPriority.LOW 1 None 0
  end.
Definition row_of (s : State) : Job := row_at (st_world s).

(** A job cancelled before it was dispatched, and the next tick. *)
Definition w_cancelled : World :=
  run_schedule [submit_task JobType.REPORT [("pages", JInt 3)] 5 "key-2"; cancel_task first_job] init_world.
Definition w_after_cancel : World := run_schedule [scheduler_task; worker_task] w_cancelled.

(** A job that never succeeds. *)
Definition w_exhausted : World :=
  run_schedule [submit_task JobType.FLAKY [("fail_times", JInt 9)] 2 "key-3";
                scheduler_task; worker_task; scheduler_task; worker_task] init_world.

Definition s_submitted : State := mkState w_submitted [].
Definition s_retrying : State := mkState w_retrying [].
Definition s_succeeded : State := mkState w_succeeded [].
Definition s_notified : State := mkState w_notified [].
Definition s_later : State := mkState w_later [].
Definition s_cancelled : State := mkState w_cancelled [].
Definition s_after_cancel : State := mkState w_after_cancel [].
Definition s_exhausted : State := mkState w_exhausted [].

Ltac solve_programs :=
  repeat first [apply List.Forall_nil | apply List.Forall_cons];
  first [apply pr_scheduler | apply pr_worker | apply pr_submit | apply pr_cancel].

Lemma at_submitted strict : reachable strict s_submitted.
Proof. apply run_schedule_reachable. solve_programs. Qed.
Lemma to_retrying strict : steps strict s_submitted s_retrying.
Proof. apply run_schedule_steps. solve_programs. Qed.
Lemma at_queued strict : reachable strict (mkState w_queued []).
Proof. eapply reachable_steps; [apply at_submitted|apply run_schedule_steps]. solve_programs. Qed.
Lemma to_succeeded strict : steps strict s_retrying s_succeeded.
Proof. apply run_schedule_steps. solve_programs. Qed.
Lemma to_notified strict : steps strict s_succeeded s_notified.
Proof. apply run_schedule_steps. solve_programs. Qed.
Lemma to_later strict : steps strict s_notified s_later.
Proof. apply run_schedule_steps. solve_programs. Qed.
Lemma at_retrying strict : reachable strict s_retrying.
Proof. eapply reachable_steps; [apply at_submitted|apply to_retrying]. Qed.
Lemma at_succeeded strict : reachable strict s_succeeded.
Proof. eapply reachable_steps; [apply at_retrying|apply to_succeeded]. Qed.
Lemma at_notified strict : reachable strict s_notified.
Proof. eapply reachable_steps; [apply at_succeeded|apply to_notified]. Qed.
Lemma at_cancelled strict : reachable strict s_cancelled.
Proof. apply run_schedule_reachable. solve_programs. Qed.
Lemma to_after_cancel strict : steps strict s_cancelled s_after_cancel.
Proof. apply run_schedule_steps. solve_programs. Qed.
Lemma at_exhausted strict : reachable strict s_exhausted.
Proof. apply run_schedule_reachable. solve_programs. Qed.

(** The states are evaluated by computation only, never by unification. *)
#[global] Opaque w_submitted w_queued w_running w_cancelling w_retrying w_succeeded w_notified w_later w_cancelled w_after_cancel
  w_exhausted.

(** ** Identifiers that are new *)

Lemma demo_distinct n k : (N.of_nat (n + k) <? uuid_bound)%N = true → distinct_ids n k.
Proof.
  intros Hb%N.ltb_lt m m' Hm Hm'. change (@uuid7 demo_env) with (λ n, (N.of_nat n mod uuid_bound)%N). cbv beta.
  rewrite !N.mod_small by lia. lia.
Qed.

Lemma new_to_check {env : Env} {A} n k (t : gmap uuid A) :
  forallb (λ m, is_null (t !! uuid7 m)) (seq n k) = true → new_to n k t.
Proof.
  intros H m Hm. rewrite forallb_forall in H. specialize (H m).
  rewrite in_seq in H. specialize (H Hm). by destruct (t !! uuid7 m).
Qed.
