(* ===== verification/Guarantees.v ===== *)
(** What holds of the database in every reachable state of the system, whatever
    the interleaving and the crashes. *)

From S2P Require Import Prelude PyStr PyFloat Json Domain Config Uuid Models Effects.
From S2P Require Import Repositories Queue Notifications Catalog Logic Lifecycle Invariant.
From S2P Require Import Submission Cancellation Execution Scheduling Worker Steps Transactions.
From S2P Require Import Programs System Demo.
Import JobStatus.

(** ** Lists of rows *)

(** The rows of a table that satisfy [P]. *)
Definition rows_where {A} (P : A → Prop) `{!∀ a, Decision (P a)} (t : gmap uuid A) : list A :=
  (filter (λ p, P p.2) (map_to_list t)).*2.

Section RowsWhere.
Context {A : Type} (P : A → Prop) {Hdec : ∀ a, Decision (P a)} (t : gmap uuid A).

Lemma elem_of_rows_where a : a ∈ rows_where P t ↔ P a ∧ ∃ k, t !! k = Some a.
Proof.
  unfold rows_where. rewrite list_elem_of_fmap. split.
  - intros ([k x] & -> & [HP Hin]%list_elem_of_filter). apply elem_of_map_to_list in Hin. eauto.
  - intros [HP [k Hk]]. exists (k, a). split; [done|].
    apply list_elem_of_filter. by rewrite elem_of_map_to_list.
Qed.

Lemma rows_where_nil : (∀ k a, t !! k = Some a → ¬ P a) → rows_where P t = [].
Proof.
  intros H. destruct (rows_where P t) as [|a l] eqn:E; [done|].
  assert (a ∈ rows_where P t) as Ha by (rewrite E; apply list_elem_of_here).
  apply elem_of_rows_where in Ha as [HP [k Hk]]. by destruct (H k a Hk).
Qed.

(** Rows told apart by [f]. *)
Lemma rows_where_NoDup {B} (f : A → B) :
  (∀ k1 k2 a1 a2, t !! k1 = Some a1 → t !! k2 = Some a2 → P a1 → P a2 → f a1 = f a2 → k1 = k2) →
  NoDup (f <$> rows_where P t).
Proof.
  intros H. unfold rows_where. rewrite <- list_fmap_compose.
  apply NoDup_fmap_2_strong; [|apply NoDup_filter, NoDup_map_to_list].
  intros [k1 a1] [k2 a2] [HP1 H1]%list_elem_of_filter [HP2 H2]%list_elem_of_filter Heq.
  apply elem_of_map_to_list in H1, H2. simpl in *.
  assert (k1 = k2) as -> by (by apply (H k1 k2 a1 a2)). congruence.
Qed.

Lemma rows_where_at_most_one :
  (∀ k k' a a', t !! k = Some a → t !! k' = Some a' → P a → P a' → k = k') →
  (length (rows_where P t) ≤ 1)%nat.
Proof.
  intros Huniq.
  assert (Hnd : NoDup ((λ _ : A, tt) <$> rows_where P t)).
  { apply rows_where_NoDup. intros k1 k2 a1 a2 H1 H2 HP1 HP2 _. by apply (Huniq k1 k2 a1 a2). }
  destruct (rows_where P t) as [|x [|y l]]; cbn; [lia|lia|].
  exfalso. simpl in Hnd. apply NoDup_cons in Hnd as [Hni _]. apply Hni, list_elem_of_here.
Qed.

Lemma rows_where_singleton k a :
  t !! k = Some a → P a → (∀ k' a', t !! k' = Some a' → P a' → k' = k) → rows_where P t = [a].
Proof.
  intros Hk HP Huniq.
  assert (length (rows_where P t) ≤ 1)%nat as Hlen.
  { apply rows_where_at_most_one. intros k1 k2 a1 a2 H1 H2 HP1 HP2.
    rewrite (Huniq k1 a1), (Huniq k2 a2); done. }
  assert (Hin : a ∈ rows_where P t) by (apply elem_of_rows_where; eauto).
  destruct (rows_where P t) as [|x [|y l]].
  - by apply elem_of_nil in Hin.
  - by apply list_elem_of_singleton in Hin as ->.
  - cbn in Hlen. lia.
Qed.
End RowsWhere.

Definition notifications_of (i : uuid) (d : Db) : list NotificationOutbox :=
  rows_where (λ n, n_job_id n = i) (notification_outbox d).
Definition attempts_of (i : uuid) (d : Db) : list JobAttempt :=
  rows_where (λ a, a_job_id a = i) (job_attempts d).
Definition announcements_of (i : uuid) (d : Db) : list DispatchOutbox :=
  rows_where (λ o, d_job_id o = i) (dispatch_outbox d).

Section Guarantees.
Context {env : Env}.

(** C1: a job that reached a terminal status never changes again: no service,
    worker or scheduler, however late, writes its row. *)
Theorem terminal_job_is_final (strict : bool) (s s' : State) (i : uuid) (j : Job) :
  reachable strict s → steps strict s s' → jobs (st_db s) !! i = Some j →
  StateMachine.is_terminal (j_status j) = true → jobs (st_db s') !! i = Some j.
Proof.
  intros Hr Hs Hj Ht. pose proof (reachable_moves _ _ _ Hr Hs) as Hm.
  destruct (moves_history _ _ _ _ _ Hm Hj) as (j' & Hj' & Hh).
  by rewrite <- (history_terminal _ _ Hh Ht).
Qed.

(** C9: the life of a job between any two moments: its row is never deleted,
    the submitted columns never change, the status follows the transition
    table of the domain layer (plus the claim of a job that waits for a
    retry), the attempts never decrease and a cancellation request is never
    lost or restamped. *)
Theorem job_life_follows_the_table (strict : bool) (s s' : State) (i : uuid) (j : Job) :
  reachable strict s → steps strict s s' → jobs (st_db s) !! i = Some j →
  ∃ j', jobs (st_db s') !! i = Some j' ∧ identity_of j' = identity_of j
    ∧ rtc (λ a b, live_transition a b = true) (j_status j) (j_status j')
    ∧ j_attempts j <= j_attempts j'
    ∧ (some (j_cancellation_requested_at j) →
       j_cancellation_requested_at j' = j_cancellation_requested_at j).
Proof.
  intros Hr Hs Hj. pose proof (reachable_moves _ _ _ Hr Hs) as Hm.
  destruct (moves_history _ _ _ _ _ Hm Hj) as (j' & Hj' & Hh).
  exists j'. split; [done|]. split; [by apply history_identity|].
  split; [by apply history_status|]. split; [by apply history_attempts|].
  by apply history_cancellation.
Qed.

Lemma Inv_notifications strict d i j :
  Inv strict d → jobs d !! i = Some j →
  match terminal_event (j_status j) with
  | Some event => ∃ n, notifications_of i d = [n] ∧ n_event_type n = event
                       ∧ n_dedupe_key n = dedupe_key i event
  | None => notifications_of i d = []
  end.
Proof.
  intros HI Hj. destruct (terminal_event (j_status j)) as [event|] eqn:He.
  - destruct (inv_notified _ _ HI i j Hj (terminal_event_is_terminal _ _ He)) as (k & n & Hk & Hn).
    destruct (inv_notification _ _ HI k n Hk) as (_ & Hkey & x & Hx & Hev).
    rewrite Hn, Hj in Hx. injection Hx as <-. rewrite He in Hev. injection Hev as ->.
    exists n. split; [|by rewrite <- Hn].
    apply (rows_where_singleton _ _ k); [done|done|].
    intros k' n' Hk' Hn'. apply (inv_notified_once _ _ HI k' k n' n); congruence.
  - apply rows_where_nil. intros k n Hk Hn.
    destruct (inv_notification _ _ HI k n Hk) as (_ & _ & x & Hx & Hev). congruence.
Qed.

(** C8: a terminal job has exactly one notification, of the event of its
    status, and a live job has none: the announcement is written with the
    terminal status, once. *)
Theorem one_notification_per_terminal_job (strict : bool) (s : State) (i : uuid) (j : Job) :
  reachable strict s → jobs (st_db s) !! i = Some j →
  match terminal_event (j_status j) with
  | Some event => ∃ n, notifications_of i (st_db s) = [n] ∧ n_event_type n = event
                       ∧ n_dedupe_key n = dedupe_key i event
  | None => notifications_of i (st_db s) = []
  end.
Proof. intros Hr. by apply (Inv_notifications strict), reachable_Inv. Qed.

(** C16: the rows of [job_attempts] of a job are numbered 1, 2, ..., up to the
    number of attempts of the job, each number once. *)
Theorem attempts_are_numbered (strict : bool) (s : State) (i : uuid) (j : Job) :
  reachable strict s → jobs (st_db s) !! i = Some j →
  a_attempt_number <$> attempts_of i (st_db s) ≡ₚ seqZ 1 (j_attempts j).
Proof.
  intros Hr Hj. pose proof (reachable_Inv _ _ Hr) as HI.
  apply NoDup_Permutation.
  - apply rows_where_NoDup. intros k1 k2 a1 a2 H1 H2 E1 E2 Hn.
    apply (inv_attempt_once _ _ HI k1 k2 a1 a2); congruence.
  - apply NoDup_seqZ.
  - intros n. rewrite elem_of_seqZ, list_elem_of_fmap. split.
    + intros (a & -> & (Ha & k & Hk)%elem_of_rows_where).
      destruct (inv_attempt _ _ HI k a Hk) as (_ & x & Hx & Hrange).
      rewrite Ha, Hj in Hx. injection Hx as <-. lia.
    + intros Hrange. destruct (inv_attempt_numbers _ _ HI i j n Hj) as (k & a & Hk & Ha & Hn); [lia|].
      exists a. split; [done|]. apply elem_of_rows_where. eauto.
Qed.

(** C15: transactional outbox: a pending job is announced to the dispatcher by
    exactly one row, still to be published; and a job of any status never has two
    rows, so a requeue or a promotion writes no second one. *)
Theorem pending_job_is_announced (strict : bool) (s : State) (i : uuid) (j : Job) :
  reachable strict s → jobs (st_db s) !! i = Some j →
  (length (announcements_of i (st_db s)) ≤ 1)%nat
  ∧ (j_status j = PENDING →
     ∃ o, announcements_of i (st_db s) = [o] ∧ d_status o = OutboxStatus.PENDING).
Proof.
  intros Hr Hj. pose proof (reachable_Inv _ _ Hr) as HI. split.
  { apply rows_where_at_most_one. intros k k' o o' Hk Hk' Ho Ho'.
    apply (inv_dispatch_once _ _ HI k k' o o'); congruence. }
  intros Hp. destruct (inv_pending _ _ HI i j Hj Hp) as (k & o & Hk & Ho & Hs).
  exists o. split; [|done]. apply (rows_where_singleton _ _ k); [done|done|].
  intros k' o' Hk' Ho'. apply (inv_dispatch_once _ _ HI k' k o' o); congruence.
Qed.

(** C24: two jobs of a user never share an idempotency key, however many
    submissions race. *)
Theorem idempotency_key_names_one_job (strict : bool) (s : State) (i1 i2 : uuid) (j1 j2 : Job) key :
  reachable strict s → jobs (st_db s) !! i1 = Some j1 → jobs (st_db s) !! i2 = Some j2 →
  j_user_id j1 = j_user_id j2 → j_idempotency_key j1 = Some key →
  j_idempotency_key j2 = Some key → i1 = i2.
Proof.
  intros Hr H1 H2 Hu K1 K2. apply (inv_idempotency _ _ (reachable_Inv _ _ Hr) i1 i2 j1 j2 H1 H2).
  unfold same_idempotency_key. rewrite Hu, K1, K2, !String.eqb_refl. done.
Qed.

(** C10: the retry budget: when no worker identity runs two coroutines at
    once, a job never starts more attempts than its limit, has an attempt
    left whenever one may start, and is marked dead-lettered only once failed
    with its attempts exhausted. *)
Theorem retry_budget_is_respected (s : State) (i : uuid) (j : Job) :
  reachable true s → jobs (st_db s) !! i = Some j →
  0 <= j_attempts j <= j_max_attempts j
  ∧ (j_status j ∈ [PENDING; QUEUED; RETRYING] → j_attempts j < j_max_attempts j)
  ∧ (some (j_dead_lettered_at j) → j_status j = FAILED ∧ j_attempts j = j_max_attempts j).
Proof.
  intros Hr Hj. destruct (inv_jobs _ _ (reachable_Inv _ _ Hr) i j Hj) as (Hok & _ & Hb).
  destruct (Hb eq_refl) as (Hle & Hlt & Hdead). pose proof (ok_attempts _ _ Hok).
  split; [done|]. split; [done|]. intros Hd. split; [|by apply Hdead].
  pose proof (ok_status _ _ Hok) as Hst. unfold status_ok, none, some in *. destruct Hd as [t Hd].
  destruct (j_status j); intuition congruence.
Qed.

(** C23: the columns follow the status: a lease is held exactly while a job is
    running or cancelling, a retry time is set exactly while it waits for
    one, a completion time exactly once it is terminal; progress stays within
    0 and 100, and a success has a result, full progress and no error code. *)
Theorem columns_follow_status (strict : bool) (s : State) (i : uuid) (j : Job) :
  reachable strict s → jobs (st_db s) !! i = Some j →
  (some (j_locked_by j) ↔ j_status j ∈ [RUNNING; CANCELLING])
  ∧ (some (j_lock_expires_at j) ↔ j_status j ∈ [RUNNING; CANCELLING])
  ∧ (some (j_next_attempt_at j) ↔ j_status j = RETRYING)
  ∧ (some (j_completed_at j) ↔ StateMachine.is_terminal (j_status j) = true)
  ∧ 0 <= j_progress j <= 100
  ∧ (j_status j = SUCCEEDED → some (j_result j) ∧ j_progress j = 100 ∧ j_error_code j = None)
  ∧ (j_status j ∈ [CANCELLING; CANCELLED] → some (j_cancellation_requested_at j)).
Proof.
  intros Hr Hj. destruct (inv_jobs _ _ (reachable_Inv _ _ Hr) i j Hj) as (Hok & _ & _).
  pose proof (ok_status _ _ Hok) as Hst. pose proof (ok_checks _ _ Hok) as Hck.
  unfold job_checks_ok in Hck. bool_simpl.
  assert (Hnone : ∀ A (a : option A), none a → some a → False)
    by (unfold none, some; intros A a -> []; done).
  unfold status_ok in Hst. rewrite !elem_of_cons, !elem_of_nil.
  destruct (j_status j); cbn in *; intuition (try discriminate; try lia; eauto; exfalso; eauto).
Qed.

(** C14: a requested cancellation stops the job: from then on no attempt starts,
    and the job is cancelling, or ends as cancelled, succeeded or failed. *)
Theorem cancellation_stops_attempts (strict : bool) (s s' : State) (i : uuid) (j : Job) :
  reachable strict s → steps strict s s' → jobs (st_db s) !! i = Some j →
  some (j_cancellation_requested_at j) →
  ∃ j', jobs (st_db s') !! i = Some j' ∧ j_attempts j' = j_attempts j
    ∧ j_status j' ∈ [CANCELLING; CANCELLED; SUCCEEDED; FAILED].
Proof.
  intros Hr Hs Hj Hc. pose proof (reachable_moves _ _ _ Hr Hs) as Hm.
  destruct (moves_history _ _ _ _ _ Hm Hj) as (j' & Hj' & Hh). exists j'. split; [done|].
  pose proof (history_cancellation _ _ Hh Hc) as Hc'. split.
  - by apply history_cancelled_attempts.
  - pose proof (reachable_Inv _ _ (reachable_steps _ _ _ Hr Hs)) as HI'.
    destruct (inv_jobs _ _ HI' i j' Hj') as (Hok & _ & _).
    pose proof (ok_status _ _ Hok) as Hst. rewrite <- Hc' in Hc.
    unfold status_ok, none, some in *. destruct Hc as [t Hc]. rewrite !elem_of_cons.
    destruct (j_status j'); intuition congruence.
Qed.

(** The event log of a job is append-only: a recorded event is never
    changed or removed. *)
Theorem events_are_append_only (strict : bool) (s s' : State) (k : uuid) (e : JobEvent) :
  reachable strict s → steps strict s s' → job_events (st_db s) !! k = Some e →
  job_events (st_db s') !! k = Some e.
Proof.
  intros Hr Hs Hk. pose proof (reachable_moves _ _ _ Hr Hs) as Hm.
  by apply (moves_keep_event strict (st_db s)).
Qed.
End Guarantees.

(** ** At concrete states *)

Lemma terminal_job_is_final_witness :
  j_status (row_of s_succeeded) = SUCCEEDED
  ∧ jobs (st_db s_notified) !! first_job = Some (row_of s_succeeded).
Proof.
  split; [by vm_compute|].
  apply (terminal_job_is_final true s_succeeded s_notified first_job).
  - apply at_succeeded.
  - apply to_notified.
  - by vm_compute.
  - by vm_compute.
Defined.

Lemma job_life_follows_the_table_witness :
  j_status (row_of s_retrying) = RETRYING
  ∧ ∃ j', jobs (st_db s_succeeded) !! first_job = Some j'
    ∧ rtc (λ a b, live_transition a b = true) (j_status (row_of s_retrying)) (j_status j').
Proof.
  split; [by vm_compute|].
  destruct (job_life_follows_the_table true s_retrying s_succeeded first_job (row_of s_retrying))
    as (j' & Hj' & _ & Hp & _).
  - apply at_retrying.
  - apply to_succeeded.
  - by vm_compute.
  - exists j'. split; [exact Hj'|exact Hp].
Defined.

Lemma one_notification_per_terminal_job_witness :
  ∃ n, notifications_of first_job (st_db s_succeeded) = [n]
    ∧ n_event_type n = JobEventType.SUCCEEDED
    ∧ n_dedupe_key n = dedupe_key first_job JobEventType.SUCCEEDED.
Proof.
  assert (terminal_event (j_status (row_of s_succeeded)) = Some JobEventType.SUCCEEDED) as He
    by (by vm_compute).
  assert (jobs (st_db s_succeeded) !! first_job = Some (row_of s_succeeded)) as Hj by (by vm_compute).
  pose proof (one_notification_per_terminal_job true s_succeeded first_job _
    (at_succeeded true) Hj) as H.
  rewrite He in H. exact H.
Defined.

Lemma attempts_are_numbered_witness :
  a_attempt_number <$> attempts_of first_job (st_db s_succeeded) ≡ₚ seqZ 1 2.
Proof.
  assert (j_attempts (row_of s_succeeded) = 2) as <- by (by vm_compute).
  apply (attempts_are_numbered true s_succeeded first_job (row_of s_succeeded)).
  - apply at_succeeded.
  - by vm_compute.
Defined.

Lemma pending_job_is_announced_witness :
  (∃ o, announcements_of first_job (st_db s_submitted) = [o] ∧ d_status o = OutboxStatus.PENDING)
  ∧ (length (announcements_of first_job (st_db s_succeeded)) ≤ 1)%nat.
Proof.
  split.
  - apply (pending_job_is_announced true s_submitted first_job (row_of s_submitted)).
    + apply at_submitted.
    + by vm_compute.
    + by vm_compute.
  - apply (pending_job_is_announced true s_succeeded first_job (row_of s_succeeded)).
    + apply at_succeeded.
    + by vm_compute.
Defined.

Lemma idempotency_key_names_one_job_witness :
  j_idempotency_key (row_of s_submitted) = Some "key-1" ∧ first_job = 3%N.
Proof.
  split; [by vm_compute|].
  apply (idempotency_key_names_one_job true s_submitted first_job 3%N
           (row_of s_submitted) (row_of s_submitted) "key-1").
  - apply at_submitted.
  - by vm_compute.
  - by vm_compute.
  - reflexivity.
  - by vm_compute.
  - by vm_compute.
Defined.

Lemma retry_budget_is_respected_witness :
  j_max_attempts (row_of s_exhausted) = 2
  ∧ j_status (row_of s_exhausted) = FAILED
  ∧ j_attempts (row_of s_exhausted) = j_max_attempts (row_of s_exhausted).
Proof.
  split; [by vm_compute|].
  destruct (retry_budget_is_respected s_exhausted first_job (row_of s_exhausted)) as (_ & _ & H).
  - apply at_exhausted.
  - by vm_compute.
  - apply H. eexists. by vm_compute.
Defined.

Lemma columns_follow_status_witness :
  some (j_next_attempt_at (row_of s_retrying)) ∧ some (j_completed_at (row_of s_succeeded)).
Proof.
  destruct (columns_follow_status true s_retrying first_job (row_of s_retrying))
    as (_ & _ & H1 & _); [apply at_retrying|by vm_compute|].
  destruct (columns_follow_status true s_succeeded first_job (row_of s_succeeded))
    as (_ & _ & _ & H2 & _); [apply at_succeeded|by vm_compute|].
  split; [apply H1|apply H2]; by vm_compute.
Defined.

Lemma cancellation_stops_attempts_witness :
  j_attempts (row_of s_cancelled) = 0
  ∧ ∃ j', jobs (st_db s_after_cancel) !! first_job = Some j'
    ∧ j_attempts j' = j_attempts (row_of s_cancelled)
    ∧ j_status j' ∈ [CANCELLING; CANCELLED; SUCCEEDED; FAILED].
Proof.
  split; [by vm_compute|].
  apply (cancellation_stops_attempts true s_cancelled s_after_cancel first_job (row_of s_cancelled)).
  - apply at_cancelled.
  - apply to_after_cancel.
  - by vm_compute.
  - eexists. by vm_compute.
Defined.

(** The only notification of the demonstration. *)
Definition first_notification : uuid := 67%N.

Lemma events_are_append_only_witness :
  ∃ e, e_event_type e = JobEventType.SUBMITTED ∧ job_events (st_db s_succeeded) !! 4%N = Some e.
Proof.
  destruct (job_events (st_db s_retrying) !! 4%N) as [e|] eqn:He.
  - assert (e_event_type <$> job_events (st_db s_retrying) !! 4%N
            = Some JobEventType.SUBMITTED) as Hs by (by vm_compute).
    rewrite He in Hs. injection Hs as Hs. exists e. split; [exact Hs|].
    apply (events_are_append_only true s_retrying s_succeeded 4%N e).
    + apply at_retrying.
    + apply to_succeeded.
    + exact He.
  - exfalso. revert He. by vm_compute.
Defined.
