(* ===== verification/SentSpec.v ===== *)
(** What is sent: only the delivery loop adds to the log of deliveries, and only for
    notifications that wait in the outbox, so that nothing is sent for one that
    has reached its end. *)

From S2P Require Import Prelude PyStr PyFloat Json Domain Config Uuid Models Effects.
From S2P Require Import Repositories Queue Notifications Catalog Logic Lifecycle Invariant.
From S2P Require Import Submission Cancellation Execution Scheduling Worker Read Api Steps Transactions.
From S2P Require Import Programs System Demo Guarantees.

Section Sending.
Context {env : Env}.

(** ** Actions that send nothing *)

Definition hush {A} (m : M A) : Prop := ∀ w, w_sent (m w).2 = w_sent w.

Lemma hush_bind {A B} (m : M A) (f : A → M B) : hush m → (∀ a, hush (f a)) → hush (m ≫= f).
Proof.
  intros Hm Hf w. unfold mbind, M_bind. specialize (Hm w). destruct (m w) as [[a|e] w1]; [|done].
  cbn in Hm. by rewrite Hf.
Qed.
Lemma hush_statement {A} (f : Db → db_error + (A * Db)) : hush (statement f).
Proof. intros w. unfold statement. by destruct (f (w_db w)) as [[]|[]]. Qed.
Lemma hush_redis {A} (f : redis_state → A * redis_state) : hush (redis_command f).
Proof.
  apply hush_bind; [done|]. intros []; [by apply hush_bind|]. intros w. unfold on_redis. by destruct (f _).
Qed.
Lemma hush_transaction_at {A} t (body : M A) : hush body → hush (transaction_at t body).
Proof.
  intros Hb w. unfold transaction_at. specialize (Hb (w <| w_txn_now := t |>)).
  by destruct (body _) as [[a|e] w1].
Qed.
Lemma hush_transaction {A} (body : M A) : hush body → hush (transaction body).
Proof. intros Hb. apply hush_bind; [done|]. intros t. by apply hush_transaction_at. Qed.
Lemma hush_for_each {A B} (l : list A) (f : A → M B) : (∀ a, hush (f a)) → hush (for_each l f).
Proof.
  intros Hf. induction l as [|a l IH]; [done|]. apply hush_bind; [apply Hf|]. intros b.
  by apply hush_bind.
Qed.

(** ** Coroutines that send for waiting notifications *)

(** What an action sends, it sends for rows of the outbox that wait. *)
Definition careful {A} (m : M A) : Prop :=
  ∀ strict w, Inv strict (w_db w) → ∃ sent, w_sent (m w).2 = sent ++ w_sent w
    ∧ ∀ d, d ∈ sent → ∃ n, notification_outbox (w_db w) !! dl_notification d = Some n
                        ∧ n_status n = NotificationStatus.PENDING.

Lemma hush_careful {A} (m : M A) : hush m → careful m.
Proof. intros Hm strict w _. exists []. split; [apply Hm|]. intros d []%elem_of_nil. Qed.

Fixpoint sends {A} (c : co A) : Prop :=
  match c with
  | Ret _ | Throw _ => True
  | Await m k => careful m ∧ ∀ r, sends (k r)
  end.

Lemma sends_bind {A B} (c : co A) (f : A → co B) : sends c → (∀ a, sends (f a)) → sends (c ≫= f).
Proof.
  intros Hc Hf. induction c as [a|e|C m k IH]; [apply Hf|done|].
  destruct Hc as [Hm Hk]. split; [done|]. intros r. by apply IH.
Qed.
Lemma sends_try {A} (c : co A) : sends c → sends (try_co c).
Proof.
  intros Hc. induction c as [a|e|C m k IH]; [done|done|]. destruct Hc as [Hm Hk].
  split; [done|]. intros r. by apply IH.
Qed.
Lemma sends_act {A} (m : M A) : careful m → sends (act m).
Proof. intros Hm. split; [done|]. by intros []. Qed.
Lemma sends_each {A} (l : list A) (f : A → co unit) : (∀ a, sends (f a)) → sends (co_for_each l f).
Proof. intros Hf. induction l as [|a l IH]; [done|]. apply sends_bind; [apply Hf|]. by intros _. Qed.
Lemma sends_res {A} (r : res A) : sends (co_res r).
Proof. by destruct r. Qed.
End Sending.

(** Follow the text of an action, or of a coroutine, down to its effects. *)
Ltac head_of t := lazymatch t with ?f _ => head_of f | _ => t end.
Ltac unfold_head t := let h := head_of t in progress unfold h; cbn beta iota zeta.

Ltac hush_step :=
  lazymatch goal with
  | |- hush (mbind _ _) => apply hush_bind; [|intros ?]
  | |- hush (statement _) => apply hush_statement
  | |- hush (redis_command _) => apply hush_redis
  | |- hush (transaction_at _ _) => apply hush_transaction_at
  | |- hush (transaction _) => apply hush_transaction
  | |- hush (for_each _ _) => apply hush_for_each; intros ?
  | |- hush (mret _) => intros ?; reflexivity
  | |- hush (raise _) => intros ?; reflexivity
  | |- hush (reading _) => intros ?; reflexivity
  | |- hush (query _) => intros ?; reflexivity
  | |- hush (modify_db _) => intros ?; reflexivity
  | |- hush txn_now => intros ?; reflexivity
  | |- hush (match ?x with _ => _ end) => destruct x
  | |- hush ?m => unfold_head m
  end.
Ltac hush_solve := repeat hush_step.

Ltac sends_step :=
  lazymatch goal with
  | |- sends (Ret _) => exact I
  | |- sends (Throw _) => exact I
  | |- sends (mbind _ _) => apply sends_bind; [|intros ?]
  | |- sends (try_co _) => apply sends_try
  | |- sends (act _) => apply sends_act, hush_careful; hush_solve
  | |- sends (co_res _) => apply sends_res
  | |- sends (co_for_each _ _) => apply sends_each; intros ?
  | |- sends (match ?x with _ => _ end) => destruct x
  | |- sends (ctx_check_cancelled _) => unfold execution_context; cbn [ctx_check_cancelled]
  | |- sends (ctx_report_progress _ _) => unfold execution_context; cbn [ctx_report_progress]
  | |- sends (ctx_sleep _ _) => unfold execution_context; cbn [ctx_sleep]
  | |- sends ?c => unfold_head c
  end.
Ltac sends_solve := repeat sends_step.

(** ** The delivery loop *)

Section Deliveries.
Context {env : Env} (settings : Settings).

(** What an action sends bears one of the identifiers [ids]. *)
Definition sends_for (ids : list uuid) {A} (m : M A) : Prop :=
  ∀ w, ∃ sent, w_sent (m w).2 = sent ++ w_sent w ∧ ∀ d, d ∈ sent → dl_notification d ∈ ids.

Lemma sends_for_bind ids {A B} (m : M A) (f : A → M B) :
  sends_for ids m → (∀ a, sends_for ids (f a)) → sends_for ids (m ≫= f).
Proof.
  intros Hm Hf w. destruct (Hm w) as (sent & Hs & Hin). unfold mbind, M_bind.
  destruct (m w) as [[a|e] w1]; [|by exists sent]. destruct (Hf a w1) as (sent' & Hs' & Hin').
  exists (sent' ++ sent). cbn in Hs. split; [by rewrite Hs', Hs, app_assoc|].
  intros d [Hd|Hd]%elem_of_app; auto.
Qed.
Lemma hush_sends_for ids {A} (m : M A) : hush m → sends_for ids m.
Proof. intros Hm w. exists []. split; [apply Hm|]. intros d []%elem_of_nil. Qed.

Lemma record_sends d : sends_for [dl_notification d] (record_delivery d).
Proof. intros w. exists [d]. split; [done|]. intros d' Hd. apply list_elem_of_singleton in Hd as ->. apply list_elem_of_here. Qed.

Lemma deliver_sends n : sends_for [n_id n] (_deliver settings n).
Proof.
  unfold _deliver. case_bool_decide; [|apply (record_sends (mkDelivery (n_id n) _ _ _))].
  apply sends_for_bind; [apply hush_sends_for; hush_solve|]. intros [|message|message].
  - apply (record_sends (mkDelivery (n_id n) _ _ _)).
  - apply hush_sends_for. hush_solve.
  - apply hush_sends_for. hush_solve.
Qed.

Lemma attempt_sends n : sends_for [n_id n] (_attempt settings n).
Proof.
  apply sends_for_bind.
  - intros w. destruct (deliver_sends n w) as (sent & Hs & Hin). exists sent. split; [|done].
    unfold try_M. by destruct (_deliver settings n w).
  - intros outcome. apply hush_sends_for. hush_solve.
Qed.

Lemma attempts_send (l : list NotificationOutbox) :
  sends_for (n_id <$> l) (for_each l (_attempt settings)).
Proof.
  assert (∀ ids, (∀ n, n ∈ l → n_id n ∈ ids) → sends_for ids (for_each l (_attempt settings))) as H.
  { intros ids. induction l as [|n l IH]; intros Hids; [apply hush_sends_for; intros ?; reflexivity|].
    apply sends_for_bind; [|intros ?; apply sends_for_bind; [|intros ?; apply hush_sends_for; hush_solve]].
    - intros w. destruct (attempt_sends n w) as (sent & Hs & Hin). exists sent. split; [done|].
      intros d Hd. apply Hin, list_elem_of_singleton in Hd. rewrite Hd. apply Hids, list_elem_of_here.
    - apply IH. intros x Hx. by apply Hids, list_elem_of_further. }
  apply H. intros n Hn. by apply list_elem_of_fmap_2.
Qed.

(** One pass sends only for the rows it claimed, which were waiting. *)
Lemma due_body_careful batch : careful (due_body settings batch).
Proof.
  intros strict w HI. set (w1 := w <| w_count := S (w_count w) |>). set (now := clock (w_count w)).
  set (w2 := w1 <| w_count := S (w_count w1) |>).
  destruct (select_rows_spec (λ n, bool_decide (n_status n = NotificationStatus.PENDING)
    && (n_next_attempt_at n <=? now)) (λ n, Some (n_next_attempt_at n)) batch (locked_row (w_count w1))
    (notification_outbox (w_db w1))) as (l & Hsel & _ & Hl).
  assert (due_body settings batch w
    = (_ ← for_each l.*2 (_attempt settings); mret (Z.of_nat (length l.*2))) w2) as ->
    by (rewrite <-Hsel; reflexivity).
  assert (sends_for (n_id <$> l.*2) (_ ← for_each l.*2 (_attempt settings); mret (Z.of_nat (length l.*2))))
    as Hrest by (apply sends_for_bind; [apply attempts_send|intros ?; apply hush_sends_for; intros ?; reflexivity]).
  destruct (Hrest w2) as (sent & Hs & Hin). exists sent. split.
  - exact Hs.
  - intros d Hd. apply Hin, list_elem_of_fmap in Hd as (n & -> & ([k n'] & -> & Hkn)%list_elem_of_fmap).
    destruct (Hl k n' Hkn) as [Hk Hg]. exists n'. cbn. apply andb_prop in Hg as [Hst%bool_decide_eq_true_1 _].
    destruct (inv_notification _ _ HI k n' Hk) as (-> & _). by split.
Qed.

Lemma careful_transaction {A} (body : M A) : careful body → careful (transaction body).
Proof.
  intros Hb strict w HI. unfold transaction, mbind, M_bind, clock_now, reading, transaction_at.
  match goal with |- context [body ?x] => destruct (Hb strict x HI) as (sent & Hs & Hin); exists sent;
    destruct (body x) as [[a|e] w1] end; by split.
Qed.

Lemma delivery_sends batch : sends (dispatch_due settings batch).
Proof. apply sends_act, careful_transaction, due_body_careful. Qed.
End Deliveries.

(** ** The programs *)

Section Programs.
Context {env : Env}.

Lemma submit_sends settings user ty payload priority attempts key :
  sends (submit settings user ty payload priority attempts key).
Proof. sends_solve. Qed.

Lemma cancel_sends i user reason : sends (cancel i user reason).
Proof. sends_solve. Qed.

Lemma serve_sends settings r : sends (serve settings r).
Proof.
  unfold serve. destruct (negb _); [done|]. apply sends_bind; [|intros [|[]]; done].
  apply sends_try. unfold dispatch. destruct (req_route r); sends_solve.
Qed.

Lemma handler_sends settings worker_id i n ty handler payload :
  get_handler ty = Ok handler → sends (handler payload (execution_context settings worker_id i n)).
Proof.
  assert (∀ left from steps x,
    sends (run_steps_from from left steps x (execution_context settings worker_id i n))) as Hsteps.
  { intros left. induction left as [|left IH]; intros from steps x; [done|]. cbn [run_steps_from].
    sends_step; [sends_solve|]. sends_step; [sends_solve|]. sends_step; [sends_solve|].
    sends_step; [sends_solve|]. apply IH. }
  assert (∀ steps x, sends (_run_steps steps x (execution_context settings worker_id i n))) as Hrun
    by (intros; apply Hsteps).
  intros Hh. destruct ty; injection Hh as <-; (repeat first [apply Hrun|sends_step]).
Qed.

Lemma execute_sends settings worker_id i : sends (execute settings worker_id i).
Proof.
  unfold execute. sends_step; [sends_solve|]. destruct a as [claim|]; [|done].
  destruct (get_handler _) as [handler|e] eqn:Hh; [|done]. cbn [co_res].
  lazymatch goal with |- sends (mbind ?f _) => change (sends (f handler)) end; cbv beta.
  sends_step; [|sends_step; [sends_solve|exact I]].
  apply sends_try. by eapply handler_sends.
Qed.

Lemma consume_sends settings worker_id n : sends (_consume_loop (new_worker settings worker_id) n).
Proof.
  induction n as [|n IH]; [done|]. cbn [_consume_loop]. sends_step; [|exact IH].
  unfold consume_turn. sends_step; [unfold new_worker; cbn [_queue]; sends_solve|].
  destruct a as [[message|]|e]; [|done|by destruct e; first [done|sends_solve]].
  unfold _process. destruct (uuid_of_str message) as [i|]; [|done].
  sends_step; [|exact I]. apply sends_try, execute_sends.
Qed.

Lemma tick_sends settings : sends (tick (build_scheduler settings)).
Proof.
  unfold tick, build_scheduler. cbn [_dispatch_pending _retry _lease _dispatch_redeliver _expiry _notifications].
  do 5 (sends_step; [sends_solve|]). sends_step; [apply delivery_sends|exact I].
Qed.

Lemma scheduler_sends settings n : sends (scheduler_run settings n).
Proof.
  unfold scheduler_run. induction n as [|n IH]; [done|]. cbn [run_scheduler].
  sends_step; [apply sends_try, tick_sends|]. sends_step; [sends_solve|exact IH].
Qed.

Lemma program_sends o c : program o c → sends c.
Proof.
  destruct 1.
  - apply sends_bind; [apply submit_sends|done].
  - apply sends_bind; [apply cancel_sends|done].
  - apply sends_bind; [apply serve_sends|done].
  - apply consume_sends.
  - sends_solve.
  - apply scheduler_sends.
Qed.

(** ** The system *)

(** What was sent for a notification. *)
Definition sent_for (k : uuid) (w : World) : list delivery :=
  filter (λ d, dl_notification d = k) (w_sent w).

Definition all_send (s : State) : Prop := ∀ t, t ∈ st_tasks s → sends t.2.

Lemma step_all_send strict s s' : step strict s s' → all_send s → all_send s'.
Proof.
  intros [w ts o c Hp _|w ts1 ts2 o A m k|w ts1 ts2 t|w ts r] Hs; [| | |done].
  - intros t [->|Hin]%elem_of_cons; [by eapply program_sends|by apply Hs].
  - intros t [->|Hin]%elem_of_middle; cbn.
    + assert (sends (Await m k)) as [_ Hk]; [|apply Hk].
      apply (Hs (o, Await m k)). cbn. apply elem_of_middle. by left.
    + apply Hs. cbn. apply elem_of_middle. by right.
  - intros x Hin. apply Hs. cbn. apply elem_of_middle. by right.
Qed.

Lemma reachable_all_send strict s : reachable strict s → all_send s.
Proof.
  assert (∀ s1 s2, steps strict s1 s2 → all_send s1 → all_send s2) as H.
  { induction 1 as [|s1 s2 s3 H12 _ IH]; [done|]. intros Hs. by apply IH, (step_all_send strict s1). }
  intros Hr. apply (H _ _ Hr). intros t Hin. by apply elem_of_nil in Hin.
Qed.

(** A step sends only for notifications that wait. *)
Lemma step_sends strict s s' k n :
  step strict s s' → all_send s → Inv strict (st_db s) →
  notification_outbox (st_db s) !! k = Some n → n_status n ≠ NotificationStatus.PENDING →
  sent_for k (st_world s') = sent_for k (st_world s).
Proof.
  intros [w ts o c Hp _|w ts1 ts2 o A m c|w ts1 ts2 t|w ts r] Hs HI Hk Hn; try done. unfold st_db in *. cbn in *.
  assert (sends (Await m c)) as [Hm _].
  { apply (Hs (o, Await m c)). cbn. apply elem_of_middle. by left. }
  destruct (Hm strict w HI) as (sent & Hsent & Hin). unfold sent_for. rewrite Hsent, filter_app.
  assert (∀ d, d ∈ sent → dl_notification d ≠ k) as Hne
    by (intros d Hd <-; destruct (Hin d Hd) as (n' & Hn' & Hp); congruence).
  clear Hsent Hin. induction sent as [|d sent IH]; [done|].
  rewrite filter_cons_False by (apply Hne, list_elem_of_here). apply IH.
  intros x Hx. by apply Hne, list_elem_of_further.
Qed.

(** C28: a notification that was sent, or given up, is final: its row is never
    touched again, and no later step of any run makes another delivery of it, with
    any interleaving and any crash.  (While its row is pending a delivery may be
    repeated: a batch that is rolled back leaves rows pending whose deliveries
    were made.) *)
Theorem delivered_notification_is_final (strict : bool) (s s' : State) (k : uuid)
  (n : NotificationOutbox) :
  reachable strict s → steps strict s s' → notification_outbox (st_db s) !! k = Some n →
  n_status n ≠ NotificationStatus.PENDING →
  notification_outbox (st_db s') !! k = Some n
  ∧ sent_for k (st_world s') = sent_for k (st_world s).
Proof.
  intros Hr Hs Hk Hn. revert Hr. induction Hs as [s|s s1 s2 H1 Hs IH]; [done|]. intros Hr.
  assert (reachable strict s1) as Hr1 by (apply (reachable_steps strict s); [done|by apply rtc_once]).
  assert (notification_outbox (st_db s1) !! k = Some n) as Hk1.
  { apply (moves_keep_notification strict (st_db s)); [|done..].
    apply reachable_moves; [done|by apply rtc_once]. }
  destruct (IH Hk1 Hr1) as [Hk2 ->]. split; [done|].
  apply (step_sends strict s s1 k n); try done; [by apply (reachable_all_send strict)|by apply reachable_Inv].
Qed.
End Programs.

(** ** At a concrete state *)

Lemma delivered_notification_is_final_witness :
  length (sent_for first_notification (st_world s_notified)) = 1%nat
  ∧ length (sent_for first_notification (st_world s_later)) = 1%nat
  ∧ ∃ n, n_status n = NotificationStatus.SENT
    ∧ notification_outbox (st_db s_later) !! first_notification = Some n.
Proof.
  assert (length (sent_for first_notification (st_world s_notified)) = 1%nat) as Hone by (by vm_compute).
  split; [exact Hone|].
  destruct (notification_outbox (st_db s_notified) !! first_notification) as [n|] eqn:Hn.
  - assert (n_status <$> notification_outbox (st_db s_notified) !! first_notification
            = Some NotificationStatus.SENT) as Hs by (by vm_compute).
    rewrite Hn in Hs. injection Hs as Hs.
    destruct (delivered_notification_is_final true s_notified s_later first_notification n) as [Hk Hlog].
    + apply at_notified.
    + apply to_later.
    + exact Hn.
    + rewrite Hs. discriminate.
    + split; [rewrite Hlog; exact Hone|]. exists n. split; [exact Hs|exact Hk].
  - exfalso. revert Hn. by vm_compute.
Defined.
