(* ===== verification/Termination.v ===== *)
(** Every job comes to rest: a measure of a row that no transaction increases and
    every change of status decreases bounds the changes of status in any run. *)

From S2P Require Import Prelude PyStr PyFloat Json Domain Config Uuid Models Effects.
From S2P Require Import Repositories Queue Notifications Catalog Logic Lifecycle Invariant.
From S2P Require Import Submission Cancellation Execution Scheduling Worker Programs System Demo.
Import JobStatus.

(** How far a status is from the next attempt, or from the end. *)
Definition phase (s : JobStatus) : Z :=
  match s with
  | PENDING => 2
  | QUEUED => 1
  | RUNNING => 3
  | RETRYING => 2
  | CANCELLING => 1
  | SUCCEEDED | FAILED | CANCELLED | EXPIRED => 0
  end.

(** Each attempt that is left is worth three changes. *)
Definition rank (j : Job) : Z := 3 * (j_max_attempts j - j_attempts j) + phase (j_status j).

Lemma live_transition_phase s t :
  live_transition s t = true → t ≠ RUNNING → phase t < phase s.
Proof. destruct s, t; intros H Ht; first [done|discriminate H|by destruct Ht]. Qed.

Lemma start_phase s : live_transition s RUNNING = true → 1 <= phase s.
Proof. destruct s; intros H; first [done|discriminate H]. Qed.

Lemma step_rank j j' :
  job_step j j' → rank j' <= rank j ∧ (j_status j' ≠ j_status j → rank j' < rank j).
Proof.
  intros H. assert (j_max_attempts j' = j_max_attempts j) as Hmax.
  { pose proof (step_identity _ _ H) as E. unfold identity_of in E. congruence. }
  unfold rank. rewrite Hmax. pose proof (step_attempts _ _ H) as Ha.
  destruct (step_status _ _ H) as [Es|Ht]; [rewrite Es; split; [lia|done]|].
  destruct (decide (j_status j' = RUNNING)) as [Er|Er].
  - destruct (step_start _ _ H Er) as [Es|Es].
    + rewrite Er, Es. split; [lia|done].
    + rewrite Er in Ht. pose proof (start_phase _ Ht). rewrite Er, Es. cbn [phase]. lia.
  - pose proof (live_transition_phase _ _ Ht Er). lia.
Qed.

Lemma history_rank j j' :
  job_history j j' → rank j' <= rank j ∧ (j_status j' ≠ j_status j → rank j' < rank j).
Proof.
  induction 1 as [j|j k l Hjk _ [IH1 IH2]]; [split; [lia|done]|].
  destruct (step_rank _ _ Hjk) as [H1 H2]. split; [lia|]. intros Hne.
  destruct (decide (j_status k = j_status j)) as [E|E]; [|specialize (H2 E); lia].
  rewrite <-E in Hne. specialize (IH2 Hne). lia.
Qed.

Section Termination.
Context {env : Env}.

(** A run observed at some of its states. *)
Inductive observed : list State → Prop :=
| obs_one s : observed [s]
| obs_next s s' l : steps true s s' → observed (s' :: l) → observed (s :: s' :: l).

Definition status_at (i : uuid) (s : State) : option JobStatus :=
  j_status <$> jobs (st_db s) !! i.

(** How often the status of a job differs between two observations. *)
Fixpoint changes (i : uuid) (l : list State) : Z :=
  match l with
  | s :: ((s' :: _) as l') =>
      (if bool_decide (status_at i s = status_at i s') then 0 else 1) + changes i l'
  | _ => 0
  end.

Lemma rank_nonneg s i j :
  reachable true s → jobs (st_db s) !! i = Some j → 0 <= rank j.
Proof.
  intros Hr Hj. destruct (inv_jobs _ _ (reachable_Inv _ _ Hr) i j Hj) as (_ & _ & Hb).
  destruct (Hb eq_refl) as [Hle _]. unfold rank. destruct (j_status j); simpl; lia.
Qed.

Lemma changes_rank i j s l :
  reachable true s → observed (s :: l) → jobs (st_db s) !! i = Some j → changes i (s :: l) <= rank j.
Proof.
  intros Hr Hl. revert j. remember (s :: l) as sl eqn:E. revert s l Hr E.
  induction Hl as [s|s s' l Hs _ IH]; intros s0 l0 Hr [= <- <-] j Hj.
  - simpl. by eapply rank_nonneg.
  - destruct (moves_history _ _ _ i j (reachable_moves _ _ _ Hr Hs) Hj) as (j' & Hj' & Hh).
    destruct (history_rank _ _ Hh) as [Hle Hlt].
    pose proof (IH s' l (reachable_steps _ _ _ Hr Hs) eq_refl j' Hj') as Hc.
    change (changes i (s :: s' :: l)) with
      ((if bool_decide (status_at i s = status_at i s') then 0 else 1) + changes i (s' :: l)).
    case_bool_decide as Es; [lia|].
    assert (rank j' < rank j); [|lia]. apply Hlt. unfold status_at in Es. rewrite Hj, Hj' in Es.
    simpl in Es. congruence.
Qed.

(** C17: every job comes to rest: however a run of the system is scheduled, and
    whatever crashes, the status of a job changes at most [3 * max_attempts + 2]
    times; there is no endless cycle of retries, expired leases and redeliveries.
    (No worker identity runs two executions at once.) *)
Theorem every_job_comes_to_rest (s : State) (l : list State) (i : uuid) (j : Job) :
  reachable true s → observed (s :: l) → jobs (st_db s) !! i = Some j →
  changes i (s :: l) <= 3 * j_max_attempts j + 2.
Proof.
  intros Hr Hl Hj. pose proof (changes_rank i j s l Hr Hl Hj) as Hc.
  destruct (inv_jobs _ _ (reachable_Inv _ _ Hr) i j Hj) as (Hok & _ & _).
  destruct Hok as [_ _ _ Ha Hst]. unfold rank, status_ok in *.
  destruct (j_status j); cbn [phase] in Hc; lia.
Qed.
End Termination.

Lemma every_job_comes_to_rest_witness :
  changes first_job [s_submitted; s_retrying; s_succeeded] = 2
  ∧ changes first_job [s_submitted; s_retrying; s_succeeded]
    <= 3 * j_max_attempts (row_of s_submitted) + 2.
Proof.
  split; [by vm_compute|].
  apply (every_job_comes_to_rest s_submitted [s_retrying; s_succeeded] first_job (row_of s_submitted)).
  - apply at_submitted.
  - apply obs_next; [apply to_retrying|]. apply obs_next; [apply to_succeeded|]. apply obs_one.
  - by vm_compute.
Defined.
