(* ===== verification/BoardSpec.v ===== *)
(** The abstract specification of the orchestrator: a board of cards, one a job,
    and the refinement theorem that every run of the system is a run of the
    board. *)

From S2P Require Import Prelude PyStr PyFloat Json Domain Config Uuid Models Effects.
From S2P Require Import Repositories Queue Notifications Catalog Logic Lifecycle Invariant.
From S2P Require Import Submission Cancellation Execution Scheduling Worker Steps Transactions.
From S2P Require Import Programs System Demo Guarantees.
Import JobStatus.

(** ** The board *)

(** What a user is promised of a job: whose it is, how often it may be tried, where
    it stands, how often it was tried, and what its owner was told of its end. *)
Record Card := mkCard {
  c_user : string;
  c_type : JobType;
  c_limit : Z;
  c_status : JobStatus;
  c_tries : Z;
  c_told : option JobEventType;
}.

#[export] Instance Card_settable : Settable Card := {| eta_expand := λ c,
  mkCard (c_user c) (c_type c) (c_limit c) (c_status c) (c_tries c) (c_told c) |}.

Abbreviation Board := (gmap uuid Card).

(** The moves of a card that is neither tried nor ended. *)
Inductive moves_to : JobStatus → JobStatus → Prop :=
| to_queue s : s ∈ [PENDING; RUNNING; RETRYING] → moves_to s QUEUED
| to_retry : moves_to RUNNING RETRYING
| to_cancelling : moves_to RUNNING CANCELLING.

(** How a card may end. *)
Inductive ends_with : JobStatus → JobStatus → JobEventType → Prop :=
| ends_succeeded s : s ∈ [RUNNING; CANCELLING] → ends_with s SUCCEEDED JobEventType.SUCCEEDED
| ends_failed s : s ∈ [RUNNING; CANCELLING] → ends_with s FAILED JobEventType.FAILED
| ends_cancelled s : s ∈ [PENDING; QUEUED; RETRYING; CANCELLING] →
    ends_with s CANCELLED JobEventType.CANCELLED
| ends_expired s : s ∈ [PENDING; QUEUED] → ends_with s EXPIRED JobEventType.EXPIRED.

(** The moves of the board.  [limited] says whether the limit of a card bounds its
    tries; without it every other rule of the board stands. *)
Inductive board_step (limited : bool) (B : Board) : Board → Prop :=
| b_submit i c :
    B !! i = None → c_status c = PENDING → c_tries c = 0 → c_told c = None → 1 <= c_limit c →
    board_step limited B (<[i := c]> B)
| b_start i c :
    B !! i = Some c → c_status c ∈ [QUEUED; RETRYING] →
    (limited = true → c_tries c < c_limit c) →
    board_step limited B (<[i := c <| c_status := RUNNING |> <| c_tries := c_tries c + 1 |>]> B)
| b_move i c s :
    B !! i = Some c → moves_to (c_status c) s →
    (limited = true → s ≠ CANCELLING → c_tries c < c_limit c) →
    board_step limited B (<[i := c <| c_status := s |>]> B)
| b_end i c s event :
    B !! i = Some c → ends_with (c_status c) s event → c_told c = None →
    board_step limited B (<[i := c <| c_status := s |> <| c_told := Some event |>]> B).

(** ** The abstraction *)

(** What the notifications of the database tell of a job. *)
Definition told (d : Db) (i : uuid) : option JobEventType :=
  head (n_event_type <$> notifications_of i d).

Definition card_of (d : Db) (i : uuid) (j : Job) : Card :=
  mkCard (j_user_id j) (j_type j) (j_max_attempts j) (j_status j) (j_attempts j) (told d i).

Definition board_of (d : Db) : Board := map_imap (λ i j, Some (card_of d i j)) (jobs d).

(** In a reachable database the notification tells the status. *)
Definition card (j : Job) : Card :=
  mkCard (j_user_id j) (j_type j) (j_max_attempts j) (j_status j) (j_attempts j)
    (terminal_event (j_status j)).

Lemma told_status strict d i j :
  Inv strict d → jobs d !! i = Some j → told d i = terminal_event (j_status j).
Proof.
  intros HI Hj. pose proof (Inv_notifications strict d i j HI Hj) as H. unfold told.
  destruct (terminal_event (j_status j)) as [event|].
  - destruct H as (n & -> & <- & _). done.
  - by rewrite H.
Qed.

Lemma board_of_cards strict d : Inv strict d → board_of d = card <$> jobs d.
Proof.
  intros HI. apply map_eq. intros i. unfold board_of. rewrite map_lookup_imap, lookup_fmap.
  destruct (jobs d !! i) as [j|] eqn:Hj; [|done]. cbn. unfold card_of, card.
  by rewrite (told_status strict _ _ _ HI Hj).
Qed.

(** ** The simulation *)

(** The edges of the lifecycle. *)
Lemma edge_ends s s' event :
  live_transition s s' = true → terminal_event s' = Some event → ends_with s s' event.
Proof.
  intros Hs Hev. destruct s, s'; try discriminate; injection Hev as <-; constructor;
    rewrite !elem_of_cons; auto.
Qed.

Lemma edge_moves s s' :
  live_transition s s' = true → terminal_event s' = None → s' ≠ RUNNING → moves_to s s'.
Proof.
  intros Hs Hev Hr. destruct s, s'; try discriminate; try done; constructor; rewrite !elem_of_cons; auto.
Qed.

Lemma waits s : terminal_event s = None → s ≠ RUNNING → s ≠ CANCELLING → s ∈ startable.
Proof. intros Hev Hr Hc. rewrite !elem_of_cons. destruct s; try discriminate; try done; auto. Qed.

(** A row that changed is a card that moved, or stayed. *)
Lemma row_refines strict (B : Board) i j j' d :
  B = card <$> jobs d → Inv strict d → jobs d !! i = Some j → job_step j j' → budget strict j' →
  rtc (board_step strict) B (<[i := card j']> B).
Proof.
  intros HB HI Hj [Hid Hs Hn Hstart _ Hlive] Hb.
  assert (B !! i = Some (card j)) as Hc by (by rewrite HB, lookup_fmap, Hj).
  destruct (inv_jobs _ _ HI i j Hj) as (_ & _ & Hbj). unfold identity_of in Hid. injection Hid as _ Hu Hty _ _ Hmax _ _.
  assert (c_told (card j) = None) as Htold by (cbn; by destruct (j_status j)).
  destruct Hn as [Hn|(Hn & Hr & Hq & _)].
  - assert (card j' = (card j) <| c_status := j_status j' |> <| c_told := terminal_event (j_status j') |>) as ->
      by (unfold card; cbn; congruence).
    destruct Hs as [Hs|Hs]; [rewrite Hs, insert_id; [done|by rewrite Hc]|].
    apply rtc_once. destruct (terminal_event (j_status j')) as [event|] eqn:Hev.
    + apply b_end; [done|by apply edge_ends|done].
    + assert ((card j) <| c_status := j_status j' |> <| c_told := None |> = (card j) <| c_status := j_status j' |>) as ->
        by (by rewrite <-Htold).
      assert (j_status j' ≠ RUNNING) as Hr.
      { intros Hr. destruct (Hstart Hr) as [E|E]; [|lia]. by rewrite Hr, E in Hs. }
      apply b_move; [done|by apply edge_moves|]. cbn. intros Hlim Hne. rewrite <-Hn, <-Hmax.
      destruct (Hb Hlim) as (_ & Hleft & _). by apply Hleft, waits.
  - assert (card j' = (card j) <| c_status := RUNNING |> <| c_tries := j_attempts j + 1 |>) as ->.
    { unfold card. cbn. rewrite Hu, Hty, Hmax, Hn, Hr. cbn in Htold |- *. by rewrite Htold. }
    apply rtc_once, b_start; [done|done|]. cbn. intros Hlim. destruct (Hbj Hlim) as (_ & Hleft & _).
    apply Hleft. by apply list_elem_of_further.
Qed.

Lemma move_refines strict l d d' :
  Inv strict d → move strict l d d' → rtc (board_step strict) (card <$> jobs d) (card <$> jobs d').
Proof.
  intros HI Hm. destruct Hm; db_simpl; try done; rewrite fmap_insert;
    try (by eapply row_refines).
  apply rtc_once. destruct H2 as [_ _ Hck _ Hok]. unfold status_ok in Hok. rewrite H4 in Hok.
  apply b_submit; [by rewrite lookup_fmap, H|done|apply Hok|cbn; by rewrite H4|].
  unfold job_checks_ok in Hck. bool_simpl. cbn. lia.
Qed.

Lemma moves_refine strict d d' :
  rtc (any_move strict) d d' → Inv strict d → rtc (board_step strict) (board_of d) (board_of d').
Proof.
  induction 1 as [d|d d1 d' (l & Hm) Hrest IH]; [done|]. intros HI.
  assert (Inv strict d1) as HI1 by (by apply (move_Inv _ l d)).
  transitivity (board_of d1); [|by apply IH]. rewrite !(board_of_cards strict) by done. by apply (move_refines strict l).
Qed.

Section Refinement.
Context {env : Env}.

(** C6: refinement: the system implements the abstract orchestrator.  Seen as a
    board of cards (whose the job is, its limit of attempts, its status, its
    attempts so far, what the notifications tell of its end), every run of
    requests, workers and scheduler, with any interleaving and any crash, is a
    run of the board: a new card starts pending and untried; a try starts from a
    queued or retrying card, and counts; a card moves between the statuses that
    are not over as [moves_to] lists; and a card ends once, together with the one
    thing its owner is told.  In the runs where no worker identity executes two
    jobs at once ([strict] is true) it is the board on which the limit holds: a
    try starts below the limit of its card, and a card goes back to the queue or
    waits for a retry only below it.  In the other runs ([strict] is false: any
    worker, at any time) it is the board without the limit, since workers that
    share an identity can exceed it. *)
Theorem system_refines_the_board (strict : bool) (s s' : State) :
  reachable strict s → steps strict s s' →
  rtc (board_step strict) (board_of (st_db s)) (board_of (st_db s'))
  ∧ board_of (st_db initial) = ∅.
Proof.
  intros Hr Hs. split; [|done].
  apply moves_refine; [by apply reachable_moves|by apply reachable_Inv].
Qed.
End Refinement.

(** ** At concrete states *)

Lemma system_refines_the_board_witness :
  c_status <$> board_of (st_db s_submitted) !! first_job = Some PENDING
  ∧ c_told <$> board_of (st_db s_notified) !! first_job = Some (Some JobEventType.SUCCEEDED)
  ∧ rtc (board_step true) (board_of (st_db s_submitted)) (board_of (st_db s_notified)).
Proof.
  split; [by vm_compute|]. split; [by vm_compute|].
  apply (system_refines_the_board true s_submitted s_notified).
  - apply at_submitted.
  - transitivity s_retrying; [apply to_retrying|].
    transitivity s_succeeded; [apply to_succeeded|apply to_notified].
Defined.
