(* ===== verification/WorkerSpec.v ===== *)
(** What the transactions of a worker do, on every branch: the claim of a job and
    the fencing of a worker that lost its lease. *)

From S2P Require Import Prelude PyStr PyFloat Json Domain Config Uuid Models Effects.
From S2P Require Import Repositories Queue Notifications Catalog Logic Lifecycle Submission.
From S2P Require Import Cancellation Execution Scheduling Worker Programs System Demo.
Import JobStatus.

(** ** The exceptions of the statements *)

Section Raises.
Context {env : Env}.

Lemma raises_db_statement {A} (f : Db → db_error + (A * Db)) :
  raises_only is_db_error (statement f).
Proof. by apply raises_statement. Qed.

Lemma raises_update_jobs i guard values : raises_only is_db_error (update_jobs i guard values).
Proof. apply raises_bind; [apply raises_db_statement|]. intros n. apply raises_ret. Qed.

Lemma raises_modify P f : raises_only P (modify_db f).
Proof. by intros w e. Qed.

Lemma raises_txn_now P : raises_only P txn_now.
Proof. by intros w e. Qed.

Lemma raises_record i ty from to detail :
  raises_only is_db_error (JobEventRepository.record i ty from to detail).
Proof.
  apply raises_bind; [apply raises_reading|]. intros k.
  apply raises_bind; [apply raises_txn_now|]. intros t. apply raises_db_statement.
Qed.

Lemma raises_start i n wid now : raises_only is_db_error (JobAttemptRepository.start i n wid now).
Proof.
  apply raises_bind; [apply raises_reading|]. intros k.
  apply raises_bind; [apply raises_db_statement|]. intros t. apply raises_ret.
Qed.

Lemma raises_notify job ev status result c m now :
  raises_only is_db_error (enqueue_terminal_notification job ev status result c m now).
Proof.
  unfold enqueue_terminal_notification. destruct (notification_route job).
  apply raises_bind; [|intros; apply raises_ret].
  apply raises_bind; [apply raises_reading|]. intros k.
  apply raises_bind; [apply raises_txn_now|]. intros t. apply raises_db_statement.
Qed.

Lemma raises_claim i wid lease now :
  raises_only is_db_error (JobRepository.claim_for_execution i wid lease now).
Proof. apply raises_bind; [apply raises_update_jobs|]. intros b. apply raises_query. Qed.

Lemma raises_finish k s now c m : raises_only is_db_error (JobAttemptRepository.finish k s now c m).
Proof. by apply raises_statement. Qed.
End Raises.

#[export] Hint Resolve raises_update_jobs raises_modify raises_record raises_start raises_notify
  raises_claim raises_finish raises_db_statement raises_txn_now : orch.

(** Walks through the statements of a body. *)
Ltac raises_solve :=
  repeat first
    [ solve [eauto with orch]
    | apply raises_bind; [|intros ?]
    | match goal with |- raises_only _ (match ?x with _ => _ end) => destruct x end ].

Section WorkerSpec.
Context {env : Env} (settings : Settings) (worker_id : string).

(** ** The claim *)

(** What [claim_for_execution] asks of the row. *)
Definition claimable (j : Job) : bool :=
  status_in JobRepository._CLAIMABLE j && is_null (j_cancellation_requested_at j).

Lemma claim_raises i now : raises_only is_db_error (claim_body settings worker_id i now).
Proof. unfold claim_body. raises_solve. Qed.

Lemma wp_claim_statement i lease now (Q : option Z → Db → Prop) d :
  (∀ j, jobs d !! i = Some j → claimable j = true →
     ∀ j', j_status j' = RUNNING → j_attempts j' = j_attempts j + 1 →
       j_locked_by j' = Some worker_id → j_lock_expires_at j' = Some (now + seconds lease) →
       j_next_attempt_at j' = None → identity_of j' = identity_of j →
       j_cancellation_requested_at j' = None →
       Q (Some (j_attempts j')) (set_job i j' d)) →
  ((∀ j, jobs d !! i = Some j → claimable j = false) → Q None d) →
  wp (JobRepository.claim_for_execution i worker_id lease now) Q d.
Proof.
  intros Ht Hf. apply wp_bind, wp_update_jobs.
  - intros j Hi Hg _ _. apply wp_query.
    match goal with |- context [<[i := ?v]> (jobs d)] => set (j' := v) in * end.
    cbn [jobs set_field]. rewrite lookup_insert_eq.
    apply (Ht j Hi Hg); try reflexivity. unfold j'. cbn.
    bool_simpl. by destruct (j_cancellation_requested_at j).
  - intros Hn. by apply wp_query, Hf.
Qed.

(** The result and the database of a claim. *)
Definition claim_post (i : uuid) (now : datetime) (d : Db) (r : option Claim) (d' : Db) : Prop :=
  match r with
  | None => d' = d ∧ ∀ j, jobs d !! i = Some j → claimable j = false
  | Some c => ∃ j j',
      jobs d !! i = Some j ∧ claimable j = true ∧ jobs d' = <[i := j']> (jobs d)
      ∧ j_status j' = RUNNING ∧ j_locked_by j' = Some worker_id
      ∧ j_lock_expires_at j' = Some (now + seconds (worker_lease_seconds settings))
      ∧ j_attempts j' = j_attempts j + 1 ∧ c_attempt_number c = j_attempts j'
      ∧ c_snapshot c = mkJobSnapshot (j_type j) (j_payload j) (j_max_attempts j)
      ∧ job_attempts d' !! c_attempt_id c =
          Some (mkJobAttempt (c_attempt_id c) i (j_attempts j') worker_id RUNNING now
                  None None None)
  end.

Lemma claim_commits i now w :
  commits (claim_body settings worker_id i now) w (claim_post i now (w_db w)).
Proof.
  apply transaction_commits; [apply claim_raises|].
  apply wp_bind, wp_query. destruct (jobs (w_db w) !! i) as [j|] eqn:Hi; [|by apply wp_ret; split; [|congruence]].
  apply wp_bind, wp_claim_statement.
  - intros x Hx Hc j' Hs Ha Hl Hexp _ Hid _. assert (x = j) as -> by congruence.
    apply wp_bind, wp_start. intros k a _ _.
    apply wp_bind, wp_record. intros e _ _ _ _ _ _. apply wp_ret.
    exists j, j'. repeat split; try done. cbn. by rewrite lookup_insert_eq.
  - intros Hn. apply wp_ret. split; [done|]. intros x Hx. apply Hn. congruence.
Qed.

(** C13: a claim takes a queued or retrying job whose cancellation was not
    requested, and only such a job: it starts the next attempt under the
    worker's lease, records the attempt, and returns the numbers and the
    snapshot of the row; otherwise it changes nothing. *)
Theorem claim_outcomes (i : uuid) (now : datetime) (w : World) :
  commits (claim_body settings worker_id i now) w (claim_post i now (w_db w)).
Proof. apply claim_commits. Qed.

(** ** The identity of a worker *)

Lemma update_jobs_bad i guard values x j :
  jobs (w_db x) !! i = Some j → guard j = true → job_types_ok (values j) = false →
  ∃ t x', update_jobs i guard values x = (Err (DataError t), x').
Proof.
  intros Hi Hg Hv. unfold update_jobs, mbind, M_bind, statement, update_job.
  rewrite Hi, Hg, Hv. by eexists _, _.
Qed.

Lemma claim_body_unstorable i j now x :
  jobs (w_db x) !! i = Some j → claimable j = true → varchar 64 worker_id = false →
  ∃ t x', claim_body settings worker_id i now x = (Err (DataError t), x').
Proof.
  intros Hi Hc Hv. unfold claim_body, JobRepository.get, JobRepository.claim_for_execution.
  unfold mbind, M_bind, query. rewrite Hi.
  match goal with |- context [update_jobs i ?g ?v x] =>
    destruct (update_jobs_bad i g v x j Hi Hc) as (t & x' & ->) end; [|by exists t, x'].
  match goal with |- job_types_ok ?v = _ =>
    assert (j_locked_by v = Some worker_id) as Hl by reflexivity; revert Hl; generalize v end.
  intros v Hl. unfold job_types_ok. rewrite Hl. cbn [if_set]. rewrite Hv, !andb_false_r. reflexivity.
Qed.

Lemma claim_unstorable i now w j :
  jobs (w_db w) !! i = Some j → claimable j = true → varchar 64 worker_id = false →
  ∃ t w', transaction (claim_body settings worker_id i now) w = (Err (DataError t), w')
    ∧ w_db w' = w_db w.
Proof.
  intros Hi Hc Hv. unfold transaction, mbind, M_bind, clock_now, reading, transaction_at.
  match goal with |- context [claim_body settings worker_id i now ?x] =>
    destruct (claim_body_unstorable i j now x Hi Hc Hv) as (t & x' & ->) end.
  eexists t, _. split; reflexivity.
Qed.

Lemma update_jobs_missed i guard values x j :
  jobs (w_db x) !! i = Some j → guard j = false → update_jobs i guard values x = (Ok false, x).
Proof.
  intros Hi Hg. unfold update_jobs, mbind, M_bind, statement, update_job. rewrite Hi, Hg.
  by destruct x.
Qed.

Lemma claim_body_refused i j now x :
  jobs (w_db x) !! i = Some j → claimable j = false →
  claim_body settings worker_id i now x = (Ok None, x).
Proof.
  intros Hi Hc. unfold claim_body, JobRepository.get, JobRepository.claim_for_execution.
  unfold mbind, M_bind, query. rewrite Hi.
  by rewrite (update_jobs_missed i _ _ x j Hi Hc).
Qed.

Lemma claim_refused i j now w :
  jobs (w_db w) !! i = Some j → claimable j = false →
  ∃ w', transaction (claim_body settings worker_id i now) w = (Ok None, w') ∧ w_db w' = w_db w.
Proof.
  intros Hi Hc. unfold transaction, mbind, M_bind, clock_now, reading, transaction_at.
  rewrite (claim_body_refused i j) by done. eexists. split; reflexivity.
Qed.

(** ** Fencing *)

(** The worker does not hold the lease of the job. *)
Definition lost_lease (i : uuid) (d : Db) : Prop :=
  ∀ j, jobs d !! i = Some j →
    locked_by worker_id j && status_in JobRepository._FINALIZABLE j = false.

(** The attempt row closed as superseded, and nothing else. *)
Definition only_superseded (attempt_id : uuid) (now : datetime) (d d' : Db) : Prop :=
  jobs d' = jobs d ∧ job_events d' = job_events d ∧ dispatch_outbox d' = dispatch_outbox d
  ∧ notification_outbox d' = notification_outbox d
  ∧ job_attempts d' = alter (λ a, a <| a_status := FAILED |> <| a_completed_at := Some now |>
      <| a_error_code := Some "SUPERSEDED" |>
      <| a_error_message := Some "attempt superseded before finalize" |>)
      attempt_id (job_attempts d).

Lemma wp_superseded_only k now d :
  wp (_mark_superseded k now) (λ _, only_superseded k now d) d.
Proof. by apply wp_finish. Qed.

Lemma wp_update_missed i guard values (Q : bool → Db → Prop) d :
  (∀ j, jobs d !! i = Some j → guard j = false) → Q false d → wp (update_jobs i guard values) Q d.
Proof.
  intros Hg HQ. apply wp_update_jobs; [|done]. intros j Hi Hg'. by rewrite (Hg j Hi) in Hg'.
Qed.

Lemma lost_lease_running i d :
  lost_lease i d → ∀ j, jobs d !! i = Some j → locked_by worker_id j && status_is RUNNING j = false.
Proof.
  intros H j Hj. specialize (H j Hj). unfold status_in, status_is in *.
  destruct (locked_by worker_id j); [|done]. simpl in *. bool_simpl.
  apply bool_decide_eq_false_2. intros Hs. apply H. rewrite Hs. apply list_elem_of_here.
Qed.

(** C11: fencing: a worker that lost the lease of a job (another worker claimed
    it, it was requeued, cancelled or finished) changes nothing when it reports
    progress, beats, or finalizes in any way, but for closing its own attempt
    as superseded. *)
Theorem stale_worker_is_fenced (i attempt_id : uuid) (now : datetime) (w : World) :
  lost_lease i (w_db w) →
  (∀ result, commits (succeeded_body worker_id i attempt_id result now) w
     (λ _, only_superseded attempt_id now (w_db w)))
  ∧ (∀ code message dead, commits (failed_body worker_id i attempt_id code message dead now) w
     (λ published d', published = false ∧ only_superseded attempt_id now (w_db w) d'))
  ∧ (∀ code message next, commits (retry_body worker_id i attempt_id code message next now) w
     (λ _, only_superseded attempt_id now (w_db w)))
  ∧ commits (cancelled_body worker_id i attempt_id now) w
     (λ _, only_superseded attempt_id now (w_db w))
  ∧ (∀ progress, commits (report_progress_body settings worker_id i progress) w
     (λ _ d', d' = w_db w))
  ∧ commits (heartbeat_body settings worker_id i) w (λ _ d', d' = w_db w).
Proof.
  intros Hlost. pose proof (lost_lease_running _ _ Hlost) as Hrun.
  repeat split; intros; (apply transaction_commits; [unfold succeeded_body, failed_body,
    retry_body, cancelled_body, report_progress_body, heartbeat_body; raises_solve|]).
  - apply wp_bind, wp_query. destruct (jobs _ !! i); [|apply wp_superseded_only].
    apply wp_bind, wp_update_missed; [done|apply wp_superseded_only].
  - apply wp_bind, wp_query.
    assert (Hs : wp (_ ← _mark_superseded attempt_id now; mret false)
      (λ b d', b = false ∧ only_superseded attempt_id now (w_db w) d') (w_db w)).
    { apply wp_bind. eapply wp_mono; [apply wp_superseded_only|]. intros. by apply wp_ret. }
    destruct (jobs _ !! i); [|done]. by apply wp_bind, wp_update_missed.
  - apply wp_bind, wp_update_missed; [done|apply wp_superseded_only].
  - apply wp_bind, wp_query. destruct (jobs _ !! i); [|apply wp_superseded_only].
    apply wp_bind, wp_update_missed; [done|apply wp_superseded_only].
  - apply wp_bind, wp_reading. intros t. apply wp_bind, wp_update_missed; [done|by apply wp_ret].
  - apply wp_bind, wp_reading. intros t. apply wp_bind, wp_update_missed; [done|by apply wp_ret].
Qed.

(** ** After a failed attempt *)

(** Nothing was committed, and the failure is reported to the caller. *)
Definition nothing_done {A} (d : Db) (r : res A) (d' : Db) : Prop := is_ok r = false ∧ d' = d.

Lemma holds_guard i j d :
  jobs d !! i = Some j → j_locked_by j = Some worker_id → j_status j ∈ [RUNNING; CANCELLING] →
  locked_by worker_id j && status_in JobRepository._FINALIZABLE j = true.
Proof.
  intros _ Hl Hs. unfold locked_by. rewrite Hl, String.eqb_refl. simpl.
  by apply bool_decide_eq_true_2.
Qed.

Definition retry_decision (i : uuid) (n max : Z) (code message : string) (j : Job) (d : Db)
  (r : res unit) (d' : Db) : Prop :=
  nothing_done d r d' ∨
  ∃ j', jobs d' = <[i := j']> (jobs d)
    ∧ j_error_code j' = Some code ∧ j_error_message j' = Some message
    ∧ j_locked_by j' = None ∧ j_attempts j' = j_attempts j
    ∧ if max <=? n
      then j_status j' = FAILED ∧ some (j_dead_lettered_at j') ∧ some (j_completed_at j')
      else j_status j' = RETRYING ∧ some (j_next_attempt_at j').

Lemma wp_update_held i guard values (Q : bool → Db → Prop) d j :
  jobs d !! i = Some j → guard j = true → Q true (set_job i (values j) d) →
  wp (update_jobs i guard values) Q d.
Proof.
  intros Hi Hg HQ. apply wp_update_jobs.
  - intros x Hx _ _ _. by assert (x = j) as -> by congruence.
  - intros Hn. by rewrite (Hn j Hi) in Hg.
Qed.

(** The statements after the UPDATE leave the table of jobs alone. *)
Lemma wp_event_same_jobs i ty from to detail (Q : unit → Db → Prop) d :
  (∀ d', jobs d' = jobs d → Q tt d') → wp (JobEventRepository.record i ty from to detail) Q d.
Proof. intros HQ. apply wp_record. intros e _ _ _ _ _ _. by apply HQ. Qed.

Lemma wp_notify_same_jobs job ev status result c m now (Q : unit → Db → Prop) d :
  (∀ d', jobs d' = jobs d → Q tt d') →
  wp (enqueue_terminal_notification job ev status result c m now) Q d.
Proof.
  intros HQ. unfold enqueue_terminal_notification. destruct (notification_route job).
  apply wp_bind, wp_enqueue; intros; by apply wp_ret, HQ.
Qed.

Lemma failed_body_decides i k code message now (Q : bool → Db → Prop) d j :
  jobs d !! i = Some j → locked_by worker_id j && status_in JobRepository._FINALIZABLE j = true →
  (∀ d' j', jobs d' = <[i := j']> (jobs d) → j_status j' = FAILED →
     j_error_code j' = Some code → j_error_message j' = Some message → j_locked_by j' = None →
     j_attempts j' = j_attempts j → some (j_dead_lettered_at j') → some (j_completed_at j') →
     Q true d') →
  wp (failed_body worker_id i k code message true now) Q d.
Proof.
  intros Hj Hg HQ. apply wp_bind, wp_query. rewrite Hj.
  apply wp_bind, (wp_update_held _ _ _ _ _ j Hj Hg).
  apply wp_bind, wp_finish, wp_bind, wp_event_same_jobs. intros d1 H1.
  apply wp_bind, wp_notify_same_jobs. intros d2 H2. apply wp_ret.
  eapply HQ; [by rewrite H2, H1|..]; try reflexivity; by eexists.
Qed.

Lemma retry_body_decides i k code message next now (Q : unit → Db → Prop) d j :
  jobs d !! i = Some j → locked_by worker_id j && status_is RUNNING j = true →
  (∀ d' j', jobs d' = <[i := j']> (jobs d) → j_status j' = RETRYING →
     j_error_code j' = Some code → j_error_message j' = Some message → j_locked_by j' = None →
     j_attempts j' = j_attempts j → j_next_attempt_at j' = Some next → Q tt d') →
  wp (retry_body worker_id i k code message next now) Q d.
Proof.
  intros Hj Hg HQ. apply wp_bind, (wp_update_held _ _ _ _ _ j Hj Hg).
  apply wp_bind, wp_finish, wp_event_same_jobs. intros d1 H1.
  eapply HQ; [by rewrite H1|..]; reflexivity.
Qed.

(** After an attempt that failed with a retryable error, the worker that
    holds the lease of a running job schedules a retry when attempts are left,
    and otherwise fails the job for good and marks it dead-lettered; either
    way the error is stored and the lease released.  When nothing could be
    committed the row is as it was and the failure is reported. *)
Theorem failed_attempt_outcome (i k : uuid) (n max : Z) (code message : string) (w : World) (j : Job) :
  jobs (w_db w) !! i = Some j → j_status j = RUNNING → j_locked_by j = Some worker_id →
  j_cancellation_requested_at j = None →
  let outcome := run (_handle_retryable settings worker_id i k n max code message) w in
  retry_decision i n max code message j (w_db w) outcome.1 (w_db outcome.2).
Proof.
  intros Hj Hs Hl Hc. cbv zeta. apply (run_alone _ (retry_decision i n max code message j (w_db w))). unfold retry_decision. set (d := w_db w) in *.
  assert (Hheld : locked_by worker_id j = true) by (unfold locked_by; by rewrite Hl, String.eqb_refl).
  assert (Herr : ∀ A e, nothing_done d (Err e : res A) d) by done.
  apply alone_bind, alone_transaction; [|by left].
  apply wp_bind, wp_query, wp_ret. rewrite Hj, Hc. cbn [is_null negb].
  destruct (max <=? n).
  - apply alone_bind, alone_bind, alone_quiet; [apply quiet_reading|]. intros [now|e]; [|by left].
    apply alone_transaction; [|by left].
    apply (failed_body_decides _ _ _ _ _ _ _ j Hj).
    { unfold status_in. by rewrite Hheld, Hs. }
    intros d' j' Hjobs Hst Hec Hem Hlk Hat Hdl Hco.
    apply alone_quiet; [apply quiet_redis|]. intros r. right. exists j'. done.
  - apply alone_bind, alone_quiet; [by apply (retry_delay_quiet settings)|].
    intros [delay|e]; [|by left].
    apply alone_bind, alone_quiet; [apply quiet_reading|]. intros [now|e]; [|by left].
    apply alone_bind, alone_quiet; [apply quiet_reading|]. intros [now'|e]; [|by left].
    apply alone_transaction; [|by left].
    apply (retry_body_decides _ _ _ _ _ _ _ _ j Hj).
    { unfold status_is. by rewrite Hheld, Hs. }
    intros d' j' Hjobs Hst Hec Hem Hlk Hat Hnx. right. exists j'. repeat split; try done. by eexists.
Qed.
End WorkerSpec.

(** At most one worker gets a job: after a successful claim, any claim of the
    same job by any worker returns nothing and changes nothing. *)
Theorem second_claim_gets_nothing `{env : Env} s1 worker1 s2 worker2 i now1 now2 w w' c :
  transaction (claim_body s1 worker1 i now1) w = (Ok (Some c), w') →
  ∃ w'', transaction (claim_body s2 worker2 i now2) w' = (Ok None, w'') ∧ w_db w'' = w_db w'.
Proof.
  intros H. pose proof (claim_commits s1 worker1 i now1 w) as Hc. unfold commits in Hc.
  rewrite H in Hc. destruct Hc as (j & j' & _ & _ & Hjobs & Hs & _).
  apply (claim_refused _ _ _ j').
  - by rewrite Hjobs, lookup_insert_eq.
  - unfold claimable, status_in. by rewrite Hs.
Qed.

Lemma worker_id_length hostname pid random :
  String.length (generate_worker_id hostname pid random)
  = (String.length hostname + String.length (str_of_int pid) + 10)%nat.
Proof.
  unfold generate_worker_id. rewrite !str_length_app, hex_digits_length. simpl. lia.
Qed.

(** The identity of a worker fits its column as long as the host name has at
    most 54 characters less the digits of the process id; with a longer one
    every claim of the process raises and writes nothing, so that it never
    executes a job, however long it runs. *)
Theorem long_hostname_stops_the_worker `{env : Env} settings hostname pid random :
  (String.length hostname + String.length (str_of_int pid) <= 54 ↔
   String.length (generate_worker_id hostname pid random) <= 64)%nat
  ∧ ((54 < String.length hostname + String.length (str_of_int pid))%nat →
     ∀ i now w j, jobs (w_db w) !! i = Some j → claimable j = true →
     ∃ t w', transaction (claim_body settings (generate_worker_id hostname pid random) i now) w
               = (Err (DataError t), w') ∧ w_db w' = w_db w).
Proof.
  split; [rewrite worker_id_length; lia|]. intros Hlen i now w j Hi Hc.
  apply (claim_unstorable _ _ _ _ _ j Hi Hc). unfold varchar.
  rewrite (proj2 (Nat.leb_gt _ _)); [done|]. rewrite worker_id_length. lia.
Qed.

(** The worker understands every id the services publish: the text of a UUID
    in the queue starts the execution of that very job. *)
Theorem published_ids_are_understood `{env : Env} settings worker_id (i : uuid) :
  (i < uuid_bound)%N →
  _process (new_worker settings worker_id) (uuid_str i)
  = (_ ← try_co (execute settings worker_id i); Ret tt).
Proof. intros H. unfold _process. by rewrite uuid_of_str_str. Qed.

(** ** At concrete states *)

Lemma stale_worker_is_fenced_witness :
  j_locked_by (row_at w_running) = Some "worker-1"
  ∧ ∀ result, commits (succeeded_body "worker-2" first_job 5%N result 0) w_running
      (λ _, only_superseded 5%N 0 (w_db w_running)).
Proof.
  split; [by vm_compute|].
  destruct (stale_worker_is_fenced default_settings "worker-2" first_job 5%N 0 w_running)
    as [H _]; [|exact H].
  intros j Hj. assert (jobs (w_db w_running) !! first_job = Some (row_at w_running)) as Hj'
    by (by vm_compute).
  rewrite Hj in Hj'. apply Some_inj in Hj'. rewrite Hj'. by vm_compute.
Defined.

Definition claimed_attempt (r : res (option Claim)) : option Z :=
  match r with Ok (Some c) => Some (c_attempt_number c) | _ => None end.

Lemma claimed_attempt_some (o : res (option Claim) * World) n :
  claimed_attempt o.1 = Some n → ∃ c w', o = (Ok (Some c), w').
Proof. destruct o as [[[c|]|e] w']; try discriminate. eauto. Qed.

Lemma second_claim_gets_nothing_witness :
  ∃ c w' w'', transaction (claim_body default_settings "worker-1" first_job 0) w_queued = (Ok (Some c), w')
    ∧ transaction (claim_body default_settings "worker-2" first_job 1) w' = (Ok None, w'').
Proof.
  assert (claimed_attempt (transaction (claim_body default_settings "worker-1" first_job 0) w_queued).1
          = Some 1) as Hc by (by vm_compute).
  destruct (claimed_attempt_some _ _ Hc) as (c & w' & E).
  destruct (second_claim_gets_nothing default_settings "worker-1" default_settings "worker-2"
              first_job 0 1 w_queued w' c E) as (w'' & Hw'' & _).
  exists c, w', w''. split; [exact E|exact Hw''].
Defined.

Lemma failed_attempt_outcome_witness :
  retry_decision first_job 1 5 "TRANSIENT_FAILURE" "flaky" (row_at w_running) (w_db w_running)
    (run (_handle_retryable default_settings "worker-1" first_job 5%N 1 5 "TRANSIENT_FAILURE" "flaky")
       w_running).1
    (w_db (run (_handle_retryable default_settings "worker-1" first_job 5%N 1 5
                  "TRANSIENT_FAILURE" "flaky") w_running).2).
Proof.
  apply (failed_attempt_outcome default_settings "worker-1" first_job 5%N 1 5
           "TRANSIENT_FAILURE" "flaky" w_running (row_at w_running)); by vm_compute.
Defined.

Lemma published_ids_are_understood_witness :
  _process (new_worker default_settings "worker-1") (uuid_str 3%N)
  = (_ ← try_co (execute default_settings "worker-1" 3%N); Ret tt).
Proof. apply (published_ids_are_understood default_settings "worker-1" 3%N). reflexivity. Defined.
