(* ===== verification/ServiceSpec.v ===== *)
(** What the API's services do, on every branch: submission and cancellation. *)

From S2P Require Import Prelude PyStr PyFloat Json Domain Config Uuid Models Effects.
From S2P Require Import Repositories Queue Notifications Catalog Logic Lifecycle Invariant.
From S2P Require Import Submission Cancellation Execution Scheduling Worker Steps Transactions.
From S2P Require Import Programs System Demo WorkerSpec.
Import JobStatus.

(** ** Cancellation *)

Section CancellationSpec.
Context {env : Env}.

(** The specification: the answer and the effect, by the status of the row. *)
Definition cancel_spec (i : uuid) (user : string) (reason : option string) (now : datetime)
  (d : Db) (o : CancelOutcome) (d' : Db) : Prop :=
  match JobRepository.owned_by user (jobs d !! i) with
  | None => o = mkCancelOutcome false None false ∧ d' = d
  | Some j =>
      match j_status j with
      | SUCCEEDED | FAILED | CANCELLED | EXPIRED =>
          o = mkCancelOutcome true (Some (j_status j)) true ∧ d' = d
      | CANCELLING => o = mkCancelOutcome true (Some CANCELLING) false ∧ d' = d
      | RUNNING =>
          o = mkCancelOutcome true (Some CANCELLING) false
          ∧ (∃ j', jobs d' = <[i := j']> (jobs d) ∧ j_status j' = CANCELLING
               ∧ j_cancellation_requested_at j' = Some now ∧ j_cancel_reason j' = reason
               ∧ j_locked_by j' = j_locked_by j ∧ j_lock_expires_at j' = j_lock_expires_at j)
          ∧ notification_outbox d' = notification_outbox d
      | PENDING | QUEUED | RETRYING =>
          o = mkCancelOutcome true (Some CANCELLED) false
          ∧ (∃ j', jobs d' = <[i := j']> (jobs d) ∧ j_status j' = CANCELLED
               ∧ j_cancellation_requested_at j' = Some now ∧ j_cancel_reason j' = reason
               ∧ j_completed_at j' = Some now ∧ j_next_attempt_at j' = None)
          ∧ ∃ k n, notification_outbox d' !! k = Some n
              ∧ n_dedupe_key n = dedupe_key (j_id j) JobEventType.CANCELLED
      end
  end.

Lemma cancel_raises i user reason now : raises_only is_db_error (cancel_locked i user reason now).
Proof. unfold cancel_locked. raises_solve. Qed.

Lemma wp_notify_present job ev status result c m now (Q : unit → Db → Prop) d :
  (∀ d' k n, jobs d' = jobs d → notification_outbox d' !! k = Some n →
     n_dedupe_key n = dedupe_key (j_id job) ev → Q tt d') →
  wp (enqueue_terminal_notification job ev status result c m now) Q d.
Proof.
  intros HQ. unfold enqueue_terminal_notification. destruct (notification_route job) as [channel destination].
  apply wp_bind, wp_enqueue.
  - intros n Hfresh _ Hn. apply wp_ret. apply (HQ _ (n_id n) n); [done| |by rewrite Hn].
    cbn. apply lookup_insert_eq.
  - intros k n Hk Hkey. apply wp_ret. by apply (HQ d k n).
Qed.

Lemma wp_cancel_locked i user reason now d :
  wp (cancel_locked i user reason now) (cancel_spec i user reason now d) d.
Proof.
  apply wp_bind, wp_query. unfold cancel_spec.
  destruct (JobRepository.owned_by user (jobs d !! i)) as [j|] eqn:Hown; [|by apply wp_ret].
  assert (jobs d !! i = Some j) as Hi.
  { unfold JobRepository.owned_by in Hown. destruct (jobs d !! i); [|done].
    by destruct (String.eqb _ _). }
  cbv zeta. destruct (j_status j) eqn:Hs; cbn; try (by apply wp_ret).
  3: { apply wp_bind, (wp_update_held _ _ _ _ _ j Hi); [unfold status_is; by rewrite Hs|].
       apply wp_bind, wp_record. intros e _ _ _ _ _ _. apply wp_ret.
       split; [done|]. split; [|done]. by eexists. }
  all: apply wp_bind, (wp_update_held _ _ _ _ _ j Hi); [unfold status_in; by rewrite Hs|];
    apply wp_bind, wp_event_same_jobs; intros d1 H1;
    apply wp_bind, wp_notify_present; intros d2 k n H2 Hk Hkey; apply wp_ret;
    (split; [done|]); (split; [rewrite H2, H1; by eexists|]); by exists k, n.
Qed.

(** Cancellation answers and acts by the status of the owner's row: a
    missing or foreign job is not found, a terminal one is a conflict, a
    cancelling one is left as it is, a running one is asked to stop and keeps
    its lease, and an inactive one is cancelled at once and its owner
    notified. *)
Theorem cancel_outcomes (i : uuid) (user : string) (reason : option string) (now : datetime)
  (w : World) :
  commits (cancel_locked i user reason now) w (cancel_spec i user reason now (w_db w)).
Proof. apply transaction_commits; [apply cancel_raises|apply wp_cancel_locked]. Qed.
End CancellationSpec.

(** ** Submission *)

Section SubmissionSpec.
Context {env : Env} (settings : Settings).
Context (user : string) (ty : JobType) (payload : dict) (priority : JobPriority).
Context (attempts : option Z) (key : option string).

Abbreviation the_submission := (submit settings user ty payload priority attempts key).
Abbreviation limit := (max_in_flight_jobs_per_user settings).

(** [attempts if given, else the default] *)
Definition attempts_limit : Z := default (job_default_max_attempts settings) attempts.

(** The query of [get_by_idempotency_key]. *)
Definition job_with_key (k : string) (d : Db) : option Job :=
  snd <$> List.find (λ p, JobRepository.has_key user k p.2) (map_to_list (jobs d)).

Lemma job_with_key_spec strict k d i j :
  Inv strict d → jobs d !! i = Some j → j_user_id j = user → j_idempotency_key j = Some k →
  job_with_key k d = Some j.
Proof.
  intros HI Hi Hu Hk. unfold job_with_key.
  assert (Hin : (i, j) ∈ map_to_list (jobs d)) by by apply elem_of_map_to_list.
  destruct (List.find _ _) as [[i' j']|] eqn:E; simpl.
  - apply List.find_some in E as [Hin' Hkey']. apply list_elem_of_In, elem_of_map_to_list in Hin'.
    unfold JobRepository.has_key in Hkey'. simpl in Hkey'. apply andb_prop in Hkey' as [Hu' Hk'].
    apply String.eqb_eq in Hu'. destruct (j_idempotency_key j') as [k'|] eqn:Ek; [|done].
    apply String.eqb_eq in Hk'. assert (i' = i) as ->; [|congruence].
    apply (inv_idempotency _ _ HI i' i j' j Hin' Hi).
    unfold same_idempotency_key. rewrite Ek, Hk, Hu, Hu', Hk', !String.eqb_refl. done.
  - exfalso. apply list_elem_of_In in Hin. pose proof (List.find_none _ _ E _ Hin) as Hn.
    unfold JobRepository.has_key in Hn. simpl in Hn. by rewrite Hu, Hk, !String.eqb_refl in Hn.
Qed.

Lemma find_existing_alone k (Q : res (option Job) → Db → Prop) d :
  Q (Ok (job_with_key k d)) d → cwp_alone (_find_existing user k) Q d.
Proof.
  intros HQ d' _ <- w Hw. split; [done|]. split; [done|].
  unfold transaction, mbind, M_bind, clock_now, reading, transaction_at,
    JobRepository.get_by_idempotency_key, query. subst d. exact HQ.
Qed.

Lemma find_by_key_alone (Q : res (option Job) → Db → Prop) d :
  Q (Ok (key ≫= λ k, job_with_key k d)) d → cwp_alone (find_by_key user key) Q d.
Proof. unfold find_by_key. destruct key; [apply find_existing_alone|done]. Qed.

(** Rows of a user that are not terminal. *)
Definition active_jobs (d : Db) : Z := Z.of_nat (length (filter
  (λ p : uuid * Job, String.eqb (j_user_id p.2) user
     && negb (status_in JobRepository._TERMINAL p.2) = true) (map_to_list (jobs d)))).

(** A key that names no job, or no key. *)
Definition key_is_new (d : Db) : Prop := (key ≫= λ k, job_with_key k d) = None.

Lemma create_alone normalized (Q : res Job → Db → Prop) d :
  (if limit <=? active_jobs d then Q (Err (TooManyActiveJobsError limit)) d
   else (∀ e, is_db_error e → Q (Err e) d) ∧
        ∀ now, wp (create_rows user ty normalized priority attempts_limit key now)
                 (λ job, Q (Ok job)) d) →
  cwp_alone (_create settings user ty normalized priority attempts_limit key) Q d.
Proof.
  intros H. unfold _create.
  apply alone_bind, alone_reading. intros n. apply alone_bind, alone_reading. intros m.
  apply alone_bind, alone_query. fold (active_jobs d). destruct (limit <=? active_jobs d); [exact H|].
  destruct H as [He Hok]. apply alone_transaction_at; [|apply Hok|exact He].
  unfold create_rows. raises_solve.
Qed.

(** A job with its event and its outbox row, or an error and nothing. *)
Definition creation_spec (normalized : dict) (d : Db) (r : res Job) (d' : Db) : Prop :=
  match r with
  | Ok job =>
      (∃ now, job = new_job (j_id job) user ty normalized priority attempts_limit key now)
      ∧ jobs d !! j_id job = None
      ∧ jobs d' = <[j_id job := job]> (jobs d)
      ∧ (∃ k e, job_events d' !! k = Some e ∧ e_job_id e = j_id job
           ∧ e_event_type e = JobEventType.SUBMITTED ∧ e_to_status e = Some PENDING)
      ∧ (∃ k o, dispatch_outbox d' !! k = Some o ∧ d_job_id o = j_id job
           ∧ d_status o = OutboxStatus.PENDING)
  | Err e => is_db_error e ∧ d' = d
  end.

(** A submission run alone, on every branch. *)
Lemma submit_alone (Q : res Job → Db → Prop) d :
  match normalized_payload settings ty payload with
  | Err e => Q (Err e) d
  | Ok normalized =>
      match key ≫= λ k, job_with_key k d with
      | Some j => Q (Ok j) d
      | None => if limit <=? active_jobs d then Q (Err (TooManyActiveJobsError limit)) d
                else ∀ r d', creation_spec normalized d r d' → Q r d'
      end
  end → cwp_alone the_submission Q d.
Proof.
  intros H. unfold submit. destruct (normalized_payload settings ty payload) as [normalized|e]; [|done].
  apply (alone_bind (Ret normalized)), alone_bind, find_by_key_alone.
  destruct (key ≫= λ k, job_with_key k d) as [j|] eqn:Hkey; [done|].
  apply alone_bind, cwp_try, create_alone. destruct (limit <=? active_jobs d); [done|]. split.
  - intros e He. assert (Q (Err e) d) as HQ by (by apply H). destruct e; try done.
    apply alone_bind, find_by_key_alone. by rewrite Hkey.
  - intros now. unfold create_rows.
    apply wp_bind, wp_generate_uuid7. intros i _.
    set (job := new_job i user ty normalized priority attempts_limit key now).
    apply wp_bind, wp_statement_. intros d1 E. unfold insert_job in E.
    destruct (negb _); [done|]. destruct (job_checks_ok job); [|done]. unfold is_free in E.
    destruct (jobs d !! j_id job) eqn:Hfree; [done|]. simpl in E.
    destruct (idempotency_key_free _ _); [|done]. injection E as <-.
    apply wp_bind, wp_record. intros e _ He _ Hty _ Hto.
    apply wp_bind, wp_bind, wp_generate_uuid7. intros k _. apply wp_bind, wp_txn_now. intros t.
    apply wp_statement_. intros d2 E. unfold insert_dispatch in E.
    destruct (negb _); [done|]. destruct (_ && _); [|done]. injection E as <-. apply wp_ret, H.
    cbn. split; [by exists now|]. split; [done|]. split; [done|]. split.
    + exists (e_id e), e. by rewrite lookup_insert_eq.
    + eexists k, _. by rewrite lookup_insert_eq.
Qed.

(** An admitted submission creates one pending job with the normalised
    payload, its SUBMITTED event and its row of the dispatch outbox, all or
    nothing: when the database refuses one of them nothing is written. *)
Theorem submission_creates (normalized : dict) (w : World) :
  normalized_payload settings ty payload = Ok normalized → key_is_new (w_db w) →
  active_jobs (w_db w) < limit →
  creation_spec normalized (w_db w) (run the_submission w).1 (w_db (run the_submission w).2).
Proof.
  intros Hnorm Hnew Hlim. apply (run_alone _ (creation_spec normalized (w_db w))), submit_alone.
  rewrite Hnorm, Hnew. by rewrite (proj2 (Z.leb_gt _ _) Hlim).
Qed.

(** Idempotent replay: when a job of the user already has the key, a
    submission returns that very job and writes nothing. *)
Theorem submission_replays (strict : bool) (k : string) (i : uuid) (j : Job) (normalized : dict)
  (w : World) :
  Inv strict (w_db w) → key = Some k → jobs (w_db w) !! i = Some j → j_user_id j = user →
  j_idempotency_key j = Some k → normalized_payload settings ty payload = Ok normalized →
  (run the_submission w).1 = Ok j ∧ w_db (run the_submission w).2 = w_db w.
Proof.
  intros HI Hkey Hi Hu Hk Hnorm. apply (run_alone _ (λ r d', r = Ok j ∧ d' = w_db w)), submit_alone.
  rewrite Hnorm, Hkey. simpl. by rewrite (job_with_key_spec strict k _ i j).
Qed.

(** Admission: a user at the limit of jobs in flight is refused, and
    nothing is written. *)
Theorem submission_at_the_limit_is_refused (normalized : dict) (w : World) :
  normalized_payload settings ty payload = Ok normalized → key_is_new (w_db w) →
  limit <= active_jobs (w_db w) →
  (run the_submission w).1 = Err (TooManyActiveJobsError limit)
  ∧ w_db (run the_submission w).2 = w_db w.
Proof.
  intros Hnorm Hnew Hlim.
  apply (run_alone _ (λ r d', r = Err (TooManyActiveJobsError limit) ∧ d' = w_db w)), submit_alone.
  by rewrite Hnorm, Hnew, (proj2 (Z.leb_le _ _) Hlim).
Qed.

(** *** Under interference *)

(** The row is the one that was asked for. *)
Definition as_asked (job : Job) : Prop :=
  j_type job = ty ∧ normalized_payload settings ty payload = Ok (j_payload job)
  ∧ j_priority job = priority ∧ j_max_attempts job = attempts_limit ∧ j_idempotency_key job = key.

(** The others, from [d] on, had stored the job under the key: no submission of
    ours did. *)
Definition found_before (others : Db → Db → Prop) (d : Db) (i : uuid) : Prop :=
  ∃ k d1 j1, key = Some k ∧ others d d1 ∧ jobs d1 !! i = Some j1
    ∧ j_user_id j1 = user ∧ j_idempotency_key j1 = Some k.

(** The row that an answer of [submit], begun at [d0], stands for. *)
Definition stored (others : Db → Db → Prop) (d0 : Db) (job : Job) (d : Db) : Prop :=
  (∃ row, jobs d !! j_id job = Some row ∧ identity_of row = identity_of job)
  ∧ j_user_id job = user
  ∧ (as_asked job ∨ found_before others d0 (j_id job)).

Section Others.
Context (strict : bool) (others : Db → Db → Prop) `{!PreOrder others}.

Lemma stored_earlier d0 d1 job d : others d0 d1 → stored others d1 job d → stored others d0 job d.
Proof.
  intros H (Hrow & Hu & [Hask|(k & d2 & j2 & Hk & H2 & Hj)]); (split; [done|]); (split; [done|]); [by left|].
  right. exists k, d2, j2. split; [done|]. split; [by transitivity d1|done].
Qed.

Lemma find_by_key_stored d :
  cwp (Inv strict) others (moves strict None) (find_by_key user key)
    (λ r d', others d d' ∧ ∀ job, r = Ok (Some job) → stored others d job d') d.
Proof.
  unfold find_by_key. destruct key as [k|] eqn:Hkey; [|by split].
  apply cwp_transaction; [apply _| |by split]. intros d' HI HR. apply wp_query.
  split; [done|]. split; [done|]. split; [done|]. intros job [= H].
  fold (job_with_key k d') in H. unfold job_with_key in H.
  destruct (List.find _ _) as [[i x]|] eqn:E; [|done]. injection H as ->.
  apply List.find_some in E as [Hin Hk]. apply list_elem_of_In, elem_of_map_to_list in Hin.
  unfold JobRepository.has_key in Hk. simpl in Hk. apply andb_prop in Hk as [Hu Hk].
  apply String.eqb_eq in Hu. destruct (j_idempotency_key job) as [k'|] eqn:Ek; [|done].
  apply String.eqb_eq in Hk as ->. destruct (inv_jobs _ _ HI i job Hin) as (Hok & _).
  rewrite <-(ok_id _ _ Hok) in Hin. split; [by exists job|]. split; [done|]. right.
  by exists k, d', job.
Qed.

(** Whatever the others do meanwhile, racing submissions with the same key included,
    a submission that answers a job answers one that is stored, of this user: the
    one it created as it was asked for, or one that the others had stored under
    its key. *)
Lemma submission_stores (d : Db) :
  cwp (Inv strict) others (moves strict None) the_submission
    (λ r d', ∀ job, r = Ok job → stored others d job d') d.
Proof.
  unfold submit. destruct (normalized_payload settings ty payload) as [normalized|e] eqn:Hnorm; [|done].
  apply (cwp_bind _ _ _ (Ret normalized)), cwp_bind.
  eapply cwp_mono; [apply find_by_key_stored|]. intros [[job|]|e] d1 [H1 Hfound]; try done.
  { intros job' [= <-]. by apply Hfound. }
  apply cwp_bind, cwp_try. unfold _create.
  apply cwp_bind, cwp_reading; [apply _|]. intros n d2 _ H2.
  apply cwp_bind, cwp_reading; [apply _|]. intros m d3 _ H3.
  apply cwp_bind, cwp_query; [apply _|]. intros d4 _ H4.
  destruct (limit <=? _); [done|].
  apply cwp_act. intros d5 HI H5.
  assert (others d d5) as HR by (transitivity d1; [done|]; transitivity d2; [done|]; transitivity d3; [done|];
    by transitivity d4).
  apply wpe_transaction_at.
  - eapply wp_mono; [by apply submit_moves|]. intros job d6 (Hm & _ & Hjobs & i & ->).
    split; [by apply (moves_keep_Inv strict None d5)|]. split; [done|]. intros job' [= <-].
    split; [eexists; by rewrite Hjobs, lookup_insert_eq|]. split; [done|]. by left.
  - intros e. split; [done|]. split; [done|]. destruct e; try done.
    apply cwp_bind. eapply cwp_mono; [apply find_by_key_stored|].
    intros [[job|]|e] d6 [_ Hf]; try done. intros job' [= <-].
    apply (stored_earlier d d5); [done|]. by apply Hf.
Qed.
End Others.
End SubmissionSpec.

(** ** At concrete states *)

Lemma submission_replays_witness :
  (run (submit default_settings "alice" JobType.FLAKY [] JobPriority.HIGH None (Some "key-1"))
     w_succeeded).1 = Ok (row_at w_succeeded).
Proof.
  destruct (submission_replays default_settings "alice" JobType.FLAKY [] JobPriority.HIGH None
              (Some "key-1") true "key-1" first_job (row_at w_succeeded) [("fail_times", JInt 1)]
              w_succeeded) as [H _].
  - exact (reachable_Inv true s_succeeded (at_succeeded true)).
  - reflexivity.
  - by vm_compute.
  - by vm_compute.
  - by vm_compute.
  - by vm_compute.
  - exact H.
Defined.

Definition one_job : Settings := default_settings <| max_in_flight_jobs_per_user := 1 |>.

Lemma submission_at_the_limit_is_refused_witness :
  (run (submit one_job "alice" JobType.FLAKY [] JobPriority.HIGH None None) w_submitted).1
  = Err (TooManyActiveJobsError 1).
Proof.
  destruct (submission_at_the_limit_is_refused one_job "alice" JobType.FLAKY [] JobPriority.HIGH
              None None [("fail_times", JInt 1)] w_submitted) as [H _].
  - by vm_compute.
  - reflexivity.
  - by vm_compute.
  - exact H.
Defined.

Lemma submission_creates_witness :
  creation_spec default_settings "alice" JobType.FLAKY JobPriority.HIGH None None
    [("fail_times", JInt 1)] (w_db w_submitted)
    (run (submit default_settings "alice" JobType.FLAKY [] JobPriority.HIGH None None) w_submitted).1
    (w_db (run (submit default_settings "alice" JobType.FLAKY [] JobPriority.HIGH None None)
             w_submitted).2).
Proof.
  apply (submission_creates default_settings "alice" JobType.FLAKY [] JobPriority.HIGH
           None None [("fail_times", JInt 1)] w_submitted).
  - by vm_compute.
  - reflexivity.
  - by vm_compute.
Defined.
