(* ===== verification/ReadSpec.v ===== *)
(** What the read service promises: pages that enumerate a listing, the counts of
    a summary, the events of a job. *)

From S2P Require Import Prelude PyStr PyFloat Json Domain Config Uuid DateTime Encoding Pagination.
From S2P Require Import Models Effects Repositories Queue Notifications Catalog Logic Lifecycle.
From S2P Require Import Invariant Submission Cancellation Execution Scheduling Worker Read Api.
From S2P Require Import Steps Transactions Programs System Demo.
Import JobStatus.

(** ** Cursors *)

(** C34: the cursor of a page is read back as the position it was made from, for
    every timestamp of the range of [datetime] and every job id. *)
Theorem cursor_roundtrip (other : string → option Z) (p : CursorPosition) :
  valid_datetime (cp_created_at p) = true → (cp_job_id p < uuid_bound)%N →
  decode_cursor other (encode_cursor p) = Ok p.
Proof. apply decode_encode_cursor. Qed.

(** ** The order of a listing *)

Lemma row_before_irrefl a : row_before a a = false.
Proof. unfold row_before. rewrite Z.ltb_irrefl, N.ltb_irrefl. by rewrite andb_false_r. Qed.

Lemma row_before_spec a b : row_before a b = true ↔ a.1 < b.1 ∨ a.1 = b.1 ∧ (a.2 < b.2)%N.
Proof. unfold row_before. rewrite orb_true_iff, andb_true_iff, Z.ltb_lt, Z.eqb_eq, N.ltb_lt. done. Qed.

Lemma row_before_total a b : row_before a b = false → row_before b a = false → a = b.
Proof.
  rewrite <-!not_true_iff_false, !row_before_spec. destruct a as [t i], b as [u k]. simpl.
  intros H1 H2. assert (t = u ∧ i = k) as [-> ->] by lia. done.
Qed.

Section Latest.
Context {A : Type} (key : A → Z * uuid).

#[local] Instance latest_total : Total (latest_first key).
Proof.
  intros a b. unfold latest_first. destruct (row_before (key a) (key b)) eqn:E; [right|by left].
  apply not_true_iff_false. rewrite row_before_spec in *. lia.
Qed.

#[local] Instance latest_transitive : Transitive (latest_first key).
Proof.
  intros a b c. unfold latest_first. rewrite <-!not_true_iff_false, !row_before_spec. lia.
Qed.

(** All the rows of a table that match, latest first. *)
Definition latest_listing (guard : A → bool) (t : gmap uuid A) : list A :=
  merge_sort (latest_first key) (filter (λ p : uuid * A, guard p.2 = true) (map_to_list t)).*2.

Lemma select_latest_take guard limit t :
  select_latest guard key limit t = take (Z.to_nat limit) (latest_listing guard t).
Proof. reflexivity. Qed.

Lemma latest_listing_sorted guard t : StronglySorted (latest_first key) (latest_listing guard t).
Proof. apply StronglySorted_merge_sort; apply _. Qed.

Lemma elem_of_listing guard t a :
  a ∈ latest_listing guard t ↔ guard a = true ∧ ∃ i, t !! i = Some a.
Proof.
  unfold latest_listing. rewrite merge_sort_Permutation, list_elem_of_fmap. split.
  - intros ([i x] & -> & [Hg Hi]%list_elem_of_filter). apply elem_of_map_to_list in Hi. eauto.
  - intros (Hg & i & Hi). exists (i, a). split; [done|]. apply list_elem_of_filter.
    by rewrite elem_of_map_to_list.
Qed.

(** The rows are found under their own key. *)
Definition keyed (t : gmap uuid A) : Prop := ∀ i a, t !! i = Some a → (key a).2 = i.

Lemma keyed_inj t i k a b :
  keyed t → t !! i = Some a → t !! k = Some b → key a = key b → a = b.
Proof.
  intros Hk Ha Hb E. assert (i = k) as -> by (by rewrite <-(Hk _ _ Ha), <-(Hk _ _ Hb), E).
  congruence.
Qed.

Lemma matching_NoDup (guard : A → bool) t :
  keyed t → NoDup (filter (λ p : uuid * A, guard p.2 = true) (map_to_list t)).*2.
Proof.
  intros Hk. apply NoDup_fmap_2_strong.
  - intros [i a] [k b] [_ Ha]%list_elem_of_filter [_ Hb]%list_elem_of_filter E. simpl in E. subst b.
    apply elem_of_map_to_list in Ha, Hb. by rewrite <-(Hk _ _ Ha), <-(Hk _ _ Hb).
  - apply NoDup_filter, NoDup_map_to_list.
Qed.

Lemma listing_NoDup guard t : keyed t → NoDup (latest_listing guard t).
Proof. intros Hk. unfold latest_listing. rewrite merge_sort_Permutation. by apply matching_NoDup. Qed.

(** The rows before the last row of a page are the rest of the listing. *)
Lemma listing_after guard t l1 x l2 :
  keyed t → latest_listing guard t = l1 ++ x :: l2 →
  latest_listing (λ a, guard a && row_before (key a) (key x)) t = l2.
Proof.
  intros Hk E. pose proof (latest_listing_sorted guard t) as Hs.
  pose proof (listing_NoDup guard t Hk) as Hnd. rewrite E in Hs, Hnd.
  assert (in_right : ∀ (a : A) l1 l2, a ∈ l2 → a ∈ l1 ++ l2)
    by (intros; apply elem_of_app; by right).
  assert (Hrow : ∀ a, a ∈ l1 ++ x :: l2 → guard a = true ∧ ∃ i, t !! i = Some a)
    by (intros a Ha; apply elem_of_listing; by rewrite E).
  apply (StronglySorted_unique_strong (latest_first key)).
  - intros a b Ha Hb Hab Hba. apply elem_of_listing in Ha as (_ & i & Ha).
    destruct (Hrow b (in_right _ _ _ (list_elem_of_further _ _ _ Hb))) as (_ & k & Hb').
    apply (keyed_inj t i k); [done..|]. by apply row_before_total.
  - apply latest_listing_sorted.
  - apply StronglySorted_app in Hs as (_ & _ & Hs). by apply StronglySorted_cons in Hs as [_ Hs].
  - apply NoDup_Permutation.
    + by apply listing_NoDup.
    + apply NoDup_app in Hnd as (_ & _ & Hnd). by apply NoDup_cons in Hnd as [_ Hnd].
    + intros a. rewrite elem_of_listing. split.
      * intros ([Hg Hb]%andb_prop & i & Hi).
        assert (a ∈ l1 ++ x :: l2) as Hin by (rewrite <-E; apply elem_of_listing; eauto).
        rewrite elem_of_app, elem_of_cons in Hin. destruct Hin as [Hin|[->|Hin]]; [|..|done].
        -- exfalso. pose proof (StronglySorted_app_1_elem_of _ _ _ _ _ Hs Hin (list_elem_of_here _ _)) as Hl.
           unfold latest_first in Hl. congruence.
        -- by rewrite row_before_irrefl in Hb.
      * intros Hin. destruct (Hrow a (in_right _ _ _ (list_elem_of_further _ _ _ Hin))) as (Hg & i & Hi). split; [|by exists i].
        rewrite Hg. simpl. destruct (row_before (key a) (key x)) eqn:Hb; [done|]. exfalso.
        apply StronglySorted_app in Hs as (_ & _ & Hs). apply StronglySorted_cons in Hs as [Hx _].
        rewrite Forall_forall in Hx. pose proof (Hx a Hin) as Hl. unfold latest_first in Hl.
        destruct (Hrow x (in_right _ _ _ (list_elem_of_here _ _))) as (_ & k & Hxk).
        assert (x = a) as <- by (apply (keyed_inj t k i); [done..|]; by apply row_before_total).
        apply NoDup_app in Hnd as (_ & _ & Hnd). by apply NoDup_cons in Hnd as [Hnx _].
Qed.

Lemma latest_listing_ext g g' t : (∀ a, g a = g' a) → latest_listing g t = latest_listing g' t.
Proof.
  intros H. unfold latest_listing. do 2 f_equal. apply list_filter_iff. intros [i a]. simpl.
  by rewrite H.
Qed.
End Latest.

(** ** Pages *)

Section Pages.
Context {env : Env}.
Context (user : string) (status : option JobStatus) (ty : option JobType) (limit : Z).

(** The jobs of the user that pass the filters, latest first. *)
Definition listing (d : Db) : list Job :=
  latest_listing JobRepository.created_key (JobRepository.listed user status ty None) (jobs d).

(** A client that follows [next_cursor], with at most [n] requests. *)
Fixpoint pages (n : nat) (cursor : option string) (w : World) : list (PaginatedResponse JobSummary) :=
  match n with
  | O => []
  | S n' =>
      match run (JobReadService.list_jobs user status ty cursor limit) w with
      | (Ok page, w') =>
          page :: match next_cursor page with
                  | Some c => pages n' (Some c) w'
                  | None => []
                  end
      | (Err _, _) => []
      end
  end.

(** The pages hold the rows in order, each once: full pages that lead to the
    next, and a last one that leads nowhere. *)
Definition enumerates (rows : list Job) (ps : list (PaginatedResponse JobSummary)) : Prop :=
  concat (map items ps) = map summary_of rows
  ∧ (∀ p, p ∈ ps → Z.of_nat (length (items p)) <= limit
       ∧ (has_more p = true ↔ some (next_cursor p))
       ∧ (has_more p = true → Z.of_nat (length (items p)) = limit))
  ∧ ∃ p, last ps = Some p ∧ has_more p = false.

(** The rows that remain to be listed after a cursor. *)
Definition remaining (d : Db) (cursor : option string) (rows : list Job) : Prop :=
  ∃ pre, listing d = pre ++ rows
    ∧ match last pre with
      | None => cursor = None
      | Some x => cursor = Some (encode_cursor (mkCursorPosition (j_created_at x) (j_id x)))
      end.

(** The timestamps come from a clock. *)
Definition dated (d : Db) : Prop :=
  ∀ i j, jobs d !! i = Some j → valid_datetime (j_created_at j) = true.

Lemma remaining_rows strict d cursor rows :
  Inv strict d → dated d → remaining d cursor rows →
  ∃ position, JobReadService.position_of cursor = Ok position
    ∧ JobRepository.cursor_binds position = true
    ∧ latest_listing JobRepository.created_key (JobRepository.listed user status ty position) (jobs d)
      = rows.
Proof.
  intros HI Hd (pre & Hl & Hc).
  assert (Hkeyed : keyed JobRepository.created_key (jobs d)).
  { intros i j Hj. simpl. by destruct (inv_jobs _ _ HI i j Hj) as [[Hid _] _]. }
  destruct (last pre) as [x|] eqn:Elast.
  - subst cursor. apply last_Some in Elast as [l1 ->]. rewrite <-app_assoc in Hl. simpl in Hl.
    assert (x ∈ listing d) as Hx by (rewrite Hl; set_solver).
    apply elem_of_listing in Hx as (_ & i & Hx).
    exists (Some (mkCursorPosition (j_created_at x) (j_id x))). split.
    + unfold JobReadService.position_of.
      assert (decode_cursor other_isoformat
        (encode_cursor (mkCursorPosition (j_created_at x) (j_id x)))
        = Ok (mkCursorPosition (j_created_at x) (j_id x))) as Hdec.
      { destruct (inv_jobs _ _ HI i x Hx) as (Hok & Hi & _).
        apply decode_encode_cursor; simpl; [by apply (Hd i)|].
        pose proof (Hkeyed i x Hx) as E. simpl in E. by rewrite E. }
      rewrite Hdec. destruct (String.eqb_spec (encode_cursor
        (mkCursorPosition (j_created_at x) (j_id x))) EmptyString) as [E|_]; [|done].
      by rewrite E in Hdec.
    + split; [by apply (Hd i)|]. rewrite <-(listing_after JobRepository.created_key _ _ l1 x rows Hkeyed Hl).
      apply latest_listing_ext. intros j. unfold JobRepository.listed. by rewrite andb_true_r.
  - apply last_None in Elast as ->. subst cursor. by exists None.
Qed.

Lemma page_of_rows rows :
  0 <= limit →
  JobReadService.page_of (take (Z.to_nat (limit + 1)) rows) limit
  = mkPaginatedResponse (map summary_of (take (Z.to_nat limit) rows))
      (match last (take (Z.to_nat limit) rows) with
       | Some l => if limit <? Z.of_nat (length rows)
                   then Some (encode_cursor (mkCursorPosition (j_created_at l) (j_id l))) else None
       | None => None
       end)
      (limit <? Z.of_nat (length rows)).
Proof.
  intros Hlim. unfold JobReadService.page_of. cbv zeta.
  rewrite take_take, Nat.min_l by lia.
  assert (Z.ltb limit (Z.of_nat (length (take (Z.to_nat (limit + 1)) rows)))
          = (limit <? Z.of_nat (length rows))) as ->; [|done].
  rewrite length_take.
  destruct (Z.ltb_spec limit (Z.of_nat (length rows))); [apply Z.ltb_lt|apply Z.ltb_ge]; lia.
Qed.

Lemma pages_enumerate strict n cursor rows w :
  Inv strict (w_db w) → dated (w_db w) → 1 <= limit → remaining (w_db w) cursor rows →
  (length rows < n)%nat → enumerates rows (pages n cursor w).
Proof.
  intros HI Hd Hlim. revert cursor rows. induction n as [|n IH]; intros cursor rows Hr Hn; [lia|].
  destruct (remaining_rows _ _ _ _ HI Hd Hr) as (position & Hpos & Hbinds & Hrows).
  cbn [pages]. unfold JobReadService.list_jobs. rewrite Hpos.
  cbn -[JobReadService.page_of JobRepository.list_for_user]. unfold JobRepository.list_for_user.
  rewrite Hbinds. cbn -[JobReadService.page_of].
  rewrite select_latest_take, Hrows, page_of_rows by lia. cbn [next_cursor].
  set (page := take (Z.to_nat limit) rows).
  assert (Hpage : Z.of_nat (length page) <= limit) by (unfold page; rewrite length_take; lia).
  destruct (Z.ltb_spec limit (Z.of_nat (length rows))) as [Hmore|Hdone].
  - destruct (last page) as [x|] eqn:Elast.
    2: { apply last_None in Elast. apply (f_equal length) in Elast. unfold page in Elast.
         rewrite length_take in Elast. simpl in Elast. lia. }
    assert (Hfull : Z.of_nat (length page) = limit) by (unfold page; rewrite length_take; lia).
    destruct (IH (Some (encode_cursor (mkCursorPosition (j_created_at x) (j_id x))))
                 (drop (Z.to_nat limit) rows)) as (Hc & Hps & p & Hl & Hp).
    { destruct Hr as (pre & Hpre & _). exists (pre ++ page).
      rewrite <-app_assoc. unfold page. rewrite take_drop. split; [done|].
      fold page. by rewrite last_app, Elast. }
    { rewrite length_drop. lia. }
    split; [|split].
    + simpl. rewrite Hc, <-map_app. unfold page. by rewrite take_drop.
    + intros q [->|Hq]%elem_of_cons; [|by apply Hps]. simpl. rewrite length_map.
      split; [done|]. split; [|done]. split; [by eexists|done].
    + exists p. split; [|done]. rewrite last_cons, Hl. done.
  - assert (page = rows) as -> by (apply take_ge; lia).
    assert (match last rows with Some _ => None | None => None end = @None string) as -> by
      (by destruct (last rows)).
    split; [|split].
    + simpl. by rewrite app_nil_r.
    + intros q ->%list_elem_of_singleton. simpl. rewrite length_map. split; [done|].
      split; [|done]. split; [done|by intros [? ?]].
    + by eexists.
Qed.

(** Which jobs a listing holds. *)
Definition matches (j : Job) : Prop :=
  j_user_id j = user ∧ (∀ s, status = Some s → j_status j = s) ∧ (∀ t, ty = Some t → j_type j = t).

Lemma listed_matches j : JobRepository.listed user status ty None j = true ↔ matches j.
Proof.
  unfold JobRepository.listed, matches, status_is. rewrite andb_true_r, !andb_true_iff, String.eqb_eq.
  assert (∀ (A : Type) (o : option A) (x : A) (Hd : ∀ y, Decision (x = y)),
    match o with Some y => bool_decide (x = y) | None => true end = true ↔ ∀ y, o = Some y → x = y) as H.
  { intros A [y|] x Hdec; [|by split]. rewrite bool_decide_eq_true. split; [by intros -> ? [= ->]|eauto]. }
  rewrite (H _ status (j_status j)), (H _ ty (j_type j)). tauto.
Qed.

Lemma listing_holds strict d :
  Inv strict d →
  NoDup (listing d) ∧ ∀ j, j ∈ listing d ↔ matches j ∧ ∃ i, jobs d !! i = Some j.
Proof.
  intros HI. split.
  - apply listing_NoDup. intros i j Hj. by destruct (inv_jobs _ _ HI i j Hj) as [[Hid _] _].
  - intros j. unfold listing. by rewrite elem_of_listing, listed_matches.
Qed.

(** C18: following [next_cursor] from the first page lists every job of the user
    that passes the filters exactly once, the latest first, in pages of the
    asked size, and stops: no job is skipped and none is shown twice, even among
    jobs created at the same instant. *)
Theorem pages_list_every_job (strict : bool) (n : nat) (w : World) :
  Inv strict (w_db w) → dated (w_db w) → 1 <= limit → (length (listing (w_db w)) < n)%nat →
  enumerates (listing (w_db w)) (pages n None w)
  ∧ NoDup (listing (w_db w))
  ∧ ∀ j, j ∈ listing (w_db w) ↔ matches j ∧ ∃ i, jobs (w_db w) !! i = Some j.
Proof.
  intros HI Hd Hlim Hn. split; [|by apply (listing_holds strict)].
  apply (pages_enumerate strict); try done. by exists [].
Qed.
End Pages.

(** ** The summary *)

Section Summary.
Context {env : Env} (user : string).

(** How many jobs of the user there are, and how many in a status. *)
Definition jobs_of (d : Db) : list (uuid * Job) :=
  filter (λ p : uuid * Job, String.eqb (j_user_id p.2) user = true) (map_to_list (jobs d)).
Definition jobs_in (s : JobStatus) (d : Db) : Z :=
  Z.of_nat (length (filter (λ p : uuid * Job, j_status p.2 = s) (jobs_of d))).

Definition summary_counts_of (d : Db) : list (JobStatus * Z) :=
  filter (λ g : JobStatus * Z, 0 < g.2) (map (λ s, (s, jobs_in s d)) JobStatus.all).

Lemma jobs_in_filter s d :
  Z.of_nat (length (filter
    (λ p : uuid * Job, String.eqb (j_user_id p.2) user && status_is s p.2 = true)
    (map_to_list (jobs d)))) = jobs_in s d.
Proof.
  unfold jobs_in, jobs_of. rewrite list_filter_filter. do 2 f_equal. apply list_filter_iff.
  intros [i j]. simpl. unfold status_is. rewrite andb_true_iff, bool_decide_eq_true. tauto.
Qed.

Lemma foldl_add (l : list Z) a : foldl Z.add a l = a + foldl Z.add 0 l.
Proof.
  revert a. induction l as [|x l IH]; intros a; cbn [foldl]; [lia|].
  rewrite (IH (a + x)), (IH (0 + x)). lia.
Qed.

(** Statuses without a job do not count. *)
Lemma sum_positive (l : list (JobStatus * Z)) :
  (∀ g, g ∈ l → 0 <= g.2) →
  foldl Z.add 0 (map snd (filter (λ g : JobStatus * Z, 0 < g.2) l)) = foldl Z.add 0 (map snd l).
Proof.
  induction l as [|g l IH]; intros Hl; [done|]. rewrite filter_cons.
  pose proof (Hl g (list_elem_of_here _ _)) as Hg.
  pose proof (IH (λ g' H, Hl g' (list_elem_of_further _ _ _ H))) as E.
  destruct (decide (0 < g.2)); cbn [map foldl]; [|rewrite E];
    rewrite !(foldl_add _ (0 + g.2)), ?E; lia.
Qed.

Lemma count_cons s i j (l : list (uuid * Job)) :
  Z.of_nat (length (filter (λ p : uuid * Job, j_status p.2 = s) ((i, j) :: l)))
  = (if bool_decide (j_status j = s) then 1 else 0)
    + Z.of_nat (length (filter (λ p : uuid * Job, j_status p.2 = s) l)).
Proof.
  rewrite filter_cons. cbn [snd].
  destruct (decide (j_status j = s)); [rewrite bool_decide_eq_true_2|rewrite bool_decide_eq_false_2];
    cbn [length]; try done; lia.
Qed.

(** The statuses partition the jobs. *)
Lemma statuses_partition (l : list (uuid * Job)) :
  foldl Z.add 0 (map (λ s, Z.of_nat (length (filter (λ p : uuid * Job, j_status p.2 = s) l)))
                   JobStatus.all) = Z.of_nat (length l).
Proof.
  induction l as [|[i j] l IH]; [done|].
  cbn [JobStatus.all map foldl] in *. rewrite !count_cons.
  destruct (j_status j); repeat match goal with
    | |- context [if bool_decide ?P then 1 else 0] =>
        let v := eval vm_compute in (if bool_decide P then 1 else 0) in
        change (if bool_decide P then 1 else 0) with v
    end; cbn [length]; lia.
Qed.

(** The query of [status_counts], and the sum of its counts. *)
Lemma status_groups d :
  filter (λ g : JobStatus * Z, 0 < g.2)
    (map (λ s, (s, Z.of_nat (length (filter
       (λ p : uuid * Job, String.eqb (j_user_id p.2) user && status_is s p.2 = true)
       (map_to_list (jobs d)))))) JobStatus.all) = summary_counts_of d.
Proof.
  unfold summary_counts_of. f_equal. apply map_ext. intros s. by rewrite jobs_in_filter.
Qed.

Lemma summary_total d :
  foldl Z.add 0 (map snd (map (λ g : JobStatus * Z, (JobStatus_value g.1, g.2)) (summary_counts_of d)))
  = Z.of_nat (length (jobs_of d)).
Proof.
  rewrite map_map. cbn [snd]. unfold summary_counts_of. rewrite sum_positive.
  - rewrite map_map. cbn [snd]. apply statuses_partition.
  - intros g (s & -> & _)%list_elem_of_fmap. unfold jobs_in. simpl. lia.
Qed.

(** The summary gives, for every status with a job of the user, how many
    there are, and a total that is the number of the user's jobs. *)
Theorem summary_counts_the_jobs (w : World) :
  ∃ c, run (JobReadService.summary user) w = (Ok c, w)
    ∧ (∀ s n, (JobStatus_value s, n) ∈ counts c ↔ n = jobs_in s (w_db w) ∧ 0 < n)
    ∧ total c = Z.of_nat (length (jobs_of (w_db w))).
Proof.
  eexists. split; [reflexivity|]. cbn [counts total]. rewrite status_groups.
  split; [|apply summary_total].
  intros s n. rewrite list_elem_of_fmap. split.
  - intros ([s' n'] & [= Hs Hn] & Hin). apply list_elem_of_filter in Hin as [Hpos Hin].
    apply list_elem_of_fmap in Hin as (s'' & [= -> ->] & _). simpl in *.
    assert (s = s'') as -> by (by destruct s, s''). by subst.
  - intros [-> Hpos]. exists (s, jobs_in s (w_db w)). split; [done|].
    apply list_elem_of_filter. split; [done|]. apply list_elem_of_fmap. exists s. split; [done|].
    destruct s; repeat constructor.
Qed.
End Summary.

(** ** At concrete states *)

Lemma cursor_roundtrip_witness :
  decode_cursor (λ _, None) (encode_cursor (mkCursorPosition 1749340800000001 7%N))
  = Ok (mkCursorPosition 1749340800000001 7%N).
Proof. apply (cursor_roundtrip (λ _, None)); reflexivity. Defined.

Lemma dated_check d :
  forallb (λ p : uuid * Job, valid_datetime (j_created_at p.2)) (map_to_list (jobs d)) = true →
  dated d.
Proof.
  intros H i j Hj. apply (forallb_true _ _ (i, j) H). by apply elem_of_map_to_list.
Qed.

(** Three jobs of one user. *)
Definition w_three : World :=
  run_schedule [submit_task JobType.FLAKY [] 5 "key-1"; submit_task JobType.FLAKY [] 5 "key-2";
                submit_task JobType.FLAKY [] 5 "key-3"] init_world.

Lemma at_three strict : reachable strict (mkState w_three []).
Proof. apply run_schedule_reachable. solve_programs. Qed.

#[local] Opaque w_three.

Lemma pages_list_every_job_witness :
  length (listing "alice" None None (w_db w_three)) = 3%nat
  ∧ map (λ p, length (items p)) (pages "alice" None None 2 4 None w_three) = [2; 1]%nat
  ∧ enumerates 2 (listing "alice" None None (w_db w_three)) (pages "alice" None None 2 4 None w_three).
Proof.
  assert (length (listing "alice" None None (w_db w_three)) = 3%nat) as Hlen by (by vm_compute).
  split; [exact Hlen|]. split; [by vm_compute|].
  apply (pages_list_every_job "alice" None None 2 true 4 w_three).
  - exact (reachable_Inv true _ (at_three true)).
  - apply dated_check. by vm_compute.
  - lia.
  - rewrite Hlen. lia.
Defined.
