(* ===== verification/ApiSpec.v ===== *)
(** What the routes of the API answer: the status code and the body, on every
    branch of the services behind them, and what a user can see. *)

From S2P Require Import Prelude PyStr PyFloat Json Domain Config Uuid DateTime Encoding Pagination.
From S2P Require Import Models Effects Repositories Queue Notifications Catalog Logic Lifecycle.
From S2P Require Import Invariant Submission Cancellation Execution Scheduling Worker Read Api.
From S2P Require Import Steps Transactions Programs System Demo WorkerSpec ServiceSpec ReadSpec.
Import JobStatus.

Section ApiSpec.
Context {env : Env} (settings : Settings).

(** A handler answers; an [HTTPException] becomes its status and message. *)
Lemma serve_alone r (Q : res response → Db → Prop) d :
  valid_request r = true →
  cwp_alone (dispatch settings r) (λ o d', match o with
    | Err (HTTPException code detail) => Q (Ok (mkResponse code (ErrorBody detail))) d'
    | o => Q o d'
    end) d →
  cwp_alone (serve settings r) Q d.
Proof.
  intros Hv H. unfold serve. rewrite Hv. cbn [negb]. apply alone_bind, cwp_try.
  eapply cwp_mono; [exact H|]. intros [resp|e] d'; [done|]. by destruct e.
Qed.

(** ** Submission *)

Section Submit.
Context (x_user : option string) (b : JobSubmit) (key : option string).

Abbreviation user := (current_user_id x_user).
Abbreviation payload_ok := (normalized_payload settings (sub_type b) (sub_payload b)).

(** The body of an accepted submission. *)
Definition accepted (job : Job) : response :=
  mkResponse 202 (AcceptedBody
    (mkJobAccepted (j_id job) (j_status job) ("/jobs/" +:+ uuid_str (j_id job)))).

(** The answers of [POST /jobs]. *)
Definition submit_spec (d : Db) (o : res response) (d' : Db) : Prop :=
  match payload_ok with
  | Err e =>
      d' = d ∧ o = match e with
        | PayloadTooLargeError m => Ok (mkResponse 413 (ErrorBody m))
        | _ => if is_ValueError e then Ok (mkResponse 422 (ErrorBody (exn_str e))) else Err e
        end
  | Ok normalized =>
      match key ≫= λ k, job_with_key user k d with
      | Some job => d' = d ∧ o = Ok (accepted job)
      | None =>
          if max_in_flight_jobs_per_user settings <=? active_jobs user d
          then d' = d ∧ o = Ok (mkResponse 429 (ErrorBody
                 ("too many active jobs for this user, the limit is "
                  +:+ str_of_int (max_in_flight_jobs_per_user settings))))
          else ∃ r, creation_spec settings user (sub_type b) (sub_priority b) (sub_max_attempts b)
                      key normalized d r d'
                 ∧ o = match r with Ok job => Ok (accepted job) | Err e => Err e end
      end
  end.

(** The exceptions of the checks of a payload. *)
Lemma normalized_payload_raises e :
  payload_ok = Err e →
  match e with
  | PayloadTooLargeError _ | ValueError _ | OverflowError _ | ZeroDivisionError _ => True
  | _ => False
  end.
Proof.
  assert (Hcoerce : ∀ m o c, match coerce_error m o c with
    | ValueError _ | OverflowError _ | ZeroDivisionError _ => True | _ => False end)
    by (by intros m o [|[]]).
  assert (Hint : ∀ p k d m e, _coerce_int p k d m = Err e → match e with
    | ValueError _ | OverflowError _ | ZeroDivisionError _ => True | _ => False end).
  { intros p k d m e'. unfold _coerce_int. destruct (py_int _); [intros [= <-]; apply Hcoerce|].
    destruct (_ <? _); by intros [= <-]. }
  assert (Hfloat : ∀ p k d m e, _coerce_float p k d m = Err e → match e with
    | ValueError _ | OverflowError _ | ZeroDivisionError _ => True | _ => False end).
  { intros p k d m e'. unfold _coerce_float. destruct (py_float _); [intros [= <-]; apply Hcoerce|].
    destruct (fltb _ _); by intros [= <-]. }
  unfold normalized_payload. destruct (_ <? _); [by intros [= <-]|].
  destruct (normalize_payload _ _ _) as [p|e'] eqn:E; [done|]. intros [= <-].
  unfold normalize_payload in E.
  destruct (sub_type b); simpl in E; unfold _normalize_sleep, _normalize_report, _normalize_flaky,
    _normalize_always_fail, _normalize_llm_summary in E; simpl in E;
    repeat match type of E with
    | context [_coerce_float ?p ?k ?d ?m ≫= _] =>
        destruct (_coerce_float p k d m) eqn:?; simpl in E
    | context [_coerce_int ?p ?k ?d ?m ≫= _] =>
        destruct (_coerce_int p k d m) eqn:?; simpl in E
    end; try done; injection E as <-;
    match goal with
    | H : _coerce_int _ _ _ _ = Err ?e |- _ => pose proof (Hint _ _ _ _ _ H); by destruct e
    | H : _coerce_float _ _ _ _ = Err ?e |- _ => pose proof (Hfloat _ _ _ _ _ H); by destruct e
    end.
Qed.

Lemma submit_job_alone (d : Db) :
  valid_request (mkRequest x_user (SubmitJob b key)) = true →
  cwp_alone (serve settings (mkRequest x_user (SubmitJob b key))) (submit_spec d) d.
Proof.
  intros Hv. apply serve_alone; [done|].
  apply alone_bind, cwp_try, submit_alone. unfold submit_spec.
  destruct payload_ok as [normalized|e] eqn:Hp.
  - destruct (key ≫= _) as [job|]; [done|]. destruct (_ <=? _); [done|].
    intros [job|e] d' Hc; [by exists (Ok job)|].
    assert (is_db_error e) as He by apply Hc. destruct e; try done; by eexists (Err _).
  - apply normalized_payload_raises in Hp. by destruct e.
Qed.
End Submit.

(** ** Cancellation *)

(** The answers of [POST /jobs/{job_id}/cancel]. *)
Definition cancel_answer (i : uuid) (user : string) (d : Db) : response :=
  match JobRepository.owned_by user (jobs d !! i) with
  | None => mkResponse 404 (ErrorBody "job not found")
  | Some j =>
      match j_status j with
      | SUCCEEDED | FAILED | CANCELLED | EXPIRED => mkResponse 409 (ErrorBody conflict_detail)
      | RUNNING | CANCELLING => mkResponse 202 (CancelBody (mkCancelResult i CANCELLING))
      | PENDING | QUEUED | RETRYING => mkResponse 200 (CancelBody (mkCancelResult i CANCELLED))
      end
  end.

(** C32: [POST /jobs/{id}/cancel] answers by the status of the owner's row, 404
    when there is none, 409 when it is terminal, 202 while a running job is
    asked to stop, 200 when an inactive one is cancelled at once, and acts on
    the row accordingly; an error of the database leaves everything as it was. *)
Theorem cancellation_responses (x_user : option string) (i : uuid) (b : CancelRequest) (w : World) :
  let '(o, w') := run (serve settings (mkRequest x_user (CancelJob i b))) w in
  match o with
  | Ok r => r = cancel_answer i (current_user_id x_user) (w_db w)
      ∧ ∃ now outcome,
          cancel_spec i (current_user_id x_user) (cr_reason b) now (w_db w) outcome (w_db w')
  | Err e => is_db_error e ∧ w_db w' = w_db w
  end.
Proof.
  set (user := current_user_id x_user).
  apply (run_outcome _ (λ o d', match o with
    | Ok r => r = cancel_answer i user (w_db w)
        ∧ ∃ now outcome, cancel_spec i user (cr_reason b) now (w_db w) outcome d'
    | Err e => is_db_error e ∧ d' = w_db w end)).
  apply serve_alone; [done|]. cbn [dispatch req_route]. fold user.
  apply alone_bind, alone_bind, alone_reading. intros n. apply alone_commits;
    [apply cancel_raises| |by intros []].
  eapply wp_mono; [apply wp_cancel_locked|]. intros outcome d' Hc. unfold cancel_answer.
  assert (∃ now outcome, cancel_spec i user (cr_reason b) now (w_db w) outcome d') as He by eauto.
  unfold cancel_spec in Hc. destruct (JobRepository.owned_by _ _) as [j|]; [|by destruct Hc as [-> _]].
  destruct (j_status j); destruct Hc as [-> _]; done.
Qed.

(** ** Reads *)

(** What a GET route answers: a response, or nothing but the 500 of the server, when
    the driver refuses the query. *)
Inductive answer := Answers (r : response) | Refused.

(** A page after an instant before the year 1 or after the year 9999. *)
Definition out_of_range (position : option CursorPosition) : bool :=
  match position with
  | Some c => (cp_created_at c <? min_datetime) || (max_datetime <? cp_created_at c)
  | None => false
  end.

Lemma range_binds position : JobRepository.cursor_binds position = negb (out_of_range position).
Proof.
  destruct position as [c|]; [|done]. unfold out_of_range, JobRepository.cursor_binds, valid_datetime.
  by rewrite negb_orb, <-!Z.leb_antisym.
Qed.

(** The answers of the GET routes, as a function of the database. *)
Definition read_answer (user : string) (r : route) (d : Db) : option answer :=
  match r with
  | ListJobs status ty limit cursor =>
      Some match JobReadService.position_of cursor with
      | Ok position =>
          if out_of_range position then Refused
          else Answers (mkResponse 200 (PageBody (JobReadService.page_of
            (take (Z.to_nat (limit + 1)) (latest_listing JobRepository.created_key
               (JobRepository.listed user status ty position) (jobs d))) limit)))
      | Err _ => Answers (mkResponse 400 (ErrorBody "invalid cursor"))
      end
  | GetSummary =>
      Some (Answers (mkResponse 200 (CountsBody (mkJobSummaryCounts
        (map (λ g, (JobStatus_value g.1, g.2)) (summary_counts_of user d))
        (Z.of_nat (length (jobs_of user d)))))))
  | GetJob i =>
      Some (Answers match JobRepository.owned_by user (jobs d !! i) with
      | Some j => mkResponse 200 (JobBody (read_of j))
      | None => mkResponse 404 (ErrorBody "job not found")
      end)
  | GetEvents i =>
      Some (Answers match JobRepository.owned_by user (jobs d !! i) with
      | Some _ => mkResponse 200 (EventsBody (map event_of (take 200
          (latest_listing (λ e, (e_created_at e, e_id e)) (λ e, (e_job_id e =? i)%N) (Models.job_events d)))))
      | None => mkResponse 404 (ErrorBody "job not found")
      end)
  | _ => None
  end.

(** The outcome of a request that is answered so. *)
Definition answered (a : answer) (o : res response) : Prop :=
  match a with
  | Answers r => o = Ok r
  | Refused => ∃ text, o = Err (DataError text)
  end.

Lemma position_of_invalid c e :
  JobReadService.position_of c = Err e → e = InvalidCursorError "invalid cursor".
Proof.
  unfold JobReadService.position_of. destruct c as [c|]; [|done].
  destruct (String.eqb _ _); [done|]. unfold decode_cursor.
  destruct (urlsafe_b64decode _ ≫= _); [done|]. by intros [= <-].
Qed.

Lemma summary_alone user (Q : res JobSummaryCounts → Db → Prop) d :
  Q (Ok (mkJobSummaryCounts (map (λ g, (JobStatus_value g.1, g.2)) (summary_counts_of user d))
           (Z.of_nat (length (jobs_of user d))))) d →
  cwp_alone (JobReadService.summary user) Q d.
Proof.
  intros HQ. apply alone_bind, alone_query. rewrite status_groups. simpl.
  by rewrite summary_total.
Qed.

Lemma list_alone user status ty position limit (Q : res (list Job) → Db → Prop) d :
  (if JobRepository.cursor_binds position
   then Q (Ok (select_latest (JobRepository.listed user status ty position) JobRepository.created_key limit
                 (jobs d))) d
   else ∀ text, Q (Err (DataError text)) d) →
  cwp_alone (act (JobRepository.list_for_user user status ty position limit)) Q d.
Proof.
  unfold JobRepository.list_for_user. destruct (JobRepository.cursor_binds position); intros HQ.
  { by apply alone_query. }
  apply cwp_act. intros d' _ <- w Hw. split; [done|]. split; [done|].
  unfold raise_db, mbind, M_bind, reading, raise. cbn. rewrite Hw. apply HQ.
Qed.

Lemma read_alone x_user r a d :
  valid_request (mkRequest x_user r) = true → read_answer (current_user_id x_user) r d = Some a →
  cwp_alone (serve settings (mkRequest x_user r)) (λ o d', answered a o ∧ d' = d) d.
Proof.
  intros Hv Ha. apply serve_alone; [done|]. unfold dispatch. cbn [req_route Api.x_user_id].
  set (user := current_user_id x_user) in *.
  destruct r as [b key|status ty limit cursor| |i|i b|i]; simpl in Ha; try done; injection Ha as <-.
  - apply alone_bind, cwp_try. unfold JobReadService.list_jobs.
    destruct (JobReadService.position_of cursor) as [position|e] eqn:E.
    + apply (alone_bind (Ret position)), alone_bind, list_alone.
      rewrite range_binds. destruct (out_of_range position); cbn [negb]; [|done].
      intros text. split; [by eexists|done].
    + apply position_of_invalid in E as ->. done.
  - apply alone_bind, summary_alone. done.
  - apply alone_bind, alone_bind, alone_query. by destruct (JobRepository.owned_by _ _).
  - apply alone_bind, alone_bind, alone_query.
    destruct (JobRepository.owned_by _ _); [|done]. apply alone_bind, alone_query. done.
Qed.

(** C33: the GET routes are functions of the database: a page of the user's
    listing or 400 for a cursor that does not decode, the counts of the user's
    jobs, a job or its latest 200 events or 404; and they write nothing.  One
    request is not answered but fails on the server: a page after a cursor that
    decodes to an instant before the year 1 or after the year 9999 in UTC (a
    client may write such a text with an offset), which the driver of the
    database refuses.  No other fails, as long as the database can be reached. *)
Theorem read_responses (x_user : option string) (r : route) (a : answer) (w : World) :
  valid_request (mkRequest x_user r) = true →
  read_answer (current_user_id x_user) r (w_db w) = Some a →
  answered a (run (serve settings (mkRequest x_user r)) w).1
  ∧ w_db (run (serve settings (mkRequest x_user r)) w).2 = w_db w.
Proof. intros Hv Ha. by apply (run_alone _ (λ o d', answered a o ∧ d' = w_db w)), read_alone. Qed.

(** ** What a user sees *)

(** No row of the id, or a row of someone else. *)
Definition foreign (user : string) (i : uuid) (d : Db) : Prop :=
  ∀ j, jobs d !! i = Some j → j_user_id j ≠ user.

Lemma foreign_not_owned user i d :
  foreign user i d → JobRepository.owned_by user (jobs d !! i) = None.
Proof.
  intros H. unfold JobRepository.owned_by. destruct (jobs d !! i) as [j|] eqn:E; [|done].
  destruct (String.eqb_spec (j_user_id j) user); [|done]. by destruct (H j E).
Qed.

Lemma foreign_cancel_alone x_user i b d :
  foreign (current_user_id x_user) i d →
  cwp_alone (serve settings (mkRequest x_user (CancelJob i b)))
    (λ o d', o = Ok (mkResponse 404 (ErrorBody "job not found")) ∧ d' = d) d.
Proof.
  intros Hf. apply serve_alone; [done|].
  apply alone_bind, alone_bind, alone_reading. intros n.
  apply cwp_act. intros d' _ <- w Hw. split; [done|]. split; [done|].
  unfold transaction, mbind, M_bind, clock_now, reading, transaction_at, cancel_locked,
    JobRepository.lock_for_user, query, mbind, M_bind. cbn.
  rewrite Hw, foreign_not_owned by done. done.
Qed.

Lemma page_items_from rows limit s :
  s ∈ items (JobReadService.page_of rows limit) → ∃ j, j ∈ rows ∧ s = summary_of j.
Proof.
  intros (j & -> & Hj)%list_elem_of_fmap. exists j. split; [|done].
  eapply elem_of_sublist; [exact Hj|]. apply sublist_take.
Qed.

(** C19: isolation: a job of another user answers exactly as a job that does not
    exist, to its reading, to the reading of its events and to its
    cancellation, and is left as it is; a page only holds jobs of the user who
    asks for it. *)
Theorem users_see_only_their_jobs (x_user : option string) (w : World) :
  (∀ i b r, foreign (current_user_id x_user) i (w_db w) → r ∈ [GetJob i; GetEvents i; CancelJob i b] →
     (run (serve settings (mkRequest x_user r)) w).1
       = Ok (mkResponse 404 (ErrorBody "job not found"))
     ∧ w_db (run (serve settings (mkRequest x_user r)) w).2 = w_db w)
  ∧ (∀ status ty limit cursor page s,
       valid_request (mkRequest x_user (ListJobs status ty limit cursor)) = true →
       (run (serve settings (mkRequest x_user (ListJobs status ty limit cursor))) w).1
         = Ok (mkResponse 200 (PageBody page)) →
       s ∈ items page →
       ∃ i j, jobs (w_db w) !! i = Some j ∧ j_user_id j = current_user_id x_user ∧ s = summary_of j).
Proof.
  split.
  - intros i b r Hf Hr.
    apply (run_alone _ (λ o d', o = Ok (mkResponse 404 (ErrorBody "job not found")) ∧ d' = w_db w)).
    rewrite !elem_of_cons, elem_of_nil in Hr. destruct Hr as [->|[->|[->|[]]]].
    + apply (read_alone _ _ (Answers _)); [done|]. simpl. by rewrite foreign_not_owned.
    + apply (read_alone _ _ (Answers _)); [done|]. simpl. by rewrite foreign_not_owned.
    + by apply foreign_cancel_alone.
  - intros status ty limit cursor page s Hv Hrun Hs.
    pose proof (run_alone _ _ _ (read_alone x_user _ _ (w_db w) Hv eq_refl)) as [Ha _].
    rewrite Hrun in Ha. destruct (JobReadService.position_of cursor) as [position|]; [|done].
    destruct (out_of_range position); [by destruct Ha|]. cbn [answered] in Ha.
    assert (page = JobReadService.page_of
      (take (Z.to_nat (limit + 1)) (latest_listing JobRepository.created_key
        (JobRepository.listed (current_user_id x_user) status ty position) (jobs (w_db w)))) limit)
      as -> by congruence.
    apply page_items_from in Hs as (j & Hj & ->).
    assert (j ∈ latest_listing JobRepository.created_key
      (JobRepository.listed (current_user_id x_user) status ty position) (jobs (w_db w))) as Hin
      by (eapply elem_of_sublist; [exact Hj|apply sublist_take]).
    apply elem_of_listing in Hin as (Hl & i & Hi). exists i, j. split; [done|]. split; [|done].
    unfold JobRepository.listed in Hl. bool_simpl. done.
Qed.

(** ** Health *)

Lemma ping_outcome w :
  ∃ w', JobQueue.ping w = (if redis_down (w_count w)
    then Err (RedisError (library_text (S (w_count w)))) else Ok true, w').
Proof.
  unfold JobQueue.ping, redis_command, mbind, M_bind, reading. simpl.
  destruct (redis_down (w_count w)); eexists; reflexivity.
Qed.

(** The probe of Redis says what Redis does; an error of a probe is an answer. *)
Lemma health_reports (probe : co unit) (w : World) :
  (∀ e w', run probe w = (Err e, w') → is_SQLAlchemyError e = true) →
  ∃ w', run (health probe) w = (Ok (mkHealthResponse "ok"
     (if is_ok (run probe w).1 then "ok" else "down")
     (if redis_down (w_count (run probe w).2) then "down" else "ok")), w').
Proof.
  intros Hp. unfold health. rewrite run_bind, run_try.
  destruct (run probe w) as [r w1] eqn:E. destruct (ping_outcome w1) as (w2 & Hping).
  assert (∀ db, ∃ w', run (pinged ← try_co (act JobQueue.ping);
      queue_status ← match pinged with
        | Ok up => Ret (if up : bool then "ok" else "down")
        | Err (RedisError _) => Ret "down"
        | Err e => Throw e
        end;
      Ret (mkHealthResponse "ok" db queue_status)) w1
    = (Ok (mkHealthResponse "ok" db (if redis_down (w_count w1) then "down" else "ok")), w')) as H.
  { intros db. exists w2. rewrite run_bind, run_try, run_act, Hping.
    by destruct (redis_down (w_count w1)). }
  destruct r as [u|e]; [apply H|]. rewrite (Hp e w1 eq_refl). apply H.
Qed.
End ApiSpec.

(** ** At concrete states *)

(** A cursor that decodes, to an instant that has no UTC time stamp. *)
Definition far_cursor : string :=
  urlsafe_b64encode (utf8_encode (far_east +:+ "|" +:+ uuid_str first_job)).

Lemma read_responses_witness :
  (run (serve default_settings (mkRequest (Some "alice") (GetJob first_job))) w_running).1
  = Ok (mkResponse 200 (JobBody (read_of (row_at w_running))))
  ∧ ∃ text, (run (serve default_settings (mkRequest (Some "alice") (ListJobs None None 50 (Some far_cursor))))
               w_running).1 = Err (DataError text).
Proof.
  split.
  - apply (read_responses default_settings (Some "alice") (GetJob first_job)
             (Answers (mkResponse 200 (JobBody (read_of (row_at w_running))))) w_running).
    + reflexivity.
    + by vm_compute.
  - apply (read_responses default_settings (Some "alice") (ListJobs None None 50 (Some far_cursor))
             Refused w_running).
    + reflexivity.
    + by vm_compute.
Defined.
