(* ===== verification/FollowSpec.v ===== *)
(** The answer of a submission can be followed: the status URL of a 202 is the URL
    of the job, whoever of the processes works on it in the meantime. *)

From S2P Require Import Prelude PyStr PyFloat Json Domain Config Uuid DateTime Encoding Pagination.
From S2P Require Import Models Effects Repositories Queue Notifications Catalog Logic Lifecycle.
From S2P Require Import Invariant Submission Cancellation Execution Scheduling Worker Read Api.
From S2P Require Import Steps Transactions Programs System Demo Guarantees WorkerSpec ServiceSpec ReadSpec ApiSpec.
Import JobStatus.

(** ** The paths *)

(** Ids of requests are parsed as UUIDs. *)
Definition route_ids_ok (r : route) : Prop :=
  match r with
  | GetJob i | CancelJob i _ | GetEvents i => (i < uuid_bound)%N
  | _ => True
  end.

(** No other route answers at the path of a job. *)
Lemma path_names_the_job (r : route) (i : uuid) :
  route_ids_ok r → (i < uuid_bound)%N → endpoint r = endpoint (GetJob i) → r = GetJob i.
Proof.
  intros Hr Hi. unfold endpoint. intros H. assert (Hlen := f_equal (λ p, String.length p.2) H).
  destruct r as [b key|status ty limit cursor| |k|k b|k]; cbn -[uuid_str] in H, Hlen;
    rewrite ?str_length_app, ?uuid_str_length in Hlen; try (cbn in Hlen; lia); try discriminate H.
  apply (f_equal snd) in H.
  change ("/jobs/" +:+ uuid_str k = "/jobs/" +:+ uuid_str i) in H.
  apply (inj (String.append "/jobs/")), uuid_str_inj in H; [by subst|done|done].
Qed.

(** ** The job behind the answer *)

Section Follow.
Context {env : Env} (settings : Settings) (x_user : option string) (b : JobSubmit) (key : option string).

Abbreviation user := (current_user_id x_user).
Abbreviation limit := (attempts_limit settings (sub_max_attempts b)).

(** The body a client reads is that of the job it submitted. *)
Definition as_requested (job : JobRead) : Prop :=
  js_type (jr_summary job) = sub_type b
  ∧ normalized_payload settings (sub_type b) (sub_payload b) = Ok (jr_payload job)
  ∧ js_priority (jr_summary job) = sub_priority b
  ∧ js_max_attempts (jr_summary job) = limit.

Abbreviation stored_here :=
  (stored settings user (sub_type b) (sub_payload b) (sub_priority b) (sub_max_attempts b) key).

(** A stored job keeps its id, its owner and what was asked for. *)
Lemma stored_later strict others d0 job d d' :
  stored_here others d0 job d → rtc (any_move strict) d d' →
  ∃ j, jobs d' !! j_id job = Some j ∧ j_id j = j_id job ∧ j_user_id j = user
    ∧ (as_requested (read_of j) ∨ found_before user key others d0 (j_id job)).
Proof.
  intros [(row & Hrow & Hid) [Huser Hkey]] Hm.
  destruct (moves_history _ _ _ _ _ Hm Hrow) as (j & Hj & Hh). exists j. split; [done|].
  pose proof (history_identity _ _ Hh) as E. rewrite Hid in E. unfold identity_of in E.
  injection E as Ei Eu Et Ep Epl Em _ _. split; [done|]. split; [by rewrite Eu|].
  destruct Hkey as [(Hty & Hnorm & Hpr & Hmax & _)|Hfound]; [left|by right].
  unfold as_requested. cbn. by rewrite Et, Ep, Epl, Em.
Qed.

(** Every 202 carries the id of a stored job, and its URL. *)
Lemma submit_stores strict (others : Db → Db → Prop) `{!PreOrder others} d :
  cwp (Inv strict) others (moves strict None)
    (serve settings (mkRequest x_user (SubmitJob b key)))
    (λ answer d', ∀ a, answer = Ok (mkResponse 202 (AcceptedBody a)) →
       ∃ job, a = mkJobAccepted (j_id job) (j_status job) (endpoint (GetJob (j_id job))).2
         ∧ stored_here others d job d') d.
Proof.
  unfold serve. destruct (valid_request _); cbn [negb]; [|done].
  apply cwp_bind, cwp_try. unfold dispatch. cbn [req_route Api.x_user_id].
  apply cwp_bind, cwp_try. eapply cwp_mono; [by apply submission_stores|].
  intros [job|e] d' Hstored.
  - intros a [= <-]. exists job. split; [done|]. by apply Hstored.
  - cbn. by destruct (submit_error e).
Qed.

(** What reading the job answers: the owner sees the job, others nothing. *)
Lemma job_is_read j w x_reader :
  jobs (w_db w) !! j_id j = Some j →
  run (serve settings (mkRequest x_reader (GetJob (j_id j)))) w
  = (Ok (if bool_decide (j_user_id j = current_user_id x_reader)
         then mkResponse 200 (JobBody (read_of j)) else mkResponse 404 (ErrorBody "job not found")), w).
Proof.
  intros Hj. cbn. rewrite Hj. unfold JobRepository.owned_by.
  destruct (String.eqb_spec (j_user_id j) (current_user_id x_reader)) as [E|E].
  - by rewrite bool_decide_eq_true_2.
  - by rewrite bool_decide_eq_false_2.
Qed.

Lemma job_read_back j w x_reader job :
  jobs (w_db w) !! j_id j = Some j →
  run (serve settings (mkRequest x_reader (GetJob (j_id j)))) w = (Ok (mkResponse 200 (JobBody job)), w) →
  job = read_of j.
Proof. intros Hj. rewrite (job_is_read j w x_reader Hj). case_bool_decide; congruence. Qed.

(** C25: an accepted submission can be followed.  Whatever the others do while the
    submission runs ([others]: any relation that lets them do nothing and go on,
    such as what requests, workers and schedulers do, racing submissions with the
    same key included), a 202 carries the URL of the reading of this job, at which
    no other route answers; and at every later moment of the system, [GET] of that
    URL answers the same user 200 with the job, which has the id of the answer.
    With or without an idempotency key, the job has the type, the normalised
    payload, the priority and the limit of attempts that were submitted, unless
    the others, without this submission, had already stored a job with that id
    for the same user under the same key.  Any other user is answered 404, and
    nothing is written. *)
Theorem accepted_job_can_be_followed (strict : bool) (others : Db → Db → Prop) (s : State) :
  PreOrder others → reachable strict s →
  cwp (Inv strict) others (moves strict None)
    (serve settings (mkRequest x_user (SubmitJob b key)))
    (λ answer d, ∀ a, answer = Ok (mkResponse 202 (AcceptedBody a)) →
       (∀ r, route_ids_ok r → endpoint r = (GET, ja_status_url a) ↔ r = GetJob (ja_job_id a))
       ∧ ∀ w, rtc (any_move strict) d (w_db w) →
           ∃ job, js_job_id (jr_summary job) = ja_job_id a
             ∧ (as_requested job ∨ found_before user key others (st_db s) (ja_job_id a))
             ∧ ∀ x_reader,
                 run (serve settings (mkRequest x_reader (GetJob (ja_job_id a)))) w
                 = (Ok (if bool_decide (current_user_id x_reader = user)
                        then mkResponse 200 (JobBody job)
                        else mkResponse 404 (ErrorBody "job not found")), w))
    (st_db s).
Proof.
  intros Hpre Hs. eapply cwp_mono; [apply cwp_inv; [by apply reachable_Inv|by apply submit_stores]|].
  intros answer d [HI Hstored] a Ha. destruct (Hstored a Ha) as (job & -> & Hjob).
  cbn [ja_job_id ja_status_url]. split.
  - intros r Hr. split; [|by intros ->]. intros E. apply path_names_the_job; [done| |exact E].
    destruct Hjob as [(row & Hrow & _) _]. apply (inv_jobs _ _ HI _ _ Hrow).
  - intros w Hm. destruct (stored_later _ _ _ _ _ _ Hjob Hm) as (j & Hj & Hid & Hu & Hreq).
    exists (read_of j). split; [exact Hid|]. split; [exact Hreq|]. intros x_reader.
    rewrite <-Hid in Hj |- *. rewrite (job_is_read j w x_reader Hj), Hu.
    by rewrite (bool_decide_ext (user = current_user_id x_reader) (current_user_id x_reader = user)).
Qed.
End Follow.

(** ** At a concrete state *)

Definition demo_report : JobSubmit := mkJobSubmit JobType.REPORT [("pages", JInt 2)] JobPriority.HIGH None.
Definition demo_post : request := mkRequest (Some "alice") (SubmitJob demo_report (Some "key-2")).

(** The report is submitted over HTTP, dispatched and executed. *)
Definition w_posted : World := (run (serve default_settings demo_post) init_world).2.
Definition w_reported : World := run_schedule [scheduler_task; worker_task] w_posted.

Lemma at_posted strict : reachable strict (mkState w_posted []).
Proof.
  eapply rtc_l; [apply (step_spawn _ init_world [] None _ (pr_request default_settings demo_post)); done|].
  assert ((run (_ ← serve default_settings demo_post; Ret tt) init_world).2 = w_posted) as <-.
  { rewrite run_bind. unfold w_posted. by destruct (run _ _) as [[] w]. }
  apply run_steps_alone.
Qed.

Lemma to_reported strict : rtc (any_move strict) (w_db w_posted) (w_db w_reported).
Proof.
  apply (reachable_moves strict (mkState w_posted []) (mkState w_reported [])); [apply at_posted|].
  apply run_schedule_steps. solve_programs.
Qed.

Lemma accepted_job_can_be_followed_witness :
  ∃ a job,
    (run (serve default_settings demo_post) init_world).1 = Ok (mkResponse 202 (AcceptedBody a))
    ∧ (∀ r, route_ids_ok r → endpoint r = (GET, ja_status_url a) ↔ r = GetJob (ja_job_id a))
    ∧ run (serve default_settings (mkRequest (Some "alice") (GetJob (ja_job_id a)))) w_reported
      = (Ok (mkResponse 200 (JobBody job)), w_reported)
    ∧ js_status (jr_summary job) = SUCCEEDED ∧ js_type (jr_summary job) = JobType.REPORT.
Proof.
  assert (∃ a, (run (serve default_settings demo_post) init_world).1 = Ok (mkResponse 202 (AcceptedBody a))
    ∧ match jobs (w_db w_reported) !! ja_job_id a with
      | Some j => bool_decide (j_status j = SUCCEEDED) | None => false end = true)
    as (a & Ha & Hdone) by (eexists; split; by vm_compute).
  pose proof (run_cwp _ eq _ _ _ init_world ltac:(apply _) (Inv_empty true)
    (accepted_job_can_be_followed (env := demo_env) default_settings (Some "alice") demo_report (Some "key-2") true eq
       initial ltac:(split; apply _) (rtc_refl _ _)) a Ha) as [Hpath Hread].
  destruct (Hread w_reported (to_reported true)) as (job & _ & [Hreq|(k & d1 & j1 & _ & <- & Hnone & _)] & Hget);
    [|change ((∅ : gmap uuid Job) !! ja_job_id a = Some j1) in Hnone; by rewrite lookup_empty in Hnone].
  specialize (Hget (Some "alice")). rewrite bool_decide_eq_true_2 in Hget by done.
  exists a, job. split; [exact Ha|]. split; [exact Hpath|]. split; [exact Hget|].
  split; [|exact (proj1 Hreq)].
  destruct (jobs (w_db w_reported) !! ja_job_id a) as [j|] eqn:Hj; [|discriminate Hdone].
  apply bool_decide_eq_true_1 in Hdone. rewrite <-Hdone.
  assert (j_id j = ja_job_id a) as Hid.
  { apply (ok_id (ja_job_id a)). apply (inv_jobs true (w_db w_reported)); [|exact Hj].
    apply (moves_Inv true _ _ (to_reported true)), (reachable_Inv true _ (at_posted true)). }
  rewrite <-Hid in Hj, Hget. rewrite (job_read_back _ _ _ _ _ Hj Hget). reflexivity.
Defined.
