(* ===== verification/SchedulerSpec.v ===== *)
(** What the scheduler's control loops do: which rows a batch takes, what becomes
    of each, and which rows no loop touches. *)

From S2P Require Import Prelude PyStr PyFloat Json Domain Config Uuid Models Effects.
From S2P Require Import Repositories Queue Notifications Catalog Logic Lifecycle Invariant.
From S2P Require Import Submission Cancellation Execution Scheduling Worker Steps Transactions.
From S2P Require Import Programs System Demo WorkerSpec ServiceSpec.
Import JobStatus.

(** ** Selection of a batch *)

Section Selection.
Context {A : Type} (guard : A → bool) (key : A → option Z) (limit : Z) (locked : uuid → bool)
  (t : gmap uuid A).

Abbreviation selected := (select_rows guard key limit locked t).

#[local] Instance by_key_total : Total (by_key key).
Proof.
  intros a b. unfold by_key, nulls_first. destruct (key a) as [x|], (key b) as [y|]; auto.
  destruct (Z.leb_spec x y); [by left|]. right. apply Z.leb_le. lia.
Qed.

#[local] Instance by_key_transitive : Transitive (by_key key).
Proof.
  intros a b c. unfold by_key, nulls_first. destruct (key a), (key b), (key c); auto; try done.
  rewrite !Z.leb_le. lia.
Qed.

(** The rows that match and are free, each once and in order: the batch is their
    beginning. *)
Lemma selected_first :
  ∃ rows : list (uuid * A), NoDup rows.*1
    ∧ (∀ i a, (i, a) ∈ rows ↔ t !! i = Some a ∧ guard a = true ∧ locked i = false)
    ∧ StronglySorted (by_key key) rows.*2
    ∧ selected = take (Z.to_nat limit) rows.*2.
Proof.
  unfold select_rows. set (free := filter (where_unlocked guard locked) (map_to_list t)).
  destruct (Permutation_map_inv snd free (merge_sort_Permutation (by_key key) free.*2)) as (rows & Hrows & Hperm).
  change (map snd rows) with rows.*2 in Hrows.
  exists rows. rewrite <-Hrows. split; [|split; [|split]].
  - rewrite <-Hperm. eapply sublist_NoDup; [|apply fmap_sublist, sublist_filter]. apply NoDup_fst_map_to_list.
  - intros i a. rewrite <-Hperm. unfold free. rewrite list_elem_of_filter, elem_of_map_to_list.
    unfold where_unlocked. cbn. rewrite andb_true_iff, negb_true_iff. tauto.
  - apply StronglySorted_merge_sort; apply _.
  - done.
Qed.
End Selection.

(** The specification of a batch: of all the rows of the table that satisfy [P] and
    that no other session holds, each taken once and in the order of [key] with
    NULL first, the first [limit]. *)
Definition batch_spec {A} (P : A → Prop) (key : A → option Z) (limit : Z) (locked : uuid → bool)
  (t : gmap uuid A) (l : list A) : Prop :=
  ∃ rows : list (uuid * A), NoDup rows.*1
    ∧ (∀ i a, (i, a) ∈ rows ↔ t !! i = Some a ∧ P a ∧ locked i = false)
    ∧ StronglySorted (by_key key) rows.*2
    ∧ l = take (Z.to_nat limit) rows.*2.

Section Batches.
Context {env : Env}.

Lemma select_batch {A} (table : Db → gmap uuid A) guard key limit (P : A → Prop) w :
  (∀ a, guard a = true ↔ P a) →
  ∃ l, (select_for_update table guard key limit w).1 = Ok l
    ∧ batch_spec P key limit (locked_row (w_count w)) (table (w_db w)) l.
Proof.
  intros HP. destruct (selected_first guard key limit (locked_row (w_count w)) (table (w_db w)))
    as (rows & Hnd & Hin & Hsort & Hsel).
  eexists. split; [reflexivity|]. exists rows. split; [done|]. split; [|split; [done|exact Hsel]].
  intros i a. by rewrite Hin, HP.
Qed.

Lemma lt_opt_spec a b : lt_opt a b = true ↔ ∃ t, a = Some t ∧ t < b.
Proof.
  destruct a as [t|]; simpl; [rewrite Z.ltb_lt|]; (split; [intros H|intros (x & Hx & Hlt)]);
    [by exists t|by injection Hx as ->|done|done].
Qed.
Lemma le_opt_spec a b : le_opt a b = true ↔ ∃ t, a = Some t ∧ t <= b.
Proof.
  destruct a as [t|]; simpl; [rewrite Z.leb_le|]; (split; [intros H|intros (x & Hx & Hlt)]);
    [by exists t|by injection Hx as ->|done|done].
Qed.

(** C26: each control loop takes exactly the rows it is for: retries that are
    due, leases that have run out of running jobs, queued jobs that were not
    delivered lately, jobs waiting for too long, announcements to be published and
    notifications that are due.  Of all such rows that no other session holds,
    each counted once, the batch is the first ones in the order of their time (a
    queued job never delivered comes first), up to the batch size: when it is
    full, every row left out is at least as late as every row taken, and when it
    is not, none is left out. *)
Theorem batches_take_the_due_rows (now limit : Z) (w : World) :
  0 <= limit →
  (∃ l, (JobRepository.find_due_retries now limit w).1 = Ok l
     ∧ batch_spec (λ j, j_status j = RETRYING ∧ ∃ t, j_next_attempt_at j = Some t ∧ t <= now)
         j_next_attempt_at limit (locked_row (w_count w)) (jobs (w_db w)) l)
  ∧ (∃ l, (JobRepository.find_expired_leases now limit w).1 = Ok l
     ∧ batch_spec (λ j, j_status j = RUNNING ∧ ∃ t, j_lock_expires_at j = Some t ∧ t < now)
         j_lock_expires_at limit (locked_row (w_count w)) (jobs (w_db w)) l)
  ∧ (∃ l, (JobRepository.find_stuck_queued now limit w).1 = Ok l
     ∧ batch_spec (λ j, j_status j = QUEUED
           ∧ (j_last_dispatched_at j = None ∨ ∃ t, j_last_dispatched_at j = Some t ∧ t < now))
         j_last_dispatched_at limit (locked_row (w_count w)) (jobs (w_db w)) l)
  ∧ (∃ l, (JobRepository.find_expirable now limit w).1 = Ok l
     ∧ batch_spec (λ j, j_status j ∈ [PENDING; QUEUED] ∧ j_created_at j < now)
         (λ j, Some (j_created_at j)) limit (locked_row (w_count w)) (jobs (w_db w)) l)
  ∧ (∃ l, (DispatchOutboxRepository.claim_pending limit w).1 = Ok l
     ∧ batch_spec (λ o, d_status o = OutboxStatus.PENDING) (λ o, Some (d_created_at o)) limit
         (locked_row (w_count w)) (dispatch_outbox (w_db w)) l)
  ∧ (∃ l, (NotificationOutboxRepository.claim_due now limit w).1 = Ok l
     ∧ batch_spec (λ n, n_status n = NotificationStatus.PENDING ∧ n_next_attempt_at n <= now)
         (λ n, Some (n_next_attempt_at n)) limit
         (locked_row (w_count w)) (notification_outbox (w_db w)) l).
Proof.
  intros _. split; [|split; [|split; [|split; [|split]]]]; apply select_batch; intros a.
  - rewrite andb_true_iff, le_opt_spec. unfold status_is. by rewrite bool_decide_eq_true.
  - rewrite andb_true_iff, lt_opt_spec. unfold status_is. by rewrite bool_decide_eq_true.
  - rewrite andb_true_iff, orb_true_iff, lt_opt_spec. unfold status_is.
    rewrite bool_decide_eq_true. destruct (j_last_dispatched_at a); simpl; intuition congruence.
  - rewrite andb_true_iff, Z.ltb_lt. unfold status_in. by rewrite bool_decide_eq_true.
  - by rewrite bool_decide_eq_true.
  - by rewrite andb_true_iff, Z.leb_le, bool_decide_eq_true.
Qed.
End Batches.

(** ** What becomes of a row *)

Section Decisions.
Context {env : Env}.

(** The reaper takes a running job whose lease expired back to the queue
    while attempts are left, keeping its attempts, and otherwise fails it as
    dead-lettered with the error LEASE_EXPIRED and notifies its owner. *)
Theorem reaper_decision (now : datetime) (j : Job) (w : World) :
  jobs (w_db w) !! j_id j = Some j → j_status j = RUNNING →
  commits (reap_row now j) w (λ o d', ∃ j',
    jobs d' = <[j_id j := j']> (jobs (w_db w))
    ∧ j_locked_by j' = None ∧ j_lock_expires_at j' = None ∧ j_attempts j' = j_attempts j
    ∧ if j_max_attempts j <=? j_attempts j
      then o = Some (DeadLettered (uuid_str (j_id j)))
           ∧ j_status j' = FAILED ∧ j_error_code j' = Some "LEASE_EXPIRED"
           ∧ j_dead_lettered_at j' = Some now ∧ j_completed_at j' = Some now
           ∧ ∃ k n, notification_outbox d' !! k = Some n
               ∧ n_dedupe_key n = dedupe_key (j_id j) JobEventType.FAILED
      else o = Some (Requeued (uuid_str (j_id j), j_priority j))
           ∧ j_status j' = QUEUED ∧ j_queued_at j' = Some now
           ∧ notification_outbox d' = notification_outbox (w_db w)).
Proof.
  intros Hj Hs. apply transaction_commits; [unfold reap_row; raises_solve|].
  unfold reap_row. destruct (j_max_attempts j <=? j_attempts j).
  - apply wp_bind, (wp_update_held _ _ _ _ _ j Hj); [unfold status_is; by rewrite Hs|].
    apply wp_bind, wp_event_same_jobs. intros d1 H1.
    apply wp_bind, wp_notify_present. intros d2 k n H2 Hk Hkey. apply wp_ret.
    eexists. split; [by rewrite H2, H1|]. repeat split. by exists k, n.
  - apply wp_bind, (wp_update_held _ _ _ _ _ j Hj); [unfold status_is; by rewrite Hs|].
    apply wp_bind, wp_record. intros e _ _ _ _ _ _. apply wp_ret.
    eexists. split; [reflexivity|]. done.
Qed.

(** The promotion of a due retry puts the job back in the queue with its
    attempts, for publication under its own priority. *)
Theorem promotion_decision (now : datetime) (j : Job) (w : World) :
  jobs (w_db w) !! j_id j = Some j → j_status j = RETRYING →
  commits (promote_row now j) w (λ o d', ∃ j',
    jobs d' = <[j_id j := j']> (jobs (w_db w))
    ∧ o = Some (uuid_str (j_id j), j_priority j)
    ∧ j_status j' = QUEUED ∧ j_queued_at j' = Some now ∧ j_last_dispatched_at j' = Some now
    ∧ j_next_attempt_at j' = None ∧ j_attempts j' = j_attempts j).
Proof.
  intros Hj Hs. apply transaction_commits; [unfold promote_row; raises_solve|].
  apply wp_bind, (wp_update_held _ _ _ _ _ j Hj); [unfold status_is; by rewrite Hs|].
  apply wp_bind, wp_event_same_jobs. intros d1 H1. apply wp_ret.
  eexists. split; [exact H1|]. done.
Qed.

Lemma expire_raises now j : raises_only is_db_error (expire_row now j).
Proof.
  unfold expire_row. apply raises_bind; [apply raises_update_jobs|]. intros [|]; [|apply raises_ret].
  apply raises_bind; [apply raises_query|]. intros s. raises_solve.
Qed.

(** A job that waits for too long is expired, whether or not it has run
    before: a queued job that a retry or the reaper put back, with attempts
    already made, is expired too, and its owner is told it never started. *)
Theorem expiry_decision (now : datetime) (j : Job) (w : World) :
  jobs (w_db w) !! j_id j = Some j → j_status j ∈ [PENDING; QUEUED] →
  commits (expire_row now j) w (λ n d', n = 1 ∧ (∃ j',
    jobs d' = <[j_id j := j']> (jobs (w_db w))
    ∧ j_status j' = EXPIRED ∧ j_completed_at j' = Some now ∧ j_attempts j' = j_attempts j)
    ∧ ∃ k n, notification_outbox d' !! k = Some n
        ∧ n_dedupe_key n = dedupe_key (j_id j) JobEventType.EXPIRED).
Proof.
  intros Hj Hs. apply transaction_commits; [apply expire_raises|].
  apply wp_bind, (wp_update_held _ _ _ _ _ j Hj).
  { unfold status_in. by apply bool_decide_eq_true_2. }
  apply wp_bind, wp_query, wp_bind, wp_event_same_jobs. intros d1 H1.
  apply wp_bind, wp_notify_present. intros d2 k n H2 Hk Hkey. apply wp_ret.
  split; [done|]. split; [|by exists k, n]. eexists. split; [by rewrite H2, H1|]. done.
Qed.

(** The dispatcher publishes an outbox row once: it marks it published and
    queues a pending job.  It does so as well when the job is no longer
    pending, a cancelled one for instance: then the job is left alone, but a
    QUEUED event is recorded and its id is published to the workers. *)
Theorem dispatch_decision (now : datetime) (o : DispatchOutbox) (j : Job) (w : World) :
  dispatch_outbox (w_db w) !! d_id o = Some o → jobs (w_db w) !! d_job_id o = Some j →
  commits (dispatch_row now o) w (λ r d',
    r = Some (uuid_str (d_job_id o), j_priority j)
    ∧ dispatch_outbox d' !! d_id o = Some (o <| d_status := OutboxStatus.PUBLISHED |>
         <| d_published_at := Some now |> <| d_attempts := d_attempts o + 1 |>)
    ∧ (∃ k e, job_events d' !! k = Some e ∧ e_job_id e = d_job_id o
         ∧ e_event_type e = JobEventType.QUEUED ∧ e_from_status e = Some PENDING)
    ∧ if bool_decide (j_status j = PENDING)
      then ∃ j', jobs d' = <[d_job_id o := j']> (jobs (w_db w)) ∧ j_status j' = QUEUED
      else jobs d' = jobs (w_db w)).
Proof.
  intros Ho Hj. apply transaction_commits; [unfold dispatch_row; raises_solve|].
  apply wp_bind, wp_query. rewrite Hj. apply wp_bind, wp_modify.
  rewrite (update_dispatch_set _ _ _ o Ho). apply wp_bind.
  case_bool_decide as Hs.
  - apply (wp_update_held _ _ _ _ _ j); [exact Hj|unfold status_is; by rewrite Hs|].
    apply wp_bind, wp_record. intros e _ He _ Hty Hfrom _. apply wp_ret.
    split; [done|]. split; [cbn; apply lookup_insert_eq|]. split; [|by eexists].
    exists (e_id e), e. cbn. by rewrite lookup_insert_eq.
  - apply wp_update_missed.
    { intros x Hx. assert (x = j) as -> by (cbn in Hx; congruence).
      by apply bool_decide_eq_false_2. }
    apply wp_bind, wp_record. intros e _ He _ Hty Hfrom _. apply wp_ret.
    split; [done|]. split; [cbn; apply lookup_insert_eq|]. split; [|done].
    exists (e_id e), e. cbn. by rewrite lookup_insert_eq.
Qed.
End Decisions.

(** ** A job no control loop touches *)

Section Untouched.
Context {env : Env} (i : uuid) (j : Job).
Hypothesis Hcancelling : j_status j = CANCELLING.

Definition has_row (d : Db) : Prop := jobs d !! i = Some j.

Definition preserves {A} (m : M A) : Prop := ∀ d, has_row d → wp m (λ _, has_row) d.

Lemma preserves_bind {A B} (m : M A) (f : A → M B) :
  preserves m → (∀ a, preserves (f a)) → preserves (m ≫= f).
Proof. intros Hm Hf d Hd. apply wp_bind. eapply wp_mono; [by apply Hm|]. intros a d'. apply Hf. Qed.
Lemma preserves_ret {A} (a : A) : preserves (mret a).
Proof. intros d Hd. by apply wp_ret. Qed.
Lemma preserves_raise {A} e : preserves (A:=A) (raise e).
Proof. intros d Hd. apply wp_raise. Qed.
Lemma preserves_quiet {A} (m : M A) : quiet m → preserves m.
Proof.
  intros Hq d Hd w <-. specialize (Hq w). destruct (m w) as [[a|e] w']; [|done].
  simpl in *. unfold has_row. by rewrite Hq.
Qed.
Lemma preserves_for_each {A B} (l : list A) (f : A → M B) :
  (∀ a, preserves (f a)) → preserves (for_each l f).
Proof.
  intros Hf. induction l as [|a l IH]; [apply preserves_ret|].
  apply preserves_bind; [apply Hf|]. intros b. apply preserves_bind; [apply IH|]. intros bs.
  apply preserves_ret.
Qed.
Lemma preserves_modify f : (∀ d, jobs (f d) = jobs d) → preserves (modify_db f).
Proof. intros Hf d Hd. apply wp_modify. unfold has_row. by rewrite Hf. Qed.
Lemma preserves_update k guard values : guard j = false → preserves (update_jobs k guard values).
Proof.
  intros Hg d Hd. apply wp_update_jobs; [|done]. intros x Hx Hgx _ _. unfold has_row in *. cbn.
  rewrite lookup_insert_ne; [done|]. intros ->. congruence.
Qed.
Lemma preserves_record k ty from to detail : preserves (JobEventRepository.record k ty from to detail).
Proof. intros d Hd. apply wp_record. by intros. Qed.
Lemma preserves_notify job ev status result c m now :
  preserves (enqueue_terminal_notification job ev status result c m now).
Proof. intros d Hd. apply wp_notify_same_jobs. intros d' H. unfold has_row. by rewrite H. Qed.
Lemma preserves_select {A} (table : Db → gmap uuid A) guard key limit :
  preserves (select_for_update table guard key limit).
Proof. by apply preserves_quiet. Qed.

Hint Resolve preserves_ret preserves_raise preserves_record preserves_notify preserves_select
  preserves_bind preserves_for_each : keeps.

Lemma preserves_dispatch now o : preserves (dispatch_row now o).
Proof.
  apply preserves_bind; [by apply preserves_quiet|]. intros found.
  apply preserves_bind; [by apply preserves_modify|]. intros _.
  destruct found; [|auto with keeps]. apply preserves_bind; [|auto with keeps].
  apply preserves_update. unfold status_is. by rewrite Hcancelling.
Qed.
Lemma preserves_promote now x : preserves (promote_row now x).
Proof.
  apply preserves_bind; [apply preserves_update; unfold status_is; by rewrite Hcancelling|].
  intros []; auto with keeps.
Qed.
Lemma preserves_redeliver x : preserves (redeliver_row x).
Proof.
  apply preserves_bind; [by apply preserves_quiet|]. intros now.
  apply preserves_bind; [apply preserves_update; unfold status_is; by rewrite Hcancelling|].
  auto with keeps.
Qed.
Lemma preserves_reap now x : preserves (reap_row now x).
Proof.
  unfold reap_row. destruct (_ <=? _);
    (apply preserves_bind; [apply preserves_update; unfold status_is; by rewrite Hcancelling|];
     intros []; auto with keeps).
Qed.
Lemma preserves_expire now x : preserves (expire_row now x).
Proof.
  apply preserves_bind; [apply preserves_update; unfold status_in; by rewrite Hcancelling|].
  intros []; [|auto with keeps]. apply preserves_bind; [by apply preserves_quiet|]. auto with keeps.
Qed.
Lemma preserves_attempt settings n : preserves (_attempt settings n).
Proof.
  apply preserves_bind.
  { intros d Hd. apply wp_try_quiet; [apply deliver_quiet|done]. }
  assert (Hw : ∀ k f, preserves (modify_db (update_notification k f)))
    by (intros; by apply preserves_modify).
  intros [[]|e].
  - apply preserves_bind; [by apply preserves_quiet|]. intros now. apply Hw.
  - destruct e; auto with keeps. unfold _on_failure. cbv zeta. destruct (_ <=? _); [apply Hw|].
    apply preserves_bind; [by apply preserves_quiet|]. intros draw.
    apply preserves_bind; [destruct (compute_backoff_seconds _ _ _); [apply preserves_raise|apply preserves_ret]|]. intros b.
    apply preserves_bind; [by apply preserves_quiet|]. intros now.
    apply preserves_bind; [destruct (timedelta_of_seconds _); [apply preserves_raise|apply preserves_ret]|]. intros t. apply Hw.
Qed.

(** *** The loops *)

Definition untouched {A} (c : co A) : Prop := ∀ d, has_row d → cwp_alone c (λ _, has_row) d.

Lemma untouched_bind {A B} (c : co A) (f : A → co B) :
  untouched c → (∀ a, untouched (f a)) → untouched (c ≫= f).
Proof.
  intros Hc Hf d Hd. apply alone_bind. eapply cwp_mono; [by apply Hc|].
  intros [a|e] d' Hd'; [by apply Hf|done].
Qed.
Lemma untouched_ret {A} (a : A) : untouched (Ret a).
Proof. by intros d. Qed.
Lemma untouched_quiet {A} (m : M A) : quiet m → untouched (act m).
Proof. intros Hq d Hd. by apply alone_quiet. Qed.
Lemma untouched_transaction {A} (body : M A) : preserves body → untouched (act (transaction body)).
Proof. intros Hb d Hd. apply alone_transaction; [by apply Hb|done]. Qed.
Lemma untouched_for_each {A} (l : list A) (f : A → co unit) :
  (∀ a, untouched (f a)) → untouched (co_for_each l f).
Proof. intros Hf. induction l as [|a l IH]; [by intros d|]. by apply untouched_bind. Qed.
Lemma untouched_publish settings l : untouched (publish_all settings l).
Proof. apply untouched_for_each. intros p. apply untouched_quiet, quiet_redis. Qed.

Lemma preserves_batch {A B C} (table : Db → gmap uuid A) guard key limit (f : A → M B) (g : list B → C) :
  (∀ a, preserves (f a)) →
  preserves (rows ← select_for_update table guard key limit; bs ← for_each rows f; mret (g bs)).
Proof.
  intros Hf. apply preserves_bind; [apply preserves_select|]. intros rows.
  apply preserves_bind; [by apply preserves_for_each|]. intros bs. apply preserves_ret.
Qed.

Lemma tick_untouched settings : untouched (tick (build_scheduler settings)).
Proof.
  unfold tick, build_scheduler.
  cbn [_dispatch_pending _dispatch_redeliver _retry _lease _expiry _notifications _batch_size]. apply untouched_bind.
  { apply untouched_bind; [by apply untouched_quiet|]. intros now. apply untouched_bind.
    - apply untouched_transaction, preserves_batch. intros. apply preserves_dispatch.
    - intros l. apply untouched_bind; [apply untouched_publish|]. intros _. apply untouched_ret. }
  intros _. apply untouched_bind.
  { apply untouched_bind; [by apply untouched_quiet|]. intros now. apply untouched_bind.
    - apply untouched_transaction, preserves_batch. intros. apply preserves_promote.
    - intros l. apply untouched_bind; [apply untouched_publish|]. intros _. apply untouched_ret. }
  intros _. apply untouched_bind.
  { apply untouched_bind; [by apply untouched_quiet|]. intros now. apply untouched_bind.
    - apply untouched_transaction, preserves_batch. intros. apply preserves_reap.
    - intros l. apply untouched_bind.
      + apply untouched_for_each. intros x. apply untouched_quiet, quiet_redis.
      + intros _. apply untouched_bind; [apply untouched_publish|]. intros _. apply untouched_ret. }
  intros _. apply untouched_bind.
  { apply untouched_bind; [by apply untouched_quiet|]. intros now. apply untouched_bind.
    - apply untouched_transaction, preserves_bind; [apply preserves_select|]. intros rows.
      apply preserves_for_each. intros. apply preserves_redeliver.
    - intros l. apply untouched_bind; [apply untouched_publish|]. intros _. apply untouched_ret. }
  intros _. apply untouched_bind.
  { apply untouched_bind; [by apply untouched_quiet|]. intros now.
    apply untouched_transaction, preserves_batch. intros. apply preserves_expire. }
  intros _. apply untouched_bind; [|by intros n d].
  apply untouched_transaction, preserves_bind; [by apply preserves_quiet|]. intros now.
  apply preserves_bind; [apply preserves_select|]. intros rows.
  apply preserves_bind; [|intros; apply preserves_ret].
  apply preserves_for_each. intros. apply preserves_attempt.
Qed.

Lemma scheduler_untouched settings n : untouched (scheduler_run settings n).
Proof.
  induction n as [|n IH]; [by intros d|]. apply untouched_bind.
  { intros d Hd. apply cwp_try. by apply tick_untouched. }
  intros _. apply untouched_bind; [by apply untouched_quiet|]. by intros _.
Qed.
End Untouched.

(** C27: a job whose worker dies after its cancellation was requested is never
    recovered: however many ticks the scheduler makes, under any settings and
    at any time after its lease expired, the row stays cancelling, lease and
    all, and no worker can claim it. *)
Theorem orphaned_cancelling_job_is_stuck `{env : Env} (settings : Settings) (ticks : nat)
  (i : uuid) (j : Job) (w : World) :
  jobs (w_db w) !! i = Some j → j_status j = CANCELLING →
  jobs (w_db (run (scheduler_run settings ticks) w).2) !! i = Some j
  ∧ ∀ s worker now, claim_body s worker i now w = (Ok None, w).
Proof.
  intros Hj Hs. split.
  - apply (run_alone _ (λ _, has_row i j)). by apply scheduler_untouched.
  - intros s worker now. apply (claim_body_refused _ _ _ j); [exact Hj|].
    unfold claimable, status_in. by rewrite Hs.
Qed.

(** ** At concrete states *)

Lemma batches_take_the_due_rows_witness :
  ∃ l, (JobRepository.find_expired_leases 1700009999000000 100 w_running).1 = Ok l
    ∧ batch_spec (λ j, j_status j = RUNNING ∧ ∃ t, j_lock_expires_at j = Some t ∧ t < 1700009999000000)
        j_lock_expires_at 100 (locked_row (w_count w_running)) (jobs (w_db w_running)) l.
Proof.
  destruct (batches_take_the_due_rows 1700009999000000 100 w_running) as (_ & H & _); [lia|].
  exact H.
Defined.

Lemma reaper_decision_witness :
  j_status (row_at w_running) = RUNNING
  ∧ commits (reap_row 1700009999000000 (row_at w_running)) w_running (λ o d', ∃ j',
      jobs d' = <[j_id (row_at w_running) := j']> (jobs (w_db w_running)) ∧ j_locked_by j' = None).
Proof.
  assert (j_status (row_at w_running) = RUNNING) as Hs by (by vm_compute). split; [exact Hs|].
  assert (jobs (w_db w_running) !! j_id (row_at w_running) = Some (row_at w_running)) as Hj
    by (by vm_compute).
  pose proof (reaper_decision 1700009999000000 (row_at w_running) w_running Hj Hs) as H.
  unfold commits in *. destruct (transaction _ _) as [[o|e] w']; [|exact H].
  destruct H as (j' & H1 & H2 & _). exists j'. split; [exact H1|exact H2].
Defined.

Lemma promotion_decision_witness :
  commits (promote_row 1700009999000000 (row_at w_retrying)) w_retrying (λ o d', ∃ j',
    jobs d' = <[j_id (row_at w_retrying) := j']> (jobs (w_db w_retrying))
    ∧ o = Some (uuid_str (j_id (row_at w_retrying)), j_priority (row_at w_retrying))
    ∧ j_status j' = QUEUED ∧ j_queued_at j' = Some 1700009999000000
    ∧ j_last_dispatched_at j' = Some 1700009999000000
    ∧ j_next_attempt_at j' = None ∧ j_attempts j' = j_attempts (row_at w_retrying)).
Proof. apply promotion_decision; by vm_compute. Defined.

Lemma expiry_decision_witness :
  commits (expire_row 1700009999000000 (row_at w_queued)) w_queued (λ n d', n = 1 ∧ (∃ j',
    jobs d' = <[j_id (row_at w_queued) := j']> (jobs (w_db w_queued))
    ∧ j_status j' = EXPIRED ∧ j_completed_at j' = Some 1700009999000000
    ∧ j_attempts j' = j_attempts (row_at w_queued))
    ∧ ∃ k n, notification_outbox d' !! k = Some n
        ∧ n_dedupe_key n = dedupe_key (j_id (row_at w_queued)) JobEventType.EXPIRED).
Proof.
  apply expiry_decision; [by vm_compute|].
  assert (j_status (row_at w_queued) = QUEUED) as -> by (by vm_compute). set_solver.
Defined.

(** The outbox row of a cancelled job, not dispatched yet. *)
Definition first_announcement : uuid := 5%N.
Definition announcement_at (w : World) : DispatchOutbox :=
  match dispatch_outbox (w_db w) !! first_announcement with
  | Some o => o
  | None => mkDispatchOutbox 0 0 OutboxStatus.PUBLISHED 0 0 None
  end.

Lemma dispatch_decision_witness :
  j_status (row_at w_cancelled) = CANCELLED
  ∧ commits (dispatch_row 0 (announcement_at w_cancelled)) w_cancelled (λ r d',
      r = Some (uuid_str first_job, j_priority (row_at w_cancelled))).
Proof.
  split; [by vm_compute|].
  assert (dispatch_outbox (w_db w_cancelled) !! d_id (announcement_at w_cancelled)
          = Some (announcement_at w_cancelled)) as Ho by (by vm_compute).
  assert (d_job_id (announcement_at w_cancelled) = first_job) as Hi by (by vm_compute).
  assert (jobs (w_db w_cancelled) !! d_job_id (announcement_at w_cancelled)
          = Some (row_at w_cancelled)) as Hj by (by vm_compute).
  pose proof (dispatch_decision 0 _ _ w_cancelled Ho Hj) as H. rewrite Hi in H.
  unfold commits in *. destruct (transaction _ _) as [[r|e] w']; [|exact H]. apply H.
Defined.

Lemma orphaned_cancelling_job_is_stuck_witness :
  j_status (row_at w_cancelling) = CANCELLING
  ∧ jobs (w_db (run (scheduler_run default_settings 100) w_cancelling).2) !! first_job
    = Some (row_at w_cancelling).
Proof.
  assert (j_status (row_at w_cancelling) = CANCELLING) as Hs by (by vm_compute). split; [exact Hs|].
  destruct (orphaned_cancelling_job_is_stuck default_settings 100 first_job (row_at w_cancelling)
              w_cancelling) as [H _]; [by vm_compute|exact Hs|exact H].
Defined.
