(* ===== verification/QueueSpec.v ===== *)
(** The delivery queue against its abstract specification: one list of job ids
    per priority, the oldest first, served by priority. *)

From S2P Require Import Prelude PyStr PyFloat Json Domain Uuid Models Effects Queue Logic.
From S2P Require Import System Demo.
Import JobPriority.

Section QueueSpec.
Context {env : Env} (namespace : string).

Abbreviation key := (JobQueue._queue_key namespace).

(** ** The abstract queue *)

Definition AbstractQueue : Type := JobPriority → list string.

Definition enqueue (id : string) (p : JobPriority) (q : AbstractQueue) : AbstractQueue :=
  λ p', if bool_decide (p' = p) then q p' ++ [id] else q p'.

(** The oldest id of the first priority of [ps] that has one. *)
Fixpoint dequeue (ps : list JobPriority) (q : AbstractQueue) : option string * AbstractQueue :=
  match ps with
  | [] => (None, q)
  | p :: ps' =>
      match q p with
      | [] => dequeue ps' q
      | id :: rest => (Some id, λ p', if bool_decide (p' = p) then rest else q p')
      end
  end.

(** What the Redis lists stand for: the head of a list is the newest. *)
Definition abstract (s : redis_state) : AbstractQueue := λ p, rev (contents s (key p)).

Definition same_queue (q1 q2 : AbstractQueue) : Prop := ∀ p, q1 p = q2 p.

#[export] Instance same_queue_equivalence : Equivalence same_queue.
Proof.
  split; [by intros q p|by intros q1 q2 H p|intros q1 q2 q3 H12 H23 p; by rewrite H12].
Qed.

#[export] Instance enqueue_proper id p : Proper (same_queue ==> same_queue) (enqueue id p).
Proof. intros q1 q2 H p'. unfold enqueue. by rewrite (H p'). Qed.

Lemma dequeue_same ps q1 q2 :
  same_queue q1 q2 →
  (dequeue ps q1).1 = (dequeue ps q2).1 ∧ same_queue (dequeue ps q1).2 (dequeue ps q2).2.
Proof.
  intros H. induction ps as [|p ps IH]; [done|]. simpl. rewrite <-(H p).
  destruct (q1 p); [done|]. split; [done|]. intros p'. simpl. by rewrite (H p').
Qed.

(** ** Keys *)

Lemma queue_key_inj p1 p2 : key p1 = key p2 → p1 = p2.
Proof.
  unfold JobQueue._queue_key. intros H. apply str_app_inj in H as [_ H]; [|done].
  apply str_app_inj in H as [_ H]; [|done]. by destruct p1, p2.
Qed.

Lemma queue_key_eqb p1 p2 : String.eqb (key p1) (key p2) = bool_decide (p2 = p1).
Proof.
  destruct (String.eqb_spec (key p1) (key p2)) as [H|H]; symmetry.
  - apply bool_decide_eq_true_2. symmetry. by apply queue_key_inj.
  - apply bool_decide_eq_false_2. congruence.
Qed.

Lemma dead_letter_key_ne p : key p ≠ JobQueue._dead_letter_key namespace.
Proof.
  unfold JobQueue._queue_key, JobQueue._dead_letter_key. intros H.
  apply str_app_inj in H as [_ H]; [|done]. by destruct p.
Qed.

(** ** Refinement *)

(** A Redis command of the queue: it runs when Redis is reachable and raises
    [RedisError], changing nothing, when it is not. *)
Definition redis_outcome {A} (m : M A) (w : World) (Q : A → redis_state → Prop) : Prop :=
  match m w with
  | (Ok a, w') => redis_down (w_count w) = false ∧ Q a (w_redis w') ∧ w_db w' = w_db w
  | (Err e, w') => redis_down (w_count w) = true ∧ (∃ text, e = RedisError text)
                   ∧ w_redis w' = w_redis w ∧ w_db w' = w_db w
  end.

Lemma redis_command_outcome {A} (f : redis_state → A * redis_state) w (Q : A → redis_state → Prop) :
  Q (f (w_redis w)).1 (f (w_redis w)).2 → redis_outcome (redis_command f) w Q.
Proof.
  intros HQ. unfold redis_outcome, redis_command, mbind, M_bind, reading. simpl.
  destruct (redis_down (w_count w)).
  - split; [done|]. split; [by eexists|]. done.
  - unfold on_redis. simpl. destruct (f (w_redis w)). done.
Qed.

(** Publication appends the job to the end of the list of its priority,
    and leaves the other lists alone. *)
Lemma abstract_lpush id p s :
  same_queue (abstract (lpush (key p) id s)) (enqueue id p (abstract s)).
Proof.
  intros p'. unfold abstract, enqueue. rewrite contents_lpush, queue_key_eqb. by case_bool_decide.
Qed.

(** The dead-letter list is none of them. *)
Lemma abstract_dead_letter id s :
  same_queue (abstract (lpush (JobQueue._dead_letter_key namespace) id s)) (abstract s).
Proof.
  intros p. unfold abstract. rewrite contents_lpush.
  destruct (String.eqb_spec (JobQueue._dead_letter_key namespace) (key p)) as [E|]; [|done].
  by destruct (dead_letter_key_ne p).
Qed.

Lemma publish_refines (id : string) (p : JobPriority) (w : World) :
  redis_outcome (JobQueue.publish namespace id p) w (λ _ s',
    same_queue (abstract s') (enqueue id p (abstract (w_redis w)))
    ∧ contents s' (JobQueue._dead_letter_key namespace)
      = contents (w_redis w) (JobQueue._dead_letter_key namespace)).
Proof.
  apply redis_command_outcome. cbn. split; [apply abstract_lpush|].
  rewrite contents_lpush. destruct (String.eqb_spec (key p) (JobQueue._dead_letter_key namespace));
    [|done]. by destruct (dead_letter_key_ne p).
Qed.

Lemma contents_rev s p l v : rev (contents s (key p)) = v :: l → contents s (key p) = rev l ++ [v].
Proof. intros H. rewrite <- (List.rev_involutive (contents s (key p))), H. done. Qed.

Lemma brpop_dequeue ps1 ps s :
  (∀ p, p ∈ ps1 → abstract s p = []) →
  snd <$> (brpop (map key (ps1 ++ ps)) s).1 = (dequeue ps (abstract s)).1
  ∧ same_queue (abstract (brpop (map key (ps1 ++ ps)) s).2) (dequeue ps (abstract s)).2.
Proof.
  revert ps1. induction ps as [|p ps IH]; intros ps1 Hempty.
  - rewrite app_nil_r. destruct (brpop_none (map key ps1) s) as [-> Hsame].
    { apply List.Forall_forall. intros k Hk. apply List.in_map_iff in Hk as (q & <- & Hq).
      apply list_elem_of_In, Hempty in Hq. unfold abstract in Hq.
      rewrite <- (List.rev_involutive (contents s (key q))), Hq. done. }
    split; [done|]. intros q. unfold abstract. simpl. by rewrite Hsame.
  - simpl. destruct (abstract s p) as [|v l] eqn:E.
    + specialize (IH (ps1 ++ [p])). rewrite <- app_assoc in IH. apply IH.
      intros q [Hq| ->%list_elem_of_singleton]%elem_of_app; auto.
    + rewrite map_app. simpl.
      destruct (brpop_some (map key ps1) (key p) (map key ps) (rev l) v s) as [-> Hs'].
      * apply List.Forall_forall. intros k Hk. apply List.in_map_iff in Hk as (q & <- & Hq).
        apply list_elem_of_In, Hempty in Hq. unfold abstract in Hq.
        rewrite <- (List.rev_involutive (contents s (key q))), Hq. done.
      * by apply contents_rev.
      * split; [done|]. intros q. unfold abstract. simpl. rewrite Hs', queue_key_eqb.
        case_bool_decide; [|done]. apply List.rev_involutive.
Qed.

Lemma consume_outcome (w : World) :
  redis_outcome (JobQueue.consume namespace) w (λ r s',
    r = (dequeue [HIGH; NORMAL; LOW] (abstract (w_redis w))).1
    ∧ same_queue (abstract s') (dequeue [HIGH; NORMAL; LOW] (abstract (w_redis w))).2).
Proof.
  pose proof (brpop_dequeue [] [HIGH; NORMAL; LOW] (w_redis w)) as [Hr Hs].
  { intros p Hp. by apply elem_of_nil in Hp. }
  pose proof (redis_command_outcome (brpop (JobQueue._priority_keys namespace)) w (λ r s',
    snd <$> r = (dequeue [HIGH; NORMAL; LOW] (abstract (w_redis w))).1
    ∧ same_queue (abstract s') (dequeue [HIGH; NORMAL; LOW] (abstract (w_redis w))).2)
    (conj Hr Hs)) as H.
  unfold redis_outcome in *. unfold JobQueue.consume, mbind, M_bind.
  destruct (redis_command _ w) as [[r|e] w']; [|done]. done.
Qed.

(** Consumption takes the oldest job of the highest priority that has one
    (high before normal before low), removes it and nothing else, and returns
    nothing exactly when the three lists are empty. *)
Theorem consume_refines (w : World) :
  redis_outcome (JobQueue.consume namespace) w (λ r s',
    r = (dequeue [HIGH; NORMAL; LOW] (abstract (w_redis w))).1
    ∧ same_queue (abstract s') (dequeue [HIGH; NORMAL; LOW] (abstract (w_redis w))).2).
Proof. apply consume_outcome. Qed.

Lemma dead_letter_outcome (id : string) (w : World) :
  redis_outcome (JobQueue.dead_letter namespace id) w (λ _ s', same_queue (abstract s') (abstract (w_redis w))).
Proof. apply redis_command_outcome, abstract_dead_letter. Qed.

(** ** Histories *)

(** The commands of the services, in the order Redis receives them. *)
Inductive queue_op := Publish (id : string) (p : JobPriority) | Consume | DeadLetter (id : string).

Definition perform (o : queue_op) : M (option string) :=
  match o with
  | Publish id p => _ ← JobQueue.publish namespace id p; mret None
  | Consume => JobQueue.consume namespace
  | DeadLetter id => _ ← JobQueue.dead_letter namespace id; mret None
  end.

(** Each command may fail, and the next one is sent all the same. *)
Fixpoint history (l : list queue_op) : M (list (res (option string))) :=
  match l with
  | [] => mret []
  | o :: l' => r ← try_M (perform o); rs ← history l'; mret (r :: rs)
  end.

(** The answer and the effect of a command on the abstract queue. *)
Definition abstract_op (o : queue_op) (q : AbstractQueue) : option string * AbstractQueue :=
  match o with
  | Publish id p => (None, enqueue id p q)
  | Consume => dequeue [HIGH; NORMAL; LOW] q
  | DeadLetter _ => (None, q)
  end.

(** A history of the abstract queue: a command that fails has no effect. *)
Inductive abstract_history : list queue_op → AbstractQueue → list (res (option string)) →
    AbstractQueue → Prop :=
| ah_nil q : abstract_history [] q [] q
| ah_done o l q rs q' :
    abstract_history l (abstract_op o q).2 rs q' →
    abstract_history (o :: l) q (Ok (abstract_op o q).1 :: rs) q'
| ah_failed o l q text rs q' :
    abstract_history l q rs q' → abstract_history (o :: l) q (Err (RedisError text) :: rs) q'.

Lemma perform_refines o w :
  redis_outcome (perform o) w (λ r s',
    r = (abstract_op o (abstract (w_redis w))).1
    ∧ same_queue (abstract s') (abstract_op o (abstract (w_redis w))).2).
Proof.
  destruct o as [id p| |id]; [|apply consume_outcome|].
  - pose proof (publish_refines id p w) as H. unfold redis_outcome, perform, mbind, M_bind in *.
    destruct (JobQueue.publish namespace id p w) as [[[]|e] w']; [|done].
    destruct H as (? & [? _] & ?). done.
  - pose proof (dead_letter_outcome id w) as H. unfold redis_outcome, perform, mbind, M_bind in *.
    destruct (JobQueue.dead_letter namespace id w) as [[[]|e] w']; [|done].
    destruct H as (? & ? & ?). done.
Qed.

Lemma abstract_op_same o q1 q2 :
  same_queue q1 q2 →
  (abstract_op o q1).1 = (abstract_op o q2).1 ∧ same_queue (abstract_op o q1).2 (abstract_op o q2).2.
Proof.
  intros H. destruct o as [id p| |id]; [|by apply dequeue_same|done].
  split; [done|]. simpl. by rewrite H.
Qed.

Lemma abstract_history_same l q1 rs q' q2 :
  abstract_history l q1 rs q' → same_queue q1 q2 →
  ∃ q'', abstract_history l q2 rs q'' ∧ same_queue q' q''.
Proof.
  intros H. revert q2. induction H as [q|o l q rs q' _ IH|o l q text rs q' _ IH]; intros q2 Hq.
  - exists q2. split; [constructor|done].
  - destruct (abstract_op_same o q q2 Hq) as [E Hs]. destruct (IH _ Hs) as (q'' & Hh & Hq').
    exists q''. split; [|done]. rewrite E. by constructor.
  - destruct (IH _ Hq) as (q'' & Hh & Hq'). exists q''. split; [by constructor|done].
Qed.

(** C37: every history of the queue, publications, consumptions and dead letters
    in any order and with any of them failing, is one of the abstract queue: the
    same answers, and Redis ends with what the abstract queue holds. *)
Theorem queue_history_refines (l : list queue_op) (w : World) :
  ∃ rs w' q', history l w = (Ok rs, w') ∧ abstract_history l (abstract (w_redis w)) rs q'
    ∧ same_queue (abstract (w_redis w')) q' ∧ w_db w' = w_db w.
Proof.
  revert w. induction l as [|o l IH]; intros w.
  - exists [], w, (abstract (w_redis w)). split; [done|]. split; [constructor|done].
  - pose proof (perform_refines o w) as Ho. unfold redis_outcome in Ho.
    cbn [history]. unfold mbind, M_bind, try_M.
    destruct (perform o w) as [[r|e] w1]; destruct (IH w1) as (rs & w' & q' & -> & Hh & Hs & Hdb).
    + destruct Ho as (_ & [-> Hq] & Hdb1).
      destruct (abstract_history_same _ _ _ _ _ Hh Hq) as (q'' & Hh' & Hq').
      eexists _, _, q''. split; [reflexivity|]. split; [by constructor|].
      split; [by rewrite Hs|congruence].
    + destruct Ho as (_ & [text ->] & Hr & Hdb1). rewrite Hr in Hh.
      eexists _, _, q'. split; [reflexivity|]. split; [by constructor|]. split; [done|congruence].
Qed.
End QueueSpec.
