(* ===== verification/Frame.v ===== *)
(** What an execution leaves alone: relations between worlds that every statement
    of an execution keeps are kept by the whole execution.  Two of them: the
    queue, and the rows of the notification outbox. *)

From S2P Require Import Prelude PyStr PyFloat FloatBounds Json Domain Config Uuid DateTime Models Effects.
From S2P Require Import Repositories Queue Notifications Catalog Logic Total Lifecycle Invariant.
From S2P Require Import Submission Cancellation Execution Scheduling Worker.
From S2P Require Import QueueSpec.

Section Keeps.
Context {env : Env} (settings : Settings).

(** A preorder that readings, rollbacks and the statements of an execution keep. *)
Class Frame (R : World → World → Prop) : Prop := {
  frame_order :: PreOrder R;
  frame_read w n t : R w (w <| w_count := n |> <| w_txn_now := t |>);
  frame_rollback w w' : R w w' → R w (w' <| w_db := w_db w |>);
  frame_update i guard values w : R w (update_jobs i guard values w).2;
  frame_start i n worker now w : R w (JobAttemptRepository.start i n worker now w).2;
  frame_finish k st now c m w : R w (JobAttemptRepository.finish k st now c m w).2;
  frame_record i ty from to detail w : R w (JobEventRepository.record i ty from to detail w).2;
  frame_enqueue i u ch d ty p key now w :
    R w (NotificationOutboxRepository.enqueue i u ch d ty p key now w).2;
  frame_dead_letter id w : R w (JobQueue.dead_letter (redis_queue_namespace settings) id w).2;
}.

Context (R : World → World → Prop) `{!Frame R}.

Definition keeps {A} (m : M A) : Prop := ∀ w, R w (m w).2.

Lemma keeps_ret {A} (a : A) : keeps (mret a).
Proof. by intros w. Qed.
Lemma keeps_raise {A} e : keeps (A := A) (raise e).
Proof. by intros w. Qed.
Lemma keeps_reading {A} (f : nat → A) : keeps (reading f).
Proof. intros w. exact (frame_read w (S (w_count w)) (w_txn_now w)). Qed.
Lemma keeps_query {A} (f : Db → A) : keeps (query f).
Proof. by intros w. Qed.

Lemma keeps_bind {A B} (m : M A) (f : A → M B) :
  keeps m → (∀ a, keeps (f a)) → keeps (m ≫= f).
Proof.
  intros Hm Hf w. specialize (Hm w). unfold mbind, M_bind.
  destruct (m w) as [[a|e] w']; [|done]. etransitivity; [exact Hm|apply Hf].
Qed.

Lemma keeps_transaction {A} (body : M A) : keeps body → keeps (transaction body).
Proof.
  intros Hb. apply keeps_bind; [apply keeps_reading|]. intros t w. unfold transaction_at.
  specialize (Hb (w <| w_txn_now := t |>)).
  assert (R w (w <| w_txn_now := t |>)) as Hw by exact (frame_read w (w_count w) t).
  assert (R w (body (w <| w_txn_now := t |>)).2) as H by (etransitivity; [exact Hw|exact Hb]).
  destruct (body _) as [[a|e] w']; [exact H|]. by apply frame_rollback.
Qed.

(** Of coroutines. *)
Lemma keeps_run_bind {A B} (c : co A) (f : A → co B) :
  keeps (run c) → (∀ a, keeps (run (f a))) → keeps (run (c ≫= f)).
Proof.
  intros Hc Hf w. specialize (Hc w). rewrite run_bind.
  destruct (run c w) as [[a|e] w']; [|done]. etransitivity; [exact Hc|apply Hf].
Qed.
Lemma keeps_run_try {A} (c : co A) : keeps (run c) → keeps (run (try_co c)).
Proof. intros Hc w. specialize (Hc w). rewrite run_try. by destruct (run c w). Qed.
Lemma keeps_run_act {A} (m : M A) : keeps m → keeps (run (act m)).
Proof. intros Hm w. rewrite run_act. apply Hm. Qed.

(** Along the structure of the code, down to the statements. *)
Ltac head t := lazymatch t with ?f _ => head f | _ => t end.
Ltac keep :=
  cbv zeta;
  lazymatch goal with
  | |- keeps (run (_ ≫= _)) => apply keeps_run_bind; [|intros ?]; keep
  | |- keeps (run (try_co _)) => apply keeps_run_try; keep
  | |- keeps (run (act _)) => apply keeps_run_act; keep
  | |- keeps (run (Ret _)) => apply keeps_ret
  | |- keeps (run (Throw _)) => apply keeps_raise
  | |- keeps (run (if ?b then _ else _)) => destruct b; keep
  | |- keeps (run (match ?x with _ => _ end)) => destruct x; keep
  | |- keeps (_ ≫= _) => apply keeps_bind; [|intros ?]; keep
  | |- keeps (transaction _) => apply keeps_transaction; keep
  | |- keeps (mret _) => apply keeps_ret
  | |- keeps (raise _) => apply keeps_raise
  | |- keeps (reading _) => apply keeps_reading
  | |- keeps (query _) => apply keeps_query
  | |- keeps (update_jobs _ _ _) => intros w; apply frame_update
  | |- keeps (JobAttemptRepository.start _ _ _ _) => intros w; apply frame_start
  | |- keeps (JobAttemptRepository.finish _ _ _ _ _) => intros w; apply frame_finish
  | |- keeps (JobEventRepository.record _ _ _ _ _) => intros w; apply frame_record
  | |- keeps (NotificationOutboxRepository.enqueue _ _ _ _ _ _ _ _) => intros w; apply frame_enqueue
  | |- keeps (JobQueue.dead_letter _ _) => intros w; apply frame_dead_letter
  | |- keeps (if ?b then _ else _) => destruct b; keep
  | |- keeps (match ?x with _ => _ end) => destruct x; keep
  | |- keeps (run ?c) => let f := head c in unfold f; keep
  | |- keeps ?m => let f := head m in unfold f; keep
  | |- _ => idtac
  end.

Lemma keeps_claim worker_id i : keeps (run (_claim settings worker_id i)).
Proof. keep. Qed.

(** Handlers, over callbacks that keep the relation. *)
Section Handlers.
Context (context : ExecutionContext).
Hypothesis check : keeps (run (ctx_check_cancelled context)).
Hypothesis report : ∀ p, keeps (run (ctx_report_progress context p)).
Hypothesis sleep : ∀ t, keeps (run (ctx_sleep context t)).

Lemma keeps_steps steps x : keeps (run (_run_steps steps x context)).
Proof.
  unfold _run_steps. generalize 0, (Z.to_nat steps). intros index left. revert index.
  induction left as [|left IH]; intros index; cbn [run_steps_from]; [apply keeps_ret|].
  repeat first [apply keeps_run_bind; [|intros ?]]; [done|done|keep|done|apply IH].
Qed.

Lemma keeps_handler ty handler payload :
  get_handler ty = Ok handler → keeps (run (handler payload context)).
Proof.
  intros H. destruct ty; injection H as <-;
    unfold _handle_sleep, _handle_report, _handle_flaky, _handle_always_fail, _handle_llm_summary, prompt_summary;
    repeat first [apply keeps_steps|exact check|apply keeps_run_bind; [|intros ?]|case_match]; keep.
Qed.
End Handlers.

Lemma keeps_finalize worker_id i claim outcome : keeps (run (finalize settings worker_id i claim outcome)).
Proof. keep. Qed.

Lemma execution_keeps worker_id i : keeps (run (execute settings worker_id i)).
Proof.
  apply keeps_run_bind; [apply keeps_claim|]. intros [claim|]; [|apply keeps_ret].
  destruct (get_handler (s_type (c_snapshot claim))) as [handler|] eqn:Hh;
    [|by destruct (s_type (c_snapshot claim))].
  pose proof (keeps_handler (execution_context settings worker_id i (c_attempt_number claim))) as H.
  intros w. cbn [co_res]. revert w. apply (keeps_run_bind (try_co _)).
  - apply keeps_run_try.
    apply (λ a b c, H a b c _ _ (s_payload (c_snapshot claim)) Hh);
      cbn [ctx_check_cancelled ctx_report_progress ctx_sleep execution_context]; intros; keep.
  - intros outcome. apply keeps_run_bind; [apply keeps_finalize|]. intros _. apply keeps_ret.
Qed.
End Keeps.

(** ** The queue *)

Section Queue.
Context {env : Env} (settings : Settings).

Abbreviation waiting w := (abstract (redis_queue_namespace settings) (w_redis w)).

Definition same_waiting (w w' : World) : Prop := same_queue (waiting w') (waiting w).

Lemma redis_kept w w' : w_redis w' = w_redis w → same_waiting w w'.
Proof. unfold same_waiting. by intros ->. Qed.

Lemma statement_redis {A} (f : Db → db_error + (A * Db)) w : w_redis (statement f w).2 = w_redis w.
Proof. unfold statement. by destruct (f (w_db w)) as [[]|[]]. Qed.

Lemma bind_redis {A B} (m : M A) (f : A → M B) w :
  w_redis (m w).2 = w_redis w → (∀ a w', w_redis (f a w').2 = w_redis w') → w_redis ((m ≫= f) w).2 = w_redis w.
Proof. intros Hm Hf. unfold mbind, M_bind. destruct (m w) as [[a|e] w']; [|done]. by rewrite Hf. Qed.

#[export] Instance queue_frame : Frame settings same_waiting.
Proof.
  split; intros.
  - split; [by intros w p|intros w1 w2 w3 H12 H23 p; by rewrite H23].
  - by apply redis_kept.
  - intros p. by rewrite <-(H p).
  - apply redis_kept, bind_redis; [apply statement_redis|done].
  - apply redis_kept, bind_redis; [done|]. intros x w1. apply bind_redis; [apply statement_redis|done].
  - apply redis_kept, statement_redis.
  - apply redis_kept, bind_redis; [done|]. intros x w1. apply bind_redis; [done|]. intros t w2.
    apply statement_redis.
  - apply redis_kept, bind_redis; [done|]. intros x w1. apply bind_redis; [done|]. intros t w2.
    apply statement_redis.
  - intros p. unfold JobQueue.dead_letter, redis_command, mbind, M_bind, reading. cbn.
    destruct (redis_down (w_count w)); [done|]. apply abstract_dead_letter.
Qed.

(** A worker that executes a job takes nothing off the queue and puts nothing
    into it. *)
Lemma execution_leaves_queue worker_id i w :
  same_queue (waiting (run (execute settings worker_id i) w).2) (waiting w).
Proof. apply (execution_keeps settings same_waiting worker_id i w). Qed.
End Queue.

(** ** The notifications *)

Section Notifications.
Context {env : Env} (settings : Settings).

(** A notification nobody has tried to deliver. *)
Definition untried (n : NotificationOutbox) : Prop :=
  n_status n = NotificationStatus.PENDING ∧ n_attempts n = 0.

Definition only_adds_untried (w w' : World) : Prop :=
  ∀ k n, notification_outbox (w_db w') !! k = Some n →
    notification_outbox (w_db w) !! k = Some n ∨ untried n.

Lemma outbox_kept w w' :
  notification_outbox (w_db w') = notification_outbox (w_db w) → only_adds_untried w w'.
Proof. intros E k n Hn. left. by rewrite <-E. Qed.

Lemma statement_untried {A} (f : Db → db_error + (A * Db)) w :
  (∀ d a d', f d = inr (a, d') → notification_outbox d' = notification_outbox d) →
  notification_outbox (w_db (statement f w).2) = notification_outbox (w_db w).
Proof.
  intros Hf. unfold statement. destruct (f (w_db w)) as [[]|[a d']] eqn:E; [done|done|]. by eapply Hf.
Qed.

#[export] Instance notification_frame : Frame settings only_adds_untried.
Proof.
  split; intros.
  - split; [by intros w k n; left|]. intros w1 w2 w3 H12 H23 k n Hn.
    destruct (H23 k n Hn) as [H|H]; [by apply H12|by right].
  - by apply outbox_kept.
  - by apply outbox_kept.
  - apply outbox_kept. unfold update_jobs, mbind, M_bind.
    pose proof (statement_untried (update_job i guard values) w) as H.
    destruct (statement _ w) as [[a|e] w'] eqn:E; cbn in *; apply H; intros d x d' Hu; unfold update_job in Hu;
      by repeat (case_match; simplify_eq/=).
  - apply outbox_kept. unfold JobAttemptRepository.start, statement_, mbind, M_bind, generate_uuid7, reading. cbn.
    match goal with |- context [statement ?f ?w'] => pose proof (statement_untried f w') as H;
      destruct (statement f w') as [[a|e] w1] eqn:E end; cbn in *; apply H; intros d x d' Hu;
      unfold insert_attempt in Hu; by repeat (case_match; simplify_eq/=).
  - apply outbox_kept, statement_untried. intros d x d' Hu. unfold update_attempt in Hu.
    by repeat (case_match; simplify_eq/=).
  - apply outbox_kept. unfold JobEventRepository.record, statement_, mbind, M_bind, generate_uuid7, reading, txn_now. cbn.
    match goal with |- context [statement ?f ?w'] => apply (statement_untried f w') end.
    intros d x d' Hu. unfold insert_event in Hu. by repeat (case_match; simplify_eq/=).
  - intros k n. unfold NotificationOutboxRepository.enqueue, mbind, M_bind, generate_uuid7, reading, txn_now, statement.
    cbn. unfold insert_notification, raise_db. repeat case_match; simplify_eq/=; try by left.
    intros [[_ <-]|[_ Hn]]%lookup_insert_Some; [by right|by left].
  - apply outbox_kept. unfold JobQueue.dead_letter, redis_command, mbind, M_bind, reading. cbn.
    by destruct (redis_down (w_count w)).
Qed.

(** An execution changes no notification, and the one it adds waits for its first
    delivery. *)
Lemma execution_adds_untried worker_id i w :
  only_adds_untried w (run (execute settings worker_id i) w).2.
Proof. apply (execution_keeps settings only_adds_untried worker_id i w). Qed.
End Notifications.
