(* ===== verification/DispatchSpec.v ===== *)
(** The dispatcher delivers: with Redis reachable and no row locked elsewhere, one
    pass leaves no job pending and puts every one of them in the queue. *)

From S2P Require Import Prelude PyStr PyFloat Json Domain Config Uuid Models Effects.
From S2P Require Import Repositories Queue Notifications Catalog Logic Total Lifecycle Invariant.
From S2P Require Import Submission Cancellation Execution Scheduling Worker Programs System Demo.
From S2P Require Import Guarantees SchedulerSpec QueueSpec.
Import JobStatus.

Section Dispatch.
Context {env : Env} (settings : Settings) (now : datetime).

(** ** What a pass does to the tables *)

Definition queued_job (j : Job) : Job :=
  if status_is PENDING j
  then j <| j_status := QUEUED |> <| j_queued_at := Some now |>
         <| j_last_dispatched_at := Some now |> <| j_updated_at := now |>
  else j.

Definition published_row (o : DispatchOutbox) : DispatchOutbox :=
  o <| d_status := OutboxStatus.PUBLISHED |> <| d_published_at := Some now |>
    <| d_attempts := d_attempts o + 1 |>.

(** The rows of a table whose key is in [ks], changed by [f]. *)
Definition changed_at {A} (f : A → A) (ks : list uuid) (t t' : gmap uuid A) : Prop :=
  ∀ k, t' !! k = (λ a, if bool_decide (k ∈ ks) then f a else a) <$> t !! k.

Lemma changed_none {A} (f : A → A) t : changed_at f [] t t.
Proof.
  intros k. destruct (t !! k) as [a|]; [|done]. cbn [fmap option_fmap option_map].
  case_bool_decide as E; [by apply elem_of_nil in E|done].
Qed.

Lemma changed_insert {A} (f : A → A) k a t :
  t !! k = Some a → changed_at f [k] t (<[k := f a]> t).
Proof.
  intros Hk i. rewrite lookup_insert. destruct (t !! i) as [b|] eqn:Hi;
    cbn [fmap option_fmap option_map]; repeat case_decide; try case_bool_decide as E;
    rewrite ?list_elem_of_singleton in *; congruence.
Qed.

(** Two passes make one when the second does not change a row of the first. *)
Lemma changed_app {A} (f : A → A) k ks t t1 t2 :
  changed_at f [k] t t1 → changed_at f ks t1 t2 →
  (k ∈ ks → ∀ a, t !! k = Some a → f (f a) = f a) → changed_at f (k :: ks) t t2.
Proof.
  intros H1 H2 Hf i. rewrite H2, H1. destruct (t !! i) as [a|] eqn:Hi; [|done].
  cbn [fmap option_fmap option_map]. f_equal.
  assert (i ∈ k :: ks ↔ i = k ∨ i ∈ ks) as E by apply elem_of_cons.
  repeat case_bool_decide; rewrite ?list_elem_of_singleton in *; try tauto.
  subst i. by apply Hf.
Qed.

Lemma queued_job_idem j : queued_job (queued_job j) = queued_job j.
Proof. unfold queued_job, status_is. destruct (bool_decide (j_status j = PENDING)) eqn:E; [done|by rewrite E]. Qed.

Lemma queued_job_checks j :
  job_types_ok (queued_job j) = job_types_ok j ∧ job_checks_ok (queued_job j) = job_checks_ok j
  ∧ j_priority (queued_job j) = j_priority j.
Proof. unfold queued_job. by destruct (status_is PENDING j). Qed.

(** The identifiers of the next [k] readings are new to the event log. *)
Definition fresh_ids (n k : nat) (d : Db) : Prop :=
  new_to n k (job_events d) ∧ distinct_ids n k.

Definition stored_ok (d : Db) : Prop :=
  ∀ i j, jobs d !! i = Some j → job_types_ok j = true ∧ job_checks_ok j = true.

(** The message of a row. *)
Definition message (d : Db) (o : DispatchOutbox) : option (string * JobPriority) :=
  (λ j, (uuid_str (d_job_id o), j_priority j)) <$> jobs d !! d_job_id o.

(** The effect of the rows [l] in a world. *)
Record dispatched (l : list DispatchOutbox) (w w' : World) : Prop := {
  dp_jobs : changed_at queued_job (d_job_id <$> l) (jobs (w_db w)) (jobs (w_db w'));
  dp_outbox : changed_at published_row (d_id <$> l) (dispatch_outbox (w_db w))
                (dispatch_outbox (w_db w'));
  dp_attempts : job_attempts (w_db w') = job_attempts (w_db w);
  dp_events : used (w_count w) (w_count w') (job_events (w_db w)) (job_events (w_db w'));
  dp_notifications : notification_outbox (w_db w') = notification_outbox (w_db w);
  dp_redis : w_redis w' = w_redis w;
  dp_count : w_count w' = (w_count w + length l)%nat;
}.

Lemma changed_stored_ok ks d d' :
  changed_at queued_job ks (jobs d) (jobs d') → stored_ok d → stored_ok d'.
Proof.
  intros Hc Hok i j' Hj'. rewrite Hc in Hj'. destruct (jobs d !! i) as [j|] eqn:Hj; [|done].
  injection Hj' as <-. destruct (Hok i j Hj) as [Ht Hck], (queued_job_checks j) as (Et & Ec & _).
  case_bool_decide; [by rewrite Et, Ec|done].
Qed.

Lemma changed_message ks d d' o :
  changed_at queued_job ks (jobs d) (jobs d') → message d' o = message d o.
Proof.
  intros Hc. unfold message. rewrite Hc. destruct (jobs d !! d_job_id o) as [j|]; [|done]. simpl.
  case_bool_decide; [|done]. by destruct (queued_job_checks j) as (_ & _ & ->).
Qed.

(** ** One row, and a batch *)

Lemma dispatch_row_returns o w :
  dispatch_outbox (w_db w) !! d_id o = Some o → is_Some (jobs (w_db w) !! d_job_id o) →
  stored_ok (w_db w) → job_events (w_db w) !! uuid7 (w_count w) = None →
  returns (dispatch_row now o) (λ r w', r = message (w_db w) o ∧ dispatched [o] w w') w.
Proof.
  intros Ho [j Hj] Hok Hfree. destruct (Hok _ _ Hj) as [Hty Hck].
  apply returns_bind, returns_query. rewrite Hj. apply returns_bind, returns_modify.
  apply returns_bind, (returns_update _ _ _ _ j).
  { done. }
  { intros Hp. pose proof (queued_job_checks j) as (Et & Ec & _). unfold queued_job in Et, Ec.
    rewrite Hp in Et, Ec. by rewrite Et, Ec. }
  apply returns_bind, returns_record; [| |done|].
  - destruct (status_is PENDING j); cbn; [rewrite lookup_insert_eq|rewrite Hj]; by eexists.
  - by destruct (status_is PENDING j).
  - cbv zeta. apply returns_ret. split; [unfold message; by rewrite Hj|].
    assert (changed_at published_row [d_id o] (dispatch_outbox (w_db w))
      (alter published_row (d_id o) (dispatch_outbox (w_db w)))) as Hout.
    { rewrite (alter_as_insert _ _ _ o Ho). by apply changed_insert. }
    assert (changed_at queued_job [d_job_id o] (jobs (w_db w))
      (<[d_job_id o := queued_job j]> (jobs (w_db w)))) as Hjobs by (by apply changed_insert).
    assert (∀ e, used (w_count w) (w_count w + 1) (job_events (w_db w))
      (<[uuid7 (w_count w) := e]> (job_events (w_db w)))) as Hev by (intros e; apply used_insert; lia).
    unfold queued_job in Hjobs at 2. rewrite Nat.add_1_r in Hev.
    destruct (status_is PENDING j) eqn:Hs; (split; cbn; [|exact Hout|done|apply Hev|done|done|lia]);
      [exact Hjobs|]. by rewrite (insert_id _ _ _ Hj) in Hjobs.
Qed.

Lemma fresh_ids_next n k d d' :
  fresh_ids n (S k) d → used n (S n) (job_events d) (job_events d') → fresh_ids (S n) k d'.
Proof.
  intros [Hfree Hne] He. split.
  - apply (new_to_used n (S k) _ _ (job_events d)); [done|done|done|lia|lia].
  - apply (distinct_sub n (S k)); [done|lia|lia].
Qed.

Lemma dispatch_rows_return l w :
  NoDup (d_id <$> l) →
  (∀ o, o ∈ l → dispatch_outbox (w_db w) !! d_id o = Some o ∧ is_Some (jobs (w_db w) !! d_job_id o)) →
  stored_ok (w_db w) → fresh_ids (w_count w) (length l) (w_db w) →
  returns (for_each l (dispatch_row now)) (λ bs w', bs = map (message (w_db w)) l
    ∧ dispatched l w w') w.
Proof.
  revert w. induction l as [|o l IH]; intros w Hnd Hl Hok Hfresh.
  { apply returns_ret. split; [done|].
    split; [apply changed_none|apply changed_none|done|apply used_same|done|done|]. cbn. lia. }
  apply NoDup_cons in Hnd as [Hni Hnd]. destruct (Hl o (list_elem_of_here _ _)) as [Ho Hj].
  apply returns_bind. eapply returns_mono.
  { apply dispatch_row_returns; try done. apply Hfresh. cbn. lia. }
  intros r w1 (-> & [Djobs Dout Datt Dev Dnot Dredis Dcount]). cbn in Dcount.
  assert (w_count w1 = S (w_count w)) as Ec by lia.
  apply returns_bind. eapply returns_mono.
  { apply IH; [done| |by eapply changed_stored_ok|].
    - intros o' Ho'. destruct (Hl o' (list_elem_of_further _ _ _ Ho')) as [Hk [j Hi]]. split.
      + rewrite Dout, Hk. cbn [fmap option_fmap option_map].
        case_bool_decide as E; [|done]. apply list_elem_of_singleton in E.
        destruct Hni. rewrite <-E. by apply list_elem_of_fmap_2.
      + rewrite Djobs, Hi. by eexists.
    - rewrite Ec in Dev |- *. by eapply fresh_ids_next. }
  intros bs w2 (-> & [Djobs2 Dout2 Datt2 Dev2 Dnot2 Dredis2 Dcount2]). apply returns_ret. split.
  - cbn [map]. f_equal. apply map_ext. intros o'. by eapply changed_message.
  - split; [| |congruence| |congruence|congruence|cbn; lia].
    + apply (changed_app _ _ _ _ _ _ Djobs Djobs2). intros _ a _. apply queued_job_idem.
    + apply (changed_app _ _ _ _ _ _ Dout Dout2). done.
    + eapply used_trans; [|exact Dev|exact Dev2]. lia.
Qed.

(** ** Publication *)

Abbreviation waiting := (abstract (redis_queue_namespace settings)).
Abbreviation dead_letter_key := (JobQueue._dead_letter_key (redis_queue_namespace settings)).

Hypothesis redis_up : ∀ n, redis_down n = false.

Definition enqueue_all (l : list (string * JobPriority)) (q : AbstractQueue) : AbstractQueue :=
  foldl (λ q m, enqueue m.1 m.2 q) q l.

#[export] Instance enqueue_all_proper l : Proper (same_queue ==> same_queue) (enqueue_all l).
Proof. induction l as [|m l IH]; intros q1 q2 H; [done|]. apply IH. by apply enqueue_proper. Qed.

Lemma enqueue_all_keeps id p l q : id ∈ q p → id ∈ enqueue_all l q p.
Proof.
  revert q. induction l as [|m l IH]; intros q H; [done|]. apply IH. unfold enqueue.
  case_bool_decide; [apply elem_of_app; by left|done].
Qed.

Lemma enqueue_all_in id p l q : (id, p) ∈ l → id ∈ enqueue_all l q p.
Proof.
  revert q. induction l as [|m l IH]; intros q; [by intros ?%elem_of_nil|].
  intros [<-|H]%elem_of_cons; [|by apply IH]. apply (enqueue_all_keeps id p l). unfold enqueue. cbn.
  rewrite bool_decide_eq_true_2 by done. apply elem_of_app. right. apply list_elem_of_here.
Qed.

Lemma publish_all_runs l w :
  ∃ w', run (publish_all settings l) w = (Ok tt, w') ∧ w_db w' = w_db w
    ∧ w_count w' = (w_count w + length l)%nat
    ∧ same_queue (waiting (w_redis w')) (enqueue_all l (waiting (w_redis w)))
    ∧ contents (w_redis w') dead_letter_key = contents (w_redis w) dead_letter_key.
Proof.
  revert w. induction l as [|[id p] l IH]; intros w.
  { exists w. split; [done|]. split; [done|]. split; [cbn; lia|done]. }
  set (s1 := lpush (JobQueue._queue_key (redis_queue_namespace settings) p) id (w_redis w)).
  destruct (IH (w <| w_count := S (w_count w) |> <| w_redis := s1 |>)) as (w' & Hrun & Hdb & Hc & Hq & Hdl).
  exists w'. split; [|split; [exact Hdb|split; [cbn in Hc |- *; lia|split]]].
  - unfold publish_all in *. cbn [co_for_each]. rewrite run_bind, run_act.
    unfold JobQueue.publish, redis_command, mbind, M_bind, reading. cbn -[run co_for_each].
    rewrite redis_up. exact Hrun.
  - rewrite Hq. cbn [w_redis set_field]. apply (enqueue_all_proper l), abstract_lpush.
  - rewrite Hdl. cbn [w_redis set_field]. unfold s1. rewrite contents_lpush.
    destruct (String.eqb_spec (JobQueue._queue_key (redis_queue_namespace settings) p) dead_letter_key);
      [|done]. by destruct (dead_letter_key_ne (redis_queue_namespace settings) p).
Qed.
End Dispatch.

(** ** The whole pass *)

Section Pass.
Context {env : Env} (settings : Settings).

(** With room for all the rows and none locked, a batch is all of them. *)
Lemma select_all {A} (P : A → Prop) `{!∀ a, Decision (P a)} key limit (locked : uuid → bool)
  (t : gmap uuid A) :
  (∀ i, locked i = false) → Z.of_nat (length (rows_where P t)) <= limit →
  select_rows (λ a, bool_decide (P a)) key limit locked t ≡ₚ rows_where P t.
Proof.
  intros Hfree Hlen.
  assert ((filter (where_unlocked (λ a, bool_decide (P a)) locked) (map_to_list t)).*2
          = rows_where P t) as E.
  { unfold rows_where. f_equal. apply list_filter_iff. intros [i a]. unfold where_unlocked.
    cbn [fst snd]. rewrite Hfree, andb_true_r. apply bool_decide_eq_true. }
  unfold select_rows. rewrite E, take_ge; [apply merge_sort_Permutation|].
  rewrite merge_sort_Permutation. lia.
Qed.

Definition to_publish (d : Db) : list DispatchOutbox :=
  rows_where (λ o, d_status o = OutboxStatus.PENDING) (dispatch_outbox d).

Lemma to_publish_rows strict d :
  Inv strict d → NoDup (d_id <$> to_publish d)
  ∧ ∀ o, o ∈ to_publish d →
      d_status o = OutboxStatus.PENDING
      ∧ dispatch_outbox d !! d_id o = Some o ∧ is_Some (jobs d !! d_job_id o).
Proof.
  intros HI. split.
  - apply rows_where_NoDup. intros k1 k2 o1 o2 H1 H2 _ _ E.
    destruct (inv_dispatch _ _ HI k1 o1 H1) as [<- _], (inv_dispatch _ _ HI k2 o2 H2) as [<- _]. done.
  - intros o (Hs & k & Hk)%elem_of_rows_where. destruct (inv_dispatch _ _ HI k o Hk) as [<- Hj]. done.
Qed.

Lemma Inv_stored_ok strict d : Inv strict d → stored_ok d.
Proof. intros HI i j Hj. by destruct (inv_jobs _ _ HI i j Hj) as ([_ Ht Hc _ _] & _). Qed.

Lemma omap_list_map {A B} (f : A → option B) l : omap_list (map f l) = omap f l.
Proof.
  unfold omap_list. induction l as [|a l IH]; [done|]. cbn. rewrite <-IH. by destruct (f a).
Qed.

Lemma omap_length {A B} (f : A → option B) l :
  (∀ a, a ∈ l → is_Some (f a)) → length (omap f l) = length l.
Proof.
  induction l as [|a l IH]; [done|]. intros H. cbn.
  destruct (H a (list_elem_of_here _ _)) as [b ->]. cbn. f_equal. apply IH.
  intros x Hx. apply H. by apply list_elem_of_further.
Qed.

(** The transaction of a pass. *)
Lemma dispatch_body_returns strict batch now w :
  Inv strict (w_db w) → Z.of_nat (length (to_publish (w_db w))) <= batch →
  (∀ i, locked_row (w_count w) i = false) →
  fresh_ids (S (w_count w)) (length (to_publish (w_db w))) (w_db w) →
  returns (dispatch_body batch now) (λ published w', ∃ l,
    l ≡ₚ to_publish (w_db w) ∧ published = omap (message (w_db w)) l
    ∧ dispatched now l (w <| w_count := S (w_count w) |>) w') w.
Proof.
  intros HI Hlen Hlock Hfresh.
  apply returns_bind, returns_bind, returns_reading, returns_query.
  match goal with |- returns (for_each ?rows _ ≫= _) _ _ => set (l := rows) end.
  assert (l ≡ₚ to_publish (w_db w)) as Hl by (by apply select_all).
  destruct (to_publish_rows _ _ HI) as [Hnd Hrows].
  apply returns_bind. eapply returns_mono.
  { apply dispatch_rows_return; cbn.
    - by rewrite Hl.
    - intros o Ho. apply Hrows. by rewrite <-Hl.
    - by eapply Inv_stored_ok.
    - by rewrite Hl. }
  intros bs w' (-> & D). apply returns_ret. exists l. split; [done|]. split; [|done].
  by apply omap_list_map.
Qed.

(** A whole pass: the transaction, and then the messages of its rows, in order. *)
Lemma dispatch_pass strict batch w :
  Inv strict (w_db w) → Z.of_nat (length (to_publish (w_db w))) <= batch →
  (∀ n, redis_down n = false) → (∀ i, locked_row (2 + w_count w) i = false) →
  fresh_ids (3 + w_count w) (length (to_publish (w_db w))) (w_db w) →
  ∃ l now w1 w', run (dispatch_pending settings batch) w = (Ok (Z.of_nat (length l)), w')
    ∧ l ≡ₚ to_publish (w_db w) ∧ dispatched now l (w <| w_count := (3 + w_count w)%nat |>) w1
    ∧ w_db w' = w_db w1 ∧ w_count w' = (w_count w1 + length l)%nat
    ∧ same_queue (abstract (redis_queue_namespace settings) (w_redis w'))
        (enqueue_all (omap (message (w_db w)) l)
           (abstract (redis_queue_namespace settings) (w_redis w)))
    ∧ contents (w_redis w') (JobQueue._dead_letter_key (redis_queue_namespace settings))
      = contents (w_redis w) (JobQueue._dead_letter_key (redis_queue_namespace settings)).
Proof.
  intros HI Hlen Hup Hlock Hfresh. unfold dispatch_pending.
  destruct (run_act_returns clock_now
    (λ now, published ← act (transaction (dispatch_body batch now));
            _ ← publish_all settings published; Ret (count_of published))
    (λ _ w1, w1 = w <| w_count := S (w_count w) |>) w) as (now & w1 & -> & ->).
  { by apply returns_reading. }
  edestruct (run_act_returns (transaction (dispatch_body batch now))
    (λ published, _ ← publish_all settings published; Ret (count_of published)))
    as (published & w2 & Hbody & ->).
  { apply returns_transaction, (dispatch_body_returns strict); done. }
  destruct Hbody as (l & Hl & -> & D). cbn in Hl.
  destruct (publish_all_runs settings Hup (omap (message (w_db w)) l) w2)
    as (w3 & Hrun & Hdb & Hc & Hq & Hdl).
  assert (length (omap (message (w_db w)) l) = length l) as Hlength.
  { apply omap_length. intros o Ho. rewrite Hl in Ho.
    destruct (proj2 (to_publish_rows _ _ HI) o Ho) as (_ & _ & j & Hj).
    unfold message. rewrite Hj. by eexists. }
  rewrite Hlength in Hc.
  exists l, now, w2, w3. split; [|split; [done|split; [|split; [done|split; [done|]]]]].
  - rewrite run_bind. cbn in Hrun |- *. rewrite Hrun. unfold count_of. by rewrite Hlength.
  - destruct D as [? ? ? ? ? ? ?]. by split.
  - rewrite Hq, Hdl. destruct D as [_ _ _ _ _ -> _]. done.
Qed.

(** C20: liveness of the dispatcher: when Redis answers, no other session holds
    the outbox rows, the identifiers are new and the batch has room for all the
    rows that wait, one pass returns, publishes every row of the outbox that
    waits, moves every pending job to QUEUED, puts its id in the queue of its
    priority, and touches no other job: after it no job is pending. *)
Theorem dispatch_delivers_every_pending_job (strict : bool) (batch : Z) (w : World) :
  Inv strict (w_db w) → Z.of_nat (length (to_publish (w_db w))) <= batch →
  (∀ n, redis_down n = false) → (∀ i, locked_row (2 + w_count w) i = false) →
  fresh_ids (3 + w_count w) (length (to_publish (w_db w))) (w_db w) →
  ∃ w', run (dispatch_pending settings batch) w = (Ok (Z.of_nat (length (to_publish (w_db w)))), w')
    ∧ to_publish (w_db w') = []
    ∧ ∀ i j, jobs (w_db w) !! i = Some j →
        ∃ j', jobs (w_db w') !! i = Some j'
          ∧ if bool_decide (j_status j = PENDING)
            then j_status j' = QUEUED
                 ∧ uuid_str i ∈ abstract (redis_queue_namespace settings) (w_redis w') (j_priority j)
            else j' = j.
Proof.
  intros HI Hlen Hup Hlock Hfresh.
  destruct (dispatch_pass strict batch w HI Hlen Hup Hlock Hfresh)
    as (l & now & w1 & w' & Hrun & Hl & [Dj Do _ _ _ _ _] & Hdb & _ & Hq & _).
  cbn in Dj, Do. exists w'. split; [by rewrite <-Hl|split].
  - apply rows_where_nil. intros k o' Hk Hs. rewrite Hdb, Do in Hk.
    destruct (dispatch_outbox (w_db w) !! k) as [o|] eqn:Ho; [|done]. injection Hk as <-.
    case_bool_decide as E; [done|]. apply E.
    destruct (inv_dispatch _ _ HI k o Ho) as [<- _]. apply list_elem_of_fmap_2. rewrite Hl.
    apply elem_of_rows_where. by split; [|eexists].
  - intros i j Hj. rewrite Hdb, Dj, Hj. eexists. split; [reflexivity|].
    case_bool_decide as Hp.
    + destruct (inv_pending _ _ HI i j Hj Hp) as (k & o & Hk & <- & Hs).
      assert (o ∈ l) as Ho by (rewrite Hl; apply elem_of_rows_where; by split; [|eexists]).
      rewrite bool_decide_eq_true_2 by (by apply list_elem_of_fmap_2).
      unfold queued_job, status_is. rewrite bool_decide_eq_true_2 by done. split; [done|].
      rewrite Hq. apply enqueue_all_in, list_elem_of_omap. exists o. split; [done|].
      unfold message. by rewrite Hj.
    + unfold queued_job, status_is. rewrite (bool_decide_eq_false_2 _ Hp). by case_bool_decide.
Qed.
End Pass.

(** ** At a concrete state *)

Lemma fresh_ids_one {env : Env} n d : job_events d !! uuid7 n = None → fresh_ids n 1 d.
Proof.
  intros H. split; [|intros m m' ??; lia]. intros m Hm. assert (m = n) as -> by lia. done.
Qed.

Lemma dispatch_delivers_every_pending_job_witness :
  j_status (row_at w_submitted) = PENDING
  ∧ ∃ w', run (dispatch_pending default_settings 10) w_submitted = (Ok 1, w')
    ∧ ∃ j', jobs (w_db w') !! first_job = Some j' ∧ j_status j' = QUEUED
        ∧ uuid_str first_job ∈ abstract "job_orchestrator" (w_redis w') JobPriority.NORMAL.
Proof.
  split; [by vm_compute|].
  assert (length (to_publish (w_db w_submitted)) = 1%nat) as Hone by (by vm_compute).
  destruct (dispatch_delivers_every_pending_job default_settings true 10 w_submitted)
    as (w' & Hrun & _ & Hjobs).
  - exact (reachable_Inv true _ (at_submitted true)).
  - rewrite Hone. lia.
  - done.
  - done.
  - rewrite Hone. apply fresh_ids_one. by vm_compute.
  - rewrite Hone in Hrun. exists w'. split; [exact Hrun|].
    assert (jobs (w_db w_submitted) !! first_job = Some (row_at w_submitted)) as Hj by (by vm_compute).
    destruct (Hjobs _ _ Hj) as (j' & Hj' & H). exists j'. split; [exact Hj'|].
    rewrite bool_decide_eq_true_2 in H by (by vm_compute).
    assert (j_priority (row_at w_submitted) = JobPriority.NORMAL) as Hp by (by vm_compute).
    rewrite Hp in H. exact H.
Defined.
