(* ===== verification/RecoverySpec.v ===== *)
(** The control loops deliver: one pass of the promotion of retries, of the reaper,
    of the redelivery and of the expiry takes every row that is due, and each row
    goes where it should. *)

From S2P Require Import Prelude PyStr PyFloat Json Domain Config Uuid DateTime Models Effects.
From S2P Require Import Repositories Queue Notifications Catalog Logic Total Lifecycle Invariant.
From S2P Require Import Submission Cancellation Execution Scheduling Worker Programs System Demo.
From S2P Require Import Steps Transactions Guarantees WorkerSpec SchedulerSpec QueueSpec DispatchSpec.
Import JobStatus.

(** ** Batches of jobs *)

Section Batch.
Context {env : Env}.

(** The rows of [ks] changed as [R] says, the others kept. *)
Definition rows_step {A} (R : A → A → Prop) (ks : list uuid) (t t' : gmap uuid A) : Prop :=
  ∀ k, match t !! k with
       | Some j => ∃ j', t' !! k = Some j' ∧ if bool_decide (k ∈ ks) then R j j' else j' = j
       | None => t' !! k = None
       end.

Lemma rows_step_none {A} (R : A → A → Prop) t : rows_step R [] t t.
Proof. intros k. destruct (t !! k) as [j|]; [|done]. by exists j. Qed.

Lemma rows_step_one {A} (R : A → A → Prop) k j j' t :
  t !! k = Some j → R j j' → rows_step R [k] t (<[k := j']> t).
Proof.
  intros Hk HR i. rewrite lookup_insert. case_decide as E.
  - subst i. rewrite Hk. exists j'. split; [done|]. by rewrite bool_decide_eq_true_2 by apply list_elem_of_here.
  - destruct (t !! i) as [x|]; [|done]. exists x. split; [done|].
    rewrite bool_decide_eq_false_2; [done|]. by intros ->%list_elem_of_singleton.
Qed.

Lemma rows_step_cons {A} (R : A → A → Prop) k ks t t1 t2 :
  k ∉ ks → rows_step R [k] t t1 → rows_step R ks t1 t2 → rows_step R (k :: ks) t t2.
Proof.
  intros Hk H1 H2 i. specialize (H1 i). specialize (H2 i). destruct (t !! i) as [j|].
  - destruct H1 as (j1 & E1 & H1). rewrite E1 in H2. destruct H2 as (j2 & E2 & H2).
    exists j2. split; [done|].
    assert (i ∈ k :: ks ↔ i = k ∨ i ∈ ks) as E by apply elem_of_cons.
    repeat case_bool_decide; rewrite ?list_elem_of_singleton in *; subst; tauto.
  - by rewrite H1 in H2.
Qed.

(** What a batch worked on at [now] leaves besides. *)
Record batch_done (now : datetime) (R : Job → Job → Prop) (ks : list uuid) (w w' : World) : Prop := {
  bd_jobs : rows_step R ks (jobs (w_db w)) (jobs (w_db w'));
  bd_events : used (w_count w) (w_count w') (job_events (w_db w)) (job_events (w_db w'));
  bd_notifications : used (w_count w) (w_count w') (notification_outbox (w_db w))
                       (notification_outbox (w_db w'));
  bd_posted : posted now (notification_outbox (w_db w)) (notification_outbox (w_db w'));
  bd_redis : w_redis w' = w_redis w;
  bd_count : (w_count w ≤ w_count w' ≤ w_count w + 2 * length ks)%nat;
}.

(** Identifiers new to the event log and to the notifications. *)
Definition new_ids (n k : nat) (d : Db) : Prop :=
  new_to n k (job_events d) ∧ new_to n k (notification_outbox d) ∧ distinct_ids n k.

Context {B : Type} (first : nat) (now : datetime) (P : Job → Prop) (R : Job → Job → Prop) (row : Job → M B) (g : Job → B).

(** One row of the loop, which begins at the reading [first]. *)
Definition row_returns : Prop := ∀ j w, (first ≤ w_count w)%nat →
  jobs (w_db w) !! j_id j = Some j → P j → new_ids (w_count w) 2 (w_db w) →
  returns (row j) (λ b w', b = g j ∧ batch_done now R [j_id j] w w') w.

Lemma batch_returns l w :
  row_returns → (first ≤ w_count w)%nat → NoDup (j_id <$> l) → (∀ j, j ∈ l → jobs (w_db w) !! j_id j = Some j ∧ P j) →
  new_ids (w_count w) (2 * length l) (w_db w) →
  returns (for_each l row) (λ bs w', bs = map g l ∧ batch_done now R (j_id <$> l) w w') w.
Proof.
  intros Hrow. revert w. induction l as [|j l IH]; intros w Hfirst Hnd Hl Hids.
  { apply returns_ret. split; [done|].
    split; [apply rows_step_none|apply used_same|apply used_same|apply posted_same|done|cbn; lia]. }
  apply NoDup_cons in Hnd as [Hni Hnd]. destruct (Hl j (list_elem_of_here _ _)) as [Hj HP].
  destruct Hids as (He & Hn & Hd). cbn [length] in He, Hn, Hd.
  assert (∀ A (t : gmap uuid A), new_to (w_count w) (2 * S (length l)) t → new_to (w_count w) 2 t) as Hsub
    by (intros A t H; apply (new_to_sub (w_count w) (2 * S (length l))); [done|lia|lia]).
  apply returns_bind. eapply returns_mono.
  { apply Hrow; [done|done|done|]. split; [by apply Hsub|]. split; [by apply Hsub|].
    apply (distinct_sub (w_count w) (2 * S (length l))); [done|lia|lia]. }
  intros b w1 (-> & [Djobs Dev Dnot Dpost Dred Dc]). cbn in Dc.
  apply returns_bind. eapply returns_mono.
  { apply IH; [lia|done| |].
    - intros x Hx. destruct (Hl x (list_elem_of_further _ _ _ Hx)) as [Hk HPx]. split; [|done].
      specialize (Djobs (j_id x)). rewrite Hk in Djobs. destruct Djobs as (x' & Hx' & E).
      rewrite bool_decide_eq_false_2 in E; [by subst|].
      intros Ek%list_elem_of_singleton. apply Hni. rewrite <-Ek. by apply list_elem_of_fmap_2.
    - split; [|split].
      + apply (new_to_used (w_count w) (2 * S (length l)) _ _ (job_events (w_db w))); (done || lia).
      + apply (new_to_used (w_count w) (2 * S (length l)) _ _ (notification_outbox (w_db w))); (done || lia).
      + apply (distinct_sub (w_count w) (2 * S (length l))); (done || lia). }
  intros bs w2 (-> & [Djobs2 Dev2 Dnot2 Dpost2 Dred2 Dc2]). apply returns_ret. split; [done|].
  rewrite length_fmap in Dc2. split.
  - by apply (rows_step_cons R _ _ _ _ _ Hni Djobs).
  - eapply used_trans; [|exact Dev|exact Dev2]. lia.
  - eapply used_trans; [|exact Dnot|exact Dnot2]. lia.
  - by eapply posted_trans.
  - congruence.
  - cbn [fmap list_fmap length]. rewrite length_fmap. lia.
Qed.
End Batch.

(** ** The rows of a batch *)

(** A batch with room for all the rows, none of them locked. *)
Lemma returns_select_all {env : Env} {A} (table : Db → gmap uuid A) (guard : A → bool) key limit
  (Q : list A → World → Prop) w :
  let rows := rows_where (λ a, guard a = true) (table (w_db w)) in
  (∀ i, locked_row (w_count w) i = false) → Z.of_nat (length rows) <= limit →
  (∀ l, l ≡ₚ rows → Q l (w <| w_count := S (w_count w) |>)) →
  returns (select_for_update table guard key limit) Q w.
Proof.
  intros rows Hlock Hlen HQ. apply returns_bind, returns_reading, returns_query, HQ.
  transitivity (select_rows (λ a, bool_decide (guard a = true)) key limit (locked_row (w_count w)) (table (w_db w)));
    [|by apply select_all].
  unfold select_rows, where_unlocked. cbn [w_db set_field].
  rewrite (list_filter_iff _ (λ p : uuid * A, bool_decide (guard p.2 = true) && negb (locked_row (w_count w) p.1) = true)).
  { done. }
  intros p. by destruct (guard p.2).
Qed.


Section Due.
Context {env : Env} (guard : Job → bool).

Definition due (d : Db) : list Job := rows_where (λ j, guard j = true) (jobs d).

Lemma due_rows strict d l :
  Inv strict d → l ≡ₚ due d →
  NoDup (j_id <$> l) ∧ ∀ j, j ∈ l → jobs d !! j_id j = Some j ∧ guard j = true.
Proof.
  intros HI Hl. split.
  - rewrite Hl. apply rows_where_NoDup. intros k1 k2 j1 j2 H1 H2 _ _ E.
    destruct (inv_jobs _ _ HI k1 j1 H1) as ([<- _ _ _ _] & _), (inv_jobs _ _ HI k2 j2 H2) as ([<- _ _ _ _] & _).
    done.
  - intros j Hj. rewrite Hl in Hj. apply elem_of_rows_where in Hj as (Hg & k & Hk).
    by destruct (inv_jobs _ _ HI k j Hk) as ([<- _ _ _ _] & _).
Qed.

Lemma in_due d i j : jobs d !! i = Some j → guard j = true → j ∈ due d.
Proof. intros Hj Hg. apply elem_of_rows_where. split; [done|by exists i]. Qed.

Lemma returns_select key limit (Q : list Job → World → Prop) w :
  (∀ i, locked_row (w_count w) i = false) → Z.of_nat (length (due (w_db w))) <= limit →
  (∀ l, l ≡ₚ due (w_db w) → Q l (w <| w_count := S (w_count w) |>)) →
  returns (select_for_update jobs guard key limit) Q w.
Proof. apply (returns_select_all jobs guard). Qed.

(** The selection and the loop. *)
Lemma batch_loop {B C} (first : nat) (now : datetime) (R : Job → Job → Prop) (row : Job → M B) (g : Job → B) strict key limit
  (k : list B → M C) (Q : C → World → Prop) w :
  Inv strict (w_db w) → (first ≤ w_count w)%nat → (∀ i, locked_row (w_count w) i = false) →
  Z.of_nat (length (due (w_db w))) <= limit → new_ids (S (w_count w)) (2 * length (due (w_db w))) (w_db w) →
  row_returns first now (λ j, guard j = true ∧ jobs (w_db w) !! j_id j = Some j) R row g →
  (∀ l w', l ≡ₚ due (w_db w) → batch_done now R (j_id <$> l) (w <| w_count := S (w_count w) |>) w' →
     returns (k (map g l)) Q w') →
  returns (l ← select_for_update jobs guard key limit; bs ← for_each l row; k bs) Q w.
Proof.
  intros HI Hfirst Hlock Hlen Hids Hrow HQ. apply returns_bind, returns_select; [done|done|].
  intros l Hl. destruct (due_rows strict _ l HI Hl) as [Hnd Hrows].
  apply returns_bind. eapply returns_mono.
  { apply (batch_returns _ _ _ _ _ _ l _ Hrow); [cbn; lia|exact Hnd| |].
    - intros j Hj. destruct (Hrows j Hj). done.
    - by rewrite Hl. }
  intros bs w' [-> Hdone]. by apply HQ.
Qed.

(** Every row that is due is changed, and no other; what holds of the rows of the
    batch holds of every row that is due. *)
Lemma batch_done_due strict (R S : Job → Job → Prop) (U : Job → Prop) l w w' :
  Inv strict (w_db w) → l ≡ₚ due (w_db w) → rows_step R (j_id <$> l) (jobs (w_db w)) (jobs (w_db w')) →
  (∀ j, j ∈ l → U j) → (∀ j j', R j j' → U j → S j j') →
  ∀ i j, jobs (w_db w) !! i = Some j →
    ∃ j', jobs (w_db w') !! i = Some j' ∧ if guard j then S j j' else j' = j.
Proof.
  intros HI Hl Hstep HU HS i j Hj. specialize (Hstep i). rewrite Hj in Hstep.
  destruct Hstep as (j' & Hj' & H). exists j'. split; [done|].
  destruct (inv_jobs _ _ HI i j Hj) as ([Hid _ _ _ _] & _). destruct (guard j) eqn:Hg.
  - assert (j ∈ l) as Hin by (rewrite Hl; by eapply in_due).
    rewrite bool_decide_eq_true_2 in H; [by apply HS, HU|]. rewrite <-Hid. by apply list_elem_of_fmap_2.
  - rewrite bool_decide_eq_false_2 in H; [done|]. intros (x & Ex & Hx)%list_elem_of_fmap.
    destruct (due_rows strict _ l HI Hl) as [_ Hrows]. destruct (Hrows x Hx) as [Hx' Hgx]. congruence.
Qed.
End Due.

(** What a pass leaves. *)
Record pass_left {env : Env} (now : datetime) (R : Job → Job → Prop) (ks : list uuid) (w w' : World) : Prop := {
  pl_jobs : rows_step R ks (jobs (w_db w)) (jobs (w_db w'));
  pl_events : used (w_count w) (w_count w') (job_events (w_db w)) (job_events (w_db w'));
  pl_notifications : used (w_count w) (w_count w') (notification_outbox (w_db w))
                       (notification_outbox (w_db w'));
  pl_posted : posted now (notification_outbox (w_db w)) (notification_outbox (w_db w'));
  pl_count : (w_count w ≤ w_count w' ≤ w_count w + 3 * S (length ks))%nat;
}.

(** A batch, and then at most a message per row. *)
Lemma batch_left {env : Env} now R ks w x w1 w2 :
  w_db x = w_db w → w_count x = (3 + w_count w)%nat → batch_done now R ks x w1 →
  w_db w2 = w_db w1 → (w_count w1 ≤ w_count w2 ≤ w_count w1 + length ks)%nat →
  pass_left now R ks w w2.
Proof.
  intros Ex Ec [Hj He Hn Hp _ Hc] E2 Hc2. rewrite Ex in Hj, He, Hn, Hp. rewrite Ec in He, Hn, Hc.
  split; rewrite ?E2; try done; [apply (used_sub _ _ _ _ _ _ He)|apply (used_sub _ _ _ _ _ _ Hn)|]; lia.
Qed.

Lemma omap_list_some {A B} (f : A → B) l : omap_list (map (λ a, Some (f a)) l) = map f l.
Proof. unfold omap_list. induction l as [|a l IH]; [done|]. cbn. by rewrite IH. Qed.

Lemma in_publications j l : j ∈ l → publication j ∈ map publication l.
Proof. intros H. by apply list_elem_of_In, List.in_map, list_elem_of_In. Qed.

Lemma returns_bind_ret {env : Env} {A B} (m : M A) (f : A → M B) (Q : B → World → Prop) w :
  returns (a ← m; b ← f a; mret b) Q w → returns (m ≫= f) Q w.
Proof.
  intros (b & w' & H & HQ). exists b, w'. split; [|done]. revert H. unfold mbind, M_bind.
  destruct (m w) as [[a|e] w1]; [|done]. by destruct (f a w1) as [[x|e] w2].
Qed.

(** ** Promotion of retries *)

Section Loops.
Context {env : Env} (settings : Settings).
Hypothesis redis_up : ∀ n, redis_down n = false.

Abbreviation waiting w := (abstract (redis_queue_namespace settings) (w_redis w)).
Abbreviation dead_letters w :=
  (contents (w_redis w) (JobQueue._dead_letter_key (redis_queue_namespace settings))).

Definition retry_due (now : datetime) (j : Job) : bool :=
  status_is RETRYING j && le_opt (j_next_attempt_at j) now.

Definition promoted (now : datetime) (j j' : Job) : Prop :=
  j' = j <| j_status := QUEUED |> <| j_queued_at := Some now |> <| j_last_dispatched_at := Some now |>
         <| j_next_attempt_at := None |> <| j_updated_at := now |>.

Lemma promote_row_returns strict now d :
  Inv strict d →
  row_returns 0 now (λ j, retry_due now j = true ∧ jobs d !! j_id j = Some j) (promoted now) (promote_row now)
    (λ j, Some (publication j)).
Proof.
  intros HI j w _ Hj [Hdue Hd] (He & _ & _).
  destruct (inv_jobs _ _ HI _ _ Hd) as ([_ Ht Hck _ _] & _). unfold retry_due in Hdue. bool_simpl.
  apply returns_bind, (returns_update _ _ _ _ j); [exact Hj|done|]. rewrite H.
  apply returns_bind, returns_record.
  { cbn. rewrite lookup_insert_eq. by eexists. }
  { apply He. cbn. lia. }
  { done. }
  apply returns_ret. split; [done|]. split; cbn.
  - by apply (rows_step_one _ _ j).
  - apply used_insert. lia.
  - apply used_same.
  - apply posted_same.
  - done.
  - lia.
Qed.

(** A pass: the rows of the batch, the answer, and what it leaves. *)
Lemma promote_pass strict batch w :
  let now := clock (w_count w) in
  Inv strict (w_db w) → Z.of_nat (length (due (retry_due now) (w_db w))) <= batch →
  (∀ i, locked_row (2 + w_count w) i = false) →
  new_ids (3 + w_count w) (2 * length (due (retry_due now) (w_db w))) (w_db w) →
  ∃ l w', run (promote_due settings batch) w = (Ok (Z.of_nat (length l)), w')
    ∧ l ≡ₚ due (retry_due now) (w_db w)
    ∧ pass_left now (promoted now) (j_id <$> l) w w'
    ∧ same_queue (waiting w') (enqueue_all (map publication l) (waiting w))
    ∧ dead_letters w' = dead_letters w.
Proof.
  intros now HI Hlen Hlock Hids.
  enough (returns (run (promote_due settings batch)) (λ r w', ∃ l, l ≡ₚ due (retry_due now) (w_db w)
    ∧ r = Z.of_nat (length l) ∧ pass_left now (promoted now) (j_id <$> l) w w'
    ∧ same_queue (waiting w') (enqueue_all (map publication l) (waiting w))
    ∧ dead_letters w' = dead_letters w) w)
    as (r & w' & Hrun & l & Hl & -> & Hstep & Hq) by (by exists l, w').
  apply returns_run_bind, returns_run_act, returns_reading.
  apply returns_run_bind, returns_run_act, returns_transaction.
  apply (batch_loop (retry_due now) 0 now (promoted now) (promote_row now) (λ j, Some (publication j)) strict); try done.
  { cbn. lia. }
  { by apply (promote_row_returns strict). }
  intros l w1 Hl D. apply returns_ret. rewrite omap_list_some.
  apply returns_run_bind.
  destruct (publish_all_runs settings redis_up (map publication l) w1) as (w2 & Hrun & Hdb & Hc & Hq & Hdl).
  exists tt, w2. split; [done|]. apply returns_run_ret. exists l. rewrite length_map in Hc.
  split; [done|]. split; [unfold count_of; by rewrite length_map|]. split.
  - eapply batch_left; [| |exact D|done|rewrite length_fmap; lia]; done.
  - by rewrite Hq, Hdl, (bd_redis _ _ _ _ _ D).
Qed.

(** C21: liveness of the promotion: when Redis answers, no other session holds the
    rows, the batch has room and the identifiers are new, one pass returns the
    number of retries whose time has come, moves every one of them, and no other
    job, to QUEUED with its attempts kept and no next attempt, and puts its id in
    the queue of its priority. *)
Theorem due_retries_are_promoted (strict : bool) (batch : Z) (w : World) :
  let now := clock (w_count w) in
  Inv strict (w_db w) → Z.of_nat (length (due (retry_due now) (w_db w))) <= batch →
  (∀ i, locked_row (2 + w_count w) i = false) →
  new_ids (3 + w_count w) (2 * length (due (retry_due now) (w_db w))) (w_db w) →
  ∃ w', run (promote_due settings batch) w = (Ok (Z.of_nat (length (due (retry_due now) (w_db w)))), w')
    ∧ ∀ i j, jobs (w_db w) !! i = Some j → ∃ j', jobs (w_db w') !! i = Some j'
        ∧ if retry_due now j
          then promoted now j j' ∧ uuid_str (j_id j) ∈ waiting w' (j_priority j)
          else j' = j.
Proof.
  intros now HI Hlen Hlock Hids.
  destruct (promote_pass strict batch w HI Hlen Hlock Hids) as (l & w' & Hrun & Hl & Hstep & Hq & _).
  exists w'. split; [unfold now; by rewrite <-Hl|].
  apply (batch_done_due _ strict _ _ (λ j, uuid_str (j_id j) ∈ waiting w' (j_priority j)) l w w' HI Hl (pl_jobs _ _ _ _ _ Hstep)).
  - intros j Hj. rewrite Hq. by apply enqueue_all_in, in_publications.
  - done.
Qed.

(** ** Redelivery *)

Definition stuck (cutoff : datetime) (j : Job) : bool :=
  status_is QUEUED j && (is_null (j_last_dispatched_at j) || lt_opt (j_last_dispatched_at j) cutoff).

Definition redelivered (first : nat) (j j' : Job) : Prop :=
  ∃ m, (first ≤ m)%nat
    ∧ j' = j <| j_last_dispatched_at := Some (clock m) |> <| j_updated_at := clock m |>.

Lemma redeliver_row_returns strict first now cutoff d :
  Inv strict d →
  row_returns first now (λ j, stuck cutoff j = true ∧ jobs d !! j_id j = Some j) (redelivered first) redeliver_row publication.
Proof.
  intros HI j w Hfirst Hj [Hdue Hd] _.
  destruct (inv_jobs _ _ HI _ _ Hd) as ([_ Ht Hck _ _] & _). unfold stuck in Hdue. bool_simpl.
  apply returns_bind, returns_reading, returns_bind, (returns_update _ _ _ _ j); [exact Hj|done|]. rewrite H.
  apply returns_ret. split; [done|]. split; cbn; [|apply used_same|apply used_same|apply posted_same|done|lia].
  apply (rows_step_one _ _ j); [done|]. by exists (w_count w).
Qed.

(** A pass: the rows of the batch, the answer, and what it leaves. *)
Lemma redeliver_pass strict batch w :
  let now := clock (w_count w) in
  let cutoff := now - seconds (queue_stuck_seconds settings) in
  Inv strict (w_db w) → Z.of_nat (length (due (stuck cutoff) (w_db w))) <= batch →
  (∀ i, locked_row (2 + w_count w) i = false) →
  new_ids (3 + w_count w) (2 * length (due (stuck cutoff) (w_db w))) (w_db w) →
  ∃ l w', run (redeliver_stuck settings batch) w = (Ok (Z.of_nat (length l)), w')
    ∧ l ≡ₚ due (stuck cutoff) (w_db w)
    ∧ pass_left now (redelivered (w_count w)) (j_id <$> l) w w'
    ∧ same_queue (waiting w') (enqueue_all (map publication l) (waiting w))
    ∧ dead_letters w' = dead_letters w.
Proof.
  intros now cutoff HI Hlen Hlock Hids.
  enough (returns (run (redeliver_stuck settings batch)) (λ r w', ∃ l, l ≡ₚ due (stuck cutoff) (w_db w)
    ∧ r = Z.of_nat (length l) ∧ pass_left now (redelivered (w_count w)) (j_id <$> l) w w'
    ∧ same_queue (waiting w') (enqueue_all (map publication l) (waiting w))
    ∧ dead_letters w' = dead_letters w) w)
    as (r & w' & Hrun & l & Hl & -> & Hstep & Hq) by (by exists l, w').
  apply returns_run_bind, returns_run_act, returns_reading.
  apply returns_run_bind, returns_run_act, returns_transaction.
  apply returns_bind_ret, (batch_loop (stuck cutoff) (w_count w) now (redelivered (w_count w)) redeliver_row publication strict); try done.
  { cbn. lia. }
  { by apply (redeliver_row_returns strict _ now). }
  intros l w1 Hl D. apply returns_ret, returns_run_bind.
  destruct (publish_all_runs settings redis_up (map publication l) w1) as (w2 & Hrun & Hdb & Hc & Hq & Hdl).
  exists tt, w2. split; [done|]. apply returns_run_ret. exists l. rewrite length_map in Hc.
  split; [done|]. split; [unfold count_of; by rewrite length_map|]. split.
  - eapply batch_left; [| |exact D|done|rewrite length_fmap; lia]; done.
  - by rewrite Hq, Hdl, (bd_redis _ _ _ _ _ D).
Qed.

(** Liveness of the redelivery: under the same conditions, one pass puts the id of
    every queued job that was not delivered lately in its queue again and stamps
    the delivery; no other row changes. *)
Theorem stuck_jobs_are_redelivered (strict : bool) (batch : Z) (w : World) :
  let cutoff := clock (w_count w) - seconds (queue_stuck_seconds settings) in
  Inv strict (w_db w) → Z.of_nat (length (due (stuck cutoff) (w_db w))) <= batch →
  (∀ i, locked_row (2 + w_count w) i = false) →
  new_ids (3 + w_count w) (2 * length (due (stuck cutoff) (w_db w))) (w_db w) →
  ∃ w', run (redeliver_stuck settings batch) w = (Ok (Z.of_nat (length (due (stuck cutoff) (w_db w)))), w')
    ∧ ∀ i j, jobs (w_db w) !! i = Some j → ∃ j', jobs (w_db w') !! i = Some j'
        ∧ if stuck cutoff j
          then redelivered (w_count w) j j' ∧ uuid_str (j_id j) ∈ waiting w' (j_priority j)
          else j' = j.
Proof.
  intros cutoff HI Hlen Hlock Hids.
  destruct (redeliver_pass strict batch w HI Hlen Hlock Hids) as (l & w' & Hrun & Hl & Hstep & Hq & _).
  exists w'. split; [unfold cutoff; by rewrite <-Hl|].
  apply (batch_done_due _ strict _ _ (λ j, uuid_str (j_id j) ∈ waiting w' (j_priority j)) l w w' HI Hl (pl_jobs _ _ _ _ _ Hstep)).
  - intros j Hj. rewrite Hq. by apply enqueue_all_in, in_publications.
  - done.
Qed.

(** ** Leases *)

Definition lease_expired (now : datetime) (j : Job) : bool :=
  status_is RUNNING j && lt_opt (j_lock_expires_at j) now.

Definition exhausted (j : Job) : bool := j_max_attempts j <=? j_attempts j.

Definition recovered (now : datetime) (j j' : Job) : Prop :=
  if exhausted j
  then j' = j <| j_status := FAILED |> <| j_error_code := Some _LEASE_EXPIRED_CODE |>
              <| j_error_message := Some _LEASE_EXPIRED_MESSAGE |> <| j_completed_at := Some now |>
              <| j_locked_by := None |> <| j_lock_expires_at := None |>
              <| j_dead_lettered_at := Some now |> <| j_updated_at := now |>
  else j' = j <| j_status := QUEUED |> <| j_queued_at := Some now |>
              <| j_last_dispatched_at := Some now |> <| j_locked_by := None |>
              <| j_lock_expires_at := None |> <| j_updated_at := now |>.

Definition reap_outcome (j : Job) : reaped :=
  if exhausted j then DeadLettered (uuid_str (j_id j)) else Requeued (publication j).

(** The outbox takes the failures. *)
Definition failures_announceable (guard : Job → bool) (d : Db) : Prop :=
  ∀ j, j ∈ due guard d → exhausted j = true →
    announceable j JobEventType.FAILED FAILED None (Some _LEASE_EXPIRED_CODE)
      (Some _LEASE_EXPIRED_MESSAGE) = true.

Lemma reap_row_returns strict now d :
  Inv strict d → failures_announceable (lease_expired now) d →
  row_returns 0 now (λ j, lease_expired now j = true ∧ jobs d !! j_id j = Some j) (recovered now) (reap_row now)
    (λ j, Some (reap_outcome j)).
Proof.
  intros HI Hann j w _ Hj [Hdue Hd] (He & Hn & _).
  destruct (inv_jobs _ _ HI _ _ Hd) as ([_ Ht Hck _ _] & _).
  pose proof (Hann j (in_due _ _ _ _ Hd Hdue)) as Hok. unfold lease_expired in Hdue. bool_simpl.
  unfold reap_row, reap_outcome, recovered. fold (exhausted j). destruct (exhausted j) eqn:Hex.
  - apply returns_bind, (returns_update _ _ _ _ j); [exact Hj| |].
    { intros _. split; [|exact Hck]. revert Ht. unfold job_types_ok. cbn -[jsonb].
      rewrite !andb_true_iff. tauto. }
    rewrite H. apply returns_bind, returns_record.
    { cbn. rewrite lookup_insert_eq. by eexists. }
    { apply He. cbn. lia. }
    { done. }
    apply returns_bind, returns_notify; [cbn; rewrite lookup_insert_eq; by eexists| |by apply Hok|].
    { apply Hn. cbn. lia. }
    intros t k n Hu Hpost _ _. apply returns_ret. split; [done|]. cbn in Hu, Hpost. split; cbn.
    + apply (rows_step_one _ _ j); [done|]. by rewrite Hex.
    + apply used_insert. lia.
    + eapply used_trans; [|apply used_same|exact Hu]. lia.
    + exact Hpost.
    + done.
    + lia.
  - apply returns_bind, (returns_update _ _ _ _ j); [exact Hj| |].
    { intros _. split; [|exact Hck]. revert Ht. unfold job_types_ok. cbn -[jsonb].
      rewrite !andb_true_iff. tauto. }
    rewrite H. apply returns_bind, returns_record.
    { cbn. rewrite lookup_insert_eq. by eexists. }
    { apply He. cbn. lia. }
    { done. }
    apply returns_ret. split; [done|]. split; cbn.
    + apply (rows_step_one _ _ j); [done|]. by rewrite Hex.
    + apply used_insert. lia.
    + apply used_same.
    + apply posted_same.
    + done.
    + lia.
Qed.

Lemma dead_letter_all_returns ids w :
  returns (run (co_for_each ids (λ id, act (JobQueue.dead_letter (redis_queue_namespace settings) id))))
    (λ _ w', w_db w' = w_db w ∧ w_count w' = (w_count w + length ids)%nat
      ∧ dead_letters w' = rev ids ++ dead_letters w
      ∧ same_queue (waiting w') (waiting w)) w.
Proof.
  revert w. induction ids as [|id ids IH]; intros w; [apply returns_run_ret; by rewrite Nat.add_0_r|].
  cbn [co_for_each]. apply returns_run_bind, returns_run_act, returns_redis; [apply redis_up|].
  eapply returns_mono; [apply IH|]. intros _ w' (Hdb & Hc & Hdl & Hq). split; [exact Hdb|].
  split; [cbn in Hc |- *; lia|]. split.
  - rewrite Hdl. cbn. by rewrite contents_lpush, String.eqb_refl, <-app_assoc.
  - rewrite Hq. apply abstract_dead_letter.
Qed.

Lemma in_reaped l j :
  j ∈ l → if exhausted j then uuid_str (j_id j) ∈ dead_lettered_of (map reap_outcome l)
          else publication j ∈ requeued_of (map reap_outcome l).
Proof.
  intros Hj. assert (reap_outcome j ∈ map reap_outcome l) as Hin
    by (apply list_elem_of_In, List.in_map, list_elem_of_In; done).
  unfold reap_outcome in Hin at 1. destruct (exhausted j); apply list_elem_of_omap; by eexists.
Qed.

Lemma reaped_length (l : list reaped) :
  (length (requeued_of l) + length (dead_lettered_of l) = length l)%nat.
Proof.
  unfold requeued_of, dead_lettered_of. induction l as [|r l IH]; [done|].
  destruct r; cbn [omap list_omap length]; lia.
Qed.

(** A pass: the rows of the batch, the answer, and what it leaves. *)
Lemma reap_pass strict batch w :
  let now := clock (w_count w) in
  Inv strict (w_db w) → Z.of_nat (length (due (lease_expired now) (w_db w))) <= batch →
  (∀ i, locked_row (2 + w_count w) i = false) →
  new_ids (3 + w_count w) (2 * length (due (lease_expired now) (w_db w))) (w_db w) →
  failures_announceable (lease_expired now) (w_db w) →
  ∃ l w', run (reap_expired settings batch) w = (Ok (Z.of_nat (length l)), w')
    ∧ l ≡ₚ due (lease_expired now) (w_db w)
    ∧ pass_left now (recovered now) (j_id <$> l) w w'
    ∧ dead_letters w' = rev (dead_lettered_of (map reap_outcome l)) ++ dead_letters w
    ∧ same_queue (waiting w') (enqueue_all (requeued_of (map reap_outcome l)) (waiting w)).
Proof.
  intros now HI Hlen Hlock Hids Hann.
  enough (returns (run (reap_expired settings batch)) (λ r w', ∃ l, l ≡ₚ due (lease_expired now) (w_db w)
    ∧ r = Z.of_nat (length l) ∧ pass_left now (recovered now) (j_id <$> l) w w'
    ∧ dead_letters w' = rev (dead_lettered_of (map reap_outcome l)) ++ dead_letters w
    ∧ same_queue (waiting w') (enqueue_all (requeued_of (map reap_outcome l)) (waiting w))) w)
    as (r & w' & Hrun & l & Hl & -> & Hstep & Hdl & Hq) by (by exists l, w').
  apply returns_run_bind, returns_run_act, returns_reading.
  apply returns_run_bind, returns_run_act, returns_transaction.
  apply (batch_loop (lease_expired now) 0 now (recovered now) (reap_row now) (λ j, Some (reap_outcome j)) strict); try done.
  { cbn. lia. }
  { by apply (reap_row_returns strict). }
  intros l w1 Hl D. apply returns_ret. rewrite omap_list_some.
  apply returns_run_bind. eapply returns_mono; [apply dead_letter_all_returns|]. intros _ w2 (Hdb2 & Hc2 & Hdl2 & Hq2).
  apply returns_run_bind.
  destruct (publish_all_runs settings redis_up (requeued_of (map reap_outcome l)) w2)
    as (w3 & Hrun & Hdb3 & Hc3 & Hq3 & Hdl3).
  pose proof (reaped_length (map reap_outcome l)) as Hlength. rewrite length_map in Hlength.
  exists tt, w3. split; [done|]. apply returns_run_ret. exists l.
  split; [done|]. split; [unfold count_of; lia|]. split.
  - eapply batch_left; [| |exact D|by rewrite Hdb3|rewrite length_fmap; lia]; done.
  - rewrite Hdl3, Hdl2, (bd_redis _ _ _ _ _ D). split; [done|].
    by rewrite Hq3, Hq2, (bd_redis _ _ _ _ _ D).
Qed.

(** C12: liveness of the reaper: under the same conditions, and when the outbox takes
    the failures, one pass recovers every running job whose lease has run out: a
    job with attempts left goes back to QUEUED without a lease and its id to the
    queue of its priority, one without is FAILED with LEASE_EXPIRED and its id
    stands in the dead-letter list; no other job changes, and the pass returns
    their number.  So a job whose worker died is not lost. *)
Theorem expired_leases_are_recovered (strict : bool) (batch : Z) (w : World) :
  let now := clock (w_count w) in
  Inv strict (w_db w) → Z.of_nat (length (due (lease_expired now) (w_db w))) <= batch →
  (∀ i, locked_row (2 + w_count w) i = false) →
  new_ids (3 + w_count w) (2 * length (due (lease_expired now) (w_db w))) (w_db w) →
  failures_announceable (lease_expired now) (w_db w) →
  ∃ w', run (reap_expired settings batch) w = (Ok (Z.of_nat (length (due (lease_expired now) (w_db w)))), w')
    ∧ ∀ i j, jobs (w_db w) !! i = Some j → ∃ j', jobs (w_db w') !! i = Some j'
        ∧ if lease_expired now j
          then recovered now j j'
               ∧ if exhausted j then uuid_str (j_id j) ∈ dead_letters w'
                 else uuid_str (j_id j) ∈ waiting w' (j_priority j)
          else j' = j.
Proof.
  intros now HI Hlen Hlock Hids Hann.
  destruct (reap_pass strict batch w HI Hlen Hlock Hids Hann) as (l & w' & Hrun & Hl & Hstep & Hdl & Hq).
  exists w'. split; [unfold now; by rewrite <-Hl|].
  apply (batch_done_due _ strict _ _ (λ j, if exhausted j then uuid_str (j_id j) ∈ dead_letters w'
    else uuid_str (j_id j) ∈ waiting w' (j_priority j)) l w w' HI Hl (pl_jobs _ _ _ _ _ Hstep)); [|done].
  intros j Hj. pose proof (in_reaped l j Hj) as Hin. destruct (exhausted j).
  - rewrite Hdl. apply elem_of_app. left. by apply list_elem_of_In, List.in_rev, list_elem_of_In in Hin.
  - rewrite Hq. by apply enqueue_all_in.
Qed.

(** ** Expiry *)

Definition stale (cutoff : datetime) (j : Job) : bool :=
  status_in JobRepository._EXPIRABLE j && (j_created_at j <? cutoff).

Definition expired (now : datetime) (j j' : Job) : Prop :=
  j' = j <| j_status := EXPIRED |> <| j_completed_at := Some now |> <| j_updated_at := now |>.

Lemma expire_row_returns strict now cutoff d :
  Inv strict d →
  (∀ j, j ∈ due (stale cutoff) d → announceable j JobEventType.EXPIRED EXPIRED None (Some _EXPIRED_CODE)
     (Some _EXPIRED_MESSAGE) = true) →
  row_returns 0 now (λ j, stale cutoff j = true ∧ jobs d !! j_id j = Some j) (expired now) (expire_row now) (λ _, 1).
Proof.
  intros HI Hann j w _ Hj [Hdue Hd] (He & Hn & _).
  destruct (inv_jobs _ _ HI _ _ Hd) as ([_ Ht Hck _ _] & _).
  pose proof (Hann j (in_due _ _ _ _ Hd Hdue)) as Hok. unfold stale in Hdue. bool_simpl.
  apply returns_bind, (returns_update _ _ _ _ j); [exact Hj|done|].
  rewrite H. apply returns_bind, returns_query, returns_bind, returns_record.
  { cbn. rewrite lookup_insert_eq. by eexists. }
  { apply He. cbn. lia. }
  { done. }
  apply returns_bind, returns_notify; [cbn; rewrite lookup_insert_eq; by eexists| |exact Hok|].
  { apply Hn. cbn. lia. }
  intros t k n Hu Hpost _ _. apply returns_ret. split; [done|]. cbn in Hu, Hpost. split; cbn.
  - by apply (rows_step_one _ _ j).
  - apply used_insert. lia.
  - eapply used_trans; [|apply used_same|exact Hu]. lia.
  - exact Hpost.
  - done.
  - lia.
Qed.

Lemma sum_of_ones {A} (l : list A) : foldl Z.add 0 (map (λ _, 1) l) = Z.of_nat (length l).
Proof.
  enough (∀ n, foldl Z.add n (map (λ _ : A, 1) l) = n + Z.of_nat (length l)) as -> by lia.
  induction l as [|a l IH]; intros n; [cbn; lia|]. cbn [map foldl length]. rewrite IH. lia.
Qed.

(** A pass: the rows of the batch, the answer, and what it leaves. *)
Lemma expire_pass strict batch w :
  let now := clock (w_count w) in
  let cutoff := now - seconds (job_queue_max_age_seconds settings) in
  Inv strict (w_db w) → Z.of_nat (length (due (stale cutoff) (w_db w))) <= batch →
  (∀ i, locked_row (2 + w_count w) i = false) →
  new_ids (3 + w_count w) (2 * length (due (stale cutoff) (w_db w))) (w_db w) →
  (∀ j, j ∈ due (stale cutoff) (w_db w) →
     announceable j JobEventType.EXPIRED EXPIRED None (Some _EXPIRED_CODE) (Some _EXPIRED_MESSAGE) = true) →
  ∃ l w', run (expire_stale settings batch) w = (Ok (Z.of_nat (length l)), w')
    ∧ l ≡ₚ due (stale cutoff) (w_db w) ∧ pass_left now (expired now) (j_id <$> l) w w'
    ∧ w_redis w' = w_redis w.
Proof.
  intros now cutoff HI Hlen Hlock Hids Hann.
  enough (returns (run (expire_stale settings batch)) (λ r w', ∃ l, l ≡ₚ due (stale cutoff) (w_db w)
    ∧ r = Z.of_nat (length l) ∧ pass_left now (expired now) (j_id <$> l) w w' ∧ w_redis w' = w_redis w) w)
    as (r & w' & Hrun & l & Hl & -> & Hstep) by (by exists l, w').
  apply returns_run_bind, returns_run_act, returns_reading, returns_run_act, returns_transaction.
  apply (batch_loop (stale cutoff) 0 now (expired now) (expire_row now) (λ _, 1) strict); try done.
  { cbn. lia. }
  { by apply (expire_row_returns strict). }
  intros l w1 Hl D. apply returns_ret. exists l. rewrite sum_of_ones.
  split; [done|]. split; [done|]. split; [|by rewrite (bd_redis _ _ _ _ _ D)].
  eapply batch_left; [| |exact D|done|lia]; done.
Qed.

(** Liveness of the expiry: under the same conditions one pass expires every
    pending or queued job created before the limit of age, and no other job, and
    returns their number. *)
Theorem stale_jobs_are_expired (strict : bool) (batch : Z) (w : World) :
  let now := clock (w_count w) in
  let cutoff := now - seconds (job_queue_max_age_seconds settings) in
  Inv strict (w_db w) → Z.of_nat (length (due (stale cutoff) (w_db w))) <= batch →
  (∀ i, locked_row (2 + w_count w) i = false) →
  new_ids (3 + w_count w) (2 * length (due (stale cutoff) (w_db w))) (w_db w) →
  (∀ j, j ∈ due (stale cutoff) (w_db w) →
     announceable j JobEventType.EXPIRED EXPIRED None (Some _EXPIRED_CODE) (Some _EXPIRED_MESSAGE) = true) →
  ∃ w', run (expire_stale settings batch) w = (Ok (Z.of_nat (length (due (stale cutoff) (w_db w)))), w')
    ∧ ∀ i j, jobs (w_db w) !! i = Some j → ∃ j', jobs (w_db w') !! i = Some j'
        ∧ if stale cutoff j then expired now j j' else j' = j.
Proof.
  intros now cutoff HI Hlen Hlock Hids Hann.
  destruct (expire_pass strict batch w HI Hlen Hlock Hids Hann) as (l & w' & Hrun & Hl & Hstep & _).
  exists w'. split; [unfold cutoff, now; by rewrite <-Hl|].
  by apply (batch_done_due _ strict _ _ (λ _, True) l w w' HI Hl (pl_jobs _ _ _ _ _ Hstep)).
Qed.
End Loops.

(** ** At concrete states *)

Lemma new_ids_check {env : Env} n k d :
  forallb (λ m, is_null (job_events d !! uuid7 m) && is_null (notification_outbox d !! uuid7 m)) (seq n k) = true →
  distinct_ids n k → new_ids n k d.
Proof.
  rewrite forallb_forall. intros H Hd.
  split; [|split; [|done]]; intros m Hm; specialize (H m); rewrite in_seq in H; specialize (H Hm);
    apply andb_prop in H as [He Hn]; [by destruct (job_events d !! uuid7 m)|by destruct (notification_outbox d !! uuid7 m)].
Qed.

Lemma due_retries_are_promoted_witness :
  j_status (row_at w_retrying) = RETRYING
  ∧ ∃ w' j', run (promote_due default_settings 10) w_retrying = (Ok 1, w')
    ∧ jobs (w_db w') !! first_job = Some j' ∧ j_status j' = QUEUED
    ∧ uuid_str first_job ∈ abstract "job_orchestrator" (w_redis w') JobPriority.NORMAL.
Proof.
  split; [by vm_compute|].
  assert (length (due (retry_due (clock (w_count w_retrying))) (w_db w_retrying)) = 1%nat) as Hone by (by vm_compute).
  destruct (due_retries_are_promoted (env := demo_env) default_settings (λ _, eq_refl) true 10 w_retrying) as (w' & Hrun & Hjobs).
  - exact (reachable_Inv true _ (at_retrying true)).
  - rewrite Hone. lia.
  - done.
  - rewrite Hone. apply new_ids_check; [by vm_compute|apply demo_distinct; by vm_compute].
  - rewrite Hone in Hrun. exists w'.
    assert (jobs (w_db w_retrying) !! first_job = Some (row_at w_retrying)) as Hj by (by vm_compute).
    destruct (Hjobs _ _ Hj) as (j' & Hj' & H). exists j'. split; [exact Hrun|]. split; [exact Hj'|].
    assert (retry_due (clock (w_count w_retrying)) (row_at w_retrying) = true) as Hdue by (by vm_compute).
    assert (j_priority (row_at w_retrying) = JobPriority.NORMAL) as Hp by (by vm_compute).
    assert (j_id (row_at w_retrying) = first_job) as Hid by (by vm_compute).
    rewrite Hdue, Hp, Hid in H. destruct H as [-> H]. split; [reflexivity|exact H].
Defined.

Lemma singleton_eq {A} (l : list A) a b : length l = 1%nat → a ∈ l → b ∈ l → a = b.
Proof.
  destruct l as [|x [|y l]]; [done| |done]. intros _ ->%list_elem_of_singleton ->%list_elem_of_singleton. done.
Qed.

(** A worker that died: its lease ran out long ago. *)
Definition w_orphaned : World := w_running <| w_count := 200%nat |>.

Lemma orphaned_Inv : Inv true (w_db w_orphaned).
Proof.
  change (w_db w_orphaned) with (w_db w_running).
  pose proof (reachable_Inv true _ (at_queued true)) as HI.
  pose proof (transaction_commits (claim_body default_settings "worker-1" 3%N 1700000030000000) _ w_queued
    (claim_raises _ _ _ _) (claim_moves true default_settings "worker-1" 3%N 1700000030000000 _ HI)) as H.
  with_strategy transparent [w_running] unfold w_running. unfold commits in H.
  destruct (transaction _ w_queued) as [[[c|]|e] w]; cbn [snd].
  - destruct H as [H _]. by apply (moves_keep_Inv true _ _ _ H).
  - by rewrite H.
  - destruct H as [_ ->]. done.
Qed.

Lemma expired_leases_are_recovered_witness :
  j_status (row_at w_orphaned) = RUNNING
  ∧ ∃ w' j', run (reap_expired default_settings 10) w_orphaned = (Ok 1, w')
    ∧ jobs (w_db w') !! first_job = Some j' ∧ j_status j' = QUEUED ∧ j_locked_by j' = None
    ∧ uuid_str first_job ∈ abstract "job_orchestrator" (w_redis w') JobPriority.NORMAL.
Proof.
  split; [by vm_compute|].
  assert (length (due (lease_expired (clock (w_count w_orphaned))) (w_db w_orphaned)) = 1%nat) as Hone by (by vm_compute).
  assert (jobs (w_db w_orphaned) !! first_job = Some (row_at w_orphaned)) as Hj by (by vm_compute).
  assert (exhausted (row_at w_orphaned) = false) as Hex by (by vm_compute).
  destruct (expired_leases_are_recovered (env := demo_env) default_settings (λ _, eq_refl) true 10 w_orphaned)
    as (w' & Hrun & Hjobs).
  - exact orphaned_Inv.
  - rewrite Hone. lia.
  - done.
  - rewrite Hone. apply new_ids_check; [by vm_compute|apply demo_distinct; by vm_compute].
  - intros j Hin Hx. assert (lease_expired (clock (w_count w_orphaned)) (row_at w_orphaned) = true) as Hdue
      by (by vm_compute).
    rewrite (singleton_eq _ _ _ Hone Hin (in_due _ _ _ _ Hj Hdue)) in Hx. congruence.
  - rewrite Hone in Hrun. destruct (Hjobs _ _ Hj) as (j' & Hj' & H). exists w', j'.
    split; [exact Hrun|]. split; [exact Hj'|].
    assert (lease_expired (clock (w_count w_orphaned)) (row_at w_orphaned) = true) as Hdue by (by vm_compute).
    assert (j_priority (row_at w_orphaned) = JobPriority.NORMAL) as Hp by (by vm_compute).
    assert (j_id (row_at w_orphaned) = first_job) as Hid by (by vm_compute).
    unfold recovered in H. rewrite Hdue, Hex, Hp, Hid in H. destruct H as [-> H].
    split; [reflexivity|]. split; [reflexivity|exact H].
Defined.

(** A queue nobody serves. *)
Definition w_unserved : World := w_queued <| w_count := 4000%nat |>.

Lemma unserved_Inv : Inv true (w_db w_unserved).
Proof. exact (reachable_Inv true _ (at_queued true)). Qed.

Lemma unserved_ids : new_ids (3 + w_count w_unserved) 2 (w_db w_unserved).
Proof. apply new_ids_check; [by vm_compute|apply demo_distinct; by vm_compute]. Qed.

Lemma stuck_jobs_are_redelivered_witness :
  j_status (row_at w_unserved) = QUEUED
  ∧ ∃ w', run (redeliver_stuck default_settings 10) w_unserved = (Ok 1, w')
    ∧ uuid_str first_job ∈ abstract "job_orchestrator" (w_redis w') JobPriority.NORMAL.
Proof.
  split; [by vm_compute|].
  set (cutoff := clock (w_count w_unserved) - seconds 30).
  assert (length (due (stuck cutoff) (w_db w_unserved)) = 1%nat) as Hone by (by vm_compute).
  assert (jobs (w_db w_unserved) !! first_job = Some (row_at w_unserved)) as Hj by (by vm_compute).
  assert (stuck cutoff (row_at w_unserved) = true) as Hdue by (by vm_compute).
  assert (j_priority (row_at w_unserved) = JobPriority.NORMAL) as Hp by (by vm_compute).
  assert (j_id (row_at w_unserved) = first_job) as Hid by (by vm_compute).
  destruct (stuck_jobs_are_redelivered (env := demo_env) default_settings (λ _, eq_refl) true 10 w_unserved)
    as (w' & Hrun & Hjobs);
    change (clock (w_count w_unserved) - seconds (queue_stuck_seconds default_settings)) with cutoff in *.
  - exact unserved_Inv.
  - rewrite Hone. lia.
  - done.
  - rewrite Hone. exact unserved_ids.
  - rewrite Hone in Hrun. destruct (Hjobs _ _ Hj) as (j' & _ & H). rewrite Hdue, Hp, Hid in H.
    exists w'. split; [exact Hrun|apply H].
Defined.

Lemma stale_jobs_are_expired_witness :
  j_status (row_at w_unserved) = QUEUED
  ∧ ∃ w' j', run (expire_stale default_settings 10) w_unserved = (Ok 1, w')
    ∧ jobs (w_db w') !! first_job = Some j' ∧ j_status j' = EXPIRED.
Proof.
  split; [by vm_compute|].
  set (cutoff := clock (w_count w_unserved) - seconds 3600).
  assert (length (due (stale cutoff) (w_db w_unserved)) = 1%nat) as Hone by (by vm_compute).
  assert (jobs (w_db w_unserved) !! first_job = Some (row_at w_unserved)) as Hj by (by vm_compute).
  assert (stale cutoff (row_at w_unserved) = true) as Hdue by (by vm_compute).
  destruct (stale_jobs_are_expired (env := demo_env) default_settings true 10 w_unserved) as (w' & Hrun & Hjobs);
    change (clock (w_count w_unserved) - seconds (job_queue_max_age_seconds default_settings)) with cutoff in *.
  - exact unserved_Inv.
  - rewrite Hone. lia.
  - done.
  - rewrite Hone. exact unserved_ids.
  - intros j Hin. rewrite (singleton_eq _ _ _ Hone Hin (in_due _ _ _ _ Hj Hdue)). by vm_compute.
  - rewrite Hone in Hrun. destruct (Hjobs _ _ Hj) as (j' & Hj' & H). rewrite Hdue in H. exists w', j'.
    split; [exact Hrun|]. split; [exact Hj'|]. by rewrite H.
Defined.
