(* ===== verification/DeliverySpec.v ===== *)
(** What becomes of a notification that is due: every answer of the receiver, and
    the row and the deliveries it leaves. *)

From S2P Require Import Prelude PyStr PyFloat Json Domain Config Uuid Models Effects.
From S2P Require Import Repositories Queue Notifications Catalog Submission Cancellation.
From S2P Require Import Execution Scheduling Worker Total System Demo.
Import NotificationStatus.

Section Delivery.
Context {env : Env} (settings : Settings) (n : NotificationOutbox).

Abbreviation body := (dumps (JDict (n_payload n))).
Abbreviation signature := (hmac_sha256_hex (notification_signing_secret settings) body).
Abbreviation is_webhook := (bool_decide (n_channel n = NotificationChannel.WEBHOOK)).

(** The answer to the delivery and the reading that follows it; a log line is
    always delivered and takes no reading. *)
Definition answer_of (w : World) : http_result :=
  if is_webhook then http_post (w_count w) (n_destination n) body signature else HttpOk.
Definition next_reading (w : World) : nat := if is_webhook then S (w_count w) else w_count w.

Definition delivery_of : delivery :=
  if is_webhook then mkDelivery (n_id n) (n_destination n) body (Some signature)
  else mkDelivery (n_id n) (n_destination n) EmptyString None.

(** The row becomes [n'], and the log of deliveries [sent]. *)
Definition leaves (n' : NotificationOutbox) (sent : list delivery) (w w' : World) : Prop :=
  w_db w' = (w_db w) <| notification_outbox := <[n_id n := n']> (notification_outbox (w_db w)) |>
  ∧ w_sent w' = sent ∧ w_redis w' = w_redis w ∧ (w_count w ≤ w_count w')%nat.

(** The delay before the next attempt, or the error of its arithmetic. *)
Definition retry_delay_of (draw : pyfloat) : res Z :=
  match compute_backoff_seconds (n_attempts n + 1) settings draw with
  | inl e => Err (num_exn "int too large to convert to float" e)
  | inr backoff =>
      match timedelta_of_seconds backoff with
      | inl e => Err (num_exn "cannot convert float to integer" e)
      | inr delay => Ok delay
      end
  end.

Definition raises {A} (m : M A) (e : exn) (w : World) : Prop :=
  ∃ w', m w = (Err e, w') ∧ w_db w' = w_db w ∧ w_sent w' = w_sent w.

Definition attempt_spec (w : World) : Prop :=
  match answer_of w with
  | HttpOk =>
      returns (_attempt settings n) (λ _, leaves
        (n <| n_status := SENT |> <| n_sent_at := Some (clock (next_reading w)) |>
           <| n_attempts := n_attempts n + 1 |> <| n_last_error := None |>)
        (delivery_of :: w_sent w) w) w
  | HttpFailed message =>
      if notification_max_attempts settings <=? n_attempts n + 1 then
        returns (_attempt settings n) (λ _, leaves
          (n <| n_status := FAILED |> <| n_attempts := n_attempts n + 1 |>
             <| n_last_error := Some message |>) (w_sent w) w) w
      else
        match retry_delay_of (random_draw (next_reading w)) with
        | Ok delay =>
            returns (_attempt settings n) (λ _, leaves
              (n <| n_attempts := n_attempts n + 1 |>
                 <| n_next_attempt_at := clock (S (next_reading w)) + delay |>
                 <| n_last_error := Some message |>) (w_sent w) w) w
        | Err e => raises (_attempt settings n) e w
        end
  | HttpRaised message => raises (_attempt settings n) (OtherError message) w
  end.

(** The delivery itself: what the answer says, one reading for a webhook. *)
Lemma deliver_outcome w :
  _deliver settings n w =
  (match answer_of w with
   | HttpOk => Ok tt
   | HttpFailed message => Err (HTTPError message)
   | HttpRaised message => Err (OtherError message)
   end,
   w <| w_count := next_reading w |>
     <| w_sent := match answer_of w with HttpOk => delivery_of :: w_sent w | _ => w_sent w end |>).
Proof.
  unfold _deliver, answer_of, next_reading, delivery_of. destruct is_webhook; [|by destruct w].
  unfold _deliver_webhook, mbind, M_bind, reading, record_delivery, raise. cbn.
  by destruct (http_post _ _ _ _).
Qed.

Lemma update_row f (d : Db) :
  notification_outbox d !! n_id n = Some n →
  update_notification (n_id n) f d
  = d <| notification_outbox := <[n_id n := f n]> (notification_outbox d) |>.
Proof. intros Hn. unfold update_notification. by rewrite (alter_as_insert _ _ _ n). Qed.

Lemma next_reading_later w : (w_count w ≤ next_reading w)%nat.
Proof. unfold next_reading. destruct is_webhook; lia. Qed.

(** Every outcome of a delivery: an accepted one is logged and marks the row
    sent; a failed one gives up once the attempts are exhausted and is otherwise
    due again after the backoff of its attempt; an exception that is not an
    HTTP error leaves the handler, and nothing is recorded. *)
Lemma attempt_outcome (w : World) :
  notification_outbox (w_db w) !! n_id n = Some n → attempt_spec w.
Proof.
  intros Hn. unfold attempt_spec, _attempt, _on_failure, retry_delay_of.
  pose proof (deliver_outcome w) as Hd. pose proof (next_reading_later w) as Hnext.
  destruct (answer_of w) as [|message|message].
  - apply returns_bind. eexists _, _. unfold try_M. rewrite Hd. split; [reflexivity|].
    apply returns_bind, returns_reading, returns_modify. split; [exact (update_row _ _ Hn)|].
    do 2 (split; [done|]). cbn. lia.
  - destruct (notification_max_attempts settings <=? n_attempts n + 1) eqn:Hmax.
    + apply returns_bind. eexists _, _. unfold try_M. rewrite Hd. split; [reflexivity|].
      cbn -[mbind Z.leb Z.add]. apply returns_modify. split; [exact (update_row _ _ Hn)|].
    do 2 (split; [done|]). cbn. lia.
    + destruct (compute_backoff_seconds _ _ _) as [e|backoff] eqn:Hb.
      { eexists. unfold mbind, M_bind, try_M. rewrite Hd. cbn -[Z.leb Z.add]. unfold reading. cbn.
        rewrite Hb. by split. }
      destruct (timedelta_of_seconds backoff) as [e|delay] eqn:Ht.
      { eexists. unfold mbind, M_bind, try_M. rewrite Hd. cbn -[Z.leb Z.add]. unfold reading. cbn.
        rewrite Hb. cbn. rewrite Ht. by split. }
      apply returns_bind. eexists _, _. unfold try_M. rewrite Hd. split; [reflexivity|].
      cbn -[mbind Z.leb Z.add]. apply returns_bind, returns_reading. cbn -[mbind Z.leb Z.add]. rewrite Hb.
      apply returns_bind, returns_ret, returns_bind, returns_reading. rewrite Ht.
      apply returns_bind, returns_ret, returns_modify. split; [exact (update_row _ _ Hn)|].
    do 2 (split; [done|]). cbn. lia.
  - eexists. unfold mbind, M_bind, try_M. rewrite Hd. by split.
Qed.
End Delivery.

(** ** At a concrete state *)

Lemma attempt_outcome_witness :
  ∃ n, notification_outbox (w_db w_succeeded) !! 67%N = Some n ∧ n_status n = PENDING
    ∧ attempt_spec default_settings n w_succeeded
    ∧ answer_of default_settings n w_succeeded = HttpOk.
Proof.
  destruct (notification_outbox (w_db w_succeeded) !! 67%N) as [n|] eqn:Hn.
  - assert ((λ n, (n_id n, n_status n, n_channel n)) <$> notification_outbox (w_db w_succeeded) !! 67%N
            = Some (67%N, PENDING, NotificationChannel.LOG)) as Hs by (by vm_compute).
    rewrite Hn in Hs. injection Hs as Hid Hst Hch.
    exists n. split; [reflexivity|]. split; [exact Hst|]. split.
    + apply (attempt_outcome default_settings n w_succeeded). rewrite Hid. exact Hn.
    + unfold answer_of. rewrite Hch. reflexivity.
  - exfalso. revert Hn. by vm_compute.
Defined.
