(* ===== verification/DomainSpec.v ===== *)
(** The pure core: the lifecycle table, the backoff series, the progress of a
    handler and the normalisation of payloads. *)

From S2P Require Import Prelude PyStr PyFloat FloatBounds Json Domain Config Models Effects Catalog.
Import JobStatus.

(** ** The lifecycle table *)

Definition all_statuses : list JobStatus :=
  [PENDING; QUEUED; RUNNING; SUCCEEDED; FAILED; RETRYING; CANCELLING; CANCELLED; EXPIRED].

Lemma path_step s t u : StateMachine.can_transition s t = true → StateMachine.paths t u → StateMachine.paths s u.
Proof. intros H. by apply rtc_l. Qed.

(** The lifecycle table is sound: a status is terminal exactly when nothing
    follows it, every status can be reached from pending, and from every status
    the job can still end. *)
Theorem lifecycle_table_is_sound (s : JobStatus) :
  (StateMachine.is_terminal s = true ↔ ∀ t, StateMachine.can_transition s t = false)
  ∧ StateMachine.paths PENDING s
  ∧ ∃ t, StateMachine.is_terminal t = true ∧ StateMachine.paths s t.
Proof.
  split; [apply StateMachine.is_terminal_no_transition|].
  assert (H0 : ∀ a b, StateMachine.can_transition a b = true → StateMachine.paths a b)
    by (intros a b H; by apply rtc_once).
  assert (Hvia : ∀ a b c, StateMachine.paths a b → StateMachine.can_transition b c = true →
    StateMachine.paths a c) by (intros a b c H1 H2; by apply rtc_r with b).
  assert (HQ : StateMachine.paths PENDING QUEUED) by by apply H0.
  assert (HR : StateMachine.paths PENDING RUNNING) by by apply (Hvia _ QUEUED).
  split.
  - destruct s; first [apply rtc_refl | by apply H0 | exact HR | by apply (Hvia _ RUNNING)].
  - destruct (StateMachine.is_terminal s) eqn:Hs; [by exists s; split; [|apply rtc_refl]|].
    destruct s; try discriminate Hs;
      first [by exists CANCELLED; split; [|apply H0] | by exists FAILED; split; [|apply H0]].
Qed.

(** ** Backoff *)

(** The default settings without jitter. *)
Definition no_jitter : Settings := default_settings <| retry_jitter_ratio := fzero |>.

(** [float(min(2 ** n, 1800))] *)
Definition backoff_series (n : Z) : num_result pyfloat := float_of_int (Z.min (2 ^ n) 1800).

Definition feq_result (a b : num_result pyfloat) : bool :=
  match a, b with inr x, inr y => feqb x y | _, _ => false end.

Definition small_attempts : list Z := map (λ k, Z.of_nat k + 1) (seq 0 1024).

Lemma small_attempts_spec n : 1 <= n <= 1024 → n ∈ small_attempts.
Proof.
  intros H. unfold small_attempts. apply list_elem_of_In, List.in_map_iff.
  exists (Z.to_nat (n - 1)). split; [lia|]. apply List.in_seq. lia.
Qed.

Lemma uniform_without_jitter u : is_finite u = true →
  ∃ s, random_uniform (fneg fzero) fzero u = S754_zero s.
Proof. destruct u as [[]|s| |[] m e]; intros H; try discriminate H; eexists; reflexivity. Qed.

(** *** Powers of two as floats *)

Lemma shr_1_div2 m r s : 0 <= m →
  0 <= shr_m (shr_1 (Build_shr_record m r s)) ∧ shr_m (shr_1 (Build_shr_record m r s)) = m / 2.
Proof.
  intros Hm. rewrite <- Z.div2_div. destruct m as [|[p|p|]|p]; simpl; split; try lia; done.
Qed.

Lemma iter_shr_1 p mrs : 0 <= shr_m mrs →
  shr_m (SpecFloat.iter_pos shr_1 p mrs) = shr_m mrs / 2 ^ Zpos p
  ∧ 0 <= shr_m (SpecFloat.iter_pos shr_1 p mrs).
Proof.
  assert (H1 : ∀ r, 0 <= shr_m r → 0 <= shr_m (shr_1 r) ∧ shr_m (shr_1 r) = shr_m r / 2)
    by (intros [m a b]; apply shr_1_div2).
  revert mrs. induction p as [p IH|p IH|]; intros mrs Hm; simpl SpecFloat.iter_pos.
  - destruct (H1 mrs Hm) as [Hm1 E1]. destruct (IH _ Hm1) as [E2 Hm2]. destruct (IH _ Hm2) as [E3 Hm3].
    split; [|done]. rewrite E3, E2, E1, !Z.div_div by lia. f_equal.
    replace (Zpos p~1) with (1 + (Zpos p + Zpos p)) by lia. rewrite !Z.pow_add_r by lia. ring.
  - destruct (IH _ Hm) as [E2 Hm2]. destruct (IH _ Hm2) as [E3 Hm3]. split; [|done].
    rewrite E3, E2, !Z.div_div by lia. f_equal. 
    replace (Zpos p~0) with (Zpos p + Zpos p) by lia. rewrite Z.pow_add_r by lia. ring.
  - destruct (H1 mrs Hm) as [Hm1 E1]. split; [|done]. by rewrite E1.
Qed.

(** Rounding an integer: the exponent of the result, unless it is zero. *)
Lemma shr_fexp_exact m e : 0 < m →
  shr_m (shr_fexp prec emax m e loc_Exact).1 = m / 2 ^ Z.max 0 (fexp prec emax (Z.log2 m + 1 + e) - e)
  ∧ (shr_fexp prec emax m e loc_Exact).2 = Z.max e (fexp prec emax (Z.log2 m + 1 + e)).
Proof.
  intros Hm. unfold shr_fexp. destruct m as [|p|p]; try lia. unfold Zdigits2. rewrite digits2_log2.
  set (f := fexp prec emax (Z.log2 (Zpos p) + 1 + e)).
  unfold shr. destruct (f - e) as [|q|q] eqn:E.
  - simpl. rewrite Z.div_1_r. split; [done|lia].
  - destruct (iter_shr_1 q (shr_record_of_loc (Zpos p) loc_Exact)) as [Hq _]; [simpl; lia|].
    cbn [fst snd]. rewrite Hq, Z.max_r by lia. split; [done|lia].
  - simpl. rewrite Z.div_1_r. split; [done|lia].
Qed.

Lemma float_of_pow2_overflows k : 1024 <= k → float_of_int (2 ^ k) = inl OverflowErr.
Proof.
  intros Hk. unfold float_of_int.
  assert (Hpos : 0 < 2 ^ k) by (apply Z.pow_pos_nonneg; lia).
  destruct (2 ^ k) as [|m|m] eqn:E; try lia. unfold binary_normalize, binary_round.
  assert (Hlog : Z.log2 (Zpos m) = k) by (rewrite <- E, Z.log2_pow2; lia).
  rewrite digits2_log2, Hlog.
  assert (Hf : ∀ x, 1024 <= x → fexp prec emax (x + 1 + 0) = x - 52)
    by (intros; unfold fexp, emin, prec, emax; lia).
  unfold shl_align. rewrite Hf by done. destruct (k - 52 - 0) as [|q|q] eqn:E2; try lia.
  unfold binary_round_aux.
  destruct (shr_fexp_exact (Zpos m) 0) as [Hm He]; [lia|]. rewrite Hlog, Hf in Hm, He by done.
  destruct (shr_fexp prec emax (Zpos m) 0 loc_Exact) as [mrs e]. simpl in Hm, He.
  rewrite <- E in Hm. rewrite Z.max_r in Hm, He by lia.
  replace (k - 52 - 0) with (k - 52) in Hm by lia.
  assert (Hm' : shr_m mrs = 2 ^ 52).
  { rewrite Hm. replace (2 ^ k) with (2 ^ 52 * 2 ^ (k - 52)) by (rewrite <- Z.pow_add_r; f_equal; lia).
    apply Z.div_mul. apply Z.pow_nonzero; lia. }
  assert (Hr : 2 ^ 52 <= round_nearest_even (shr_m mrs) (loc_of_shr_record mrs) <= 2 ^ 52 + 1).
  { rewrite Hm'. unfold round_nearest_even. destruct (loc_of_shr_record mrs) as [|[]]; try lia.
    destruct (Z.even _); lia. }
  set (r := round_nearest_even _ _) in *. clearbody r. subst e. clear Hm.
  assert (Hlr : Z.log2 r = 52) by (apply Z.log2_unique; lia).
  destruct (shr_fexp_exact r (k - 52)) as [Hm2 He2]; [lia|]. rewrite Hlr in Hm2, He2.
  replace (fexp prec emax (52 + 1 + (k - 52))) with (k - 52) in Hm2, He2
    by (unfold fexp, emin, prec, emax; lia).
  destruct (shr_fexp prec emax r (k - 52) loc_Exact) as [mrs2 e2]. simpl in Hm2, He2.
  replace (k - 52 - (k - 52)) with 0 in Hm2 by lia. rewrite Z.div_1_r in Hm2.
  rewrite Hm2. destruct r as [|r|r]; try lia.
  assert ((e2 <=? emax - prec) = false) as -> by (apply Z.leb_gt; unfold emax, prec; lia). done.
Qed.

Lemma float_of_pow2_exact : forallb (λ n, match float_of_int (2 ^ (n - 1)) with inr _ => true | _ => false end)
  small_attempts = true.
Proof. by vm_compute. Qed.

(** C38: the delay of an attempt is computed up to the 1024th one, and every
    later attempt raises [OverflowError]: the power of two no longer fits a
    float, although the result is capped. *)
Theorem backoff_overflows_from_attempt_1025 (attempt : Z) (settings : Settings) (u : pyfloat) :
  (attempt <= 1024 → ∃ delay, compute_backoff_seconds attempt settings u = inr delay)
  ∧ (1025 <= attempt → compute_backoff_seconds attempt settings u = inl OverflowErr).
Proof.
  unfold compute_backoff_seconds, fmul_int. split; intros H.
  - assert (∃ n, n ∈ small_attempts ∧ Z.max 0 (attempt - 1) = n - 1) as (n & Hn & ->).
    { exists (Z.max 1 attempt). split; [apply small_attempts_spec; lia|lia]. }
    pose proof (forallb_true _ _ _ float_of_pow2_exact Hn) as Hx. simpl in Hx.
    destruct (float_of_int (2 ^ (n - 1))); [done|]. by eexists.
  - rewrite Z.max_r by lia. by rewrite float_of_pow2_overflows by lia.
Qed.

(** The delay with a jitter of zero, whose sign is [s]. *)
Definition delay_without_jitter (attempt : Z) (s : bool) : num_result pyfloat :=
  match fmul_int (retry_base_seconds no_jitter) (2 ^ Z.max 0 (attempt - 1)) with
  | inl e => inl e
  | inr g => inr (fmax fzero (fadd (fmin g (retry_max_seconds no_jitter)) (S754_zero s)))
  end.

Definition no_jitter_at (attempt : Z) : bool :=
  match fmul_int (retry_base_seconds no_jitter) (2 ^ Z.max 0 (attempt - 1)) with
  | inl e => false
  | inr g => match fmul (fmin g (retry_max_seconds no_jitter)) (retry_jitter_ratio no_jitter) with
             | S754_zero false => true
             | _ => false
             end
  end
  && feq_result (delay_without_jitter attempt true) (backoff_series attempt)
  && feq_result (delay_without_jitter attempt false) (backoff_series attempt).

Lemma no_jitter_checked : forallb no_jitter_at small_attempts = true.
Proof. by vm_compute. Qed.

(** Without jitter the default delays double from two seconds up to the cap
    of half an hour: 2, 4, 8, ..., 1024, 1800, 1800, ... *)
Theorem backoff_doubles_to_the_cap (attempt : Z) (u : pyfloat) :
  1 <= attempt <= 1024 → is_finite u = true →
  feq_result (compute_backoff_seconds attempt no_jitter u) (backoff_series attempt) = true.
Proof.
  intros Hn Hu.
  pose proof (forallb_true _ _ _ no_jitter_checked (small_attempts_spec _ Hn)) as H.
  unfold no_jitter_at in H. bool_simpl. unfold delay_without_jitter, compute_backoff_seconds in *.
  destruct (fmul_int _ _) as [e|g]; [done|]. cbv zeta.
  destruct (fmul (fmin g _) _) as [[]|?| |? ? ?]; try done.
  destruct (uniform_without_jitter u Hu) as [[] Hz]; unfold fzero in Hz; rewrite Hz; assumption.
Qed.

(** ** Progress *)

(** The progress reported after step [index] of [steps] against the exact
    percentage, for one number of steps. *)
Definition progress_ok (index steps : Z) : bool :=
  match progress_at index steps with
  | inr p => (0 <=? p) && (p <=? 100)
             && (100 * (index + 1) / steps - 1 <=? p) && (p <=? 100 * (index + 1) / steps)
             && (negb (index + 1 =? steps) || (p =? 100))
  | inl _ => false
  end.

Definition steps_checked : Z := 128.

Lemma progress_checked : forallb (λ n, forallb (λ i, progress_ok (Z.of_nat i) (Z.of_nat n)) (seq 0 n))
  (seq 1 (Z.to_nat steps_checked)) = true.
Proof. by vm_compute. Qed.

(** Every step of every number of steps reports a percentage: the division, the
    product and the truncation never raise and never leave 0 to 100. *)
Lemma progress_in_range (index steps : Z) :
  0 <= index < steps → ∃ p, progress_at index steps = inr p ∧ 0 <= p <= 100.
Proof.
  intros H. destruct (percentage (index + 1) steps) as (q & x & p & Hq & Hx & Hp & Hr); [lia|].
  exists p. unfold progress_at. by rewrite Hq, Hx, Hp.
Qed.

(** For up to 128 steps, the progress a handler reports is a percentage, it
    is the exact one rounded down or one less (the rounding of the division),
    and the last step reports 100. *)
Theorem progress_is_a_percentage (index steps : Z) :
  0 <= index < steps → steps <= steps_checked →
  ∃ p, progress_at index steps = inr p ∧ 0 <= p <= 100
    ∧ 100 * (index + 1) / steps - 1 <= p <= 100 * (index + 1) / steps
    ∧ (index + 1 = steps → p = 100).
Proof.
  intros Hi Hs. pose proof progress_checked as H.
  assert (Z.to_nat steps ∈ seq 1 (Z.to_nat steps_checked)) as Hn
    by (apply list_elem_of_In, List.in_seq; lia).
  assert (Z.to_nat index ∈ seq 0 (Z.to_nat steps)) as Hx by (apply list_elem_of_In, List.in_seq; lia).
  pose proof (forallb_true _ _ _ H Hn) as H1. simpl in H1.
  pose proof (forallb_true _ _ _ H1 Hx) as H2. simpl in H2. rewrite !Z2Nat.id in H2 by lia.
  clear H H1 Hn Hx. unfold progress_ok in H2.
  destruct (progress_at index steps) as [|p]; [done|]. exists p.
  bool_simpl. split; [done|]. split; [lia|]. split; [lia|]. intros E. rewrite E, Z.eqb_refl in *.
  simpl in *. lia.
Qed.

(** ** Normalisation *)

Lemma coerce_int_ok payload key d m n :
  _coerce_int payload key d m = Ok n → (n <? m) = false.
Proof.
  unfold _coerce_int. destruct (py_int _) as [|x]; [done|].
  destruct (x <? m) eqn:E; [done|]. by intros [= <-].
Qed.

Lemma coerce_int_again payload key d m n :
  (n <? m) = false → dict_find key payload = Some (JInt n) → _coerce_int payload key d m = Ok n.
Proof. intros Hm Hf. unfold _coerce_int, dict_get. rewrite Hf. simpl. by rewrite Hm. Qed.

Lemma coerce_float_ok payload key d m x :
  _coerce_float payload key d m = Ok x → fltb x m = false.
Proof.
  unfold _coerce_float. destruct (py_float _) as [|y]; [done|].
  destruct (fltb y m) eqn:E; [done|]. by intros [= <-].
Qed.

Lemma coerce_float_again payload key d m x :
  fltb x m = false → dict_find key payload = Some (JFloat x) → _coerce_float payload key d m = Ok x.
Proof. intros Hm Hf. unfold _coerce_float, dict_get. rewrite Hf. simpl. by rewrite Hm. Qed.

(** Normalisation is idempotent: a payload that was accepted and normalised
    is accepted again and unchanged, for every job type. *)
Theorem normalization_is_idempotent (ty : JobType) (payload normalized : dict) (settings : Settings) :
  normalize_payload ty payload settings = Ok normalized →
  normalize_payload ty normalized settings = Ok normalized.
Proof.
  unfold normalize_payload. destruct ty; simpl; unfold mbind, res_bind.
  - unfold _normalize_sleep, mbind, res_bind. destruct (_coerce_float payload _ _ _) as [x|] eqn:Ex; [|done].
    destruct (_coerce_int payload _ _ _) as [n|] eqn:En; [|done]. intros [= <-].
    by rewrite (coerce_float_again _ _ _ _ x), (coerce_int_again _ _ _ _ n)
      by first [reflexivity | eapply coerce_float_ok, Ex | eapply coerce_int_ok, En].
  - unfold _normalize_report, mbind, res_bind. destruct (_coerce_int payload _ _ _) as [n|] eqn:En; [|done].
    intros [= <-]. by rewrite (coerce_int_again _ _ _ _ n) by first [reflexivity | eapply coerce_int_ok, En].
  - unfold _normalize_flaky, mbind, res_bind. destruct (_coerce_int payload _ _ _) as [n|] eqn:En; [|done].
    intros [= <-]. by rewrite (coerce_int_again _ _ _ _ n) by first [reflexivity | eapply coerce_int_ok, En].
  - done.
  - unfold _normalize_llm_summary, mbind, res_bind.
    destruct (_coerce_int payload _ _ _) as [n|] eqn:En; [|done]. intros [= <-].
    by rewrite (coerce_int_again _ _ _ _ n) by first [reflexivity | eapply coerce_int_ok, En].
Qed.

(** ** At concrete inputs *)

Lemma backoff_doubles_to_the_cap_witness :
  backoff_series 4 = float_of_int 16
  ∧ feq_result (compute_backoff_seconds 4 no_jitter fzero) (backoff_series 4) = true.
Proof.
  split; [by vm_compute|]. apply backoff_doubles_to_the_cap; [lia|reflexivity].
Defined.

Lemma progress_is_a_percentage_witness :
  ∃ p, progress_at 2 10 = inr p ∧ 0 <= p <= 100.
Proof.
  destruct (progress_is_a_percentage 2 10) as (p & Hp & Hr & _); [lia|vm_compute; discriminate|].
  exists p. split; [exact Hp|exact Hr].
Defined.

Lemma normalization_is_idempotent_witness :
  normalize_payload JobType.FLAKY [("fail_times", JInt 3)] default_settings
  = Ok [("fail_times", JInt 3)].
Proof.
  apply (normalization_is_idempotent JobType.FLAKY [("fail_times", JStr "3"); ("x", JNull)]).
  by vm_compute.
Defined.
