(* ===== verification/AttemptSpec.v ===== *)
(** A whole execution of a job by a worker that nothing disturbs: the claim, the
    handler with its callbacks, and the finalization return, and the job ends as
    the handler decides. *)

From S2P Require Import Prelude PyStr PyFloat FloatBounds Json Domain Config Uuid DateTime Models Effects.
From S2P Require Import Repositories Queue Notifications Catalog Logic Total Lifecycle Invariant.
From S2P Require Import Submission Cancellation Execution Scheduling Worker Programs System Demo.
From S2P Require Import WorkerSpec QueueSpec DomainSpec.
Import JobStatus.

Section Attempt.
Context {env : Env} (settings : Settings) (worker_id : string) (i : uuid).

(** ** The handler and its callbacks *)

(** A job the worker is running. *)
Record working (j : Job) (w : World) : Prop := {
  wk_row : jobs (w_db w) !! i = Some j;
  wk_status : j_status j = RUNNING;
  wk_lock : j_locked_by j = Some worker_id;
  wk_cancellation : j_cancellation_requested_at j = None;
  wk_types : job_types_ok j = true;
  wk_checks : job_checks_ok j = true;
}.

(** The columns a report of progress writes. *)
Definition progressed (j j' : Job) : Prop :=
  ∃ p h l u, j' = j <| j_progress := p |> <| j_heartbeat_at := h |>
                    <| j_lock_expires_at := l |> <| j_updated_at := u |>.

Lemma progressed_refl j : progressed j j.
Proof. exists (j_progress j), (j_heartbeat_at j), (j_lock_expires_at j), (j_updated_at j). by destruct j. Qed.

Lemma progressed_trans j1 j2 j3 : progressed j1 j2 → progressed j2 j3 → progressed j1 j3.
Proof. intros (p & h & l & u & ->) (p' & h' & l' & u' & ->). by exists p', h', l', u'. Qed.

(** The world with the row of the job, the number of readings and the
    transaction clock replaced. *)
Definition moved_on (j : Job) (n : nat) (t : datetime) (w : World) : World :=
  w <| w_db := (w_db w) <| jobs := <[i := j]> (jobs (w_db w)) |> |>
    <| w_count := n |> <| w_txn_now := t |>.

Lemma moved_on_twice j j' n n' t t' w :
  moved_on j' n' t' (moved_on j n t w) = moved_on j' n' t' w.
Proof. unfold moved_on. cbn. by rewrite insert_insert_eq. Qed.

Lemma moved_on_same j w n t :
  jobs (w_db w) !! i = Some j →
  moved_on j n t w = w <| w_count := n |> <| w_txn_now := t |>.
Proof.
  intros Hj. unfold moved_on. destruct w as [[js ? ? ? ?] ? ? ? ?]. cbn in *. by rewrite insert_id.
Qed.

Lemma working_moved_on j j' n t w :
  working j w → progressed j j' → job_types_ok j' = true → job_checks_ok j' = true →
  working j' (moved_on j' n t w).
Proof.
  intros [Hr Hs Hl Hc Ht Hk] (p & h & l & u & E) Ht' Hk'.
  split; try done; [cbn; apply lookup_insert_eq|by rewrite E..].
Qed.

(** The context of a run with nothing to report to: its callbacks read the clock
    as often as those of the service, and do nothing else. *)
Definition idle_context (attempt : Z) : ExecutionContext :=
  {| ctx_job_id := uuid_str i;
     ctx_attempt := attempt;
     ctx_settings := settings;
     ctx_check_cancelled := _ ← act clock_now; Ret tt;
     ctx_report_progress := λ _, _ ← act clock_now; _ ← act clock_now; Ret tt;
     ctx_sleep := λ _, act (mret tt) |}.

(** [k] more readings. *)
Definition later (k : nat) (w : World) : World := w <| w_count := (k + w_count w)%nat |>.

(** The coroutine [idle] has the same outcome and makes as many readings in every
    world; [c], run by the service, has that outcome too, and besides only
    reports the progress of the job. *)
Definition mirrors {A} (c idle : co A) : Prop :=
  ∃ r k, r ≠ Err JobCancelledError ∧ (∀ w, run idle w = (r, later k w))
    ∧ ∀ j w, working j w → ∃ j' t,
        run c w = (r, moved_on j' (k + w_count w) t w) ∧ progressed j j'
        ∧ working j' (moved_on j' (k + w_count w) t w).

Lemma mirrors_done {A} (c : co A) (r : res A) :
  (∀ w, run c w = (r, w)) → r ≠ Err JobCancelledError → mirrors c c.
Proof.
  intros Hc Hr. exists r, O. split; [done|]. split; [intros w; rewrite Hc; by destruct w|].
  intros j w Hw. exists j, (w_txn_now w). cbn [Nat.add].
  assert (moved_on j (w_count w) (w_txn_now w) w = w) as ->.
  { rewrite moved_on_same by apply Hw. by destruct w. }
  split; [apply Hc|]. split; [apply progressed_refl|done].
Qed.

Lemma mirrors_ret {A} (a : A) : mirrors (Ret a) (Ret a).
Proof. by apply (mirrors_done _ (Ok a)). Qed.

Lemma mirrors_throw {A} e : e ≠ JobCancelledError → mirrors (A := A) (Throw e) (Throw e).
Proof. intros He. apply (mirrors_done _ (Err e)); [done|congruence]. Qed.

Lemma mirrors_bind {A B} (c idle : co A) (f fi : A → co B) :
  mirrors c idle → (∀ a, mirrors (f a) (fi a)) → mirrors (c ≫= f) (idle ≫= fi).
Proof.
  intros (r & k & Hr & Hidle & Hc) Hf. destruct r as [a|e].
  - destruct (Hf a) as (r2 & k2 & Hr2 & Hidle2 & Hc2). exists r2, (k2 + k)%nat.
    split; [done|]. split.
    { intros w. rewrite run_bind, Hidle, Hidle2. unfold later. cbn. by rewrite Nat.add_assoc. }
    intros j w Hw. destruct (Hc j w Hw) as (j1 & t1 & Hrun & Hp & Hw1).
    destruct (Hc2 j1 _ Hw1) as (j2 & t2 & Hrun2 & Hp2 & Hw2). exists j2, t2.
    rewrite moved_on_twice in Hrun2, Hw2. cbn [w_count set_field moved_on] in Hrun2, Hw2.
    rewrite <-Nat.add_assoc.
    split; [by rewrite run_bind, Hrun|]. split; [by eapply progressed_trans|done].
  - exists (Err e), k. split; [congruence|].
    split; [intros w; by rewrite run_bind, Hidle|].
    intros j w Hw. destruct (Hc j w Hw) as (j1 & t1 & Hrun & Hp & Hw1). exists j1, t1.
    split; [by rewrite run_bind, Hrun|done].
Qed.

Lemma mirrors_check :
  mirrors (_check_cancelled i) (_ ← act clock_now; Ret tt).
Proof.
  exists (Ok tt), 1%nat. split; [done|]. split; [done|].
  intros j w Hw. exists j, (clock (w_count w)).
  split; [|split; [apply progressed_refl|]].
  - rewrite moved_on_same by apply Hw. apply returns_exactly.
    apply returns_run_bind, returns_run_act, returns_transaction, returns_bind, returns_query.
    cbn [w_db set_field]. rewrite (wk_row _ _ Hw), (wk_cancellation _ _ Hw).
    by apply returns_ret, returns_run_ret.
  - apply (working_moved_on j); [done|apply progressed_refl|apply Hw..].
Qed.

Lemma mirrors_report p :
  0 <= p <= 100 →
  mirrors (_report_progress settings worker_id i p)
    (_ ← act clock_now; _ ← act clock_now; Ret tt).
Proof.
  intros Hp. exists (Ok tt), 2%nat. split; [done|]. split; [done|].
  intros j w Hw. pose proof Hw as [Hr Hs Hl Hc Ht Hk].
  set (now := clock (S (w_count w))).
  set (j' := j <| j_progress := p |> <| j_heartbeat_at := Some now |>
               <| j_lock_expires_at := Some (now + seconds (worker_lease_seconds settings)) |>
               <| j_updated_at := now |>).
  assert (progressed j j') as Hpj by (by eexists _, _, _, _).
  assert (job_types_ok j' = true) as Ht'.
  { revert Ht. unfold job_types_ok, j', int4. cbn. rewrite !andb_true_iff, !Z.leb_le, !Z.ltb_lt.
    intuition lia. }
  assert (job_checks_ok j' = true) as Hk'.
  { revert Hk. unfold job_checks_ok, j'. cbn. rewrite !andb_true_iff, !Z.leb_le. lia. }
  exists j', (clock (w_count w)).
  split; [|split; [done|by apply (working_moved_on j)]].
  apply returns_exactly, returns_run_act, returns_transaction, returns_bind, returns_reading.
  apply returns_bind, (returns_update _ _ _ _ j); [done|done|].
  assert (locked_by worker_id j && status_in JobRepository._FINALIZABLE j = true) as ->
    by (apply (holds_guard worker_id i j (w_db w)); [done|done|rewrite Hs; apply list_elem_of_here]).
  by apply returns_ret.
Qed.

Lemma mirrors_sleep : mirrors (act (mret tt)) (act (mret tt)).
Proof. by apply (mirrors_done _ (Ok tt)). Qed.

Lemma mirrors_result {A} (r : conv_result A) : mirrors (co_conv r) (co_conv r).
Proof. destruct r as [[|[]]|a]; [by apply mirrors_throw..|apply mirrors_ret]. Qed.

Lemma mirrors_item key d : mirrors (dict_item key d) (dict_item key d).
Proof. unfold dict_item. destruct (dict_find key d); [apply mirrors_ret|by apply mirrors_throw]. Qed.

Abbreviation service n := (execution_context settings worker_id i n).

Lemma mirrors_steps attempt index left steps x :
  0 <= index → index + Z.of_nat left <= steps →
  mirrors (run_steps_from index left steps x (service attempt))
    (run_steps_from index left steps x (idle_context attempt)).
Proof.
  revert index. induction left as [|left IH]; intros index H0 Hs; [apply mirrors_ret|].
  cbn [run_steps_from]. apply mirrors_bind; [apply mirrors_check|]. intros _.
  apply mirrors_bind; [apply mirrors_sleep|]. intros _.
  destruct (progress_in_range index steps) as (p & -> & Hp); [lia|].
  refine (mirrors_bind (_report_progress settings worker_id i p) _ _ _ (mirrors_report p Hp) _).
  intros _. apply IH; lia.
Qed.

Lemma mirrors_run_steps attempt steps x :
  mirrors (_run_steps steps x (service attempt)) (_run_steps steps x (idle_context attempt)).
Proof.
  unfold _run_steps. destruct (Z.le_gt_cases 0 steps).
  - apply mirrors_steps; lia.
  - replace (Z.to_nat steps) with O by lia. apply mirrors_ret.
Qed.

Lemma mirrors_summary prompt : mirrors (prompt_summary prompt) (prompt_summary prompt).
Proof.
  unfold prompt_summary. destruct prompt; try apply mirrors_ret;
    destruct (py_bool _); first [apply mirrors_ret|by apply mirrors_throw].
Qed.

(** Every handler, on every payload: what it returns or raises does not depend on
    the service it runs in. *)
Lemma handler_mirrors ty handler payload attempt :
  get_handler ty = Ok handler →
  mirrors (handler payload (service attempt)) (handler payload (idle_context attempt)).
Proof.
  destruct ty; intros [= <-]; unfold _handle_sleep, _handle_report, _handle_flaky,
    _handle_always_fail, _handle_llm_summary; [| | |by apply mirrors_throw|];
    cbn [ctx_job_id ctx_attempt ctx_settings ctx_check_cancelled execution_context idle_context];
    repeat first
      [ apply mirrors_ret | by apply mirrors_throw | apply mirrors_run_steps | apply mirrors_summary
      | apply mirrors_item | apply mirrors_result | apply mirrors_check
      | apply mirrors_bind; [|intros ?]
      | match goal with |- mirrors (if ?b then _ else _) _ => destruct b end ].
Qed.

(** The outcome of the next attempt, and the readings its handler makes: a function
    of the type, the payload and the identifier of the job, of the number of the
    attempt and of the settings. *)
Definition handler_run (j : Job) : res dict * World :=
  run (handler ← co_res (get_handler (j_type j));
       handler (j_payload j) (idle_context (j_attempts j + 1))) init_world.
Definition outcome_of (j : Job) : res dict := (handler_run j).1.
Definition readings (j : Job) : nat := w_count (handler_run j).2.
End Attempt.
