(* ===== verification/HandlerSpec.v ===== *)
(** What the handlers answer to a payload that a submission accepted: a result or an
    error of the domain, never a failure of the handler itself. *)

From S2P Require Import Prelude PyStr PyFloat FloatBounds Json Domain Config Uuid DateTime Models Effects.
From S2P Require Import Repositories Queue Notifications Catalog Logic Total Lifecycle Invariant.
From S2P Require Import Submission Cancellation Execution Scheduling Worker Programs System Demo.
From S2P Require Import WorkerSpec QueueSpec DomainSpec AttemptSpec.
Import JobStatus.

(** ** Accepted payloads *)

(** What a submission stores for each type. *)
Definition accepted (ty : JobType) (p : dict) : Prop :=
  match ty with
  | JobType.SLEEP => ∃ d s, dict_find "duration_seconds" p = Some (JFloat d)
      ∧ dict_find "steps" p = Some (JInt s) ∧ 1 <= s
  | JobType.REPORT => ∃ n, dict_find "pages" p = Some (JInt n) ∧ 1 <= n
  | JobType.FLAKY => ∃ n, dict_find "fail_times" p = Some (JInt n) ∧ 0 <= n
  | JobType.ALWAYS_FAIL => True
  | JobType.LLM_SUMMARY => ∃ s n b, dict_find "prompt" p = Some (JStr s)
      ∧ dict_find "tokens" p = Some (JInt n) ∧ 1 <= n
      ∧ dict_find "simulate_rate_limit" p = Some (JBool b)
  end.

Lemma normalized_accepted ty settings payload p :
  normalize_payload ty payload settings = Ok p → accepted ty p.
Proof.
  unfold normalize_payload. destruct ty; cbn [_NORMALIZERS accepted]; [..|done|];
    unfold _normalize_sleep, _normalize_report, _normalize_flaky, _normalize_llm_summary, mbind, res_bind;
    try destruct (_coerce_float _ _ _ _) as [x|] eqn:Ex; try done;
    destruct (_coerce_int _ _ _ _) as [n|] eqn:En; try done;
    apply coerce_int_ok, Z.ltb_ge in En; intros [= <-]; by repeat eexists.
Qed.

(** The webhook of the submission is added under another key. *)
Lemma accepted_set_webhook ty v p : accepted ty p → accepted ty (dict_set "notify_webhook" v p).
Proof. destruct ty; cbn [accepted]; by rewrite ?dict_find_set_ne. Qed.

Lemma accepted_submission settings ty payload p :
  normalized_payload settings ty payload = Ok p → accepted ty p.
Proof.
  unfold normalized_payload. destruct (_ <? _); [done|]. unfold mbind, res_bind.
  destruct (normalize_payload ty payload settings) as [q|] eqn:Hq; [|done]. intros [= <-].
  apply normalized_accepted in Hq. destruct (dict_mem _ _); [by apply accepted_set_webhook|done].
Qed.

(** ** Runs of the handlers over the idle context *)

Section Handlers.
Context {env : Env} (settings : Settings) (i : uuid).

(** The coroutine has the outcome [r] in every world. *)
Definition yields {A} (c : co A) (r : res A) : Prop := ∃ k, ∀ w, run c w = (r, later k w).

Lemma yields_ret {A} (a : A) : yields (Ret a) (Ok a).
Proof. exists O. intros w. by destruct w. Qed.
Lemma yields_throw {A} e : yields (A := A) (Throw e) (Err e).
Proof. exists O. intros w. by destruct w. Qed.

Lemma yields_bind {A B} (c : co A) (f : A → co B) a r :
  yields c (Ok a) → yields (f a) r → yields (c ≫= f) r.
Proof.
  intros [k Hc] [k' Hf]. exists (k' + k)%nat. intros w. rewrite run_bind, Hc, Hf.
  unfold later. cbn. by rewrite Nat.add_assoc.
Qed.

Lemma yields_item key d v : dict_find key d = Some v → yields (dict_item key d) (Ok v).
Proof. intros H. unfold dict_item. rewrite H. apply yields_ret. Qed.

Abbreviation idle n := (idle_context settings i n).

Lemma yields_check n : yields (ctx_check_cancelled (idle n)) (Ok tt).
Proof. by exists 1%nat. Qed.

Lemma yields_steps n index left steps x :
  0 <= index → index + Z.of_nat left <= steps → yields (run_steps_from index left steps x (idle n)) (Ok tt).
Proof.
  revert index. induction left as [|left IH]; intros index H0 Hs; [apply yields_ret|].
  cbn [run_steps_from]. eapply yields_bind; [apply yields_check|].
  eapply yields_bind; [exists O; by intros []|].
  destruct (progress_in_range index steps) as (p & -> & _); [lia|].
  apply (yields_bind (ctx_report_progress (idle n) p) _ tt); [by exists 2%nat|]. apply IH; lia.
Qed.

Lemma yields_run_steps n steps x : yields (_run_steps steps x (idle n)) (Ok tt).
Proof.
  unfold _run_steps. destruct (Z.le_gt_cases 0 steps); [apply yields_steps; lia|].
  replace (Z.to_nat steps) with O by lia. apply yields_ret.
Qed.

Lemma yields_outcome j handler r :
  get_handler (j_type j) = Ok handler →
  yields (handler (j_payload j) (idle (j_attempts j + 1))) r → outcome_of settings i j = r.
Proof. intros Hh [k Hk]. unfold outcome_of, handler_run. rewrite Hh. cbn [co_res]. exact (f_equal fst (Hk _)). Qed.

(** ** The table of outcomes *)

(** [n] is the number of the attempt. *)
Definition outcome_table (ty : JobType) (n : Z) (p : dict) (outcome : res dict) : Prop :=
  match ty with
  | JobType.SLEEP => ∃ d s, dict_find "duration_seconds" p = Some (JFloat d)
      ∧ dict_find "steps" p = Some (JInt s)
      ∧ (s < 2 ^ 53 → outcome = Ok [("slept_seconds", JFloat d); ("steps", JInt s)])
  | JobType.REPORT => ∃ pages, dict_find "pages" p = Some (JInt pages)
      ∧ outcome = Ok [("report_ref", JStr ("report://" +:+ uuid_str i)); ("pages", JInt pages)]
  | JobType.FLAKY => ∃ fail_times, dict_find "fail_times" p = Some (JInt fail_times)
      ∧ outcome = if n <=? fail_times
                  then Err (RetryableError "TRANSIENT_FAILURE"
                              ("flaky job failing on attempt " +:+ str_of_int n))
                  else Ok [("succeeded_on_attempt", JInt n)]
  | JobType.ALWAYS_FAIL =>
      outcome = Err (NonRetryableError "INVALID_INPUT" "job type always_fail never succeeds by design")
  | JobType.LLM_SUMMARY => ∃ prompt tokens limited, dict_find "prompt" p = Some (JStr prompt)
      ∧ dict_find "tokens" p = Some (JInt tokens)
      ∧ dict_find "simulate_rate_limit" p = Some (JBool limited)
      ∧ outcome = if limited && (n =? 1)
                  then Err (RetryableError "PROVIDER_RATE_LIMIT"
                              "language model provider rate limit, retry with backoff")
                  else Ok [("summary", JStr (if String.eqb prompt EmptyString
                                             then "summary of empty prompt"
                                             else "summary of " +:+ str_of_int (Z.of_nat (String.length prompt))
                                                  +:+ " character prompt"));
                           ("tokens_used", JInt tokens)]
  end.

Lemma accepted_outcome j :
  accepted (j_type j) (j_payload j) →
  outcome_table (j_type j) (j_attempts j + 1) (j_payload j) (outcome_of settings i j).
Proof.
  intros Ha. destruct (j_type j) eqn:Hty; cbn [accepted outcome_table] in *.
  - destruct Ha as (d & s & Hd & Hs & H1). exists d, s. split; [done|]. split; [done|]. intros H2.
    eapply yields_outcome; [by rewrite Hty|]. destruct (float_of_small_int s) as (m & e & Hf); [lia|].
    eapply yields_bind; [by apply yields_item|]. eapply yields_bind; [apply yields_ret|].
    eapply yields_bind; [by apply yields_item|]. eapply yields_bind; [apply yields_ret|].
    rewrite Hf. eapply yields_bind; [apply yields_ret|]. eapply yields_bind; [apply yields_ret|].
    eapply yields_bind; [apply yields_run_steps|apply yields_ret].
  - destruct Ha as (n & Hn & _). exists n. split; [done|].
    eapply yields_outcome; [by rewrite Hty|].
    eapply yields_bind; [by apply yields_item|]. eapply yields_bind; [apply yields_ret|].
    eapply yields_bind; [apply yields_run_steps|apply yields_ret].
  - destruct Ha as (n & Hn & _). exists n. split; [done|].
    eapply yields_outcome; [by rewrite Hty|].
    eapply yields_bind; [by apply yields_item|]. eapply yields_bind; [apply yields_ret|].
    eapply yields_bind; [apply yields_check|]. cbn [ctx_attempt idle_context].
    destruct (_ <=? n); [apply yields_throw|apply yields_ret].
  - eapply yields_outcome; [by rewrite Hty|]. apply yields_throw.
  - destruct Ha as (s & n & b & Hs & Hn & _ & Hb). exists s, n, b. split; [done|]. split; [done|]. split; [done|].
    eapply yields_outcome; [by rewrite Hty|].
    eapply yields_bind; [by apply yields_item|]. eapply yields_bind; [apply yields_ret|].
    eapply yields_bind; [by apply yields_item|]. cbn [ctx_attempt idle_context py_bool].
    destruct (b && _); [apply yields_throw|].
    eapply yields_bind; [apply yields_run_steps|]. eapply yields_bind; [by apply yields_item|].
    eapply yields_bind; [apply yields_ret|apply yields_ret].
Qed.

(** C22: the handlers against the catalogue of what each type does: on every payload
    that a submission accepts, with the stored defaults and the webhook of the
    submission in it, the outcome of every attempt is the one the type promises
    (a report reference, a summary, the number of the attempt that succeeded, the
    errors of the simulated failures), and a handler raises nothing else: no key
    is missing, no value has the wrong type, no division or report of progress
    fails.  A sleep of [2 ^ 53] steps or more is left out: the number of steps need
    not be a float there. *)
Theorem accepted_payload_has_the_outcome_of_its_type (j : Job) (payload : dict) :
  normalized_payload settings (j_type j) payload = Ok (j_payload j) →
  outcome_table (j_type j) (j_attempts j + 1) (j_payload j) (outcome_of settings i j).
Proof. intros H. by eapply accepted_outcome, accepted_submission. Qed.
End Handlers.

Lemma accepted_payload_has_the_outcome_of_its_type_witness :
  outcome_of default_settings first_job (row_at w_submitted)
  = Err (RetryableError "TRANSIENT_FAILURE" "flaky job failing on attempt 1").
Proof.
  pose proof (accepted_payload_has_the_outcome_of_its_type default_settings first_job
    (row_at w_submitted) [("fail_times", JStr "1")] ltac:(by vm_compute)) as H.
  assert (j_type (row_at w_submitted) = JobType.FLAKY) as Et by (by vm_compute).
  assert (j_payload (row_at w_submitted) = [("fail_times", JInt 1)]) as Ep by (by vm_compute).
  assert (j_attempts (row_at w_submitted) = 0) as En by (by vm_compute).
  rewrite Et, Ep, En in H. destruct H as (n & [= <-] & H). exact H.
Defined.
