(* ===== verification/ExecutionSpec.v ===== *)
(** The execution of a claimed job, from the claim to the finalization, when
    nothing disturbs the worker: it returns, and the row ends as the outcome of
    the handler says. *)

From S2P Require Import Prelude PyStr PyFloat FloatBounds Json Domain Config Uuid DateTime Models Effects.
From S2P Require Import Repositories Queue Notifications Catalog Logic Total Lifecycle Invariant.
From S2P Require Import Submission Cancellation Execution Scheduling Worker Programs System Demo.
From S2P Require Import WorkerSpec QueueSpec DomainSpec AttemptSpec.
Import JobStatus.

(** ** Text that every column takes *)

Lemma all_str_no_nul p s :
  p (chr 0) = false → all_str p s = true → pg_text s = true.
Proof.
  intros Hp. unfold pg_text. induction s as [|c s IH]; [done|]. cbn [all_str contains].
  intros [Hc Hs]%andb_prop. apply negb_true_iff, orb_false_iff. split.
  - apply Ascii.eqb_neq. intros <-. congruence.
  - by apply negb_true_iff, IH.
Qed.

Lemma pg_text_uuid u : pg_text (uuid_str u) = true.
Proof. apply (all_str_no_nul uuid_char); [done|]. apply uuid_str_chars. Qed.
Lemma pg_text_isoformat t : pg_text (isoformat t) = true.
Proof. by apply (all_str_no_nul iso_char), isoformat_chars. Qed.
Lemma varchar_text n s : varchar n s = true → pg_text s = true.
Proof. unfold varchar. by intros [_ ?]%andb_prop. Qed.

#[export] Hint Resolve pg_text_uuid pg_text_isoformat varchar_text : orch.

(** ** Identifiers *)

Section Fresh.
Context {env : Env}.

(** The identifiers of [k] readings from the [n]-th on are new to the tables an
    execution writes. *)
Record fresh_run (n k : nat) (d : Db) : Prop := {
  fr_events : new_to n k (job_events d);
  fr_attempts : new_to n k (job_attempts d);
  fr_notifications : new_to n k (notification_outbox d);
  fr_distinct : distinct_ids n k;
}.

(** Later on, some of them are used up. *)
Lemma fresh_run_later n k n' k' d d' :
  fresh_run n k d → (n ≤ n')%nat → (n' + k' ≤ n + k)%nat →
  new_to n' k' (job_events d') → new_to n' k' (job_attempts d') →
  notification_outbox d' = notification_outbox d → fresh_run n' k' d'.
Proof.
  intros [_ _ Hn Hd] H1 H2 He Ha E. split; [done|done|rewrite E|].
  - by apply (new_to_sub n k).
  - by apply (distinct_sub n k).
Qed.
End Fresh.

Section Execution.
Context {env : Env} (settings : Settings) (worker_id : string) (i : uuid).
Hypothesis worker_fits : varchar 64 worker_id = true.

(** ** The claim *)

Definition claimed_job (now : datetime) (j : Job) : Job :=
  j <| j_status := RUNNING |> <| j_attempts := j_attempts j + 1 |>
    <| j_locked_by := Some worker_id |>
    <| j_lock_expires_at := Some (now + seconds (worker_lease_seconds settings)) |>
    <| j_heartbeat_at := Some now |> <| j_started_at := coalesce (j_started_at j) now |>
    <| j_next_attempt_at := None |> <| j_updated_at := now |>.

(** A row that can be claimed, with an attempt left. *)
Record ready (j : Job) (d : Db) : Prop := {
  rd_row : jobs d !! i = Some j;
  rd_claimable : claimable j = true;
  rd_types : job_types_ok j = true;
  rd_checks : job_checks_ok j = true;
  rd_attempts : int4 (j_attempts j + 1) = true;
  rd_numbers : ∀ k a, job_attempts d !! k = Some a → a_job_id a = i →
                 a_attempt_number a ≠ j_attempts j + 1;
}.

Lemma claimed_types now j d : ready j d → job_types_ok (claimed_job now j) = true.
Proof.
  intros [_ _ Ht _ Ha _]. revert Ht. unfold job_types_ok, claimed_job. cbn.
  rewrite Ha, worker_fits, !andb_true_iff. tauto.
Qed.

Lemma claimed_working now j d w :
  ready j d → jobs (w_db w) !! i = Some (claimed_job now j) →
  working worker_id i (claimed_job now j) w.
Proof.
  intros Hr Hj. split; [done|done|done| |by eapply claimed_types|by apply (rd_checks _ _ Hr)].
  pose proof (rd_claimable _ _ Hr) as Hc. unfold claimable in Hc. bool_simpl.
  unfold claimed_job. cbn. by destruct (j_cancellation_requested_at j).
Qed.

(** What the claim returns, and the world it leaves. *)
Definition claim_of (n : nat) (j : Job) : Claim :=
  mkClaim (j_attempts j + 1) (uuid7 n) (mkJobSnapshot (j_type j) (j_payload j) (j_max_attempts j)).

Record claimed (now : datetime) (j : Job) (w w' : World) : Prop := {
  cl_jobs : jobs (w_db w') = <[i := claimed_job now j]> (jobs (w_db w));
  cl_redis : w_redis w' = w_redis w;
  cl_count : w_count w' = (2 + w_count w)%nat;
  cl_fresh : ∀ k, fresh_run (w_count w) (2 + k) (w_db w) → fresh_run (w_count w') k (w_db w');
}.

Lemma returns_claim now j (Q : option Z → World → Prop) w :
  ready j (w_db w) →
  Q (Some (j_attempts j + 1))
    (w <| w_db := (w_db w) <| jobs := <[i := claimed_job now j]> (jobs (w_db w)) |> |>) →
  returns (JobRepository.claim_for_execution i worker_id (worker_lease_seconds settings) now) Q w.
Proof.
  intros Hr HQ. pose proof Hr as [Hj Hc _ Hck _ _].
  apply returns_bind, (returns_update _ _ _ _ j); [exact Hj| |].
  { intros _. split; [exact (claimed_types now j (w_db w) Hr)|exact Hck]. }
  unfold claimable in Hc. rewrite Hc. apply returns_query.
  assert (∀ x : Job, (λ d : Db, j_attempts <$> jobs d !! i)
    (w_db (w <| w_db := (w_db w) <| jobs := <[i := x]> (jobs (w_db w)) |> |>)) = Some (j_attempts x)) as E
    by (intros x; cbn; by rewrite lookup_insert_eq).
  cbv beta in E. rewrite E. exact HQ.
Qed.

Lemma claim_body_returns now j w k :
  ready j (w_db w) → fresh_run (w_count w) (2 + k) (w_db w) →
  returns (claim_body settings worker_id i now)
    (λ r w', r = Some (claim_of (w_count w) j) ∧ claimed now j w w') w.
Proof.
  intros Hr Hf. pose proof Hr as [Hj _ _ _ Hn Hnum].
  apply returns_bind, returns_query. rewrite Hj.
  apply returns_bind, (returns_claim now j); [exact Hr|].
  apply returns_bind, returns_start; cbn [w_db w_count].
  { cbn. rewrite lookup_insert_eq. by eexists. }
  { apply (fr_attempts _ _ _ Hf). cbn. lia. }
  { exact worker_fits. }
  { exact Hn. }
  { exact Hnum. }
  apply returns_bind, returns_record.
  { cbn. rewrite lookup_insert_eq. by eexists. }
  { apply (fr_events _ _ _ Hf). cbn. lia. }
  { cbn. by rewrite (varchar_text 64). }
  apply returns_ret. split; [done|]. split; try done.
  intros k' Hf'. apply (fresh_run_later (w_count w) (2 + k') _ _ (w_db w)); cbn; [done|lia|lia| | |done].
  - apply (new_to_insert (w_count w) (2 + k') (S (w_count w))); [apply Hf'|apply Hf'|lia|lia].
  - apply (new_to_insert (w_count w) (2 + k') (w_count w)); [apply Hf'|apply Hf'|lia|lia].
Qed.
(** ** The end of an attempt *)

(** The error a failed attempt stores. *)
Definition error_of (e : exn) : string * string :=
  match e with
  | RetryableError code message => (code, message)
  | e => ("UNEXPECTED_ERROR", exn_str e)
  end.

(** How the row [j] of attempt [n] ends. *)
Definition ended (n : Z) (outcome : res dict) (j j' : Job) : Prop :=
  identity_of j' = identity_of j ∧ j_attempts j' = j_attempts j ∧ j_locked_by j' = None
  ∧ match outcome with
    | Ok result =>
        j_status j' = SUCCEEDED ∧ j_result j' = Some result ∧ j_progress j' = 100
        ∧ some (j_completed_at j')
    | Err (NonRetryableError code message) =>
        j_status j' = FAILED ∧ j_error_code j' = Some code ∧ j_error_message j' = Some message
        ∧ some (j_completed_at j') ∧ j_dead_lettered_at j' = None
    | Err e =>
        j_error_code j' = Some (error_of e).1 ∧ j_error_message j' = Some (error_of e).2
        ∧ if j_max_attempts j <=? n
          then j_status j' = FAILED ∧ some (j_completed_at j') ∧ some (j_dead_lettered_at j')
          else j_status j' = RETRYING ∧ some (j_next_attempt_at j')
    end.

(** What it leaves for other processes: the notification of a job that is over,
    and the dead letter of one that is given up. *)
Definition announced (ty : JobEventType) (w : World) : Prop :=
  ∃ k n, notification_outbox (w_db w) !! k = Some n ∧ n_dedupe_key n = dedupe_key i ty.

(** The dead-letter list. *)
Definition dead_letters (w : World) : list string :=
  contents (w_redis w) (JobQueue._dead_letter_key (redis_queue_namespace settings)).

Definition row_ends (n : Z) (outcome : res dict) (j : Job) (w w' : World) : Prop :=
  ∃ j', jobs (w_db w') = <[i := j']> (jobs (w_db w)) ∧ ended n outcome j j'
    ∧ (∀ ty, terminal_event (j_status j') = Some ty → announced ty w')
    ∧ (j_status j' = FAILED → some (j_dead_lettered_at j') → uuid_str i ∈ dead_letters w').

(** The columns and the notification take what the outcome stores. *)
Definition storable (j : Job) (outcome : res dict) : bool :=
  match outcome with
  | Ok result =>
      jsonb (JDict result)
      && announceable j JobEventType.SUCCEEDED SUCCEEDED (Some result) None None
  | Err e =>
      let '(code, message) := match e with
                              | NonRetryableError code message => (code, message)
                              | e => error_of e
                              end in
      varchar 64 code && pg_text message
      && announceable j JobEventType.FAILED FAILED None (Some code) (Some message)
  end.

(** A row that the finalizers of the worker may end: it runs, or its cancellation
    is requested. *)
Record finalizable (j : Job) (w : World) : Prop := {
  fz_row : jobs (w_db w) !! i = Some j;
  fz_guard : locked_by worker_id j && status_in JobRepository._FINALIZABLE j = true;
  fz_types : job_types_ok j = true;
  fz_checks : job_checks_ok j = true;
}.

Lemma working_finalizable j w : working worker_id i j w → finalizable j w.
Proof.
  intros [Hj Hs Hl _ Ht Hk]. split; [done| |done|done].
  apply (holds_guard worker_id i j (w_db w)); [done|done|]. rewrite Hs. apply list_elem_of_here.
Qed.

(** The rest of a finalizer once the row is marked: the attempt is closed and the
    event recorded, before the tail that enqueues the notification. *)
Lemma close_returns {A} (tail : M A) k st now c m ty to detail (Q : A → World → Prop) w :
  is_Some (jobs (w_db w) !! i) → jsonb (JDict detail) = true →
  if_set (varchar 64) c && if_set pg_text m = true → fresh_run (w_count w) 2 (w_db w) →
  (∀ w', jobs (w_db w') = jobs (w_db w) →
     notification_outbox (w_db w') !! uuid7 (w_count w') = None → returns tail Q w') →
  returns (_ ← JobAttemptRepository.finish k st now c m;
           _ ← JobEventRepository.record i ty None (Some to) detail; tail) Q w.
Proof.
  intros Hj Hdet Hfit Hf HQ. apply returns_bind, returns_finish; [exact Hfit|].
  apply returns_bind, returns_record; [exact Hj| |exact Hdet|].
  { apply (fr_events _ _ _ Hf). cbn. lia. }
  apply HQ; [done|]. apply (fr_notifications _ _ _ Hf). cbn. lia.
Qed.

(** The notification that ends it. *)
Lemma announce_returns j ty status result code message now (Q : unit → World → Prop) w :
  is_Some (jobs (w_db w) !! i) → j_id j = i →
  notification_outbox (w_db w) !! uuid7 (w_count w) = None →
  announceable j ty status result code message = true →
  (∀ w', jobs (w_db w') = jobs (w_db w) → announced ty w' → Q tt w') →
  returns (enqueue_terminal_notification j ty status result code message now) Q w.
Proof.
  intros Hj Hid Hfree Hann HQ. apply returns_notify; [by rewrite Hid|done|done|].
  intros t x n _ _ Hx Hkey. apply HQ; [done|]. exists x, n. by rewrite <-Hid.
Qed.

Lemma fresh_run_rows n k d d' :
  job_events d' = job_events d → job_attempts d' = job_attempts d →
  notification_outbox d' = notification_outbox d → fresh_run n k d → fresh_run n k d'.
Proof. intros E1 E2 E3 [He Ha Hn Hd]. split; rewrite ?E1, ?E2, ?E3; done. Qed.

Lemma fresh_skip n k n' k' d : fresh_run n k d → (n ≤ n')%nat → (n' + k' ≤ n + k)%nat → fresh_run n' k' d.
Proof. intros [He Ha Hn Hd] H1 H2. split; first [by apply (new_to_sub n k)|by apply (distinct_sub n k)]. Qed.

(** The notification of the status a row ends in. *)
Lemma announced_terminal ty s w :
  terminal_event s = Some ty → announced ty w →
  ∀ ty', terminal_event s = Some ty' → announced ty' w.
Proof. by intros -> Ha ty' [= <-]. Qed.

Ltac solve_ended :=
  unfold ended; cbn; repeat split; first [reflexivity | by eexists].

Lemma finalize_succeeded_returns j k result n w :
  finalizable j w → j_id j = i → storable j (Ok result) = true →
  fresh_run (w_count w) 4 (w_db w) →
  returns (run (_finalize_succeeded worker_id i k result))
    (λ _ w', row_ends n (Ok result) j w w') w.
Proof.
  intros Hw Hid Hok Hf. cbn [storable] in Hok. apply andb_prop in Hok as [Hjson Hann].
  pose proof Hw as [Hj Hg Ht Hk].
  apply returns_run_bind, returns_run_act, returns_reading, returns_run_act, returns_transaction.
  apply returns_bind, returns_query.
  match goal with |- context [jobs (w_db ?w1) !! i] => change (jobs (w_db w1)) with (jobs (w_db w)) end.
  rewrite Hj. apply returns_bind, (returns_update _ _ _ _ j); [exact Hj| |].
  { intros _. split; [|by revert Hk; unfold job_checks_ok; cbn; rewrite !andb_true_iff; tauto].
    revert Ht. unfold job_types_ok. cbn -[jsonb]. rewrite Hjson, !andb_true_iff. tauto. }
  rewrite Hg. cbn [negb].
  apply close_returns; [by eexists; apply lookup_insert_eq|done|done| |].
  { eapply fresh_run_rows; [..|apply (fresh_skip _ 4 (S (S (w_count w))) 2 _ Hf); lia]; done. }
  intros w1 Hj1 Hn1. apply announce_returns; [|done|done|done|].
  { rewrite Hj1. eexists. apply lookup_insert_eq. }
  intros w2 Hj2 Ha2. eexists. split; [by rewrite Hj2, Hj1|]. split; [solve_ended|].
  split; [by apply (announced_terminal JobEventType.SUCCEEDED)|done].
Qed.
(** A failure for good. *)
Definition failed_row (code message : string) (dead_lettered : bool) (j : Job) (w w' : World) : Prop :=
  ∃ j', jobs (w_db w') = <[i := j']> (jobs (w_db w)) ∧ identity_of j' = identity_of j
    ∧ j_attempts j' = j_attempts j ∧ j_locked_by j' = None ∧ j_status j' = FAILED
    ∧ j_error_code j' = Some code ∧ j_error_message j' = Some message ∧ some (j_completed_at j')
    ∧ (if dead_lettered then some (j_dead_lettered_at j') else j_dead_lettered_at j' = None)
    ∧ announced JobEventType.FAILED w'.

Lemma error_types code message now completed dead j :
  varchar 64 code = true → pg_text message = true → job_types_ok j = true →
  job_types_ok (j <| j_status := FAILED |> <| j_error_code := Some code |>
    <| j_error_message := Some message |> <| j_completed_at := completed |>
    <| j_locked_by := None |> <| j_lock_expires_at := None |> <| j_dead_lettered_at := dead |>
    <| j_updated_at := now |>) = true.
Proof.
  intros Hc Hm. unfold job_types_ok. cbn -[jsonb]. rewrite Hc, Hm, !andb_true_iff. tauto.
Qed.

Lemma failed_detail_json code dead : varchar 64 code = true → jsonb (JDict (failed_detail code dead)) = true.
Proof. intros H. cbn. by rewrite (varchar_text 64). Qed.

Lemma finalize_failed_returns j k code message dead w :
  finalizable j w → j_id j = i → varchar 64 code = true → pg_text message = true →
  announceable j JobEventType.FAILED FAILED None (Some code) (Some message) = true →
  fresh_run (w_count w) 4 (w_db w) →
  returns (run (_finalize_failed worker_id i k code message dead))
    (λ b w', b = true ∧ failed_row code message dead j w w') w.
Proof.
  intros Hw Hid Hcode Hmsg Hann Hf.
  pose proof Hw as [Hj Hg Ht Hk].
  apply returns_run_bind, returns_run_act, returns_reading, returns_run_act, returns_transaction.
  apply returns_bind, returns_query.
  match goal with |- context [jobs (w_db ?w1) !! i] => change (jobs (w_db w1)) with (jobs (w_db w)) end.
  rewrite Hj. apply returns_bind, (returns_update _ _ _ _ j); [exact Hj| |].
  { intros _. split; [by apply error_types|exact Hk]. }
  rewrite Hg. cbn [negb].
  apply close_returns; [by eexists; apply lookup_insert_eq|by apply failed_detail_json| | |].
  { cbn. by rewrite Hcode, Hmsg. }
  { eapply fresh_run_rows; [..|apply (fresh_skip _ 4 (S (S (w_count w))) 2 _ Hf); lia]; done. }
  intros w1 Hj1 Hn1. apply returns_bind, announce_returns; [|done|done|done|].
  { rewrite Hj1. eexists. apply lookup_insert_eq. }
  intros w2 Hj2 Ha2. apply returns_ret. split; [done|].
  eexists. split; [by rewrite Hj2, Hj1|]. repeat split; first [done|by eexists|destruct dead; [by eexists|done]].
Qed.

Lemma retry_types code message now next j :
  varchar 64 code = true → pg_text message = true → job_types_ok j = true →
  job_types_ok (j <| j_status := RETRYING |> <| j_error_code := Some code |>
    <| j_error_message := Some message |> <| j_next_attempt_at := next |>
    <| j_locked_by := None |> <| j_lock_expires_at := None |> <| j_updated_at := now |>) = true.
Proof.
  intros Hc Hm. unfold job_types_ok. cbn -[jsonb]. rewrite Hc, Hm, !andb_true_iff. tauto.
Qed.

(** A retry scheduled. *)
Definition retrying_row (code message : string) (j : Job) (w w' : World) : Prop :=
  ∃ j', jobs (w_db w') = <[i := j']> (jobs (w_db w)) ∧ identity_of j' = identity_of j
    ∧ j_attempts j' = j_attempts j ∧ j_locked_by j' = None ∧ j_status j' = RETRYING
    ∧ j_error_code j' = Some code ∧ j_error_message j' = Some message
    ∧ some (j_next_attempt_at j').

Lemma schedule_retry_returns j k code message next w :
  working worker_id i j w → varchar 64 code = true → pg_text message = true →
  fresh_run (w_count w) 3 (w_db w) →
  returns (run (_schedule_retry worker_id i k code message next))
    (λ _ w', retrying_row code message j w w') w.
Proof.
  intros Hw Hcode Hmsg Hf. pose proof Hw as [Hj Hs Hl _ Ht Hk].
  assert (locked_by worker_id j && status_is RUNNING j = true) as Hg.
  { unfold locked_by, status_is. by rewrite Hl, Hs, String.eqb_refl. }
  apply returns_run_bind, returns_run_act, returns_reading, returns_run_act, returns_transaction.
  apply returns_bind, (returns_update _ _ _ _ j); [exact Hj| |].
  { intros _. split; [by apply retry_types|exact Hk]. }
  rewrite Hg. cbn [negb]. apply returns_bind, returns_finish; [cbn; by rewrite Hcode, Hmsg|].
  apply returns_record.
  - eexists. apply lookup_insert_eq.
  - apply (fr_events _ _ _ Hf). cbn. lia.
  - cbn -[isoformat]. rewrite (varchar_text 64 code) by done. by rewrite pg_text_isoformat.
  - eexists. split; [reflexivity|]. repeat split; by eexists.
Qed.
(** ** The whole execution *)

Hypothesis redis_up : ∀ n, redis_down n = false.

(** The backoff of the attempt can be computed. *)
Definition backoff_defined (n : Z) : Prop :=
  ∀ m, ∃ backoff delay, compute_backoff_seconds n settings (random_draw m) = inr backoff
    ∧ timedelta_of_seconds backoff = inr delay.

(** Another attempt follows this outcome of attempt [n]. *)
Definition tried_again (n : Z) (j : Job) (outcome : res dict) : bool :=
  match outcome with
  | Ok _ | Err (NonRetryableError _ _) => false
  | Err _ => n <? j_max_attempts j
  end.

Lemma handle_retryable_returns j k n code message w :
  working worker_id i j w → j_id j = i → varchar 64 code = true → pg_text message = true →
  announceable j JobEventType.FAILED FAILED None (Some code) (Some message) = true →
  ((j_max_attempts j <=? n) = false → backoff_defined n) → fresh_run (w_count w) 6 (w_db w) →
  returns (run (_handle_retryable settings worker_id i k n (j_max_attempts j) code message))
    (λ _ w', if j_max_attempts j <=? n
             then failed_row code message true j w w' ∧ uuid_str i ∈ dead_letters w'
             else retrying_row code message j w w') w.
Proof.
  intros Hw Hid Hcode Hmsg Hann Hback Hf. pose proof Hw as [Hj _ _ Hc _ _].
  apply returns_run_bind, returns_run_act, returns_transaction, returns_bind, returns_query.
  match goal with |- context [jobs (w_db ?w1) !! i] => change (jobs (w_db w1)) with (jobs (w_db w)) end.
  rewrite Hj, Hc. apply returns_ret. cbn [is_null negb].
  set (w1 := w <| w_count := _ |> <| w_txn_now := _ |>).
  assert (working worker_id i j w1) as Hw1 by (by destruct Hw; split).
  destruct (j_max_attempts j <=? n) eqn:Hn.
  - apply returns_run_bind. eapply returns_mono.
    { apply (finalize_failed_returns j k code message true w1 (working_finalizable _ _ Hw1)); try done.
      apply (fresh_skip (w_count w) 6); [exact Hf|cbn; lia..]. }
    intros b w2 [-> Hrow]. apply returns_run_act, returns_redis; [apply redis_up|].
    split; [exact Hrow|]. unfold dead_letters. cbn. rewrite contents_lpush, String.eqb_refl.
    apply list_elem_of_here.
  - destruct (Hback eq_refl (S (w_count w))) as (backoff & delay & Hb & Hd).
    apply returns_run_bind, returns_run_act, returns_bind, returns_reading.
    change (w_count w1) with (S (w_count w)). rewrite Hb.
    apply returns_bind, returns_ret. rewrite Hd. apply returns_ret.
    apply returns_run_bind, returns_run_act, returns_reading.
    eapply returns_mono.
    { apply (schedule_retry_returns j); [by destruct Hw; split|done|done|].
      apply (fresh_skip (w_count w) 6); [exact Hf|cbn; lia..]. }
    intros [] w2 Hrow. exact Hrow.
Qed.
Lemma retryable_outcome e :
  e ≠ JobCancelledError → (∀ c m, e ≠ NonRetryableError c m) →
  (∀ claim, finalize settings worker_id i claim (Err e)
     = _handle_retryable settings worker_id i (c_attempt_id claim) (c_attempt_number claim)
         (s_max_attempts (c_snapshot claim)) (error_of e).1 (error_of e).2)
  ∧ ∀ n j j', ended n (Err e) j j' ↔
      identity_of j' = identity_of j ∧ j_attempts j' = j_attempts j ∧ j_locked_by j' = None
      ∧ j_error_code j' = Some (error_of e).1 ∧ j_error_message j' = Some (error_of e).2
      ∧ if j_max_attempts j <=? n
        then j_status j' = FAILED ∧ some (j_completed_at j') ∧ some (j_dead_lettered_at j')
        else j_status j' = RETRYING ∧ some (j_next_attempt_at j').
Proof. intros Hc Hn. destruct e; try done. by destruct (Hn code message). Qed.

(** A non-retryable error ends the job. *)
Lemma finalize_rejected_returns j claim code message w :
  finalizable j w → j_id j = i → storable j (Err (NonRetryableError code message)) = true →
  fresh_run (w_count w) 4 (w_db w) →
  returns (run (finalize settings worker_id i claim (Err (NonRetryableError code message))))
    (λ _ w', row_ends (c_attempt_number claim) (Err (NonRetryableError code message)) j w w') w.
Proof.
  intros Hw Hid Hok Hf. cbn [storable] in Hok. bool_simpl. apply returns_run_bind. eapply returns_mono.
  { by apply (finalize_failed_returns j _ code message false w Hw). }
  intros b w1 [_ (j' & Hj' & ? & ? & ? & Hs & ? & ? & ? & Hd & Ha)].
  apply returns_run_ret. exists j'. split; [done|]. split; [done|]. split.
  - rewrite Hs. by apply (announced_terminal JobEventType.FAILED FAILED).
  - intros _ [t Ht]. congruence.
Qed.

Lemma finalize_returns j claim outcome w :
  working worker_id i j w → j_id j = i → s_max_attempts (c_snapshot claim) = j_max_attempts j →
  outcome ≠ Err JobCancelledError → storable j outcome = true →
  (tried_again (c_attempt_number claim) j outcome = true → backoff_defined (c_attempt_number claim)) →
  fresh_run (w_count w) 6 (w_db w) →
  returns (run (finalize settings worker_id i claim outcome))
    (λ _ w', row_ends (c_attempt_number claim) outcome j w w') w.
Proof.
  intros Hw Hid Hmax Hnc Hok Hback Hf. destruct outcome as [result|e].
  - apply finalize_succeeded_returns; [by apply working_finalizable|done|done|]. by apply (fresh_skip (w_count w) 6); [|lia..].
  - assert ((∃ c m, e = NonRetryableError c m) ∨ ∀ c m, e ≠ NonRetryableError c m) as [(c & m & ->)|Hn].
    { destruct e; try (by right). left. by eexists _, _. }
    + apply finalize_rejected_returns; [by apply working_finalizable|done|done|].
      by apply (fresh_skip (w_count w) 6); [|lia..].
    + assert (e ≠ JobCancelledError) as Hne by congruence.
      destruct (retryable_outcome e Hne Hn) as [Hfin Hend]. rewrite Hfin, Hmax.
      assert (varchar 64 (error_of e).1 && pg_text (error_of e).2
        && announceable j JobEventType.FAILED FAILED None (Some (error_of e).1) (Some (error_of e).2)
        = true) as Hok'.
      { destruct e; try exact Hok. by destruct (Hn code message). }
      bool_simpl. eapply returns_mono.
      { apply handle_retryable_returns; try done. intros Hlt. apply Hback.
        apply Z.leb_gt in Hlt. destruct e; try by apply Z.ltb_lt. by destruct (Hn code message). }
      intros [] w1 Hrow. destruct (j_max_attempts j <=? c_attempt_number claim) eqn:E.
      * destruct Hrow as [(j' & Hj' & ? & ? & ? & Hs & ? & ? & ? & ? & Ha) Hdl].
        exists j'. split; [done|]. split; [apply Hend; by rewrite E|]. split; [|done].
        rewrite Hs. by apply (announced_terminal JobEventType.FAILED FAILED).
      * destruct Hrow as (j' & Hj' & ? & ? & ? & Hs & ? & ? & ?).
        exists j'. split; [done|]. split; [apply Hend; by rewrite E|]. by rewrite Hs.
Qed.

Lemma claim_returns j w k :
  ready j (w_db w) → fresh_run (w_count w) (4 + k) (w_db w) →
  returns (run (_claim settings worker_id i))
    (λ r w', ∃ n now, r = Some (claim_of n j) ∧ w_count w' = (4 + w_count w)%nat
       ∧ jobs (w_db w') = <[i := claimed_job now j]> (jobs (w_db w))
       ∧ fresh_run (w_count w') k (w_db w')) w.
Proof.
  intros Hr Hf. apply returns_run_bind, returns_run_act, returns_reading.
  apply returns_run_act, returns_transaction. eapply returns_mono.
  { apply (claim_body_returns _ j _ k); [exact Hr|].
    apply (fresh_skip (w_count w) (4 + k)); [exact Hf|cbn; lia..]. }
  intros r w' [-> [Hj _ Hc Hfr]]. cbn in Hc. eexists _, _. split; [reflexivity|].
  split; [done|]. split; [exact Hj|]. apply Hfr.
  apply (fresh_skip (w_count w) (4 + k)); [exact Hf|cbn; lia..].
Qed.

(** The outcome is stored in the row as it was claimed, whatever progress was
    reported. *)
Lemma ended_progressed n outcome now j j1 j' :
  progressed (claimed_job now j) j1 → ended n outcome j1 j' →
  ended n outcome (j <| j_attempts := j_attempts j + 1 |>) j'.
Proof. by intros (p & h & l & u & ->). Qed.

Lemma storable_progressed now j j1 outcome :
  progressed (claimed_job now j) j1 → storable j1 outcome = storable j outcome.
Proof. by intros (p & h & l & u & ->). Qed.

Lemma tried_again_progressed now j j1 n outcome :
  progressed (claimed_job now j) j1 → tried_again n j1 outcome = tried_again n j outcome.
Proof. by intros (p & h & l & u & ->). Qed.

Lemma execute_returns j w :
  ready j (w_db w) → j_id j = i → storable j (outcome_of settings i j) = true →
  (tried_again (j_attempts j + 1) j (outcome_of settings i j) = true → backoff_defined (j_attempts j + 1)) →
  fresh_run (w_count w) (10 + readings settings i j) (w_db w) →
  returns (run (execute settings worker_id i))
    (λ b w', b = true ∧ row_ends (j_attempts j + 1) (outcome_of settings i j)
       (j <| j_attempts := j_attempts j + 1 |>) w w') w.
Proof.
  intros Hr Hid Hok Hback Hf.
  destruct (get_handler (j_type j)) as [handler|] eqn:Hh; [|by destruct (j_type j)].
  destruct (handler_mirrors settings worker_id i _ _ (j_payload j) (j_attempts j + 1) Hh)
    as (r & k & Hnc & Hidle & Hc).
  assert (handler_run settings i j = (r, later k init_world)) as Hrun.
  { unfold handler_run. rewrite Hh. apply Hidle. }
  unfold outcome_of, readings in *. rewrite Hrun in *. cbn [fst snd w_count later init_world set_field] in *.
  rewrite Nat.add_0_r in Hf.
  apply returns_run_bind. eapply returns_mono.
  { apply (claim_returns j w (6 + k)); [exact Hr|]. apply (fresh_skip _ _ _ _ _ Hf); lia. }
  intros c w2 (n & now & -> & Hcount & Hj & Hf2).
  assert (working worker_id i (claimed_job now j) w2) as Hw.
  { apply (claimed_working now j (w_db w) w2 Hr). rewrite Hj. apply lookup_insert_eq. }
  destruct (Hc _ _ Hw) as (j1 & t & Hhandler & Hp & Hw1).
  cbn [claim_of c_snapshot c_attempt_number s_type s_payload]. rewrite Hh. cbn [co_res].
  apply returns_run_bind, returns_run_ret, returns_run_bind.
  eexists r, _. split; [by rewrite run_try, Hhandler|].
  apply returns_run_bind. eapply returns_mono.
  { apply (finalize_returns j1); try done.
    - destruct Hp as (p & h & l & u & ->). exact Hid.
    - by destruct Hp as (p & h & l & u & ->).
    - by rewrite (storable_progressed now j).
    - rewrite (tried_again_progressed now j) by done. exact Hback.
    - apply (fresh_run_rows _ _ (w_db w2)); [done..|]. apply (fresh_skip _ _ _ _ _ Hf2); cbn; lia. }
  intros [] w3 (j' & Hj' & Hend & Hann & Hdl). apply returns_run_ret. split; [done|].
  exists j'. split; [|split; [by eapply ended_progressed|done]].
  rewrite Hj'. cbn. by rewrite insert_insert_eq, Hj, insert_insert_eq.
Qed.

(** In a reachable state a row that can be claimed is ready, as long as its counter
    can count the attempt. *)
Lemma countable_ready strict j d :
  Inv strict d → jobs d !! i = Some j → claimable j = true → int4 (j_attempts j + 1) = true →
  ready j d ∧ j_id j = i.
Proof.
  intros HI Hj Hc Hcount. destruct (inv_jobs _ _ HI i j Hj) as ([Hid Ht Hck Ha _] & _ & _).
  split; [|done]. split; try done.
  intros k a Hk Hid' Hn. destruct (inv_attempt _ _ HI k a Hk) as (_ & x & Hx & Hr).
  rewrite Hid' in Hx. assert (x = j) as -> by congruence. lia.
Qed.

(** It can where workers do not share an identity: attempts are left. *)
Lemma claimable_ready j d :
  Inv true d → jobs d !! i = Some j → claimable j = true → ready j d ∧ j_id j = i.
Proof.
  intros HI Hj Hc. apply (countable_ready true); try done.
  destruct (inv_jobs _ _ HI i j Hj) as ([_ Ht _ Ha _] & _ & Hb). destruct (Hb eq_refl) as (_ & Hleft & _).
  assert (j_attempts j < j_max_attempts j) as Hlt.
  { apply Hleft. unfold claimable, status_in in Hc. bool_simpl. revert H.
    unfold JobRepository._CLAIMABLE. rewrite !elem_of_cons, elem_of_nil. tauto. }
  revert Ht. unfold job_types_ok, int4. rewrite !andb_true_iff, !Z.leb_le, !Z.ltb_lt. lia.
Qed.

(** A beat of the heartbeat raises nothing, whatever the state of the job: it sets
    three time stamps.  So the [await] of its task that closes [execute] has no
    error to raise again, and the outcome of [execute] is that of its own steps. *)
Lemma heartbeat_returns strict w :
  Inv strict (w_db w) → returns (run (heartbeat_beat settings worker_id i)) (λ _ _, True) w.
Proof.
  intros HI. apply returns_run_act, returns_transaction, returns_bind, returns_reading.
  destruct (jobs (w_db w) !! i) as [j|] eqn:Hj.
  - apply returns_bind, (returns_update _ _ _ _ j); [exact Hj| |by apply returns_ret].
    intros _. destruct (inv_jobs _ _ HI i j Hj) as ([_ Ht Hk _ _] & _ & _). by split.
  - apply returns_bind, returns_bind. eexists _, _. split; [|by do 2 apply returns_ret].
    unfold statement, update_job. cbn. by rewrite Hj.
Qed.

(** C2: the claim, the handler with its callbacks and the finalization compose.  A
    worker whose identity fits its column executes a job that can be claimed, from
    a database that satisfies the invariant of the reachable ones, whether or not
    workers share an identity.  Five conditions: nobody else touches the job
    meanwhile; Redis answers; the identifiers it draws are new; the counter of
    attempts has room for one more (it has, where workers do not share an
    identity); the columns and the notification take the outcome ([storable]: not
    so for a job with an overlong webhook); and if another attempt follows, its
    backoff can be computed (not so from attempt 1025 on: the computation raises
    and nothing is stored).  Then [execute] returns, and changes one job row: its
    attempt is counted, its lock released, and it ends as the handler decides:
    SUCCEEDED with the result and full progress; FAILED with the code and message
    of a non-retryable error; after any other error RETRYING with a time for the
    next attempt while attempts are left, otherwise FAILED and dead-lettered.  A
    job that is over has its notification in the outbox, and a dead-lettered one
    stands in the dead-letter list.  The outcome is a function of the type,
    payload, identifier and attempt of the job and of the settings: neither the
    database nor the clock changes it. *)
Theorem execution_ends_as_the_handler_decides (strict : bool) (j : Job) (w : World) :
  Inv strict (w_db w) → jobs (w_db w) !! i = Some j → claimable j = true →
  int4 (j_attempts j + 1) = true →
  storable j (outcome_of settings i j) = true →
  (tried_again (j_attempts j + 1) j (outcome_of settings i j) = true → backoff_defined (j_attempts j + 1)) →
  fresh_run (w_count w) (10 + readings settings i j) (w_db w) →
  ∃ w', run (execute settings worker_id i) w = (Ok true, w')
    ∧ row_ends (j_attempts j + 1) (outcome_of settings i j) (j <| j_attempts := j_attempts j + 1 |>) w w'.
Proof.
  intros HI Hj Hc Hcount Hok Hback Hf. destruct (countable_ready strict j _ HI Hj Hc Hcount) as [Hr Hid].
  destruct (execute_returns j w Hr Hid Hok Hback Hf) as (b & w' & Hrun & -> & Hend). by exists w'.
Qed.
End Execution.

(** ** At a concrete state *)

Lemma demo_backoff n :
  match compute_backoff_seconds n default_settings fzero with
  | inr b => match timedelta_of_seconds b with inr _ => true | inl _ => false end
  | inl _ => false
  end = true → backoff_defined (env := demo_env) default_settings n.
Proof.
  intros H m. change (random_draw m) with fzero.
  destruct (compute_backoff_seconds n default_settings fzero) as [|b]; [done|].
  destruct (timedelta_of_seconds b) as [|d] eqn:E; [done|]. by exists b, d.
Qed.

Lemma execution_ends_as_the_handler_decides_witness :
  outcome_of default_settings first_job (row_at w_queued)
    = Err (RetryableError "TRANSIENT_FAILURE" "flaky job failing on attempt 1")
  ∧ ∃ w' j', run (execute default_settings "worker-1" first_job) w_queued = (Ok true, w')
    ∧ jobs (w_db w') !! first_job = Some j' ∧ j_status j' = RETRYING ∧ some (j_next_attempt_at j').
Proof.
  assert (outcome_of default_settings first_job (row_at w_queued)
    = Err (RetryableError "TRANSIENT_FAILURE" "flaky job failing on attempt 1")) as Hout by (by vm_compute).
  assert (readings default_settings first_job (row_at w_queued) = 1%nat) as Hn by (by vm_compute).
  split; [exact Hout|].
  destruct (execution_ends_as_the_handler_decides (env := demo_env) default_settings "worker-1" first_job eq_refl
    (λ _, eq_refl) true (row_at w_queued) w_queued) as (w' & Hrun & j' & Hj' & Hend & _).
  - exact (reachable_Inv true _ (at_queued true)).
  - by vm_compute.
  - by vm_compute.
  - by vm_compute.
  - rewrite Hout. by vm_compute.
  - intros _. apply demo_backoff. by vm_compute.
  - rewrite Hn. split; [apply new_to_check; by vm_compute..|apply demo_distinct; by vm_compute].
  - exists w', j'. split; [exact Hrun|]. split; [rewrite Hj'; apply lookup_insert_eq|].
    assert ((j_max_attempts (row_at w_queued) <=? j_attempts (row_at w_queued) + 1) = false) as E
      by (by vm_compute).
    rewrite Hout in Hend. revert Hend E. generalize (row_at w_queued). intros j Hend E.
    destruct Hend as (_ & _ & _ & _ & _ & H). cbn in H. by rewrite E in H.
Defined.
