(* ===== verification/PipelineSpec.v ===== *)
(** The way of a job through the services: submitted, dispatched, consumed and
    executed, each by its own process. *)

From S2P Require Import Prelude PyStr PyFloat FloatBounds Json Domain Config Uuid DateTime Models Effects.
From S2P Require Import Repositories Queue Notifications Catalog Logic Total Lifecycle Invariant.
From S2P Require Import Submission Cancellation Execution Scheduling Worker Programs System Demo.
From S2P Require Import Guarantees WorkerSpec ServiceSpec SchedulerSpec QueueSpec DispatchSpec DomainSpec AttemptSpec.
From S2P Require Import HandlerSpec ExecutionSpec.
Import JobStatus.

Section Pipeline.
Context {env : Env} (settings : Settings).

(** The identifiers of [k] readings from the [n]-th on are new to every table. *)
Record window (n k : nat) (d : Db) : Prop := {
  wi_jobs : new_to n k (jobs d);
  wi_dispatch : new_to n k (dispatch_outbox d);
  wi_run : fresh_run n k d;
}.

(** ** Submission *)

Section Submit.
Context (user : string) (ty : JobType) (payload : dict) (priority : JobPriority).
Context (attempts : option Z) (key : option string) (normalized : dict).

Abbreviation the_submission := (submit settings user ty payload priority attempts key).
Abbreviation row m t := (new_job (uuid7 m) user ty normalized priority (attempts_limit settings attempts) key t).

Hypothesis payload_ok : normalized_payload settings ty payload = Ok normalized.
Hypothesis row_fits : ∀ m t, job_types_ok (row m t) && job_checks_ok (row m t) = true.

(** The job, its event and its row of the outbox, and nothing else. *)
Record created (job : Job) (w w' : World) : Prop := {
  cr_job : ∃ m t, (w_count w ≤ m)%nat ∧ (m < w_count w')%nat ∧ job = row m t;
  cr_jobs : jobs (w_db w') = <[j_id job := job]> (jobs (w_db w));
  cr_outbox : ∃ o, dispatch_outbox (w_db w') = <[d_id o := o]> (dispatch_outbox (w_db w))
                ∧ dispatch_outbox (w_db w) !! d_id o = None
                ∧ (∃ m, (w_count w ≤ m < w_count w')%nat ∧ d_id o = uuid7 m)
                ∧ d_job_id o = j_id job ∧ d_status o = OutboxStatus.PENDING;
  cr_attempts : job_attempts (w_db w') = job_attempts (w_db w);
  cr_events : used (w_count w) (w_count w') (job_events (w_db w)) (job_events (w_db w'));
  cr_notifications : notification_outbox (w_db w') = notification_outbox (w_db w);
  cr_redis : w_redis w' = w_redis w;
  cr_count : (w_count w ≤ w_count w')%nat ∧ (w_count w' ≤ 6 + w_count w)%nat;
}.

Lemma key_is_free d m t :
  key_is_new user key d → idempotency_key_free (row m t) (jobs d) = true.
Proof.
  intros Hnew. unfold idempotency_key_free. apply forallb_forall. intros [x k] Hin.
  apply negb_true_iff, not_true_iff_false. unfold same_idempotency_key. cbn.
  intros [Hu%String.eqb_eq Hk]%andb_prop. unfold key_is_new, job_with_key in Hnew.
  destruct key as [a|]; [|done]. destruct (j_idempotency_key k) as [b|] eqn:Eb; [|done].
  apply String.eqb_eq in Hk. subst a. cbn in Hnew.
  destruct (List.find _ _) eqn:E; [done|]. pose proof (List.find_none _ _ E _ Hin) as Hn.
  unfold JobRepository.has_key in Hn. cbn in Hn. by rewrite <-Hu, Eb, !String.eqb_refl in Hn.
Qed.

Lemma create_rows_returns now w :
  key_is_new user key (w_db w) → window (w_count w) 3 (w_db w) →
  returns (create_rows user ty normalized priority (attempts_limit settings attempts) key now)
    (λ job w', created job w w' ∧ w_count w' = (3 + w_count w)%nat) w.
Proof.
  intros Hnew [Hj Hd [He _ _ _]].
  apply returns_bind, returns_reading, returns_bind, returns_add.
  { apply row_fits. }
  { apply Hj. lia. }
  { by apply key_is_free. }
  apply returns_bind, returns_record.
  { cbn. rewrite lookup_insert_eq. by eexists. }
  { apply He. cbn. lia. }
  { by destruct ty, priority. }
  apply returns_bind, returns_add_dispatch.
  { cbn. rewrite lookup_insert_eq. by eexists. }
  { apply Hd. cbn. lia. }
  apply returns_ret. split; [|done]. split; cbn; try done.
  - exists (w_count w), now. split; [lia|]. split; [lia|done].
  - exists (mkDispatchOutbox (uuid7 (S (S (w_count w)))) (uuid7 (w_count w)) OutboxStatus.PENDING 0
             (w_txn_now w) None).
    split; [done|]. split; [apply Hd; cbn; lia|]. split; [|done].
    exists (S (S (w_count w))). split; [cbn; lia|done].
  - apply used_insert. lia.
  - lia.
Qed.

Lemma window_sub n k n' k' d : window n k d → (n ≤ n')%nat → (n' + k' ≤ n + k)%nat → window n' k' d.
Proof.
  intros [Hj Hd Hr] H1 H2.
  split; [by apply (new_to_sub n k)|by apply (new_to_sub n k)|by apply (fresh_skip n k)].
Qed.

(** A submission under a new key, by a user below the limit. *)
Lemma submit_returns w :
  key_is_new user key (w_db w) → active_jobs user (w_db w) < max_in_flight_jobs_per_user settings →
  window (w_count w) 6 (w_db w) →
  returns (run the_submission) (λ job w', created job w w') w.
Proof.
  intros Hnew Hlim Hwin. unfold submit. rewrite payload_ok. cbn [co_res].
  apply returns_run_bind, returns_run_ret, returns_run_bind.
  assert (returns (run (find_by_key user key)) (λ r w', r = None
    ∧ w' = w <| w_count := w_count w' |> <| w_txn_now := w_txn_now w' |>
    ∧ (w_count w ≤ w_count w' ≤ S (w_count w))%nat) w) as Hfind.
  { unfold find_by_key, _find_existing. unfold key_is_new in Hnew. destruct key as [k|].
    - apply returns_run_act, returns_transaction, returns_query.
      split; [exact Hnew|]. split; [done|]. cbn. lia.
    - apply returns_run_ret. split; [done|]. split; [by destruct w|]. lia. }
  eapply returns_mono; [exact Hfind|]. clear Hfind. intros r w1 (-> & Hw1 & Hc1).
  assert (w_db w1 = w_db w ∧ w_redis w1 = w_redis w) as [Hdb Hredis] by (by rewrite Hw1). clear Hw1.
  change (default (job_default_max_attempts settings) attempts) with (attempts_limit settings attempts).
  apply returns_run_bind.
  enough (returns (run (_create settings user ty normalized priority (attempts_limit settings attempts) key))
    (λ job w', created job w w') w1) as (job & w' & Hrun & Hcr).
  { exists (Ok job), w'. split; [by rewrite run_try, Hrun|]. by apply returns_run_ret. }
  unfold _create. apply returns_run_bind, returns_run_act, returns_reading.
  apply returns_run_bind, returns_run_act, returns_reading.
  apply returns_run_bind, returns_run_act, returns_query.
  match goal with |- context [Z.of_nat ?n] => change (Z.of_nat n) with (active_jobs user (w_db w1)) end.
  rewrite Hdb, (proj2 (Z.leb_gt _ _) Hlim). apply returns_run_act, returns_transaction_at.
  match goal with |- returns _ _ ?x => set (w2 := x) end.
  assert (w_count w2 = 2 + w_count w1)%nat as Hc2 by done.
  eapply returns_mono.
  { apply create_rows_returns; unfold w2; cbn [w_db w_count set_field]; rewrite Hdb; [done|].
    apply (window_sub _ _ _ _ _ Hwin); lia. }
  intros job w' [[Hjob Hjobs Hout Hatt Hev Hnot Hred Hc] Hc3].
  change (w_db w2) with (w_db w1) in *. change (w_redis w2) with (w_redis w1) in *. rewrite Hdb in *.
  split; try done.
  - destruct Hjob as (m & t & H1 & H2 & E). exists m, t. split; [lia|]. split; [lia|done].
  - destruct Hout as (o & Ho & Hfree & (x & Hx & E) & Hid & Hs). exists o.
    split; [done|]. split; [done|]. split; [|done]. exists x. split; [lia|done].
  - eapply used_trans; [|apply used_same|exact Hev]. lia.
  - congruence.
  - lia.
Qed.

(** What is left of a window. *)
Lemma created_fresh job w w' k k' :
  created job w w' → window (w_count w) k (w_db w) → (w_count w' + k' ≤ w_count w + k)%nat →
  fresh_run (w_count w') k' (w_db w').
Proof.
  intros [_ _ _ Hatt Hev Hnot _ Hc] [_ _ [He Ha Hn Hd]] Hk.
  assert (∀ A (t : gmap uuid A), new_to (w_count w) k t → new_to (w_count w') k' t) as Hsub
    by (intros A t H; apply (new_to_sub (w_count w) k); [done|lia|lia]).
  split; [|rewrite Hatt; by apply Hsub|rewrite Hnot; by apply Hsub|].
  - apply (new_to_used (w_count w) k _ _ (job_events (w_db w))); [done|done|done|lia|lia].
  - apply (distinct_sub (w_count w) k); [done|lia|lia].
Qed.

Lemma created_window job w w' k k' :
  created job w w' → window (w_count w) k (w_db w) → (w_count w' + k' ≤ w_count w + k)%nat →
  window (w_count w') k' (w_db w').
Proof.
  intros Hcr Hwin Hk. pose proof (created_fresh _ _ _ _ _ Hcr Hwin Hk) as Hf.
  destruct Hcr as [(m & t & Hm1 & Hm2 & Hjob) Hjobs (o & Ho & _ & (x & Hx & Eo) & _) _ _ _ _ Hc].
  destruct Hwin as [Hj Hd [_ _ _ Hdis]]. split; [| |done].
  - apply (new_to_used (w_count w) k _ _ (jobs (w_db w))); [done|done| |lia|lia].
    rewrite Hjobs, Hjob. apply used_insert. lia.
  - apply (new_to_used (w_count w) k _ _ (dispatch_outbox (w_db w))); [done|done| |lia|lia].
    rewrite Ho, Eo. apply used_insert. lia.
Qed.

Lemma created_to_publish job w w' :
  created job w w' → to_publish (w_db w) = [] →
  ∃ o, to_publish (w_db w') = [o] ∧ d_job_id o = j_id job.
Proof.
  intros [_ _ (o & Ho & Hfree & _ & Hid & Hs) _ _ _ _ _] Hnone. exists o. split; [|done].
  apply Permutation_singleton_r. unfold to_publish, rows_where in *. rewrite Ho.
  rewrite (map_to_list_insert _ _ _ Hfree), filter_cons_True by done.
  apply fmap_nil_inv in Hnone. cbn. by rewrite Hnone.
Qed.
End Submit.

(** ** Dispatch *)

(** The only message that waits is the one of the job. *)
Lemma dispatch_one batch job w :
  Inv true (w_db w) → jobs (w_db w) !! j_id job = Some job → j_status job = PENDING →
  (∃ o, to_publish (w_db w) = [o] ∧ d_job_id o = j_id job) → 1 <= batch →
  (∀ n, redis_down n = false) → (∀ n i, locked_row n i = false) →
  (∀ p, abstract (redis_queue_namespace settings) (w_redis w) p = []) →
  ∀ k, fresh_run (w_count w) (5 + k) (w_db w) →
  ∃ now w', run (dispatch_pending settings batch) w = (Ok 1, w')
    ∧ jobs (w_db w') = <[j_id job := queued_job now job]> (jobs (w_db w))
    ∧ job_attempts (w_db w') = job_attempts (w_db w)
    ∧ w_count w' = (5 + w_count w)%nat ∧ fresh_run (w_count w') k (w_db w')
    ∧ ∀ p, abstract (redis_queue_namespace settings) (w_redis w') p
        = if bool_decide (p = j_priority job) then [uuid_str (j_id job)] else [].
Proof.
  intros HI Hj Hp (o & Ho & Hid) Hb Hup Hlock Hempty k [He Ha Hn Hd].
  destruct (dispatch_pass settings true batch w) as (l & now & w1 & w' & Hrun & Hl & D & Hdb & Hc & Hq & _);
    try done.
  { rewrite Ho. cbn. lia. }
  { rewrite Ho. cbn [length].
    split; [apply (new_to_sub (w_count w) (5 + k))|apply (distinct_sub (w_count w) (5 + k))]; (done || lia). }
  rewrite Ho in Hl. apply Permutation_singleton_r in Hl as ->.
  destruct D as [Dj _ Datt Dev Dnot _ Dc]. cbn in Dj, Datt, Dev, Dnot, Dc, Hc.
  exists now, w'. split; [exact Hrun|]. rewrite Hdb. split; [|split; [done|split; [lia|split]]].
  - apply map_eq. intros x. rewrite Dj, Hid, lookup_insert. destruct (decide (j_id job = x)) as [<-|E].
    + rewrite Hj. cbn. by rewrite bool_decide_eq_true_2 by apply list_elem_of_here.
    + destruct (jobs (w_db w) !! x); [|done]. cbn.
      rewrite bool_decide_eq_false_2; [done|]. intros ->%list_elem_of_singleton. done.
  - rewrite Hc, Dc. split; [|rewrite Datt|rewrite Dnot|].
    + apply (new_to_used (w_count w) (5 + k) _ _ (job_events (w_db w))); [done|done| |lia|lia].
      rewrite Dc in Dev. eapply used_trans; [|apply used_same|].
      2: { eapply used_trans; [|exact Dev|apply used_same]. lia. } lia.
    + apply (new_to_sub (w_count w) (5 + k)); (done || lia).
    + apply (new_to_sub (w_count w) (5 + k)); (done || lia).
    + apply (distinct_sub (w_count w) (5 + k)); (done || lia).
  - intros p. rewrite Hq. cbn. unfold message. rewrite Hid, Hj. cbn. unfold enqueue. cbn.
    by rewrite Hempty.
Qed.

(** ** Consumption *)

Lemma consume_turn_returns worker_id i p (Q : World → Prop) w :
  (∀ n, redis_down n = false) → (i < uuid_bound)%N →
  (∀ p', abstract (redis_queue_namespace settings) (w_redis w) p'
     = if bool_decide (p' = p) then [uuid_str i] else []) →
  (∀ x, w_db x = w_db w → w_count x = S (w_count w) →
     (∀ p', abstract (redis_queue_namespace settings) (w_redis x) p' = []) →
     returns (run (execute settings worker_id i)) (λ _ w', Q w') x) →
  returns (run (consume_turn (new_worker settings worker_id))) (λ _ w', Q w') w.
Proof.
  intros Hup Hi Hq Hexec. unfold consume_turn. cbn [_queue new_worker]. apply returns_run_bind.
  enough (returns (JobQueue.consume (redis_queue_namespace settings)) (λ r w1, r = Some (uuid_str i)
    ∧ w_db w1 = w_db w ∧ w_count w1 = S (w_count w)
    ∧ ∀ p', abstract (redis_queue_namespace settings) (w_redis w1) p' = []) w)
    as (r & w1 & Hrun & -> & Hdb & Hc & Hempty).
  { eexists _, w1. split; [by rewrite run_try, run_act, Hrun|]. unfold _process. cbn [_execution_service new_worker].
    rewrite (uuid_of_str_str i Hi). apply returns_run_bind.
    destruct (Hexec w1 Hdb Hc Hempty) as (b & w2 & Hrun2 & HQ).
    eexists (Ok b), w2. split; [by rewrite run_try, Hrun2|]. by apply returns_run_ret. }
  apply returns_bind, returns_redis; [apply Hup|].
  apply returns_ret.
  pose proof (brpop_dequeue (redis_queue_namespace settings) []
    [JobPriority.HIGH; JobPriority.NORMAL; JobPriority.LOW] (w_redis w)) as [Hr Hs].
  { intros q Hin. by apply elem_of_nil in Hin. }
  unfold JobQueue._priority_keys, JobQueue._PRIORITY_ORDER. cbn [app] in Hr, Hs.
  split; [rewrite Hr; cbn [dequeue]; rewrite !Hq; by destruct p|].
  split; [done|]. split; [done|]. intros q. etransitivity; [apply Hs|].
  cbn [dequeue]. rewrite !Hq. repeat (case_bool_decide; cbn); subst; rewrite ?Hq; repeat case_bool_decide; try done.
  by destruct p.
Qed.

(** ** The whole way *)

Lemma submission_reachable w user ty payload priority attempts key job w1 :
  reachable true (mkState w []) →
  run (submit settings user ty payload priority attempts key) w = (Ok job, w1) →
  reachable true (mkState w1 []).
Proof.
  intros Hr Hrun. apply (reachable_steps _ _ _ Hr).
  eapply rtc_l; [apply (step_spawn _ w [] None); [apply pr_submit|done]|].
  replace w1 with ((run (_ ← submit settings user ty payload priority attempts key; Ret tt) w).2)
    by (by rewrite run_bind, Hrun).
  apply run_steps_alone.
Qed.

(** A job of one dispatch is ready for its first attempt. *)
Lemma queued_ready now job d d2 :
  Inv true d → jobs d !! j_id job = Some job → j_status job = PENDING → j_attempts job = 0 →
  jobs d2 = <[j_id job := queued_job now job]> (jobs d) → job_attempts d2 = job_attempts d →
  ready (j_id job) (queued_job now job) d2.
Proof.
  intros HI Hj Hp Ha Hj2 Ha2. destruct (inv_jobs _ _ HI _ _ Hj) as ([_ Ht Hck _ Hok] & _).
  destruct (queued_job_checks now job) as (Et & Ec & _).
  assert (queued_job now job = job <| j_status := QUEUED |> <| j_queued_at := Some now |>
    <| j_last_dispatched_at := Some now |> <| j_updated_at := now |>) as E.
  { unfold queued_job, status_is. by rewrite bool_decide_eq_true_2. }
  split; [rewrite Hj2; apply lookup_insert_eq| |by rewrite Et|by rewrite Ec| |].
  - rewrite E. unfold claimable, status_in. cbn. unfold status_ok in Hok. rewrite Hp in Hok.
    destruct Hok as (_ & _ & _ & Hc & _). unfold none in Hc. by rewrite Hc.
  - rewrite E. cbn. by rewrite Ha.
  - intros k a Hk Hid. rewrite Ha2 in Hk. destruct (inv_attempt _ _ HI k a Hk) as (_ & x & Hx & Hr).
    rewrite Hid in Hx. assert (x = job) as -> by congruence. lia.
Qed.

(** Dispatched, consumed and executed: the job whose message is the only one. *)
Lemma pending_job_is_executed worker_id batch k job w :
  Inv true (w_db w) → jobs (w_db w) !! j_id job = Some job → j_status job = PENDING → j_attempts job = 0 →
  (∃ o, to_publish (w_db w) = [o] ∧ d_job_id o = j_id job) →
  (∀ p, abstract (redis_queue_namespace settings) (w_redis w) p = []) →
  (∀ n, redis_down n = false) → (∀ n i, locked_row n i = false) → 1 <= batch →
  varchar 64 worker_id = true → backoff_defined settings 1 → fresh_run (w_count w) (16 + k) (w_db w) →
  (readings settings (j_id job) job ≤ k)%nat →
  storable job (outcome_of settings (j_id job) job) = true →
  ∃ w2 w3 j', run (dispatch_pending settings batch) w = (Ok 1, w2)
    ∧ run (consume_turn (new_worker settings worker_id)) w2 = (Ok tt, w3)
    ∧ jobs (w_db w3) = <[j_id job := j']> (jobs (w_db w))
    ∧ ended 1 (outcome_of settings (j_id job) job) (job <| j_attempts := 1 |>) j'.
Proof.
  intros HI Hj Hp Ha Hout Hempty Hup Hlock Hbatch Hworker Hback Hf Hk Hstore.
  destruct (dispatch_one batch job w HI Hj Hp Hout Hbatch Hup Hlock Hempty (11 + k))
    as (now & w2 & Hdisp & Hjobs2 & Hatt2 & Hc2 & Hf2 & Hq2); [done|].
  pose proof (queued_ready now job _ _ HI Hj Hp Ha Hjobs2 Hatt2) as Hready.
  assert (outcome_of settings (j_id job) (queued_job now job) = outcome_of settings (j_id job) job
    ∧ readings settings (j_id job) (queued_job now job) = readings settings (j_id job) job
    ∧ storable (queued_job now job) (outcome_of settings (j_id job) job)
      = storable job (outcome_of settings (j_id job) job)
    ∧ ∀ r j', ended 1 r ((queued_job now job) <| j_attempts := 1 |>) j' → ended 1 r (job <| j_attempts := 1 |>) j')
    as (Eo & Er & Es & Ee).
  { unfold queued_job, status_is. rewrite (bool_decide_eq_true_2 _ Hp).
    split; [reflexivity|]. split; [reflexivity|]. split; [reflexivity|]. intros r j' H. exact H. }
  assert (j_attempts (queued_job now job) = 0 ∧ j_id (queued_job now job) = j_id job) as [Ea Ei]
    by (unfold queued_job, status_is; by rewrite (bool_decide_eq_true_2 _ Hp)).
  assert (j_id job < uuid_bound)%N as Hb by (by destruct (inv_jobs _ _ HI _ _ Hj) as (_ & ? & _)).
  destruct (consume_turn_returns worker_id (j_id job) (j_priority job)
    (λ w3, ∃ j', jobs (w_db w3) = <[j_id job := j']> (jobs (w_db w))
       ∧ ended 1 (outcome_of settings (j_id job) job) (job <| j_attempts := 1 |>) j') w2 Hup Hb Hq2)
    as ([] & w3 & Hturn & j' & Hj' & Hend); [|by exists w2, w3, j'].
  intros x Hdb Hcx _. rewrite <-Hdb in Hready, Hjobs2, Hf2. eapply returns_mono.
  { apply (execute_returns settings worker_id (j_id job) Hworker Hup (queued_job now job)); [done|done| | |].
    - by rewrite Eo, Es.
    - by rewrite Ea.
    - rewrite Hcx, Er. apply (fresh_skip _ _ _ _ _ Hf2); lia. }
  rewrite Eo, Ea. intros b w3 (_ & j' & Hj' & Hend & _). exists j'. split; [|by apply Ee].
  by rewrite Hj', Hjobs2, insert_insert_eq.
Qed.

(** The services compose: in a quiet system (Redis answers, no other session
    holds rows, nothing waits in the outbox or in the queues, identifiers are
    new) a submission with a valid payload that fits its columns, by a user below
    the limit and under a new key, is accepted; then one pass of the dispatcher
    and one turn of a worker return, and leave the job, and no other, as its
    handler decides: for every type of job the outcome is the one its type
    promises on the normalised payload, and the row holds that outcome after its
    first attempt. *)
Theorem submitted_job_is_executed (user worker_id : string) (ty : JobType) (payload normalized : dict)
  (priority : JobPriority) (attempts : option Z) (key : option string) (batch : Z) (k : nat) (w : World) :
  reachable true (mkState w []) → to_publish (w_db w) = [] →
  (∀ p, abstract (redis_queue_namespace settings) (w_redis w) p = []) →
  (∀ n, redis_down n = false) → (∀ n i, locked_row n i = false) → window (w_count w) (22 + k) (w_db w) →
  varchar 64 worker_id = true → 1 <= batch → backoff_defined settings 1 →
  normalized_payload settings ty payload = Ok normalized →
  (∀ m t, let j := new_job (uuid7 m) user ty normalized priority (attempts_limit settings attempts) key t in
          job_types_ok j && job_checks_ok j = true) →
  key_is_new user key (w_db w) → active_jobs user (w_db w) < max_in_flight_jobs_per_user settings →
  ∃ job w1, run (submit settings user ty payload priority attempts key) w = (Ok job, w1)
    ∧ let outcome := outcome_of settings (j_id job) job in
      outcome_table (j_id job) ty 1 normalized outcome
      ∧ ((readings settings (j_id job) job ≤ k)%nat → storable job outcome = true →
         ∃ w2 w3 j', run (dispatch_pending settings batch) w1 = (Ok 1, w2)
           ∧ run (consume_turn (new_worker settings worker_id)) w2 = (Ok tt, w3)
           ∧ jobs (w_db w3) = <[j_id job := j']> (jobs (w_db w))
           ∧ ended 1 outcome (job <| j_attempts := 1 |>) j').
Proof.
  intros Hreach Hnone Hempty Hup Hlock Hwin Hworker Hbatch Hback Hnorm Hfits Hnew Hlim.
  destruct (submit_returns user ty payload priority attempts key normalized Hnorm Hfits w Hnew Hlim)
    as (job & w1 & Hsub & Hcr). { by apply (window_sub _ _ _ _ _ Hwin); lia. }
  exists job, w1. split; [exact Hsub|]. cbv zeta.
  pose proof Hcr as [(m & t & _ & _ & Hjob) Hjobs _ _ _ _ Hredis Hc].
  assert (j_type job = ty ∧ j_payload job = normalized ∧ j_attempts job = 0 ∧ j_status job = PENDING)
    as (Et & Ep & Ea & Es) by (by rewrite Hjob).
  pose proof (reachable_Inv true _ (submission_reachable _ _ _ _ _ _ _ _ _ Hreach Hsub)) as HI.
  split.
  { pose proof (accepted_outcome settings (j_id job) job) as H. rewrite Et, Ep, Ea in H.
    apply H. by eapply accepted_submission. }
  intros Hk Hstore.
  destruct (pending_job_is_executed worker_id batch k job w1) as (w2 & w3 & j' & Hdisp & Hturn & Hj' & Hend); try done.
  { rewrite Hjobs. apply lookup_insert_eq. }
  { by eapply created_to_publish. }
  { by rewrite Hredis. }
  { eapply created_fresh; [exact Hcr|exact Hwin|lia]. }
  exists w2, w3, j'. split; [done|]. split; [done|]. split; [|done]. by rewrite Hj', Hjobs, insert_insert_eq.
Qed.
End Pipeline.

(** ** At a concrete state *)

Lemma window_init {env : Env} n k : distinct_ids n k → window n k (w_db init_world).
Proof. intros H. by repeat split. Qed.

Lemma submitted_job_is_executed_witness :
  ∃ job w1 w2 w3 j',
    run (submit default_settings "alice" JobType.REPORT [("pages", JStr "3")] JobPriority.HIGH None None)
      init_world = (Ok job, w1)
    ∧ run (dispatch_pending default_settings 100) w1 = (Ok 1, w2)
    ∧ run (consume_turn (new_worker default_settings "worker-1")) w2 = (Ok tt, w3)
    ∧ jobs (w_db w3) !! j_id job = Some j' ∧ j_status j' = SUCCEEDED
    ∧ j_result j' = Some [("report_ref", JStr ("report://" +:+ uuid_str (j_id job))); ("pages", JInt 3)].
Proof.
  destruct (submitted_job_is_executed default_settings "alice" "worker-1" JobType.REPORT
    [("pages", JStr "3")] [("pages", JInt 3)] JobPriority.HIGH None None 100 9 init_world)
    as (job & w1 & Hsub & Hout & Hrest); try done.
  { apply rtc_refl. }
  { apply window_init, demo_distinct. by vm_compute. }
  { apply demo_backoff. by vm_compute. }
  assert (match (run (submit default_settings "alice" JobType.REPORT [("pages", JStr "3")]
                        JobPriority.HIGH None None) init_world).1 with
          | Ok job => storable job (outcome_of default_settings (j_id job) job)
                      && (readings default_settings (j_id job) job <=? 9)%nat
          | Err _ => false
          end = true) as Hok by (by vm_compute).
  rewrite Hsub in Hok. cbn [fst] in Hok. apply andb_prop in Hok as [Hstore Hk%Nat.leb_le].
  destruct (Hrest Hk Hstore) as (w2 & w3 & j' & Hdisp & Hturn & Hj' & _ & _ & _ & Hend).
  exists job, w1, w2, w3, j'. split; [exact Hsub|]. split; [exact Hdisp|]. split; [exact Hturn|].
  split; [rewrite Hj'; apply lookup_insert_eq|].
  destruct Hout as (pages & [= <-] & Hout). rewrite Hout in Hend. by destruct Hend as (? & ? & _).
Defined.
