(* ===== verification/SubmitSpec.v ===== *)
(** What [POST /jobs] answers: every branch, and that an acceptable submission is
    accepted. *)

From S2P Require Import Prelude PyStr PyFloat FloatBounds Json Domain Config Uuid DateTime Models Effects.
From S2P Require Import Repositories Queue Notifications Catalog Logic Total Lifecycle Invariant.
From S2P Require Import Submission Cancellation Execution Scheduling Worker Read Api Programs System Demo.
From S2P Require Import Guarantees WorkerSpec ServiceSpec ApiSpec SchedulerSpec QueueSpec DispatchSpec DomainSpec.
From S2P Require Import AttemptSpec HandlerSpec ExecutionSpec PipelineSpec.

Section SubmitSpec.
Context {env : Env} (settings : Settings) (x_user : option string) (b : JobSubmit) (key : option string).

Abbreviation user := (current_user_id x_user).
Abbreviation payload_ok := (normalized_payload settings (sub_type b) (sub_payload b)).
Abbreviation the_request := (mkRequest x_user (SubmitJob b key)).

(** The row of a submission, under any identifier and at any time, fits its
    columns. *)
Definition row_fits (normalized : dict) : Prop := ∀ i t,
  let j := new_job i user (sub_type b) normalized (sub_priority b)
             (attempts_limit settings (sub_max_attempts b)) key t in
  job_types_ok j && job_checks_ok j = true.

(** What a submission needs to be accepted: a payload of its type, values that fit,
    a new key, room below the limit of jobs in flight, and new identifiers. *)
Record acceptable (normalized : dict) (w : World) : Prop := {
  acc_payload : payload_ok = Ok normalized;
  acc_fits : row_fits normalized;
  acc_key : key_is_new user key (w_db w);
  acc_room : active_jobs user (w_db w) < max_in_flight_jobs_per_user settings;
  acc_ids : window (w_count w) 6 (w_db w);
}.

Lemma acceptable_is_accepted normalized w :
  valid_request the_request = true → acceptable normalized w →
  ∃ job w', run (serve settings the_request) w = (Ok (ApiSpec.accepted job), w')
    ∧ created settings user (sub_type b) (sub_priority b) (sub_max_attempts b) key normalized job w w'.
Proof.
  intros Hvalid [Hp Hfit Hnew Hlim Hwin].
  destruct (submit_returns settings user (sub_type b) (sub_payload b) (sub_priority b)
    (sub_max_attempts b) key normalized Hp (λ m t, Hfit (uuid7 m) t) w Hnew Hlim Hwin)
    as (job & w' & Hrun & Hcr).
  exists job, w'. split; [|done]. unfold serve. rewrite Hvalid. cbn [negb]. rewrite run_bind, run_try.
  unfold dispatch, submit_job. cbn [req_route x_user_id]. by rewrite run_bind, run_try, Hrun.
Qed.

(** C30: [POST /jobs], on every branch.  413 for a payload that is too large; 422 for
    one that is not valid for its type, where the check raises a [ValueError] (an
    infinite number makes it raise [OverflowError] instead, which no handler
    takes: the server answers 500); 202 with the stored job when the idempotency
    key is known; 429 at the limit of jobs in flight; every refusal writes
    nothing.  Otherwise a new job is created with its event and its outbox row,
    and answered with 202 and its URL, or an error of the database takes the
    place of the answer and nothing is written.  There is none, and the answer is
    that 202, when the values fit their columns and the identifiers drawn are
    new: the job, as it was submitted, its event and its outbox row are all that
    is added. *)
Theorem submission_responses (w : World) :
  valid_request the_request = true →
  submit_spec settings x_user b key (w_db w) (run (serve settings the_request) w).1
    (w_db (run (serve settings the_request) w).2)
  ∧ ∀ normalized, acceptable normalized w →
      ∃ job w', run (serve settings the_request) w = (Ok (ApiSpec.accepted job), w')
        ∧ created settings user (sub_type b) (sub_priority b) (sub_max_attempts b) key normalized job w w'.
Proof.
  intros Hv. split.
  - by apply (run_alone _ (submit_spec settings x_user b key (w_db w))), submit_job_alone.
  - intros normalized. by apply acceptable_is_accepted.
Qed.
End SubmitSpec.

(** ** At concrete states *)

Definition two_pages : JobSubmit := mkJobSubmit JobType.REPORT [("pages", JInt 2)] JobPriority.NORMAL None.
Definition no_pages : JobSubmit := mkJobSubmit JobType.REPORT [("pages", JInt 0)] JobPriority.NORMAL None.

Lemma two_pages_acceptable :
  acceptable default_settings (Some "alice") two_pages None [("pages", JInt 2)] init_world.
Proof.
  split; [by vm_compute| |done|by vm_compute|apply window_init, demo_distinct; by vm_compute].
  intros i t. by vm_compute.
Qed.

Lemma submission_responses_witness :
  (run (serve default_settings (mkRequest (Some "alice") (SubmitJob no_pages None))) w_submitted).1
    = Ok (mkResponse 422 (ErrorBody "pages must be at least 1"))
  ∧ ∃ job w', run (serve default_settings (mkRequest (Some "alice") (SubmitJob two_pages None))) init_world
      = (Ok (ApiSpec.accepted job), w') ∧ jobs (w_db w') = {[ j_id job := job ]}.
Proof.
  split.
  - destruct (submission_responses default_settings (Some "alice") no_pages None w_submitted) as [H _];
      [reflexivity|]. apply H.
  - destruct (submission_responses default_settings (Some "alice") two_pages None init_world) as [_ H];
      [reflexivity|].
    destruct (H _ two_pages_acceptable) as (job & w' & Hrun & Hcr). exists job, w'.
    split; [exact Hrun|exact (cr_jobs _ _ _ _ _ _ _ _ _ _ Hcr)].
Defined.
