(* ===== verification/RetrySpec.v ===== *)
(** A job that fails is tried again: worker and scheduler take turns until the
    handler is satisfied or the attempts are used up. *)

From S2P Require Import Prelude PyStr PyFloat FloatBounds Json Domain Config Uuid DateTime Models Effects.
From S2P Require Import Repositories Queue Notifications Catalog Logic Total Lifecycle Invariant.
From S2P Require Import Submission Cancellation Execution Scheduling Worker Programs System Demo.
From S2P Require Import Steps Transactions Guarantees WorkerSpec ServiceSpec SchedulerSpec QueueSpec Frame.
From S2P Require Import DispatchSpec RecoverySpec DomainSpec AttemptSpec HandlerSpec ExecutionSpec PipelineSpec.
Import JobStatus.

Section Retry.
Context {env : Env} (settings : Settings) (worker_id : string) (i : uuid).
Hypothesis worker_fits : varchar 64 worker_id = true.
Hypothesis redis_up : ∀ n, redis_down n = false.
Hypothesis rows_free : ∀ n i, locked_row n i = false.

Abbreviation waiting w := (abstract (redis_queue_namespace settings) (w_redis w)).
Abbreviation turn := (consume_turn (new_worker settings worker_id)).

(** The job [j] waits in the queue, alone; no other job waits for a retry. *)
Record queued_alone (j : Job) (w : World) : Prop := {
  qa_inv : Inv true (w_db w);
  qa_row : jobs (w_db w) !! i = Some j;
  qa_status : j_status j = QUEUED;
  qa_queue : ∀ p, waiting w p = if bool_decide (p = j_priority j) then [uuid_str i] else [];
  qa_others : ∀ k x, jobs (w_db w) !! k = Some x → j_status x = RETRYING → k = i;
}.

(** The outcome of attempt [n] of the job. *)
Definition outcome_at (j : Job) (n : Z) : res dict := outcome_of settings i (j <| j_attempts := n - 1 |>).

(** The handler asks for another attempt. *)
Definition retryable (outcome : res dict) : bool :=
  match outcome with
  | Ok _ | Err (NonRetryableError _ _) => false
  | Err _ => true
  end.
(** ** One try *)

Lemma rows_where_one {A} (P : A → Prop) `{!∀ a, Decision (P a)} k (a : A) (t : gmap uuid A) :
  t !! k = Some a → P a → (∀ k' b, t !! k' = Some b → P b → k' = k) → rows_where P t = [a].
Proof.
  intros Hk Ha Hone. apply Permutation_singleton_r. rewrite <-(insert_delete_id t k a Hk).
  unfold rows_where. rewrite map_to_list_insert by apply lookup_delete_eq. rewrite filter_cons_True by done.
  cbn. constructor. destruct (rows_where P (delete k t)) as [|b l] eqn:E; unfold rows_where in E; [by rewrite E|].
  assert (b ∈ rows_where P (delete k t)) as (Hb & k' & Hk')%elem_of_rows_where
    by (unfold rows_where; rewrite E; apply list_elem_of_here).
  apply lookup_delete_Some in Hk' as [Hne Hk']. by destruct Hne; symmetry; apply (Hone k' b).
Qed.

Lemma queued_claimable j w : queued_alone j w → claimable j = true.
Proof.
  intros [HI Hj Hs _ _]. destruct (inv_jobs _ _ HI _ _ Hj) as ([_ _ _ _ Hok] & _).
  unfold status_ok in Hok. rewrite Hs in Hok. destruct Hok as (_ & _ & _ & Hc & _).
  unfold claimable, status_in. rewrite Hs. unfold none in Hc. by rewrite Hc.
Qed.

(** The notification of a job that is over waits for its first delivery. *)
Definition to_be_told (j : Job) (w : World) : Prop :=
  ∀ ty, terminal_event (j_status j) = Some ty →
    ∃ n, notification_outbox (w_db w) !! n_id n = Some n ∧ n_job_id n = i ∧ n_event_type n = ty ∧ untried n.

Lemma newly_told j j' w w' :
  Inv true (w_db w) → Inv true (w_db w') → only_adds_untried w w' →
  jobs (w_db w) !! i = Some j → StateMachine.is_terminal (j_status j) = false →
  jobs (w_db w') !! i = Some j' → to_be_told j' w'.
Proof.
  intros HI HI' Hadds Hj Hlive Hj' ty Hty.
  destruct (inv_notified _ _ HI' i j' Hj' (terminal_event_is_terminal _ _ Hty)) as (k & n & Hn & Hid).
  destruct (inv_notification _ _ HI' k n Hn) as (<- & _ & x & Hx & He). rewrite Hid in Hx.
  assert (x = j') as -> by congruence. exists n. split; [done|]. split; [done|]. split; [congruence|].
  destruct (Hadds _ _ Hn) as [Hold|Hnew]; [exfalso|done].
  destruct (inv_notification _ _ HI _ _ Hold) as (_ & _ & y & Hy & Hey). rewrite Hid in Hy.
  assert (y = j) as -> by congruence. by rewrite (terminal_event_is_terminal _ _ Hey) in Hlive.
Qed.

Lemma turn_returns j k w :
  queued_alone j w → storable j (outcome_of settings i j) = true → backoff_defined settings (j_attempts j + 1) →
  fresh_run (w_count w) (11 + k) (w_db w) → (readings settings i j ≤ k)%nat →
  ∃ w1 j', run turn w = (Ok tt, w1) ∧ Inv true (w_db w1) ∧ jobs (w_db w1) = <[i := j']> (jobs (w_db w))
    ∧ ended (j_attempts j + 1) (outcome_of settings i j) (j <| j_attempts := j_attempts j + 1 |>) j'
    ∧ (∀ p, waiting w1 p = []) ∧ to_be_told j' w1.
Proof.
  intros Hq Hstore Hback Hf Hk. pose proof Hq as [HI Hj Hs Hqueue _].
  destruct (claimable_ready i j _ HI Hj (queued_claimable _ _ Hq)) as [Hready Hid].
  assert (i < uuid_bound)%N as Hb by (by destruct (inv_jobs _ _ HI _ _ Hj) as (_ & ? & _)).
  destruct (consume_turn_returns settings worker_id i (j_priority j)
    (λ w1, ∃ j', jobs (w_db w1) = <[i := j']> (jobs (w_db w))
       ∧ ended (j_attempts j + 1) (outcome_of settings i j) (j <| j_attempts := j_attempts j + 1 |>) j'
       ∧ (∀ p, waiting w1 p = []) ∧ only_adds_untried w w1) w redis_up Hb Hqueue)
    as ([] & w1 & Hturn & j' & Hj' & Hend & Hempty & Hadds).
  - intros x Hdb Hc Hx. rewrite <-Hdb in Hready, Hf.
    destruct (execute_returns settings worker_id i worker_fits redis_up j x) as (b & w1 & Hrun & _ & j' & Hj' & Hend & _);
      try done.
    { rewrite Hc. apply (fresh_skip _ _ _ _ _ Hf); lia. }
    exists b, w1. split; [done|]. exists j'. rewrite <-Hdb. split; [done|]. split; [done|].
    split.
    + intros p. pose proof (execution_leaves_queue settings worker_id i x p) as Hl. rewrite Hrun in Hl.
      etransitivity; [exact Hl|apply Hx].
    + pose proof (execution_adds_untried settings worker_id i x) as Ha. rewrite Hrun in Ha.
      unfold only_adds_untried in *. by rewrite Hdb in Ha.
  - assert (Inv true (w_db w1)) as HI1.
    { replace w1 with (run turn w).2 by (by rewrite Hturn).
      apply (run_keeps _ _ _ _ _ _ _ (consume_turn_keeps true settings worker_id (w_db w)) HI). }
    exists w1, j'. do 5 (split; [done|]). apply (newly_told j j' w w1 HI HI1 Hadds Hj); [by rewrite Hs|].
    rewrite Hj'. apply lookup_insert_eq.
Qed.

(** ** The way back to the queue *)

(** Time passes: others read the environment. *)
Definition pause (n : nat) (w : World) : World := w <| w_count := n |>.

(** A pass whose batch is this job alone, and that puts it back in the queue. *)
Lemma back_in_queue (Back : Job → Job → Prop) j l w w2 :
  Inv true (w_db w) → Inv true (w_db w2) → jobs (w_db w) !! i = Some j → l ≡ₚ [j] →
  (∀ p, waiting w p = []) → (∀ k x, jobs (w_db w) !! k = Some x → j_status x = RETRYING → k = i) →
  rows_step Back (j_id <$> l) (jobs (w_db w)) (jobs (w_db w2)) →
  same_queue (waiting w2) (enqueue_all (map publication l) (waiting w)) →
  (∀ j', Back j j' → j_status j' = QUEUED ∧ j_priority j' = j_priority j) →
  ∃ j2, Back j j2 ∧ jobs (w_db w2) = <[i := j2]> (jobs (w_db w)) ∧ queued_alone j2 w2.
Proof.
  intros HI HI2 Hj Hl Hempty Hone Hstep Hq Hback. apply Permutation_singleton_r in Hl as ->.
  assert (j_id j = i) as Hid by (by destruct (inv_jobs _ _ HI _ _ Hj) as ([? _ _ _ _] & _)).
  cbn [fmap list_fmap] in Hstep. rewrite Hid in Hstep.
  pose proof (Hstep i) as Hi. rewrite Hj in Hi. destruct Hi as (j2 & Hj2 & Hp).
  rewrite bool_decide_eq_true_2 in Hp by apply list_elem_of_here.
  destruct (Hback _ Hp) as [Hs Hpr].
  assert (jobs (w_db w2) = <[i := j2]> (jobs (w_db w))) as Hjobs.
  { apply map_eq. intros k. rewrite lookup_insert. case_decide as E; [by subst|].
    specialize (Hstep k). destruct (jobs (w_db w) !! k); [|done].
    destruct Hstep as (x & -> & Hx). rewrite bool_decide_eq_false_2 in Hx; [by subst|].
    intros ->%list_elem_of_singleton. done. }
  exists j2. split; [done|]. split; [done|]. split; [done|done|done| |].
  - intros p. rewrite Hq. cbn. unfold enqueue. cbn. by rewrite Hpr, Hid, Hempty.
  - intros k x. rewrite Hjobs, lookup_insert. case_decide; [done|]. apply Hone.
Qed.

Lemma promotion_returns batch n j w :
  Inv true (w_db w) → jobs (w_db w) !! i = Some j → retry_due (clock n) j = true →
  (∀ p, waiting w p = []) → (∀ k x, jobs (w_db w) !! k = Some x → j_status x = RETRYING → k = i) →
  1 <= batch → new_ids (3 + n) 2 (w_db w) →
  ∃ w2 j2, run (promote_due settings batch) (pause n w) = (Ok 1, w2) ∧ promoted (clock n) j j2
    ∧ jobs (w_db w2) = <[i := j2]> (jobs (w_db w)) ∧ queued_alone j2 w2.
Proof.
  intros HI Hj Hdue Hempty Hone Hbatch Hids.
  assert (due (retry_due (clock (w_count (pause n w)))) (w_db (pause n w)) = [j]) as Hl.
  { apply (rows_where_one _ i); [done|done|]. intros k x Hk Hx. apply (Hone k x Hk).
    unfold retry_due, status_is in Hx. by bool_simpl. }
  destruct (promote_pass settings redis_up true batch (pause n w)) as (l & w2 & Hrun & Hlist & [Hstep _ _ _ _] & Hq & _);
    [exact HI|by rewrite Hl|done|by rewrite Hl|].
  rewrite Hl in Hlist. rewrite Hlist in Hrun.
  destruct (back_in_queue (promoted (clock n)) j l (pause n w) w2) as (j2 & Hp & Hj2 & Hq2); try done.
  { replace w2 with (run (promote_due settings batch) (pause n w)).2 by (by rewrite Hrun).
    apply (run_keeps _ _ _ _ _ _ _ (promote_harmless true None settings batch (w_db (pause n w))) HI). }
  { by intros j' ->. }
  by exists w2, j2.
Qed.

(** ** Rows of one job *)

Definition readings_at (j : Job) (n : Z) : nat := readings settings i (j <| j_attempts := n - 1 |>).

Lemma same_job j j2 :
  identity_of j2 = identity_of j →
  (∀ n, outcome_at j2 n = outcome_at j n ∧ readings_at j2 n = readings_at j n)
  ∧ (∀ o, storable j2 o = storable j o) ∧ j_max_attempts j2 = j_max_attempts j
  ∧ ∀ n o a j', ended n o (j2 <| j_attempts := a |>) j' → ended n o (j <| j_attempts := a |>) j'.
Proof.
  intros E. pose proof E as E'. unfold identity_of in E'. injection E' as Hid Hu Hty _ Hp Hmax _ _.
  split; [|split; [|split; [done|]]].
  - intros n. unfold outcome_at, readings_at, outcome_of, readings, handler_run. cbn. by rewrite Hty, Hp.
  - intros o. unfold storable, announceable, notification_route, notification_payload.
    by rewrite Hid, Hu, Hty, Hp.
  - intros n o a j'.
    assert (identity_of (j2 <| j_attempts := a |>) = identity_of (j <| j_attempts := a |>)) as E1 by exact E.
    assert (j_max_attempts (j2 <| j_attempts := a |>) = j_max_attempts (j <| j_attempts := a |>)) as E2
      by exact Hmax.
    assert (j_attempts (j2 <| j_attempts := a |>) = j_attempts (j <| j_attempts := a |>)) as E3 by done.
    unfold ended. by rewrite E1, E2, E3.
Qed.

Lemma next_outcome j :
  outcome_of settings i j = outcome_at j (j_attempts j + 1) ∧ readings settings i j = readings_at j (j_attempts j + 1).
Proof.
  unfold outcome_at, readings_at, outcome_of, readings, handler_run. cbn.
  by replace (j_attempts j + 1 - 1 + 1) with (j_attempts j + 1) by lia.
Qed.

(** A retryable outcome with attempts left. *)
Lemma ended_retrying n o j j' :
  ended n o j j' → retryable o = true → n < j_max_attempts j →
  identity_of j' = identity_of j ∧ j_attempts j' = j_attempts j ∧ j_status j' = RETRYING
  ∧ some (j_next_attempt_at j').
Proof.
  intros (Hid & Ha & _ & H) Ho Hn. destruct o as [|e]; [done|]. split; [done|]. split; [done|].
  destruct e; try done; destruct H as (_ & _ & H); by rewrite (proj2 (Z.leb_gt _ _) Hn) in H.
Qed.

(** ** Tries *)

Definition completed {A} (r : res A * World) : option World :=
  match r with (Ok _, w) => Some w | (Err _, _) => None end.

(** The tries of a job: a turn of the worker, then time passes until the reading
    the list says, then a pass of the promoter. *)
Fixpoint tries (batch : Z) (waits : list nat) (w : World) : option World :=
  match waits with
  | [] => Some w
  | n :: waits =>
      w1 ← completed (run turn w);
      w2 ← completed (run (promote_due settings batch) (pause n w1));
      tries batch waits w2
  end.

(** Each wait lasts until the retry is due, and identifiers are new throughout. *)
Definition due_at (n : nat) (w : World) : bool :=
  match jobs (w_db w) !! i with
  | Some j => le_opt (j_next_attempt_at j) (clock n)
  | None => false
  end.

Fixpoint in_time (batch : Z) (k : nat) (waits : list nat) (w : World) : Prop :=
  fresh_run (w_count w) (11 + k) (w_db w)
  ∧ match waits with
    | [] => True
    | n :: waits =>
        ∀ w1, run turn w = (Ok tt, w1) →
          (w_count w1 ≤ n)%nat ∧ due_at n w1 = true ∧ new_ids (3 + n) 2 (w_db w1)
          ∧ ∀ w2, run (promote_due settings batch) (pause n w1) = (Ok 1, w2) → in_time batch k waits w2
    end.

(** Liveness over the retries: a job that waits in the queue of a quiet system
    (Redis answers, rows are free, identifiers are new, no other job waits for a
    retry) is tried until its handler is satisfied.  As long as the handler asks
    for another attempt and attempts are left, the turn of the worker, the wait
    until the retry is due and the pass of the promoter all return and bring it
    back to the queue; the turn after them ends it as the handler then decides:
    SUCCEEDED with its result, FAILED for good, or, when the attempts are used up,
    FAILED and dead-lettered.  Every try is counted once, no other job changes,
    and the notification of its end waits to be delivered. *)
Theorem failing_job_is_tried_again (batch : Z) (k : nat) (waits : list nat) (j : Job) (w : World) :
  let last := j_attempts j + 1 + Z.of_nat (length waits) in
  queued_alone j w → 1 <= batch → in_time batch k waits w → last <= j_max_attempts j →
  (∀ n, j_attempts j < n < last → retryable (outcome_at j n) = true) →
  (∀ n, j_attempts j < n <= last → storable j (outcome_at j n) = true
     ∧ (readings_at j n ≤ k)%nat ∧ backoff_defined settings n) →
  ∃ w1 w2 j', tries batch waits w = Some w1 ∧ run turn w1 = (Ok tt, w2)
    ∧ jobs (w_db w2) = <[i := j']> (jobs (w_db w))
    ∧ ended last (outcome_at j last) (j <| j_attempts := last |>) j'
    ∧ Inv true (w_db w2) ∧ to_be_told j' w2.
Proof.
  cbv zeta. revert j w. induction waits as [|n waits IH]; intros j w Hq Hbatch Htime Hmax Hretry Hok.
  - cbn [length] in *. rewrite Z.add_0_r in *. destruct Htime as [Hf _].
    destruct (Hok (j_attempts j + 1)) as (Hs & Hk & Hb); [lia|].
    destruct (next_outcome j) as [Eo Er]. rewrite <-Eo, <-Er in *.
    destruct (turn_returns j k w Hq Hs Hb Hf Hk) as (w2 & j' & Hrun & HI2 & Hj' & Hend & _ & Htold).
    by exists w, w2, j'.
  - destruct Htime as [Hf Htime]. cbn [length] in *. rewrite Nat2Z.inj_succ in *.
    destruct (Hok (j_attempts j + 1)) as (Hs & Hk & Hb); [lia|].
    pose proof (Hretry (j_attempts j + 1)) as Hr.
    destruct (next_outcome j) as [Eo Er]. rewrite <-Eo, <-Er in *.
    destruct (turn_returns j k w Hq Hs Hb Hf Hk) as (w1 & j1 & Hrun & HI1 & Hj1 & Hend & Hempty & _).
    destruct (Htime w1 Hrun) as (_ & Hdue & Hids & Hnext).
    destruct (ended_retrying _ _ _ _ Hend) as (Hid1 & Ha1 & Hs1 & _); [apply Hr; lia|cbn; lia|].
    destruct (promotion_returns batch n j1 w1 HI1) as (w2 & j2 & Hprom & Hp & Hj2 & Hq2); try done.
    { by rewrite Hj1, lookup_insert_eq. }
    { unfold retry_due, status_is. rewrite (bool_decide_eq_true_2 _ Hs1). cbn.
      unfold due_at in Hdue. by rewrite Hj1, lookup_insert_eq in Hdue. }
    { intros x y. rewrite Hj1, lookup_insert. case_decide; [done|]. apply (qa_others _ _ Hq). }
    assert (identity_of j2 = identity_of j ∧ j_attempts j2 = j_attempts j + 1) as [Hid2 Ha2].
    { rewrite Hp. split; [exact Hid1|exact Ha1]. }
    destruct (same_job j j2 Hid2) as (Hout & Hstor & Hm & Hended).
    destruct (IH j2 w2 Hq2 Hbatch (Hnext w2 Hprom)) as (w3 & w4 & j' & Htries & Hlast & Hj' & Hend' & Hfinal).
    + rewrite Ha2, Hm. lia.
    + intros m Hmm. rewrite (proj1 (Hout m)). apply Hretry. lia.
    + intros m Hmm. destruct (Hout m) as [-> ->]. rewrite Hstor. apply Hok. lia.
    + exists w3, w4, j'. rewrite Ha2 in Hend'.
      replace (j_attempts j + 1 + 1 + Z.of_nat (length waits)) with
        (j_attempts j + 1 + Z.succ (Z.of_nat (length waits))) in Hend' by lia.
      split; [cbn [tries]; rewrite Hrun; cbn [completed mbind option_bind]; by rewrite Hprom|]. split; [done|].
      split; [by rewrite Hj', Hj2, Hj1, !insert_insert_eq|].
      rewrite (proj1 (Hout _)) in Hend'. split; [by apply Hended|done].
Qed.
End Retry.

(** ** At a concrete state *)

Lemma others_check d i :
  forallb (λ p, negb (status_is RETRYING p.2) || (p.1 =? i)%N) (map_to_list (jobs d)) = true →
  ∀ k x, jobs d !! k = Some x → j_status x = RETRYING → k = i.
Proof.
  intros H k x Hk Hx. rewrite forallb_forall in H.
  specialize (H (k, x)). cbn in H. unfold status_is in H. rewrite (bool_decide_eq_true_2 _ Hx) in H.
  apply N.eqb_eq, H. by apply list_elem_of_In, elem_of_map_to_list.
Qed.

(** The wait of one retry, checked. *)
Definition new_b {A} (n k : nat) (t : gmap uuid A) : bool :=
  forallb (λ m, is_null (t !! uuid7 m)) (seq n k).

Definition fresh_b (n k : nat) (d : Db) : bool :=
  new_b n k (job_events d) && new_b n k (job_attempts d) && new_b n k (notification_outbox d)
  && (N.of_nat (n + k) <? uuid_bound)%N.

Fixpoint in_time_b (settings : Settings) (worker_id : string) (i : uuid) (batch : Z) (k : nat)
  (waits : list nat) (w : World) : bool :=
  fresh_b (w_count w) (11 + k) (w_db w)
  && match waits with
     | [] => true
     | n :: waits =>
         match run (consume_turn (new_worker settings worker_id)) w with
         | (Ok _, w1) =>
             (w_count w1 <=? n)%nat && due_at i n w1 && fresh_b (3 + n) 2 (w_db w1)
             && match run (promote_due settings batch) (pause n w1) with
                | (Ok _, w2) => in_time_b settings worker_id i batch k waits w2
                | (Err _, _) => true
                end
         | (Err _, _) => true
         end
     end.

Lemma fresh_check n k d : fresh_b n k d = true → fresh_run n k d.
Proof.
  unfold fresh_b. intros H. bool_simpl. split; [by apply new_to_check..|by apply demo_distinct].
Qed.

Lemma in_time_check settings worker_id i batch k waits w :
  in_time_b settings worker_id i batch k waits w = true → in_time settings worker_id i batch k waits w.
Proof.
  revert w. induction waits as [|n waits IH]; intros w; cbn -[run consume_turn promote_due fresh_b pause].
  - intros [H _]%andb_prop. split; [by apply fresh_check|done].
  - intros [H Hw]%andb_prop. split; [by apply fresh_check|]. intros w1 E. rewrite E in Hw.
    apply andb_prop in Hw as [[[Hn%Nat.leb_le Hdue]%andb_prop Hids]%andb_prop Hw].
    destruct (fresh_check _ _ _ Hids) as [He _ Hnot Hd].
    split; [done|]. split; [done|]. split; [done|]. intros w2 E2. rewrite E2 in Hw. by apply IH.
Qed.

Lemma failing_job_is_tried_again_witness :
  outcome_at default_settings first_job (row_at w_queued) 1
    = Err (RetryableError "TRANSIENT_FAILURE" "flaky job failing on attempt 1")
  ∧ ∃ w1 w2 j', tries default_settings "worker-1" 10 [100%nat] w_queued = Some w1
    ∧ run (consume_turn (new_worker default_settings "worker-1")) w1 = (Ok tt, w2)
    ∧ jobs (w_db w2) !! first_job = Some j' ∧ j_status j' = SUCCEEDED ∧ j_attempts j' = 2
    ∧ j_result j' = Some [("succeeded_on_attempt", JInt 2)].
Proof.
  assert (outcome_at default_settings first_job (row_at w_queued) 1
    = Err (RetryableError "TRANSIENT_FAILURE" "flaky job failing on attempt 1")) as H1 by (by vm_compute).
  assert (outcome_at default_settings first_job (row_at w_queued) 2
    = Ok [("succeeded_on_attempt", JInt 2)]) as H2 by (by vm_compute).
  assert (j_attempts (row_at w_queued) = 0) as Ha by (by vm_compute).
  assert (j_max_attempts (row_at w_queued) = 5) as Hmax by (by vm_compute).
  split; [exact H1|].
  destruct (failing_job_is_tried_again (env := demo_env) default_settings "worker-1" first_job eq_refl
    (λ _, eq_refl) (λ _ _, eq_refl) 10 1 [100%nat] (row_at w_queued) w_queued) as (w1 & w2 & j' & Ht & Hrun & Hj' & Hend & _).
  - split.
    + exact (reachable_Inv true _ (at_queued true)).
    + by vm_compute.
    + by vm_compute.
    + intros p. destruct p; by vm_compute.
    + apply others_check. by vm_compute.
  - lia.
  - apply in_time_check. by vm_compute.
  - rewrite Ha, Hmax. done.
  - rewrite Ha. intros n Hn. cbn in Hn. replace n with 1 by lia. by rewrite H1.
  - rewrite Ha. intros n Hn. cbn in Hn.
    assert (n = 1 ∨ n = 2) as [-> | ->] by lia; (split; [rewrite ?H1, ?H2; by vm_compute|]);
      (split; [by apply Nat.leb_le; vm_compute|apply demo_backoff; by vm_compute]).
  - exists w1, w2, j'. split; [exact Ht|]. split; [exact Hrun|].
    split; [rewrite Hj'; apply lookup_insert_eq|].
    rewrite Ha in Hend. change (0 + 1 + Z.of_nat (length [100%nat])) with 2 in Hend. rewrite H2 in Hend.
    destruct Hend as (_ & Ha' & _ & Hs & Hr & _). split; [exact Hs|]. split; [exact Ha'|exact Hr].
Defined.
