(* ===== verification/NotificationSpec.v ===== *)
(** The delivery loop: a pass attempts every notification that is due, and a
    notification reaches its end after a bounded number of passes. *)

From S2P Require Import Prelude PyStr PyFloat FloatBounds Json Domain Config Uuid DateTime Models Effects.
From S2P Require Import Repositories Queue Notifications Catalog Logic Total Lifecycle Invariant.
From S2P Require Import Submission Cancellation Execution Scheduling Worker Programs System Demo.
From S2P Require Import Steps Transactions Guarantees SentSpec SchedulerSpec DispatchSpec RecoverySpec DeliverySpec.
From S2P Require Import ExecutionSpec PipelineSpec RetrySpec.
Import NotificationStatus.

Lemma filter_none {A} (P : A → Prop) `{!∀ a, Decision (P a)} l : (∀ a, a ∈ l → ¬ P a) → filter P l = [].
Proof.
  induction l as [|a l IH]; intros Hno; [done|]. rewrite filter_cons_False by apply Hno, list_elem_of_here.
  apply IH. intros b Hb. by apply Hno, list_elem_of_further.
Qed.

Section Loop.
Context {env : Env} (settings : Settings).

Abbreviation outbox w := (notification_outbox (w_db w)).
Abbreviation limit := (notification_max_attempts settings).

(** Receivers accept or fail; nothing else is raised. *)
Hypothesis receivers_answer : ∀ m destination body signature message,
  http_post m destination body signature ≠ HttpRaised message.
Hypothesis backoff_exists : ∀ n, n < limit → backoff_defined settings n.
Hypothesis rows_free : ∀ n i, locked_row n i = false.

(** ** One attempt *)

(** What becomes of a row that is attempted. *)
Inductive attempted (n : NotificationOutbox) : NotificationOutbox → Prop :=
| at_sent t :
    attempted n (n <| n_status := SENT |> <| n_sent_at := Some t |>
                   <| n_attempts := n_attempts n + 1 |> <| n_last_error := None |>)
| at_failed message :
    limit <= n_attempts n + 1 →
    attempted n (n <| n_status := FAILED |> <| n_attempts := n_attempts n + 1 |>
                   <| n_last_error := Some message |>)
| at_rescheduled t message :
    n_attempts n + 1 < limit →
    attempted n (n <| n_attempts := n_attempts n + 1 |> <| n_next_attempt_at := t |>
                   <| n_last_error := Some message |>).

Lemma attempted_keeps n n' : attempted n n' → n_attempts n' = n_attempts n + 1 ∧ n_id n' = n_id n.
Proof. by destruct 1. Qed.

Definition sent (n : NotificationOutbox) : bool := bool_decide (n_status n = SENT).

(** The deliveries of a batch: one for each row that is now sent. *)
Definition deliveries (l : list NotificationOutbox) (d : Db) : list delivery :=
  omap (λ n, match notification_outbox d !! n_id n with
             | Some n' => if sent n' then Some (delivery_of settings n) else None
             | None => None
             end) l.

Record delivered (l : list NotificationOutbox) (w w' : World) : Prop := {
  dv_rows : rows_step attempted (n_id <$> l) (outbox w) (outbox w');
  dv_rest : w_db w' = (w_db w) <| notification_outbox := outbox w' |>;
  dv_sent : w_sent w' = rev (deliveries l (w_db w')) ++ w_sent w;
  dv_redis : w_redis w' = w_redis w;
  dv_count : (w_count w ≤ w_count w')%nat;
}.

Lemma attempt_returns n w :
  outbox w !! n_id n = Some n → n_status n = PENDING →
  returns (_attempt settings n) (λ _, delivered [n] w) w.
Proof.
  intros Hn Hs. pose proof (attempt_outcome settings n w Hn) as H. unfold attempt_spec in H.
  assert (∀ n' sent' w', leaves n n' sent' w w' → attempted n n' →
    sent' = (if sent n' then [delivery_of settings n] else []) ++ w_sent w → delivered [n] w w') as Hleaves.
  { intros n' sent' w' (Hdb & Hsent & Hr & Hc) Ha E. split.
    - rewrite Hdb. by apply (rows_step_one _ _ n).
    - by rewrite Hdb.
    - rewrite Hsent, E. unfold deliveries. cbn. rewrite Hdb. cbn. rewrite lookup_insert_eq.
      by destruct (sent n').
    - done.
    - done. }
  destruct (answer_of settings n w) as [|message|message] eqn:Ea.
  - eapply returns_mono; [exact H|]. intros [] w' Hl. eapply Hleaves; [exact Hl|constructor|done].
  - destruct (Z.leb_spec limit (n_attempts n + 1)).
    + eapply returns_mono; [exact H|]. intros [] w' Hl. eapply Hleaves; [exact Hl|by constructor|done].
    + destruct (backoff_exists (n_attempts n + 1)) with (m := next_reading n w) as (b & d & Hb & Hd); [done|].
      unfold retry_delay_of in H. rewrite Hb, Hd in H.
      eapply returns_mono; [exact H|]. intros [] w' Hl. eapply Hleaves; [exact Hl|by constructor|].
      unfold sent. cbn. by rewrite Hs.
  - exfalso. unfold answer_of in Ea. case_bool_decide; [|done]. by eapply receivers_answer.
Qed.
(** ** A batch *)

Lemma deliveries_kept n l w w' :
  rows_step attempted (n_id <$> l) (outbox w) (outbox w') → n_id n ∉ n_id <$> l →
  is_Some (outbox w !! n_id n) → deliveries [n] (w_db w') = deliveries [n] (w_db w).
Proof.
  intros Hstep Hni [x Hx]. specialize (Hstep (n_id n)). rewrite Hx in Hstep.
  destruct Hstep as (x' & Hx' & E). rewrite bool_decide_eq_false_2 in E by done. subst x'.
  unfold deliveries. cbn. by rewrite Hx, Hx'.
Qed.

Lemma deliveries_cons n l d : deliveries (n :: l) d = deliveries [n] d ++ deliveries l d.
Proof. unfold deliveries. cbn. by case_match. Qed.

Lemma batch_delivered l w :
  NoDup (n_id <$> l) → (∀ n, n ∈ l → outbox w !! n_id n = Some n ∧ n_status n = PENDING) →
  returns (for_each l (_attempt settings)) (λ _, delivered l w) w.
Proof.
  revert w. induction l as [|n l IH]; intros w Hnd Hl.
  { apply returns_ret. split; [apply rows_step_none|by destruct w as [[]]|done|done|done]. }
  apply NoDup_cons in Hnd as [Hni Hnd]. destruct (Hl n (list_elem_of_here _ _)) as [Hn Hs].
  apply returns_bind. eapply returns_mono; [by apply attempt_returns|].
  intros [] w1 [Hrows Hrest Hsent Hredis Hcount].
  assert (is_Some (outbox w1 !! n_id n)) as Hn1.
  { specialize (Hrows (n_id n)). rewrite Hn in Hrows. destruct Hrows as (n' & -> & _). by eexists. }
  apply returns_bind. eapply returns_mono.
  { apply IH; [done|]. intros x Hx. destruct (Hl x (list_elem_of_further _ _ _ Hx)) as [Hox Hsx]. split; [|done].
    specialize (Hrows (n_id x)). rewrite Hox in Hrows. destruct Hrows as (x' & Hx' & E).
    rewrite bool_decide_eq_false_2 in E; [by subst|].
    intros Ek%list_elem_of_singleton. apply Hni. rewrite <-Ek. by apply list_elem_of_fmap_2. }
  intros bs w2 [Hrows2 Hrest2 Hsent2 Hredis2 Hcount2]. apply returns_ret. split.
  - by apply (rows_step_cons _ _ _ _ _ _ Hni Hrows).
  - by rewrite Hrest2, Hrest.
  - rewrite deliveries_cons, Hsent2, Hsent, (deliveries_kept n l w1 w2 Hrows2 Hni Hn1).
    by rewrite rev_app_distr, <-app_assoc.
  - congruence.
  - lia.
Qed.

(** ** A pass *)

Definition due_now (now : datetime) (n : NotificationOutbox) : bool :=
  bool_decide (n_status n = PENDING) && (n_next_attempt_at n <=? now).

Definition due_notifications (now : datetime) (d : Db) : list NotificationOutbox :=
  rows_where (λ n, due_now now n = true) (notification_outbox d).

Lemma due_notification_rows strict now d l :
  Inv strict d → l ≡ₚ due_notifications now d →
  NoDup (n_id <$> l) ∧ ∀ n, n ∈ l ↔ notification_outbox d !! n_id n = Some n ∧ due_now now n = true.
Proof.
  intros HI Hl. split.
  - rewrite Hl. apply rows_where_NoDup. intros k1 k2 n1 n2 H1 H2 _ _ E.
    destruct (inv_notification _ _ HI k1 n1 H1) as [<- _], (inv_notification _ _ HI k2 n2 H2) as [<- _]. done.
  - intros n. rewrite Hl. unfold due_notifications. rewrite elem_of_rows_where. split.
    + intros (Hd & k & Hk). by destruct (inv_notification _ _ HI k n Hk) as [<- _].
    + intros [Hn Hd]. split; [done|by exists (n_id n)].
Qed.

Lemma pass_returns strict batch w :
  let now := clock (S (w_count w)) in
  Inv strict (w_db w) → Z.of_nat (length (due_notifications now (w_db w))) <= batch →
  ∃ l w', run (dispatch_due settings batch) w = (Ok (Z.of_nat (length l)), w')
    ∧ l ≡ₚ due_notifications now (w_db w) ∧ delivered l w w'.
Proof.
  intros now HI Hlen.
  enough (returns (run (dispatch_due settings batch)) (λ r w', ∃ l, l ≡ₚ due_notifications now (w_db w)
    ∧ r = Z.of_nat (length l) ∧ delivered l w w') w) as (r & w' & Hrun & l & Hl & -> & Hd) by (by exists l, w').
  apply returns_run_act, returns_transaction, returns_bind, returns_reading, returns_bind.
  apply (returns_select_all notification_outbox (due_now now)); [intros; apply rows_free|done|].
  intros l Hl. destruct (due_notification_rows strict now _ l HI Hl) as [Hnd Hrows].
  apply returns_bind. eapply returns_mono.
  { apply batch_delivered; [done|]. intros n [Hn Hd]%Hrows. split; [done|].
    unfold due_now in Hd. by bool_simpl. }
  intros bs w' [H1 H2 H3 H4 H5]. apply returns_ret. exists l. split; [done|]. split; [done|].
  split; [done..|]. cbn in H5. lia.
Qed.
(** ** One notification over the passes *)

Lemma delivery_id n : dl_notification (delivery_of settings n) = n_id n.
Proof. unfold delivery_of. by case_bool_decide. Qed.

Lemma deliveries_of l d i :
  NoDup (n_id <$> l) →
  filter (λ x, dl_notification x = i) (deliveries l d)
  = match notification_outbox d !! i with
    | Some n' => if sent n' then delivery_of settings <$> filter (λ n, n_id n = i) l else []
    | None => []
    end.
Proof.
  induction l as [|n l IH]; [by case_match; [case_match|]|]. intros [Hni Hnd]%NoDup_cons.
  rewrite deliveries_cons, filter_app, (IH Hnd). unfold deliveries. cbn [omap list_omap].
  destruct (decide (n_id n = i)) as [<-|Hne].
  - destruct (notification_outbox d !! n_id n) as [n'|]; [|done].
    destruct (sent n'); [|done]. rewrite !filter_cons_True by (done || apply delivery_id). done.
  - rewrite (filter_cons_False _ n) by done. destruct (notification_outbox d !! n_id n) as [x|]; [|done].
    destruct (sent x); [|done]. rewrite filter_cons_False by (by rewrite delivery_id). done.
Qed.

Lemma log_delivered l w w' i :
  NoDup (n_id <$> l) → delivered l w w' →
  sent_for i w' = match outbox w' !! i with
                | Some n' => if sent n' then reverse (delivery_of settings <$> filter (λ n, n_id n = i) l) else []
                | None => []
                end ++ sent_for i w.
Proof.
  intros Hnd [_ _ Hsent _ _]. unfold sent_for. rewrite Hsent, filter_app. f_equal.
  change (rev (deliveries l (w_db w'))) with (List.rev (deliveries l (w_db w'))).
  rewrite List.rev_alt. change (rev_append ?x []) with (reverse x). rewrite filter_reverse, (deliveries_of l (w_db w') i Hnd). by repeat case_match.
Qed.

Lemma filter_id l n : NoDup (n_id <$> l) → n ∈ l → filter (λ x, n_id x = n_id n) l = [n].
Proof.
  induction l as [|x l IH]; [by intros _ ?%elem_of_nil|]. intros [Hni Hnd]%NoDup_cons.
  assert (∀ i, i ∉ n_id <$> l → filter (λ x, n_id x = i) l = []) as Hnone.
  { intros i Hi. apply filter_none. intros y Hy E. apply Hi. rewrite <-E.
    by apply list_elem_of_fmap_2. }
  intros [->|Hin]%elem_of_cons.
  - rewrite filter_cons_True by done. by rewrite Hnone.
  - rewrite filter_cons_False; [by apply IH|]. intros E. apply Hni. rewrite E. by apply list_elem_of_fmap_2.
Qed.
(** One pass, seen from one row. *)
Lemma pass_row strict batch m i n w :
  let now := clock (S m) in
  Inv strict (w_db w) → Z.of_nat (length (due_notifications now (w_db w))) <= batch →
  outbox w !! i = Some n →
  ∃ r w' n', run (dispatch_due settings batch) (pause m w) = (Ok r, w') ∧ Inv strict (w_db w')
    ∧ outbox w' !! i = Some n'
    ∧ if due_now now n
      then attempted n n' ∧ sent_for i w' = (if sent n' then [delivery_of settings n] else []) ++ sent_for i w
      else n' = n ∧ sent_for i w' = sent_for i w.
Proof.
  intros now HI Hlen Hn.
  destruct (pass_returns strict batch (pause m w)) as (l & w' & Hrun & Hl & D); [done|done|].
  change (due_notifications _ (w_db (pause m w))) with (due_notifications now (w_db w)) in Hl.
  destruct (due_notification_rows strict now _ l HI Hl) as [Hnd Hrows].
  pose proof (log_delivered l _ w' i Hnd D) as Hlog. change (sent_for i (pause m w)) with (sent_for i w) in Hlog.
  destruct D as [Hstep _ _ _ _]. specialize (Hstep i).
  change (outbox (pause m w)) with (outbox w) in Hstep. rewrite Hn in Hstep.
  destruct Hstep as (n' & Hn' & Hchange). rewrite Hn' in Hlog.
  assert (n_id n = i) as Hid by (by apply (inv_notification _ _ HI i n)).
  exists (Z.of_nat (length l)), w', n'. split; [done|]. split; [|split; [done|]].
  { replace w' with (run (dispatch_due settings batch) (pause m w)).2 by (by rewrite Hrun).
    apply (run_keeps _ _ _ _ _ _ _ (delivery_harmless strict None settings batch (w_db (pause m w))) HI). }
  destruct (due_now now n) eqn:Hdue.
  - assert (n ∈ l) as Hin by (apply Hrows; by rewrite Hid).
    rewrite bool_decide_eq_true_2 in Hchange by (rewrite <-Hid; by apply list_elem_of_fmap_2).
    split; [done|]. rewrite Hlog, <-Hid, (filter_id l n Hnd Hin). by destruct (sent n').
  - assert (i ∉ n_id <$> l) as Hni.
    { intros (x & -> & [Hx Hdx]%Hrows)%list_elem_of_fmap. congruence. }
    rewrite bool_decide_eq_false_2 in Hchange by done. split; [done|].
    rewrite Hlog, filter_none; [by destruct (sent n')|]. intros x Hx E. apply Hni. rewrite <-E.
    by apply list_elem_of_fmap_2.
Qed.

(** Passes of the loop, each begun at the reading the list says. *)
Fixpoint passes (batch : Z) (waits : list nat) (w : World) : option World :=
  match waits with
  | [] => Some w
  | m :: waits => w1 ← completed (run (dispatch_due settings batch) (pause m w)); passes batch waits w1
  end.

(** Each begins when the notification is due, unless it has reached its end, and
    has room for all that are due. *)
Fixpoint served (batch : Z) (i : uuid) (waits : list nat) (w : World) : Prop :=
  match waits with
  | [] => True
  | m :: waits =>
      (w_count w ≤ m)%nat
      ∧ Z.of_nat (length (due_notifications (clock (S m)) (w_db w))) <= batch
      ∧ (∀ n, outbox w !! i = Some n → n_status n = PENDING → n_next_attempt_at n <= clock (S m))
      ∧ ∀ r w1, run (dispatch_due settings batch) (pause m w) = (Ok r, w1) → served batch i waits w1
  end.

Lemma settled_passes strict batch i waits n w :
  Inv strict (w_db w) → outbox w !! i = Some n → n_status n ≠ PENDING → served batch i waits w →
  ∃ w', passes batch waits w = Some w' ∧ outbox w' !! i = Some n ∧ sent_for i w' = sent_for i w.
Proof.
  revert w. induction waits as [|m waits IH]; intros w HI Hn Hs Hserved; [by exists w|].
  destruct Hserved as (_ & Hroom & _ & Hnext).
  destruct (pass_row strict batch m i n w HI Hroom Hn) as (r & w1 & n1 & Hrun & HI1 & Hn1 & H).
  unfold due_now in H. rewrite bool_decide_eq_false_2 in H by done. destruct H as [-> Hlog].
  destruct (IH w1 HI1 Hn1 Hs (Hnext _ _ Hrun)) as (w' & Hp & Hn' & Hlog').
  exists w'. split; [cbn [passes]; rewrite Hrun; exact Hp|]. split; [done|congruence].
Qed.

Lemma passes_end (strict : bool) (batch : Z) (waits : list nat) (i : uuid)
  (n : NotificationOutbox) (w : World) :
  Inv strict (w_db w) → outbox w !! i = Some n → n_status n = PENDING → n_attempts n < limit →
  limit - n_attempts n <= Z.of_nat (length waits) → served batch i waits w →
  ∃ w' n', passes batch waits w = Some w' ∧ outbox w' !! i = Some n'
    ∧ n_attempts n < n_attempts n' <= limit
    ∧ (n_status n' = SENT ∧ sent_for i w' = delivery_of settings n :: sent_for i w
       ∨ n_status n' = FAILED ∧ n_attempts n' = limit ∧ sent_for i w' = sent_for i w).
Proof.
  revert n w. induction waits as [|m waits IH]; intros n w HI Hn Hs Hlim Hlen Hserved; [cbn in Hlen; lia|].
  cbn [length] in Hlen. rewrite Nat2Z.inj_succ in Hlen. destruct Hserved as (_ & Hroom & Hdue & Hnext).
  destruct (pass_row strict batch m i n w HI Hroom Hn) as (r & w1 & n1 & Hrun & HI1 & Hn1 & H).
  specialize (Hnext _ _ Hrun). unfold due_now in H.
  rewrite bool_decide_eq_true_2, (proj2 (Z.leb_le _ _) (Hdue n Hn Hs)) in H by done.
  destruct H as [Ha Hlog]. cbn [passes]. rewrite Hrun. cbn [completed mbind option_bind].
  destruct Ha as [t|message Hmax|t message Hleft].
  - destruct (settled_passes strict batch i waits _ w1 HI1 Hn1 ltac:(done) Hnext) as (w' & Hp & Hn' & Hlog').
    eexists w', _. split; [done|]. split; [done|]. split; [cbn; lia|]. left. split; [done|].
    rewrite Hlog', Hlog. done.
  - destruct (settled_passes strict batch i waits _ w1 HI1 Hn1 ltac:(done) Hnext) as (w' & Hp & Hn' & Hlog').
    eexists w', _. split; [done|]. split; [done|]. split; [cbn; lia|]. right. split; [done|].
    split; [cbn; lia|]. rewrite Hlog', Hlog. done.
  - destruct (IH _ w1 HI1 Hn1) as (w' & n' & Hp & Hn' & Hcount & Hend); [done|cbn; lia|cbn; lia|done|].
    exists w', n'. split; [done|]. split; [done|]. split; [cbn in Hcount; lia|].
    assert (sent_for i w1 = sent_for i w) as E by (rewrite Hlog; unfold sent; cbn; by rewrite Hs).
    rewrite E in Hend. exact Hend.
Qed.

(** C29: liveness of the delivery: when receivers accept or fail and nothing else
    is raised, the backoff of every attempt can be computed and no other session
    holds rows, then passes of the loop that each begin when the notification is
    due, and whose batch has room for every notification that is due with it,
    bring it to its end within the attempts the settings allow, and the next
    passes leave it there.  It ends SENT, with exactly one delivery to its owner
    in the log, or FAILED after the last attempt allowed, with none. *)
Theorem notifications_reach_their_end (strict : bool) (batch : Z) (waits : list nat) (i : uuid)
  (n : NotificationOutbox) (w : World) :
  Inv strict (w_db w) → outbox w !! i = Some n → n_status n = PENDING → n_attempts n < limit →
  limit - n_attempts n <= Z.of_nat (length waits) → served batch i waits w →
  ∃ w' n', passes batch waits w = Some w' ∧ outbox w' !! i = Some n'
    ∧ n_attempts n < n_attempts n' <= limit
    ∧ (n_status n' = SENT ∧ sent_for i w' = delivery_of settings n :: sent_for i w
       ∨ n_status n' = FAILED ∧ n_attempts n' = limit ∧ sent_for i w' = sent_for i w).
Proof. apply passes_end. Qed.
End Loop.

(** ** At a concrete state *)

Lemma demo_backoff_exists n :
  n < notification_max_attempts default_settings → backoff_defined (env := demo_env) default_settings n.
Proof.
  intros Hn. assert (backoff_defined (env := demo_env) default_settings (Z.max 1 n)) as H.
  { change (notification_max_attempts default_settings) with 8 in Hn.
    assert (Z.max 1 n = 1 ∨ Z.max 1 n = 2 ∨ Z.max 1 n = 3 ∨ Z.max 1 n = 4 ∨ Z.max 1 n = 5 ∨ Z.max 1 n = 6
      ∨ Z.max 1 n = 7) as E by lia.
    repeat destruct E as [->|E]; try rewrite E; apply demo_backoff; by vm_compute. }
  unfold backoff_defined, compute_backoff_seconds in *.
  by replace (Z.max 0 (n - 1)) with (Z.max 0 (Z.max 1 n - 1)) by lia.
Qed.

Fixpoint served_b {env : Env} (settings : Settings) (batch : Z) (i : uuid) (waits : list nat) (w : World) : bool :=
  match waits with
  | [] => true
  | m :: waits =>
      (w_count w <=? m)%nat
      && (Z.of_nat (length (due_notifications (clock (S m)) (w_db w))) <=? batch)
      && match notification_outbox (w_db w) !! i with
         | Some n => n_next_attempt_at n <=? clock (S m)
         | None => true
         end
      && match run (dispatch_due settings batch) (pause m w) with
         | (Ok _, w1) => served_b settings batch i waits w1
         | (Err _, _) => true
         end
  end.

Lemma served_check {env : Env} settings batch i waits w :
  served_b settings batch i waits w = true → served settings batch i waits w.
Proof.
  revert w. induction waits as [|m waits IH]; intros w; [done|].
  cbn -[run dispatch_due pause due_notifications].
  intros [[[H1%Nat.leb_le H2%Z.leb_le]%andb_prop H3]%andb_prop H4]%andb_prop.
  split; [done|]. split; [done|]. split.
  - intros n Hn _. rewrite Hn in H3. by apply Z.leb_le.
  - intros r w1 E. rewrite E in H4. by apply IH.
Qed.

Lemma notifications_reach_their_end_witness :
  ∃ n w' n', notification_outbox (w_db w_succeeded) !! 67%N = Some n
    ∧ passes default_settings 10 [200; 220; 240; 260; 280; 300; 320; 340]%nat w_succeeded = Some w'
    ∧ notification_outbox (w_db w') !! 67%N = Some n' ∧ n_status n' ≠ PENDING.
Proof.
  assert ((λ n, (n_status n, n_attempts n)) <$> notification_outbox (w_db w_succeeded) !! 67%N
            = Some (PENDING, 0)) as Hs by (by vm_compute).
  assert (served_b default_settings 10 67%N [200; 220; 240; 260; 280; 300; 320; 340]%nat w_succeeded = true)
    as Hserved by (by vm_compute).
  destruct (notification_outbox (w_db w_succeeded) !! 67%N) as [n|] eqn:Hn; [|discriminate Hs].
  injection Hs as Hst Ha. exists n.
  destruct (notifications_reach_their_end (env := demo_env) default_settings (λ _ _ _ _ _, ltac:(discriminate))
    demo_backoff_exists (λ _ _, eq_refl) true 10 [200; 220; 240; 260; 280; 300; 320; 340]%nat 67%N n w_succeeded)
    as (w' & n' & Hp & Hn' & _ & H).
  - exact (reachable_Inv true _ (at_succeeded true)).
  - exact Hn.
  - exact Hst.
  - rewrite Ha. reflexivity.
  - rewrite Ha. apply Z.leb_le. reflexivity.
  - exact (served_check _ _ _ _ _ Hserved).
  - exists w', n'. split; [reflexivity|]. split; [exact Hp|]. split; [exact Hn'|].
    destruct H as [[E _]|[E _]]; rewrite E; discriminate.
Defined.
