(* ===== verification/EndToEnd.v ===== *)
(** The whole way of a job: submitted, dispatched, tried until it is over, and its
    owner told. *)

From S2P Require Import Prelude PyStr PyFloat FloatBounds Json Domain Config Uuid DateTime Models Effects.
From S2P Require Import Repositories Queue Notifications Catalog Logic Total Lifecycle Invariant.
From S2P Require Import Submission Cancellation Execution Scheduling Worker Programs System Demo.
From S2P Require Import Guarantees SentSpec WorkerSpec ServiceSpec SchedulerSpec QueueSpec Frame DispatchSpec RecoverySpec.
From S2P Require Import DeliverySpec DomainSpec AttemptSpec HandlerSpec ExecutionSpec PipelineSpec RetrySpec.
From S2P Require Import NotificationSpec.
Import JobStatus.

Section EndToEnd.
Context {env : Env} (settings : Settings) (worker_id : string).

Abbreviation waiting w := (abstract (redis_queue_namespace settings) (w_redis w)).
Abbreviation turn := (consume_turn (new_worker settings worker_id)).

(** Nothing is under way: no message waits, in the outbox or in the queues, and no
    job waits for a retry. *)
Record at_rest (w : World) : Prop := {
  rest_reachable : reachable true (mkState w []);
  rest_outbox : to_publish (w_db w) = [];
  rest_queue : ∀ p, waiting w p = [];
  rest_retries : ∀ i j, jobs (w_db w) !! i = Some j → j_status j ≠ RETRYING;
}.

(** The other parties do their part: Redis and the receivers answer, no other
    session holds rows, the delays can be computed, the worker's identity fits. *)
Record cooperative : Prop := {
  coop_redis : ∀ n, redis_down n = false;
  coop_rows : ∀ n i, locked_row n i = false;
  coop_receivers : ∀ m destination body signature message,
    http_post m destination body signature ≠ HttpRaised message;
  coop_backoff : ∀ n, n < notification_max_attempts settings → backoff_defined settings n;
  coop_worker : varchar 64 worker_id = true;
}.

Hypothesis coop : cooperative.

(** The dispatched job waits in its queue, alone. *)
Lemma dispatched_alone batch job w w1 user ty normalized priority attempts key k :
  at_rest w → created settings user ty priority attempts key normalized job w w1 →
  Inv true (w_db w1) → 1 <= batch → fresh_run (w_count w1) (5 + k) (w_db w1) →
  ∃ now w2, run (dispatch_pending settings batch) w1 = (Ok 1, w2)
    ∧ jobs (w_db w2) = <[j_id job := queued_job now job]> (jobs (w_db w))
    ∧ queued_alone settings (j_id job) (queued_job now job) w2.
Proof.
  intros [_ Hout Hqueue Hretry] Hcr HI Hb Hf. pose proof Hcr as [(m & t & _ & _ & Hjob) Hjobs _ _ _ _ Hredis _].
  destruct coop as [Hup Hrows _ _ _].
  assert (jobs (w_db w1) !! j_id job = Some job) as Hj by (rewrite Hjobs; apply lookup_insert_eq).
  destruct (dispatch_one settings batch job w1 HI Hj ltac:(by rewrite Hjob)) with (k := k)
    as (now & w2 & Hrun & Hj2 & _ & _ & _ & Hq2); try done.
  { by eapply created_to_publish. }
  { by rewrite Hredis. }
  exists now, w2. split; [done|].
  assert (j_status (queued_job now job) = QUEUED ∧ j_priority (queued_job now job) = j_priority job) as [Es Ep]
    by (unfold queued_job, status_is; by rewrite Hjob).
  split; [by rewrite Hj2, Hjobs, insert_insert_eq|]. split.
  - replace w2 with (run (dispatch_pending settings batch) w1).2 by (by rewrite Hrun).
    apply (run_keeps _ _ _ _ _ _ _ (dispatch_harmless true None settings batch (w_db w1)) HI).
  - rewrite Hj2. apply lookup_insert_eq.
  - done.
  - by rewrite Ep.
  - intros x y. rewrite Hj2, Hjobs, insert_insert_eq, lookup_insert. case_decide; [done|].
    intros Hy Hs. by destruct (Hretry x y Hy).
Qed.
Lemma queued_job_attempts now j n o j' :
  ended n o ((queued_job now j) <| j_attempts := n |>) j' → ended n o (j <| j_attempts := n |>) j'.
Proof. unfold queued_job. by destruct (status_is PENDING j). Qed.

(** Every attempt has the outcome of the type of the job. *)
Lemma outcomes_of_submission ty payload normalized j n :
  normalized_payload settings ty payload = Ok normalized → j_type j = ty → j_payload j = normalized →
  outcome_table (j_id j) ty n normalized (outcome_at settings (j_id j) j n).
Proof.
  intros Hnorm Hty Hp.
  assert (∀ x, j_type x = ty → j_payload x = normalized →
    outcome_table (j_id j) ty (j_attempts x + 1) normalized (outcome_of settings (j_id j) x)) as H.
  { intros x <- <-. apply accepted_outcome. by eapply accepted_submission. }
  pose proof (H (j <| j_attempts := n - 1 |>) Hty Hp) as H1.
  change (j_attempts (j <| j_attempts := n - 1 |>) + 1) with (n - 1 + 1) in H1.
  rewrite Z.sub_add in H1. exact H1.
Qed.

(** C3: the whole way of a job.  It starts at rest: nothing waits in the outbox or
    in the queues, no job waits for a retry, and workers have not shared an
    identity.  The parties do their part: Redis answers, no other session holds
    rows, the receivers of notifications answer, the delay of a notification that
    failed can be computed, the worker's identity fits its column; the identifiers
    drawn are new.  Then an acceptable submission (its values fit their columns,
    its key is new, its owner is below the limit of active jobs) is stored and one
    pass of the dispatcher queues it.  Suppose of its attempts that each outcome
    can be stored (the columns take it and the outbox takes the notification: not
    so with an overlong webhook), that the backoff of each can be computed
    (attempts up to the 1024th), and that each pass of the promoter comes after
    the wait its retry asks for.  As long as the handler asks for another attempt
    and attempts are left, turns of the worker and passes of the promoter bring
    the job back; the turn after them ends it, and no other job changes: it is
    stored as the last outcome says, after that many attempts, and the outcome of
    every attempt is the one its type promises on the normalised payload.  When
    the job is over, its notification waits in the outbox, and passes of the
    delivery loop, each begun when the notification is due and with room in its
    batch for all that are due, bring it to its end within the attempts allowed:
    delivered exactly once, or given up with nothing delivered. *)
Theorem submitted_job_ends_and_is_told (user : string) (ty : JobType) (payload normalized : dict)
  (priority : JobPriority) (attempts : option Z) (key : option string) (batch : Z) (w : World) :
  at_rest w → window (w_count w) 11 (w_db w) → 1 <= batch →
  normalized_payload settings ty payload = Ok normalized →
  (∀ m t, let j := new_job (uuid7 m) user ty normalized priority (attempts_limit settings attempts) key t in
          job_types_ok j && job_checks_ok j = true) →
  key_is_new user key (w_db w) → active_jobs user (w_db w) < max_in_flight_jobs_per_user settings →
  ∃ job w1 w2, run (submit settings user ty payload priority attempts key) w = (Ok job, w1)
    ∧ run (dispatch_pending settings batch) w1 = (Ok 1, w2)
    ∧ let outcome n := outcome_at settings (j_id job) job n in
      (∀ n, outcome_table (j_id job) ty n normalized (outcome n))
      ∧ ∀ (waits : list nat) (k : nat),
        let last := 1 + Z.of_nat (length waits) in
        last <= attempts_limit settings attempts →
        (∀ n, 1 <= n < last → retryable (outcome n) = true) →
        (∀ n, 1 <= n <= last → storable job (outcome n) = true
           ∧ (readings_at settings (j_id job) job n ≤ k)%nat ∧ backoff_defined settings n) →
        in_time settings worker_id (j_id job) batch k waits w2 →
        ∃ w3 w4 j', tries settings worker_id batch waits w2 = Some w3 ∧ run turn w3 = (Ok tt, w4)
          ∧ jobs (w_db w4) = <[j_id job := j']> (jobs (w_db w))
          ∧ ended last (outcome last) (job <| j_attempts := last |>) j'
          ∧ ∀ event, terminal_event (j_status j') = Some event →
              ∃ n, n_job_id n = j_id job ∧ n_event_type n = event
                ∧ notification_outbox (w_db w4) !! n_id n = Some n
                ∧ ∀ passing, 0 < notification_max_attempts settings <= Z.of_nat (length passing) →
                    served settings batch (n_id n) passing w4 →
                    ∃ w5 n', passes settings batch passing w4 = Some w5
                      ∧ notification_outbox (w_db w5) !! n_id n = Some n'
                      ∧ (n_status n' = NotificationStatus.SENT
                         ∧ sent_for (n_id n) w5 = delivery_of settings n :: sent_for (n_id n) w4
                         ∨ n_status n' = NotificationStatus.FAILED
                           ∧ n_attempts n' = notification_max_attempts settings
                           ∧ sent_for (n_id n) w5 = sent_for (n_id n) w4).
Proof.
  intros Hrest Hwin Hbatch Hnorm Hfits Hnew Hlim. pose proof coop as [Hup Hrows Hreceivers Hbackoff Hworker].
  destruct (submit_returns settings user ty payload priority attempts key normalized Hnorm Hfits w Hnew Hlim)
    as (job & w1 & Hsub & Hcr). { by apply (window_sub _ _ _ _ _ Hwin); lia. }
  pose proof Hcr as [(m & t & _ & _ & Hjob) Hjobs _ _ _ _ _ Hc].
  assert (j_type job = ty ∧ j_payload job = normalized ∧ j_attempts job = 0 ∧ j_max_attempts job = attempts_limit settings attempts)
    as (Et & Ep & Ea & Em) by (by rewrite Hjob).
  pose proof (reachable_Inv true _ (submission_reachable _ _ _ _ _ _ _ _ _ _ (rest_reachable _ Hrest) Hsub)) as HI.
  destruct (dispatched_alone batch job w w1 user ty normalized priority attempts key 0) as (now & w2 & Hdisp & Hj2 & Hq);
    try done.
  { eapply created_fresh; [exact Hcr|exact Hwin|lia]. }
  exists job, w1, w2. split; [exact Hsub|]. split; [exact Hdisp|]. cbv zeta. split.
  { intros n. by apply (outcomes_of_submission ty payload). }
  intros waits k Hlast Hretry Hok Htime.
  assert (identity_of (queued_job now job) = identity_of job ∧ j_attempts (queued_job now job) = 0) as [Eid Ea2]
    by (unfold queued_job; by destruct (status_is PENDING job)).
  destruct (same_job settings (j_id job) job (queued_job now job) Eid) as (Eout & Estor & Emax & Eended).
  destruct (failing_job_is_tried_again settings worker_id (j_id job) Hworker Hup Hrows batch k waits
    (queued_job now job) w2) as (w3 & w4 & j' & Htries & Hturn & Hj' & Hend & HI4 & Htold); try done.
  { rewrite Ea2, Emax, Em. lia. }
  { intros n Hn. rewrite (proj1 (Eout n)). apply Hretry. lia. }
  { intros n Hn. destruct (Eout n) as [-> ->]. rewrite Estor. apply Hok. lia. }
  rewrite Ea2 in Hend. cbn [Z.add] in Hend. rewrite (proj1 (Eout _)) in Hend. apply Eended in Hend.
  exists w3, w4, j'. split; [done|]. split; [done|]. split; [by rewrite Hj', Hj2, insert_insert_eq|]. split; [done|].
  intros event Hevent. destruct (Htold event Hevent) as (n & Hn & Hnid & Hnev & Hst & Hna).
  exists n. split; [done|]. split; [done|]. split; [done|]. intros passing [Hpos Hlen] Hserved.
  destruct (passes_end settings Hreceivers Hbackoff Hrows true batch passing (n_id n) n w4)
    as (w5 & n' & Hp & Hn' & _ & H); try done; [by rewrite Hna|rewrite Hna; lia|].
  by exists w5, n'.
Qed.
End EndToEnd.

(** ** At a concrete state *)

Lemma demo_at_rest : at_rest default_settings init_world.
Proof. split; [apply rtc_refl|done|done|done]. Qed.

Lemma demo_cooperative worker_id :
  varchar 64 worker_id = true → cooperative (env := demo_env) default_settings worker_id.
Proof. intros H. split; [done|done|done|exact demo_backoff_exists|exact H]. Qed.

(** Two attempts, and eight passes of the delivery loop. *)
Definition demo_passes : list nat := [200; 220; 240; 260; 280; 300; 320; 340]%nat.

Definition demo_checked : bool :=
  match run (submit default_settings "alice" JobType.FLAKY [("fail_times", JInt 1)] JobPriority.HIGH None None)
          init_world with
  | (Ok job, w1) =>
      let outcome n := outcome_at default_settings (j_id job) job n in
      forallb (λ n, storable job (outcome n) && (readings_at default_settings (j_id job) job n <=? 1)%nat) [1; 2]
      && match run (dispatch_pending default_settings 10) w1 with
         | (Ok _, w2) =>
             in_time_b default_settings "worker-1" (j_id job) 10 1 [100%nat] w2
             && match tries default_settings "worker-1" 10 [100%nat] w2 with
                | Some w3 =>
                    match run (consume_turn (new_worker default_settings "worker-1")) w3 with
                    | (Ok _, w4) =>
                        forallb (λ p : uuid * NotificationOutbox, served_b default_settings 10 p.1 demo_passes w4)
                          (map_to_list (notification_outbox (w_db w4)))
                    | _ => false
                    end
                | None => false
                end
         | _ => false
         end
  | _ => false
  end.

Lemma submitted_job_ends_and_is_told_witness :
  ∃ job w1 w2 w3 w4 w5 j' n n',
    run (submit default_settings "alice" JobType.FLAKY [("fail_times", JInt 1)] JobPriority.HIGH None None)
      init_world = (Ok job, w1)
    ∧ run (dispatch_pending default_settings 10) w1 = (Ok 1, w2)
    ∧ tries default_settings "worker-1" 10 [100%nat] w2 = Some w3
    ∧ run (consume_turn (new_worker default_settings "worker-1")) w3 = (Ok tt, w4)
    ∧ jobs (w_db w4) !! j_id job = Some j' ∧ j_status j' = SUCCEEDED ∧ j_attempts j' = 2
    ∧ j_result j' = Some [("succeeded_on_attempt", JInt 2)]
    ∧ passes default_settings 10 demo_passes w4 = Some w5
    ∧ notification_outbox (w_db w5) !! n_id n = Some n' ∧ n_job_id n = j_id job
    ∧ n_status n' ≠ NotificationStatus.PENDING.
Proof.
  assert (demo_checked = true) as Hcheck by (by vm_compute).
  destruct (submitted_job_ends_and_is_told (env := demo_env) default_settings "worker-1"
    (demo_cooperative "worker-1" eq_refl) "alice" JobType.FLAKY [("fail_times", JInt 1)] [("fail_times", JInt 1)]
    JobPriority.HIGH None None 10 init_world demo_at_rest)
    as (job & w1 & w2 & Hsub & Hdisp & Hout & Hrest).
  { apply window_init, demo_distinct. by vm_compute. }
  { done. }
  { by vm_compute. }
  { intros m t. by vm_compute. }
  { done. }
  { by vm_compute. }
  unfold demo_checked in Hcheck. rewrite Hsub in Hcheck. cbv zeta in Hcheck.
  apply andb_prop in Hcheck as [Hok Hcheck]. rewrite Hdisp in Hcheck.
  apply andb_prop in Hcheck as [Htime Hcheck].
  destruct (Hout 1) as (f1 & E1 & H1), (Hout 2) as (f2 & E2 & H2).
  injection E1 as <-. injection E2 as <-.
  rewrite forallb_forall in Hok.
  destruct (Hrest [100%nat] 1%nat) as (w3 & w4 & j' & Htries & Hturn & Hj' & Hend & Htold).
  - done.
  - intros n Hn. cbn in Hn. replace n with 1 by lia. by rewrite H1.
  - intros n Hn. cbn in Hn. assert (n = 1 ∨ n = 2) as E by lia.
    assert (In n [1; 2]) as Hin by (cbn; destruct E; auto).
    specialize (Hok n Hin). apply andb_prop in Hok as [Hs Hr%Nat.leb_le]. split; [exact Hs|]. split; [exact Hr|].
    destruct E as [->| ->]; apply demo_backoff; by vm_compute.
  - exact (in_time_check _ _ _ _ _ _ _ Htime).
  - rewrite Htries, Hturn in Hcheck.
    change (1 + Z.of_nat (length [100%nat])) with 2 in Hend. rewrite H2 in Hend.
    destruct Hend as (_ & Ha & _ & Hs & Hr & _).
    destruct (Htold JobEventType.SUCCEEDED) as (n & Hid & _ & Hn & Hpass); [by rewrite Hs|].
    destruct (Hpass demo_passes) as (w5 & n' & Hp & Hn' & Hcase).
    + done.
    + apply served_check. rewrite forallb_forall in Hcheck. apply (Hcheck (n_id n, n)).
      by apply list_elem_of_In, elem_of_map_to_list.
    + exists job, w1, w2, w3, w4, w5, j', n, n'.
      split; [exact Hsub|]. split; [exact Hdisp|]. split; [exact Htries|]. split; [exact Hturn|].
      split; [rewrite Hj'; apply lookup_insert_eq|]. split; [exact Hs|]. split; [exact Ha|]. split; [exact Hr|].
      split; [exact Hp|]. split; [exact Hn'|]. split; [exact Hid|]. destruct Hcase as [[E _]|[E _]]; rewrite E; discriminate.
Defined.
