(* ===== verification/RescueSpec.v ===== *)
(** A job is not lost: when its worker dies or its message is lost, a pass of the
    scheduler finds it, and it is executed again until it is over. *)

From S2P Require Import Prelude PyStr PyFloat FloatBounds Json Domain Config Uuid DateTime Models Effects.
From S2P Require Import Repositories Queue Notifications Catalog Logic Total Lifecycle Invariant.
From S2P Require Import Submission Cancellation Execution Scheduling Worker Programs System Demo.
From S2P Require Import Guarantees WorkerSpec SchedulerSpec QueueSpec Frame DispatchSpec RecoverySpec.
From S2P Require Import DomainSpec AttemptSpec HandlerSpec ExecutionSpec PipelineSpec RetrySpec.
Import JobStatus.

Section Rescue.
Context {env : Env} (settings : Settings) (worker_id : string) (i : uuid).
Hypothesis worker_fits : varchar 64 worker_id = true.
Hypothesis redis_up : ∀ n, redis_down n = false.
Hypothesis rows_free : ∀ n i, locked_row n i = false.

Abbreviation waiting w := (abstract (redis_queue_namespace settings) (w_redis w)).
Abbreviation turn := (consume_turn (new_worker settings worker_id)).
Abbreviation cutoff n := (clock n - seconds (queue_stuck_seconds settings)).

(** The job needs help at reading [n]. *)
Definition lost (n : nat) (j : Job) : bool := lease_expired (clock n) j || stuck (cutoff n) j.

(** The pass that finds it: the reaper takes the job of a dead worker, with
    attempts left; the redelivery takes the one whose message is gone. *)
Inductive rescued_by (batch : Z) (n : nat) (j : Job) : co Z → Prop :=
| by_reaper :
    lease_expired (clock n) j = true → j_attempts j < j_max_attempts j →
    rescued_by batch n j (reap_expired settings batch)
| by_redelivery :
    stuck (cutoff n) j = true → rescued_by batch n j (redeliver_stuck settings batch).

(** The only job that needs help or waits for a retry, and no message is left. *)
Record alone_and_lost (n : nat) (j : Job) (w : World) : Prop := {
  al_inv : Inv true (w_db w);
  al_row : jobs (w_db w) !! i = Some j;
  al_queue : ∀ p, waiting w p = [];
  al_others : ∀ k x, jobs (w_db w) !! k = Some x → lost n x = true ∨ j_status x = RETRYING → k = i;
}.

Lemma only_due guard n j w :
  alone_and_lost n j w → guard j = true → (∀ x, guard x = true → lost n x = true) →
  due guard (w_db w) = [j].
Proof.
  intros [_ Hj _ Hone] Hg Hlost. apply (rows_where_one _ i); [done|done|].
  intros k x Hk Hx. apply (Hone k x Hk). left. by apply Hlost.
Qed.

Lemma rescue_returns batch n j w pass :
  alone_and_lost n j w → rescued_by batch n j pass → 1 <= batch → new_ids (3 + n) 2 (w_db w) →
  ∃ w1 j1, run pass (pause n w) = (Ok 1, w1) ∧ jobs (w_db w1) = <[i := j1]> (jobs (w_db w))
    ∧ identity_of j1 = identity_of j ∧ j_attempts j1 = j_attempts j
    ∧ queued_alone settings i j1 w1.
Proof.
  intros Hal Hres Hbatch Hids. pose proof Hal as [HI Hj Hempty Hone].
  assert (∀ k x, jobs (w_db w) !! k = Some x → j_status x = RETRYING → k = i) as Hretry
    by (intros k x Hk Hx; apply (Hone k x Hk); by right).
  destruct Hres as [Hdue Hleft|Hdue].
  - assert (due (lease_expired (clock (w_count (pause n w)))) (w_db (pause n w)) = [j]) as Hl.
    { apply (only_due _ n); [done|done|]. intros x Hx. unfold lost. by apply orb_true_iff; left. }
    assert (exhausted j = false) as Hex by (by apply Z.leb_gt).
    destruct (reap_pass settings redis_up true batch (pause n w)) as (l & w1 & Hrun & Hlist & [Hstep _ _ _ _] & _ & Hq);
      [exact HI|by rewrite Hl|done|by rewrite Hl| |].
    { intros x Hx E. rewrite Hl in Hx. apply list_elem_of_singleton in Hx as ->. congruence. }
    rewrite Hl in Hlist. pose proof (proj1 (Permutation_singleton_r _ _) Hlist) as E. subst l.
    unfold reap_outcome in Hq. cbn [map requeued_of omap list_omap] in Hq. rewrite Hex in Hq.
    destruct (back_in_queue settings i (recovered (clock n)) j [j] (pause n w) w1)
      as (j1 & Hr & Hj1 & Hq1); try done.
    + replace w1 with (run (reap_expired settings batch) (pause n w)).2 by (by rewrite Hrun).
      apply (run_keeps _ _ _ _ _ _ _ (reap_harmless true None settings batch (w_db (pause n w))) HI).
    + intros j' Hr. unfold recovered in Hr. rewrite Hex in Hr. by rewrite Hr.
    + unfold recovered in Hr. rewrite Hex in Hr. exists w1, j1. by rewrite Hr in Hj1, Hq1 |- *.
  - assert (due (stuck (cutoff (w_count (pause n w)))) (w_db (pause n w)) = [j]) as Hl.
    { apply (only_due _ n); [done|done|]. intros x Hx. unfold lost. by apply orb_true_iff; right. }
    destruct (redeliver_pass settings redis_up true batch (pause n w)) as (l & w1 & Hrun & Hlist & [Hstep _ _ _ _] & Hq & _);
      [exact HI|by rewrite Hl|done|by rewrite Hl|].
    rewrite Hl in Hlist. rewrite Hlist in Hrun.
    assert (j_status j = QUEUED) as Hs by (unfold stuck, status_is in Hdue; by bool_simpl).
    destruct (back_in_queue settings i (redelivered n) j l (pause n w) w1)
      as (j1 & (m & _ & Hr) & Hj1 & Hq1); try done.
    + replace w1 with (run (redeliver_stuck settings batch) (pause n w)).2 by (by rewrite Hrun).
      apply (run_keeps _ _ _ _ _ _ _ (redeliver_harmless true None settings batch (w_db (pause n w))) HI).
    + by intros j' (m & _ & ->).
    + exists w1, j1. by rewrite Hr in Hj1, Hq1 |- *.
Qed.

(** C4: at least once: a job whose worker died (it is RUNNING, its lease has run
    out, attempts are left) or whose message was lost (it is QUEUED and was not
    delivered lately) is found by the next pass of the reaper, or of the
    redelivery, and executed until it is over.  The job is alone: no other job
    needs help or waits for a retry, and the queues are empty; workers have not
    shared an identity.  Redis answers, no other session holds rows, the batch
    has room for one job, the identifiers drawn are new, and the worker's identity
    fits its column.  Of the attempts to come, each outcome can be stored (the
    columns and the outbox take it: not so with an overlong webhook), the backoff
    of each can be computed (attempts up to the 1024th), all but the last ask for
    another attempt, and each pass of the promoter comes after the wait its retry
    asks for.  Then the pass returns 1 and puts the job back in its queue; from
    there worker and promoter execute it, and it ends as the last outcome says.
    The attempt of the dead worker counts as one of the attempts allowed, a lost
    message does not, and no other job changes. *)
Theorem lost_job_is_executed (batch : Z) (n k : nat) (waits : list nat) (j : Job) (pass : co Z) (w : World) :
  let last := j_attempts j + 1 + Z.of_nat (length waits) in
  alone_and_lost n j w → rescued_by batch n j pass → 1 <= batch → new_ids (3 + n) 2 (w_db w) →
  last <= j_max_attempts j →
  (∀ m, j_attempts j < m < last → retryable (outcome_at settings i j m) = true) →
  (∀ m, j_attempts j < m <= last → storable j (outcome_at settings i j m) = true
     ∧ (readings_at settings i j m ≤ k)%nat ∧ backoff_defined settings m) →
  (∀ w1, run pass (pause n w) = (Ok 1, w1) → in_time settings worker_id i batch k waits w1) →
  ∃ w1 w2 w3 j', run pass (pause n w) = (Ok 1, w1)
    ∧ tries settings worker_id batch waits w1 = Some w2 ∧ run turn w2 = (Ok tt, w3)
    ∧ jobs (w_db w3) = <[i := j']> (jobs (w_db w))
    ∧ ended last (outcome_at settings i j last) (j <| j_attempts := last |>) j'.
Proof.
  intros last Hal Hres Hbatch Hids Hmax Hretry Hok Htime.
  destruct (rescue_returns batch n j w pass Hal Hres Hbatch Hids) as (w1 & j1 & Hrun & Hj1 & Hid & Ha & Hq).
  destruct (same_job settings i j j1 Hid) as (Eout & Estor & Emax & Eended).
  destruct (failing_job_is_tried_again settings worker_id i worker_fits redis_up rows_free batch k waits j1 w1)
    as (w2 & w3 & j' & Htries & Hturn & Hj' & Hend & _); try done.
  { by apply Htime. }
  { by rewrite Ha, Emax. }
  { intros m Hm. rewrite (proj1 (Eout m)). apply Hretry. unfold last. lia. }
  { intros m Hm. destruct (Eout m) as [-> ->]. rewrite Estor. apply Hok. unfold last. lia. }
  rewrite Ha in Hend. exists w1, w2, w3, j'. split; [done|]. split; [done|]. split; [done|].
  split; [by rewrite Hj', Hj1, insert_insert_eq|]. apply Eended. by rewrite <-(proj1 (Eout last)).
Qed.
End Rescue.

(** ** At a concrete state *)

(** The worker died, and took the only message with it. *)
Definition w_dead_worker : World := w_running <| w_redis := server_empty |>.

Definition lost_check (n : nat) (i : uuid) (w : World) : bool :=
  forallb (λ p, negb (lost default_settings n p.2 || status_is RETRYING p.2) || (p.1 =? i)%N)
    (map_to_list (jobs (w_db w))).

Lemma others_not_lost n i w :
  lost_check n i w = true →
  ∀ k x, jobs (w_db w) !! k = Some x → lost default_settings n x = true ∨ j_status x = RETRYING → k = i.
Proof.
  unfold lost_check. rewrite forallb_forall. intros H k x Hk Hx. specialize (H (k, x)).
  apply N.eqb_eq. cbn in H. assert (lost default_settings n x || status_is RETRYING x = true) as E.
  { apply orb_true_iff. destruct Hx as [Hx|Hx]; [by left|right]. by apply bool_decide_eq_true_2. }
  rewrite E in H. apply H. by apply list_elem_of_In, elem_of_map_to_list.
Qed.

Lemma lost_job_is_executed_witness :
  j_status (row_at w_dead_worker) = RUNNING ∧ j_attempts (row_at w_dead_worker) = 1
  ∧ ∃ w1 w2 j', run (reap_expired default_settings 10) (pause 200 w_dead_worker) = (Ok 1, w1)
    ∧ run (consume_turn (new_worker default_settings "worker-2")) w1 = (Ok tt, w2)
    ∧ jobs (w_db w2) !! first_job = Some j' ∧ j_status j' = SUCCEEDED ∧ j_attempts j' = 2.
Proof.
  assert (j_attempts (row_at w_dead_worker) = 1) as Ha by (by vm_compute).
  assert (j_max_attempts (row_at w_dead_worker) = 5) as Hmax by (by vm_compute).
  assert (outcome_at default_settings first_job (row_at w_dead_worker) 2
    = Ok [("succeeded_on_attempt", JInt 2)]) as H2 by (by vm_compute).
  assert (match run (reap_expired default_settings 10) (pause 200 w_dead_worker) with
          | (Ok _, w1) => in_time_b default_settings "worker-2" first_job 10 1 [] w1
          | _ => false
          end = true) as Htime by (by vm_compute).
  split; [by vm_compute|]. split; [exact Ha|].
  destruct (lost_job_is_executed (env := demo_env) default_settings "worker-2" first_job eq_refl (λ _, eq_refl)
    (λ _ _, eq_refl) 10 200 1 [] (row_at w_dead_worker) (reap_expired default_settings 10) w_dead_worker)
    as (w1 & w2 & w3 & j' & Hrun & Htries & Hturn & Hj' & Hend).
  - split.
    + exact orphaned_Inv.
    + by vm_compute.
    + intros p. destruct p; by vm_compute.
    + apply others_not_lost. by vm_compute.
  - constructor; [by vm_compute|]. rewrite Ha, Hmax. done.
  - lia.
  - apply new_ids_check; [by vm_compute|apply demo_distinct; by vm_compute].
  - rewrite Ha, Hmax. done.
  - rewrite Ha. intros m Hm. cbn in Hm. lia.
  - rewrite Ha. intros m Hm. cbn in Hm. replace m with 2 by lia. rewrite H2.
    split; [by vm_compute|]. split; [by apply Nat.leb_le; vm_compute|apply demo_backoff; by vm_compute].
  - intros w1 E. rewrite E in Htime. by apply in_time_check.
  - rewrite Ha in Hend. change (1 + 1 + Z.of_nat (length (@nil nat))) with 2 in Hend. rewrite H2 in Hend.
    injection Htries as <-. destruct Hend as (_ & Hn & _ & Hs & _).
    exists w1, w3, j'. split; [exact Hrun|]. split; [exact Hturn|].
    split; [rewrite Hj'; apply lookup_insert_eq|]. split; [exact Hs|exact Hn].
Defined.
