(* ===== verification/TickSpec.v ===== *)
(** The whole tick of the scheduler: its six passes, one after the other, leave
    nothing overdue. *)

From S2P Require Import Prelude PyStr PyFloat FloatBounds Json Domain Config Uuid DateTime Models Effects.
From S2P Require Import Repositories Queue Notifications Catalog Logic Total Lifecycle Invariant.
From S2P Require Import Submission Cancellation Execution Scheduling Worker Programs System Demo.
From S2P Require Import Guarantees WorkerSpec SchedulerSpec QueueSpec Frame DispatchSpec RecoverySpec.
From S2P Require Import DeliverySpec ExecutionSpec PipelineSpec RetrySpec NotificationSpec.
Import JobStatus.

(** ** Sizes of tables *)

Lemma rows_where_size {A} (P : A → Prop) `{!∀ a, Decision (P a)} (t : gmap uuid A) :
  (length (rows_where P t) ≤ size t)%nat.
Proof.
  unfold rows_where. rewrite length_fmap, <-length_map_to_list. apply sublist_length, sublist_filter.
Qed.

(** A table with at most one row for each job. *)
Lemma one_row_per_job {A} (f : A → uuid) (t : gmap uuid A) (d : Db) :
  (∀ k1 k2 a1 a2, t !! k1 = Some a1 → t !! k2 = Some a2 → f a1 = f a2 → k1 = k2) →
  (∀ k a, t !! k = Some a → is_Some (jobs d !! f a)) → (size t ≤ size (jobs d))%nat.
Proof.
  intros Hinj Hin. rewrite <-(length_map_to_list t), <-(size_dom (jobs d)).
  rewrite <-(length_fmap (λ p, f p.2) (map_to_list t)). unfold size, set_size. cbn.
  apply submseteq_length, NoDup_submseteq.
  - apply NoDup_fmap_2_strong; [|apply NoDup_map_to_list].
    intros [k1 a1] [k2 a2] H1%elem_of_map_to_list H2%elem_of_map_to_list E. cbn in E.
    pose proof (Hinj _ _ _ _ H1 H2 E) as <-. congruence.
  - intros i ([k a] & -> & Hk%elem_of_map_to_list)%list_elem_of_fmap. cbn.
    apply elem_of_elements, elem_of_dom. by eapply Hin.
Qed.

Lemma rows_step_dom {A} (R : A → A → Prop) ks t t' : rows_step R ks t t' → dom t' = dom t.
Proof.
  intros H. apply set_eq. intros k. rewrite !elem_of_dom. specialize (H k).
  destruct (t !! k) as [a|]; [|by rewrite H]. destruct H as (a' & -> & _). by split; eexists.
Qed.

Section Tick.
Context {env : Env} (settings : Settings) (strict : bool).

Abbreviation batch := (scheduler_batch_size settings).
Abbreviation waiting w := (abstract (redis_queue_namespace settings) (w_redis w)).
Abbreviation dead_letters w :=
  (contents (w_redis w) (JobQueue._dead_letter_key (redis_queue_namespace settings))).
Abbreviation outbox w := (notification_outbox (w_db w)).

(** Redis and the receivers answer, no other session holds rows, time does not go
    back, the delays can be computed and are not negative. *)
Record calm : Prop := {
  calm_redis : ∀ n, redis_down n = false;
  calm_rows : ∀ n i, locked_row n i = false;
  calm_clock : ∀ m n, (m ≤ n)%nat → clock m <= clock n;
  calm_receivers : ∀ m destination body signature message,
    http_post m destination body signature ≠ HttpRaised message;
  calm_backoff : ∀ n, n < notification_max_attempts settings → backoff_defined settings n;
  calm_stuck : 0 <= queue_stuck_seconds settings;
}.

Hypothesis calm_env : calm.

(** The outbox takes the ends the scheduler can give the job. *)
Definition endable (j : Job) : bool :=
  announceable j JobEventType.FAILED FAILED None (Some _LEASE_EXPIRED_CODE) (Some _LEASE_EXPIRED_MESSAGE)
  && announceable j JobEventType.EXPIRED EXPIRED None (Some _EXPIRED_CODE) (Some _EXPIRED_MESSAGE).

(** The scheduler can do [k] passes: a batch has room for all jobs, and the
    identifiers of the readings of [k] passes are new. *)
Record ready (k : nat) (w : World) : Prop := {
  rd_inv : Inv strict (w_db w);
  rd_room : Z.of_nat (size (jobs (w_db w))) <= batch;
  rd_ids : new_ids (w_count w) (k * (3 * S (size (jobs (w_db w))))) (w_db w);
  rd_ends : ∀ i j, jobs (w_db w) !! i = Some j → endable j = true;
}.

Lemma endable_identity j j' : identity_of j' = identity_of j → endable j' = endable j.
Proof.
  unfold identity_of. intros [= Hid Hu Hty _ Hp _ _ _].
  unfold endable, announceable, notification_route, notification_payload. by rewrite Hid, Hu, Hty, Hp.
Qed.

Lemma ready_next k now R ks w w' :
  (∀ j j', R j j' → identity_of j' = identity_of j) → (length ks ≤ size (jobs (w_db w)))%nat →
  pass_left now R ks w w' → Inv strict (w_db w') → ready (S k) w → ready k w'.
Proof.
  intros HR Hks [Hj He Hn _ [Hc1 Hc2]] HI [_ Hroom (Ie & In & Id) Hends].
  assert (size (jobs (w_db w')) = size (jobs (w_db w))) as Hsize
    by (rewrite <-!size_dom; f_equal; by eapply rows_step_dom).
  rewrite Nat.mul_succ_l in Ie, In, Id. split; [done|by rewrite Hsize| |]; rewrite ?Hsize.
  - split; [|split]; [eapply (new_to_used _ _ _ _ _ _ Ie)|eapply (new_to_used _ _ _ _ _ _ In)|
      eapply (distinct_sub _ _ _ _ Id)]; (done || lia).
  - intros i j' Hj'. specialize (Hj i). destruct (jobs (w_db w) !! i) as [j|] eqn:E; [|congruence].
    destruct Hj as (x & Hx & H). assert (x = j') as -> by congruence.
    rewrite (endable_identity j); [by apply (Hends i)|]. case_bool_decide; [by apply HR|by subst].
Qed.

(** What a pass does to the row of one job: the id of a job that is queued waits
    in its queue, and a job fails only when its attempts are used up. *)
Definition change_ok (w' : World) (j j' : Job) : Prop :=
  identity_of j' = identity_of j ∧ j_attempts j' = j_attempts j
  ∧ (j_status j' = QUEUED → uuid_str (j_id j) ∈ waiting w' (j_priority j))
  ∧ (j_status j' = FAILED → exhausted j = true ∧ uuid_str (j_id j) ∈ dead_letters w').

(** Every job of the guard is changed, and no other. *)
Record swept (guard : Job → bool) (R : Job → Job → Prop) (now : datetime) (w w' : World) : Prop := {
  sw_rows : ∀ i j, jobs (w_db w) !! i = Some j → ∃ j', jobs (w_db w') !! i = Some j'
    ∧ if guard j then R j j' ∧ change_ok w' j j' else j' = j;
  sw_waiting : ∀ p x, x ∈ waiting w p → x ∈ waiting w' p;
  sw_dead : ∀ x, x ∈ dead_letters w → x ∈ dead_letters w';
  sw_posted : posted now (outbox w) (outbox w');
  sw_count : (w_count w ≤ w_count w')%nat;
}.

Definition sweeps (pass : co Z) guard R now (k : nat) (w : World) : Prop :=
  ∃ r w', run pass w = (Ok r, w') ∧ swept guard R now w w' ∧ ready k w'.

Lemma due_room guard k w : ready k w → Z.of_nat (length (due guard (w_db w))) <= batch.
Proof.
  intros [_ Hroom _ _]. pose proof (rows_where_size (λ j, guard j = true) (jobs (w_db w))).
  unfold due. lia.
Qed.

Lemma due_ids guard k w :
  ready (S k) w → new_ids (3 + w_count w) (2 * length (due guard (w_db w))) (w_db w).
Proof.
  intros [_ _ (Ie & In & Id) _]. pose proof (rows_where_size (λ j, guard j = true) (jobs (w_db w))) as H.
  rewrite Nat.mul_succ_l in Ie, In, Id. unfold due.
  split; [|split]; [eapply (new_to_sub _ _ _ _ _ Ie)|eapply (new_to_sub _ _ _ _ _ In)|
    eapply (distinct_sub _ _ _ _ Id)]; lia.
Qed.

(** From what a pass leaves. *)
Lemma left_sweeps pass guard R k l w w' :
  let now := clock (w_count w) in
  ready (S k) w → harmless strict None pass → run pass w = (Ok (Z.of_nat (length l)), w') →
  l ≡ₚ due guard (w_db w) → pass_left now R (j_id <$> l) w w' →
  (∀ j j', j ∈ l → guard j = true → R j j' → change_ok w' j j') →
  (∀ p x, x ∈ waiting w p → x ∈ waiting w' p) → (∀ x, x ∈ dead_letters w → x ∈ dead_letters w') →
  (∀ j j', R j j' → identity_of j' = identity_of j) →
  sweeps pass guard R now k w.
Proof.
  intros now Hr Hh Hrun Hl D Hok Hw Hd HR. exists (Z.of_nat (length l)), w'. split; [exact Hrun|].
  pose proof (rd_inv _ _ Hr) as HI. split.
  - split; [|done|done|apply D|apply D].
    apply (batch_done_due guard strict R _ (λ j, ∀ j', R j j' → change_ok w' j j') l w w' HI Hl (pl_jobs _ _ _ _ _ D)).
    + intros j Hj j'. apply Hok; [done|]. by apply (due_rows guard strict _ l HI Hl).
    + intros j j' H1 H2. split; [done|by apply H2].
  - apply (ready_next k now R (j_id <$> l) w w' HR); [|done| |done].
    + rewrite length_fmap, Hl. apply rows_where_size.
    + replace w' with (run pass w).2 by (by rewrite Hrun).
      apply (run_keeps _ _ _ _ _ _ _ (Hh (w_db w)) HI).
Qed.

(** ** The passes over the jobs *)

Lemma waiting_grows l w w' :
  same_queue (waiting w') (enqueue_all l (waiting w)) → ∀ p x, x ∈ waiting w p → x ∈ waiting w' p.
Proof. intros H p x Hx. rewrite H. by apply enqueue_all_keeps. Qed.

Lemma published_waits l j w w' :
  same_queue (waiting w') (enqueue_all l (waiting w)) → publication j ∈ l →
  uuid_str (j_id j) ∈ waiting w' (j_priority j).
Proof. intros H Hj. rewrite H. by apply enqueue_all_in. Qed.

Definition queued (j j' : Job) : Prop := ∃ t, j' = queued_job t j.

Lemma promote_sweeps k w :
  let now := clock (w_count w) in
  ready (S k) w → sweeps (promote_due settings batch) (retry_due now) (promoted now) now k w.
Proof.
  intros now Hr. pose proof calm_env as [Hup Hrows _ _ _ _].
  destruct (promote_pass settings Hup strict batch w (rd_inv _ _ Hr) (due_room _ _ _ Hr) (Hrows _) (due_ids _ _ _ Hr))
    as (l & w' & Hrun & Hl & D & Hq & Hdl).
  apply (left_sweeps _ _ _ _ l w w'); try done.
  - apply promote_harmless.
  - intros j j' Hj _ ->. do 2 (split; [done|]). split; [|done]. intros _.
    by eapply published_waits, in_publications.
  - by eapply waiting_grows.
  - by rewrite Hdl.
  - by intros j j' ->.
Qed.

Lemma reap_sweeps k w :
  let now := clock (w_count w) in
  ready (S k) w → sweeps (reap_expired settings batch) (lease_expired now) (recovered now) now k w.
Proof.
  intros now Hr. pose proof calm_env as [Hup Hrows _ _ _ _].
  destruct (reap_pass settings Hup strict batch w (rd_inv _ _ Hr) (due_room _ _ _ Hr) (Hrows _) (due_ids _ _ _ Hr))
    as (l & w' & Hrun & Hl & D & Hdl & Hq).
  { intros j (_ & i & Hj)%elem_of_rows_where _. by destruct (andb_prop _ _ (rd_ends _ _ Hr i j Hj)). }
  assert (∀ j j', recovered now j j' → identity_of j' = identity_of j ∧ j_attempts j' = j_attempts j
    ∧ j_status j' = if exhausted j then FAILED else QUEUED) as Hrec
    by (intros j j'; unfold recovered; by destruct (exhausted j); intros ->).
  apply (left_sweeps _ _ _ _ l w w'); try done.
  - apply reap_harmless.
  - intros j j' Hj _ (Hid & Ha & Hs)%Hrec. pose proof (in_reaped l j Hj) as Hin. split; [done|]. split; [done|].
    rewrite Hs. destruct (exhausted j); (split; [|done]) || (split; [done|]); intros _.
    + split; [done|]. rewrite Hdl. apply elem_of_app. left. by apply list_elem_of_In, List.in_rev, list_elem_of_In in Hin.
    + by eapply published_waits.
  - by eapply waiting_grows.
  - intros x Hx. rewrite Hdl. apply elem_of_app. by right.
  - by intros j j' (Hid & _)%Hrec.
Qed.

Lemma redeliver_sweeps k w :
  let now := clock (w_count w) in
  ready (S k) w →
  sweeps (redeliver_stuck settings batch) (stuck (now - seconds (queue_stuck_seconds settings)))
    (redelivered (w_count w)) now k w.
Proof.
  intros now Hr. pose proof calm_env as [Hup Hrows _ _ _ _].
  destruct (redeliver_pass settings Hup strict batch w (rd_inv _ _ Hr) (due_room _ _ _ Hr) (Hrows _) (due_ids _ _ _ Hr))
    as (l & w' & Hrun & Hl & D & Hq & Hdl).
  apply (left_sweeps _ _ _ _ l w w'); try done.
  - apply redeliver_harmless.
  - intros j j' Hj Hs (m & _ & ->). do 2 (split; [done|]). split.
    + intros _. by eapply published_waits, in_publications.
    + intros H. unfold stuck, status_is in Hs. bool_simpl. cbn in H. congruence.
  - by eapply waiting_grows.
  - by rewrite Hdl.
  - by intros j j' (m & _ & ->).
Qed.

Lemma expire_sweeps k w :
  let now := clock (w_count w) in
  ready (S k) w →
  sweeps (expire_stale settings batch) (stale (now - seconds (job_queue_max_age_seconds settings)))
    (expired now) now k w.
Proof.
  intros now Hr. pose proof calm_env as [_ Hrows _ _ _ _].
  destruct (expire_pass settings strict batch w (rd_inv _ _ Hr) (due_room _ _ _ Hr) (Hrows _) (due_ids _ _ _ Hr))
    as (l & w' & Hrun & Hl & D & Hredis).
  { intros j (_ & i & Hj)%elem_of_rows_where. by destruct (andb_prop _ _ (rd_ends _ _ Hr i j Hj)). }
  apply (left_sweeps _ _ _ _ l w w'); try done.
  - apply expire_harmless.
  - by intros j j' Hj _ ->.
  - by rewrite Hredis.
  - by rewrite Hredis.
  - by intros j j' ->.
Qed.

Lemma changed_rows_step {A} (f : A → A) ks t t' :
  changed_at f ks t t' → rows_step (λ a a', a' = f a) ks t t'.
Proof.
  intros H k. specialize (H k). destruct (t !! k) as [a|]; [|done]. cbn in H.
  eexists. split; [exact H|]. by case_bool_decide.
Qed.

Lemma queued_job_keeps t j :
  identity_of (queued_job t j) = identity_of j ∧ j_attempts (queued_job t j) = j_attempts j.
Proof. unfold queued_job. by destruct (status_is PENDING j). Qed.

Lemma dispatch_sweeps k w :
  let now := clock (w_count w) in
  ready (S k) w → sweeps (dispatch_pending settings batch) (status_is PENDING) queued now k w.
Proof.
  intros now Hr. pose proof calm_env as [Hup Hrows _ _ _ _]. pose proof (rd_inv _ _ Hr) as HI.
  assert (length (to_publish (w_db w)) ≤ size (jobs (w_db w)))%nat as Hsize.
  { etransitivity; [apply rows_where_size|]. apply (one_row_per_job d_job_id).
    - apply (inv_dispatch_once _ _ HI).
    - intros i o Ho. apply (inv_dispatch _ _ HI i o Ho). }
  pose proof Hr as [_ Hroom (Ie & _ & Id) _]. rewrite Nat.mul_succ_l in Ie, Id.
  destruct (dispatch_pass settings strict batch w HI)
    as (l & t & w1 & w' & Hrun & Hl & [Dj _ _ De Dn _ Dc] & Hdb & Hc & Hq & Hdl); [lia|done|done| |].
  { split; [eapply (new_to_sub _ _ _ _ _ Ie)|eapply (distinct_sub _ _ _ _ Id)]; lia. }
  cbn in Dj, De, Dn, Dc. rewrite <-Hl in Hsize. rewrite <-Hdb in Dj, De, Dn.
  exists (Z.of_nat (length l)), w'. split; [exact Hrun|]. split; [split|].
  - intros i j Hj. exists (if bool_decide (i ∈ d_job_id <$> l) then queued_job t j else j).
    split; [by rewrite Dj, Hj|]. unfold status_is. case_bool_decide as Hp.
    + destruct (inv_pending _ _ HI i j Hj Hp) as (k' & o & Hk & <- & Hs).
      assert (o ∈ l) as Ho by (rewrite Hl; apply elem_of_rows_where; by split; [|eexists]).
      rewrite bool_decide_eq_true_2 by (by apply list_elem_of_fmap_2).
      destruct (queued_job_keeps t j) as [Hid Ha]. split; [by exists t|]. do 2 (split; [done|]).
      assert (j_status (queued_job t j) = QUEUED) as -> by (unfold queued_job, status_is; by rewrite bool_decide_eq_true_2).
      split; [|done]. intros _. destruct (inv_jobs _ _ HI _ _ Hj) as ([-> _ _ _ _] & _).
      rewrite Hq. apply enqueue_all_in, list_elem_of_omap. exists o. split; [done|].
      unfold message. by rewrite Hj.
    + unfold queued_job, status_is. rewrite (bool_decide_eq_false_2 _ Hp). by case_bool_decide.
  - by eapply waiting_grows.
  - by rewrite Hdl.
  - rewrite Dn. apply posted_same.
  - lia.
  - apply (ready_next k now (λ j j', j' = queued_job t j) (d_job_id <$> l) w w').
    + intros j j' ->. apply queued_job_keeps.
    + by rewrite length_fmap.
    + split; [by apply changed_rows_step|apply (used_sub _ _ _ _ _ _ De); lia|rewrite Dn; apply used_same|
        rewrite Dn; apply posted_same|rewrite length_fmap; lia].
    + replace w' with (run (dispatch_pending settings batch) w).2 by (by rewrite Hrun).
      apply (run_keeps _ _ _ _ _ _ _ (dispatch_harmless strict None settings batch (w_db w)) HI).
    + done.
Qed.

(** ** One job over the passes *)

(** The job needs a pass of the scheduler. *)
Definition overdue (now : datetime) (j : Job) : bool :=
  status_is PENDING j || retry_due now j || lease_expired now j
  || stuck (now - seconds (queue_stuck_seconds settings)) j
  || stale (now - seconds (job_queue_max_age_seconds settings)) j.

Lemma retry_due_later now now' j : now <= now' → retry_due now j = true → retry_due now' j = true.
Proof. unfold retry_due, le_opt. destruct (j_next_attempt_at j); rewrite !andb_true_iff; intros ? [-> H]; (done || lia). Qed.

Lemma lease_expired_later now now' j : now <= now' → lease_expired now j = true → lease_expired now' j = true.
Proof. unfold lease_expired, lt_opt. destruct (j_lock_expires_at j); rewrite !andb_true_iff; intros ? [-> H]; (done || lia). Qed.

Lemma stuck_later c c' j : c <= c' → stuck c j = true → stuck c' j = true.
Proof.
  unfold stuck, lt_opt. destruct (j_last_dispatched_at j); rewrite !andb_true_iff, !orb_true_iff; [|tauto].
  intros ? [-> [H|H]]; [done|]. split; [done|right]. lia.
Qed.

Lemma stale_later c c' j : c <= c' → stale c j = true → stale c' j = true.
Proof. unfold stale. rewrite !andb_true_iff. intros ? [-> H]. split; [done|lia]. Qed.

(** The row of a job that began as [j], after some passes. *)
Record stage (i : uuid) (j : Job) (w' : World) (j' : Job) : Prop := {
  st_row : jobs (w_db w') !! i = Some j';
  st_identity : identity_of j' = identity_of j;
  st_attempts : j_attempts j' = j_attempts j;
  st_queued : j' = j ∨ (j_status j' = QUEUED → uuid_str i ∈ waiting w' (j_priority j));
  st_failed : j_status j' = FAILED →
    j_status j = FAILED ∨ exhausted j = true ∧ uuid_str i ∈ dead_letters w';
}.

Lemma identity_id j j' : identity_of j' = identity_of j → j_id j' = j_id j.
Proof. unfold identity_of. by intros [= ? _ _ _ _ _ _ _]. Qed.

Lemma stage_next guard R now i j w1 j1 w2 :
  j_id j = i → stage i j w1 j1 → swept guard R now w1 w2 →
  ∃ j2, stage i j w2 j2 ∧ if guard j1 then R j1 j2 else j2 = j1.
Proof.
  intros Hid [Hrow Hident Ha Hq Hf] [Hrows Hw Hd _ _].
  destruct (Hrows i j1 Hrow) as (j2 & Hj2 & H). exists j2. destruct (guard j1).
  - destruct H as (HR & Hident2 & Ha2 & Hq2 & Hf2). split; [|done].
    pose proof (identity_id _ _ Hident) as Hid1.
    assert (j_priority j1 = j_priority j ∧ exhausted j1 = exhausted j) as [Ep Ex].
    { unfold exhausted. rewrite Ha. unfold identity_of in Hident. injection Hident as _ _ _ Ep _ Em _ _.
      by rewrite Em. }
    split; [done|congruence|congruence| |].
    + right. intros Hs. rewrite <-Hid, <-Hid1, <-Ep. by apply Hq2.
    + intros Hs. right. destruct (Hf2 Hs) as [H1 H2]. by rewrite <-Hid, <-Hid1, <-Ex.
  - subst j2. split; [|done]. split; [done|done|done| |].
    + destruct Hq as [Hq|Hq]; [by left|right]. intros Hs. by apply Hw, Hq.
    + intros Hs. destruct (Hf Hs) as [Hf1|[Hf1 Hf2]]; [by left|right]. split; [done|by apply Hd].
Qed.

(** A pass keeps what it does not bring back. *)
Lemma stays_false (P guard : Job → bool) (R : Job → Job → Prop) j j' :
  P j = false → (if guard j then R j j' else j' = j) → (R j j' → P j' = false) → P j' = false.
Proof. intros HP H HR. destruct (guard j); [by apply HR|by subst]. Qed.

Lemma recovered_status now j j' : recovered now j j' → j_status j' = FAILED ∨ j_status j' = QUEUED.
Proof. unfold recovered. destruct (exhausted j); intros ->; [by left|by right]. Qed.

(** The passes over the jobs, on one row: [m] tells the reading at which each
    begins. *)
Record chain (m2 m3 m4 m5 : nat) (j j1 j2 j3 j4 j5 : Job) : Prop := {
  ch_dispatch : if status_is PENDING j then queued j j1 else j1 = j;
  ch_promote : if retry_due (clock m2) j1 then promoted (clock m2) j1 j2 else j2 = j1;
  ch_reap : if lease_expired (clock m3) j2 then recovered (clock m3) j2 j3 else j3 = j2;
  ch_redeliver : if stuck (clock m4 - seconds (queue_stuck_seconds settings)) j3
                 then redelivered m4 j3 j4 else j4 = j3;
  ch_expire : if stale (clock m5 - seconds (job_queue_max_age_seconds settings)) j4
              then expired (clock m5) j4 j5 else j5 = j4;
}.

Ltac by_status := unfold status_is, retry_due, lease_expired, stuck, stale, status_is, status_in; cbn;
  repeat match goal with H : j_status _ = _ |- _ => rewrite H; clear H end; done.

Lemma chain_pending m2 m3 m4 m5 j j1 j2 j3 j4 j5 :
  chain m2 m3 m4 m5 j j1 j2 j3 j4 j5 → status_is PENDING j5 = false.
Proof.
  intros [H1 H2 H3 H4 H5].
  assert (status_is PENDING j1 = false) as P.
  { destruct (status_is PENDING j) eqn:E; [|by subst]. destruct H1 as [t ->]. unfold queued_job. by rewrite E. }
  apply (stays_false _ _ _ _ _ P) in H2 as P2; [|by intros ->].
  apply (stays_false _ _ _ _ _ P2) in H3 as P3; [|intros [H|H]%recovered_status; by_status].
  apply (stays_false _ _ _ _ _ P3) in H4 as P4; [|intros (m & _ & ->); exact P3].
  by apply (stays_false _ _ _ _ _ P4) in H5; [|intros ->].
Qed.

Lemma chain_retry m2 m3 m4 m5 j j1 j2 j3 j4 j5 :
  chain m2 m3 m4 m5 j j1 j2 j3 j4 j5 → retry_due (clock m2) j5 = false.
Proof.
  intros [_ H2 H3 H4 H5].
  assert (retry_due (clock m2) j2 = false) as P2
    by (destruct (retry_due (clock m2) j1) eqn:E; [by rewrite H2|by subst]).
  apply (stays_false _ _ _ _ _ P2) in H3 as P3; [|intros [H|H]%recovered_status; by_status].
  apply (stays_false _ _ _ _ _ P3) in H4 as P4; [|intros (m & _ & ->); exact P3].
  by apply (stays_false _ _ _ _ _ P4) in H5; [|intros ->].
Qed.

Lemma chain_lease m2 m3 m4 m5 j j1 j2 j3 j4 j5 :
  chain m2 m3 m4 m5 j j1 j2 j3 j4 j5 → lease_expired (clock m3) j5 = false.
Proof.
  intros [_ _ H3 H4 H5].
  assert (lease_expired (clock m3) j3 = false) as P3.
  { destruct (lease_expired (clock m3) j2) eqn:E; [|by subst]. apply recovered_status in H3 as [H|H]; by_status. }
  apply (stays_false _ _ _ _ _ P3) in H4 as P4; [|intros (m & _ & ->); exact P3].
  by apply (stays_false _ _ _ _ _ P4) in H5; [|intros ->].
Qed.

Lemma chain_stuck m2 m3 m4 m5 j j1 j2 j3 j4 j5 :
  chain m2 m3 m4 m5 j j1 j2 j3 j4 j5 →
  stuck (clock m4 - seconds (queue_stuck_seconds settings)) j5 = false.
Proof.
  intros [_ _ _ H4 H5]. pose proof calm_env as [_ _ Hclock _ _ Hpos].
  assert (stuck (clock m4 - seconds (queue_stuck_seconds settings)) j4 = false) as P4.
  { destruct (stuck _ j3) eqn:E; [|by subst]. destruct H4 as (m & Hm & ->). unfold stuck. cbn.
    pose proof (Hclock m4 m Hm). unfold seconds, us_per_second. apply andb_false_iff. right. apply Z.ltb_ge. lia. }
  by apply (stays_false _ _ _ _ _ P4) in H5; [|intros ->].
Qed.

Lemma chain_stale m2 m3 m4 m5 j j1 j2 j3 j4 j5 :
  chain m2 m3 m4 m5 j j1 j2 j3 j4 j5 →
  stale (clock m5 - seconds (job_queue_max_age_seconds settings)) j5 = false.
Proof. intros [_ _ _ _ H5]. destruct (stale _ j4) eqn:E; [by rewrite H5|by subst]. Qed.

Lemma chain_settles n m2 m3 m4 m5 j j1 j2 j3 j4 j5 :
  (n ≤ m2)%nat → (n ≤ m3)%nat → (n ≤ m4)%nat → (n ≤ m5)%nat →
  chain m2 m3 m4 m5 j j1 j2 j3 j4 j5 → overdue (clock n) j5 = false.
Proof.
  intros H2 H3 H4 H5 Hch. pose proof calm_env as [_ _ Hclock _ _ _].
  apply Hclock in H2, H3, H4, H5. unfold overdue. rewrite !orb_false_iff.
  split; [split; [split; [split|]|]|]; apply not_true_iff_false; intros H.
  - by rewrite (chain_pending _ _ _ _ _ _ _ _ _ _ Hch) in H.
  - apply (retry_due_later _ _ _ H2) in H. by rewrite (chain_retry _ _ _ _ _ _ _ _ _ _ Hch) in H.
  - apply (lease_expired_later _ _ _ H3) in H. by rewrite (chain_lease _ _ _ _ _ _ _ _ _ _ Hch) in H.
  - apply (stuck_later _ (clock m4 - seconds (queue_stuck_seconds settings))) in H; [|lia].
    by rewrite (chain_stuck _ _ _ _ _ _ _ _ _ _ Hch) in H.
  - apply (stale_later _ (clock m5 - seconds (job_queue_max_age_seconds settings))) in H; [|lia].
    by rewrite (chain_stale _ _ _ _ _ _ _ _ _ _ Hch) in H.
Qed.

Lemma unless {A} (b : bool) (P : Prop) (x y : A) : b = false → (if b then P else x = y) → x = y.
Proof. by intros ->. Qed.

(** Only a job that is overdue at the end of the tick is touched. *)
Lemma chain_idle n m2 m3 m4 m5 j j1 j2 j3 j4 j5 :
  (m2 ≤ n)%nat → (m3 ≤ n)%nat → (m4 ≤ n)%nat → (m5 ≤ n)%nat →
  chain m2 m3 m4 m5 j j1 j2 j3 j4 j5 → overdue (clock n) j = false → j5 = j.
Proof.
  intros H2 H3 H4 H5 [E1 E2 E3 E4 E5] Hidle. pose proof calm_env as [_ _ Hclock _ _ _].
  apply Hclock in H2, H3, H4, H5. unfold overdue in Hidle. rewrite !orb_false_iff in Hidle.
  destruct Hidle as [[[[D1 D2] D3] D4] D5].
  apply (unless _ _ _ _ D1) in E1. subst j1.
  apply unless in E2; [subst j2|apply not_true_iff_false; intros H; apply (retry_due_later _ _ _ H2) in H; congruence].
  apply unless in E3; [subst j3|apply not_true_iff_false; intros H; apply (lease_expired_later _ _ _ H3) in H; congruence].
  apply unless in E4; [subst j4|apply not_true_iff_false; intros H;
    apply (stuck_later _ (clock n - seconds (queue_stuck_seconds settings))) in H; [congruence|lia]].
  apply unless in E5; [done|apply not_true_iff_false; intros H;
    apply (stale_later _ (clock n - seconds (job_queue_max_age_seconds settings))) in H; [congruence|lia]].
Qed.

(** ** The tick *)

(** What is known after the passes over the jobs. *)
Record swept_all (w w5 : World) : Prop := {
  sa_inv : Inv strict (w_db w5);
  sa_count : (w_count w ≤ w_count w5)%nat;
  sa_jobs : ∀ i j, jobs (w_db w) !! i = Some j → ∃ j5, stage i j w5 j5
    ∧ overdue (clock (w_count w)) j5 = false
    ∧ ∀ n, (w_count w5 ≤ n)%nat → overdue (clock n) j = false → j5 = j;
  sa_kept : outbox w ⊆ outbox w5;
  sa_new : ∀ k n, outbox w5 !! k = Some n → outbox w !! k = Some n
    ∨ n_status n = NotificationStatus.PENDING ∧ n_attempts n = 0 ∧ n_next_attempt_at n <= clock (w_count w5);
}.

Lemma posted_later m m' (t1 t2 t3 : gmap uuid NotificationOutbox) :
  (m ≤ m')%nat → posted (clock m) t2 t3 →
  t1 ⊆ t2 ∧ (∀ k n, t2 !! k = Some n → t1 !! k = Some n
    ∨ n_status n = NotificationStatus.PENDING ∧ n_attempts n = 0 ∧ n_next_attempt_at n <= clock m') →
  t1 ⊆ t3 ∧ (∀ k n, t3 !! k = Some n → t1 !! k = Some n
    ∨ n_status n = NotificationStatus.PENDING ∧ n_attempts n = 0 ∧ n_next_attempt_at n <= clock m').
Proof.
  intros Hm [Hsub Hnew] [Hsub0 Hnew0]. split; [by transitivity t2|].
  intros k n Hn. destruct (Hnew k n Hn) as [H|(? & ? & ->)]; [by apply Hnew0|right].
  split; [done|]. split; [done|]. by apply (calm_clock calm_env).
Qed.

Lemma jobs_are_swept w :
  ready 5 w → ∃ w5, swept_all w w5 ∧ ready 0 w5
    ∧ run (tick (build_scheduler settings)) w
      = run (_ ← dispatch_due settings batch; Ret tt) w5.
Proof.
  intros Hr. unfold tick. cbn [build_scheduler _dispatch_pending _retry _lease _dispatch_redeliver _expiry _notifications _batch_size].
  destruct (dispatch_sweeps 4 w Hr) as (r1 & w1 & Hrun1 & S1 & Hr1).
  destruct (promote_sweeps 3 w1 Hr1) as (r2 & w2 & Hrun2 & S2 & Hr2).
  destruct (reap_sweeps 2 w2 Hr2) as (r3 & w3 & Hrun3 & S3 & Hr3).
  destruct (redeliver_sweeps 1 w3 Hr3) as (r4 & w4 & Hrun4 & S4 & Hr4).
  destruct (expire_sweeps 0 w4 Hr4) as (r5 & w5 & Hrun5 & S5 & Hr5).
  pose proof (sw_count _ _ _ _ _ S1) as C1. pose proof (sw_count _ _ _ _ _ S2) as C2.
  pose proof (sw_count _ _ _ _ _ S3) as C3. pose proof (sw_count _ _ _ _ _ S4) as C4.
  pose proof (sw_count _ _ _ _ _ S5) as C5.
  exists w5. split; [|split; [done|]].
  2: { rewrite run_bind, Hrun1, run_bind, Hrun2, run_bind, Hrun3, run_bind, Hrun4, run_bind, Hrun5. done. }
  assert (outbox w ⊆ outbox w5 ∧ ∀ k n, outbox w5 !! k = Some n → outbox w !! k = Some n
    ∨ n_status n = NotificationStatus.PENDING ∧ n_attempts n = 0 ∧ n_next_attempt_at n <= clock (w_count w5)) as [Hk Hn].
  { eapply posted_later; [|apply S5|]. { lia. } eapply posted_later; [|apply S4|]. { lia. }
    eapply posted_later; [|apply S3|]. { lia. } eapply posted_later; [|apply S2|]. { lia. }
    eapply posted_later; [|apply S1|]. { lia. } split; [done|]. by left. }
  split; [apply Hr5|lia| |exact Hk|exact Hn].
  intros i j Hj. assert (j_id j = i) as Hid by (by destruct (inv_jobs _ _ (rd_inv _ _ Hr) i j Hj) as ([? _ _ _ _] & _)).
  assert (stage i j w j) as St by (split; [done|done|done|by left|by left]).
  destruct (stage_next _ _ _ _ _ _ _ _ Hid St S1) as (j1 & St1 & E1).
  destruct (stage_next _ _ _ _ _ _ _ _ Hid St1 S2) as (j2 & St2 & E2).
  destruct (stage_next _ _ _ _ _ _ _ _ Hid St2 S3) as (j3 & St3 & E3).
  destruct (stage_next _ _ _ _ _ _ _ _ Hid St3 S4) as (j4 & St4 & E4).
  destruct (stage_next _ _ _ _ _ _ _ _ Hid St4 S5) as (j5 & St5 & E5).
  assert (chain (w_count w1) (w_count w2) (w_count w3) (w_count w4) j j1 j2 j3 j4 j5) as Hch by (by split).
  exists j5. split; [done|]. split.
  - apply (chain_settles _ _ _ _ _ _ _ _ _ _ _) with (5 := Hch); lia.
  - intros n Hle. apply (chain_idle n _ _ _ _ _ _ _ _ _ _) with (5 := Hch); lia.
Qed.

Lemma stage_kept i j w w' j' :
  stage i j w j' → jobs (w_db w') = jobs (w_db w) → w_redis w' = w_redis w → stage i j w' j'.
Proof. intros [Hr Hi Ha Hq Hf] Ej Er. split; rewrite ?Ej, ?Er; done. Qed.

Lemma outbox_room w : Inv strict (w_db w) → Z.of_nat (size (jobs (w_db w))) <= batch →
  ∀ now, Z.of_nat (length (due_notifications now (w_db w))) <= batch.
Proof.
  intros HI Hroom now.
  pose proof (rows_where_size (λ n, due_now now n = true) (outbox w)) as H.
  assert (size (outbox w) ≤ size (jobs (w_db w)))%nat as H2.
  { apply (one_row_per_job n_job_id); [apply (inv_notified_once _ _ HI)|].
    intros k n Hn. destruct (inv_notification _ _ HI k n Hn) as (_ & _ & j & Hj & _). by exists j. }
  unfold due_notifications. lia.
Qed.

(** A notification that is due before the last pass has been attempted after it. *)
Lemma due_is_attempted l w w' k n :
  Inv strict (w_db w) → l ≡ₚ due_notifications (clock (S (w_count w))) (w_db w) → delivered settings l w w' →
  outbox w !! k = Some n → n_status n = NotificationStatus.PENDING →
  n_next_attempt_at n <= clock (S (w_count w)) →
  ∃ n', outbox w' !! k = Some n' ∧ attempted settings n n'.
Proof.
  intros HI Hl [Hrows _ _ _ _] Hn Hs Hdue. specialize (Hrows k). rewrite Hn in Hrows.
  destruct Hrows as (n' & Hn' & H). exists n'. split; [done|].
  assert (n_id n = k) as Hid by (by apply (inv_notification _ _ HI k n)).
  rewrite bool_decide_eq_true_2 in H; [done|]. rewrite <-Hid. apply list_elem_of_fmap_2.
  apply (due_notification_rows strict _ _ l HI Hl). rewrite Hid. split; [done|].
  unfold due_now. rewrite bool_decide_eq_true_2 by done. by apply Z.leb_le.
Qed.

Lemma attempted_job n n' : attempted settings n n' → n_job_id n' = n_job_id n.
Proof. by destruct 1. Qed.

Lemma ended_is_told i j j' l w w5 w' :
  Inv strict (w_db w) → Inv strict (w_db w5) → Inv strict (w_db w') → swept_all w w5 →
  l ≡ₚ due_notifications (clock (S (w_count w5))) (w_db w5) → delivered settings l w5 w' →
  jobs (w_db w) !! i = Some j → jobs (w_db w5) !! i = Some j' → jobs (w_db w') !! i = Some j' →
  StateMachine.is_terminal (j_status j) = false → StateMachine.is_terminal (j_status j') = true →
  ∃ n, notifications_of i (w_db w') = [n] ∧ n_attempts n = 1.
Proof.
  intros HI HI5 HI' [_ _ _ _ Hnew] Hl D Hj Hj5 Hj' Hlive Hend.
  destruct (inv_notified _ _ HI5 i j' Hj5 Hend) as (k & n & Hk & Hn).
  destruct (Hnew k n Hk) as [Hold|(Hs & Ha & Hdue)].
  { destruct (inv_notification _ _ HI k n Hold) as (_ & _ & x & Hx & Hev). rewrite Hn, Hj in Hx.
    injection Hx as <-. apply terminal_event_is_terminal in Hev. congruence. }
  destruct (due_is_attempted l w5 w' k n HI5 Hl D Hk Hs) as (n' & Hn' & Hatt).
  { pose proof (calm_clock calm_env (w_count w5) (S (w_count w5))). lia. }
  destruct (attempted_keeps settings _ _ Hatt) as [Ha' _]. exists n'. split; [|lia].
  apply (rows_where_singleton _ _ k); [done|by rewrite (attempted_job _ _ Hatt)|].
  intros k2 n2 Hk2 Hn2. apply (inv_notified_once _ _ HI' k2 k n2 n' Hk2 Hn').
  by rewrite (attempted_job _ _ Hatt), Hn, Hn2.
Qed.

(** C5: one tick of the scheduler leaves nothing overdue.  When Redis and the
    receivers answer, no other session holds rows, time does not go back, the
    batch has room for the jobs, identifiers are new, the outbox takes the ends a
    job may have, the delay of a notification that failed can be computed and the
    setting [queue_stuck_seconds] is not negative, the six passes return.  Then no
    job is what was overdue when
    the tick began: pending, a retry whose time had come, running under an
    expired lease, queued and not delivered lately, or older than the queue
    allows; a job that is not overdue even when the tick ends is as it was; a job
    that was put in a queue waits there, one that was failed had used up its
    attempts and stands in the dead-letter list, and the owner of a job the tick
    ended has been told once, or tried to be told.  Every notification that was
    due has been attempted. *)
Theorem tick_leaves_nothing_overdue (w : World) :
  ready 5 w →
  ∃ w', run (tick (build_scheduler settings)) w = (Ok tt, w')
    ∧ (∀ i j, jobs (w_db w) !! i = Some j → ∃ j', stage i j w' j'
        ∧ overdue (clock (w_count w)) j' = false
        ∧ (overdue (clock (w_count w')) j = false → j' = j)
        ∧ (StateMachine.is_terminal (j_status j) = false → StateMachine.is_terminal (j_status j') = true →
           ∃ n, notifications_of i (w_db w') = [n] ∧ n_attempts n = 1))
    ∧ ∀ k n, outbox w !! k = Some n → due_now (clock (w_count w)) n = true →
        ∃ n', outbox w' !! k = Some n' ∧ attempted settings n n'.
Proof.
  intros Hr. pose proof calm_env as [_ Hrows Hclock Hreceivers Hbackoff _].
  destruct (jobs_are_swept w Hr) as (w5 & Hsw & [HI5 Hroom _ _] & Hrun).
  pose proof Hsw as [_ Hc Hjobs Hkept _].
  destruct (pass_returns settings Hreceivers Hbackoff Hrows strict batch w5 HI5 (outbox_room w5 HI5 Hroom _))
    as (l & w' & Hpass & Hl & D).
  assert (run (tick (build_scheduler settings)) w = (Ok tt, w')) as Htick
    by (rewrite Hrun, run_bind, Hpass; done).
  assert (Inv strict (w_db w')) as HI'.
  { replace w' with (run (dispatch_due settings batch) w5).2 by (by rewrite Hpass).
    apply (run_keeps _ _ _ _ _ _ _ (delivery_harmless strict None settings batch (w_db w5)) HI5). }
  pose proof D as [_ Hrest _ Hredis Hcount].
  assert (jobs (w_db w') = jobs (w_db w5)) as Ej by (by rewrite Hrest).
  exists w'. split; [done|]. split.
  - intros i j Hj. destruct (Hjobs i j Hj) as (j' & St & Hdue & Hidle).
    pose proof (stage_kept _ _ _ w' _ St Ej Hredis) as St'. exists j'.
    split; [done|]. split; [done|]. split; [by apply Hidle|].
    apply (ended_is_told i j j' l w w5 w'); try done; [apply Hr|apply St|apply St'].
  - intros k n Hn Hdue. unfold due_now in Hdue. apply andb_prop in Hdue as [Hs%bool_decide_eq_true_1 Hd%Z.leb_le].
    apply (due_is_attempted l w5 w'); try done; [by eapply lookup_weaken|].
    pose proof (Hclock (w_count w) (S (w_count w5))). lia.
Qed.
End Tick.

(** ** At a concrete state *)

(** A job whose worker died, and one that was submitted since. *)
Definition w_busy : World :=
  run_schedule [submit_task JobType.REPORT [("pages", JInt 3)] 5 "key-7"] w_orphaned.

Lemma demo_calm : calm (env := demo_env) default_settings.
Proof.
  split; [done|done| |done|exact demo_backoff_exists|done].
  intros m n H. unfold clock, demo_env, us_per_second. lia.
Qed.

Definition ready_check (k : nat) (w : World) : bool :=
  (Z.of_nat (size (jobs (w_db w))) <=? scheduler_batch_size default_settings)
  && forallb (λ m, is_null (job_events (w_db w) !! uuid7 m) && is_null (notification_outbox (w_db w) !! uuid7 m))
       (seq (w_count w) (k * (3 * S (size (jobs (w_db w))))))
  && (N.of_nat (w_count w + k * (3 * S (size (jobs (w_db w))))) <? uuid_bound)%N
  && forallb (λ p, endable p.2) (map_to_list (jobs (w_db w))).

Lemma all_rows {A} (f : A → bool) (t : gmap uuid A) :
  forallb (λ p : uuid * A, f p.2) (map_to_list t) = true → ∀ i a, t !! i = Some a → f a = true.
Proof.
  rewrite forallb_forall. intros H i a Hi. apply (H (i, a)). by apply list_elem_of_In, elem_of_map_to_list.
Qed.

Lemma ready_checked strict k w :
  Inv strict (w_db w) → ready_check k w = true → ready (env := demo_env) default_settings strict k w.
Proof.
  intros HI. unfold ready_check. rewrite !andb_true_iff, Z.leb_le. intros [[[Hroom Hids] Hb] Hends].
  split; [done|done|by apply new_ids_check, demo_distinct|]. exact (all_rows _ _ Hends).
Qed.

Lemma busy_Inv : Inv true (w_db w_busy).
Proof.
  unfold w_busy, run_schedule. cbn [foldl]. unfold submit_task. cbn [snd]. rewrite run_bind.
  assert (∀ A (r : res A * World), w_db (match r with (Ok _, w) => run (Ret tt) w | (Err e, w) => (Err e, w) end).2 = w_db r.2) as E
    by (intros A [[a|e] w]; done).
  rewrite E. apply (run_keeps _ _ _ _ _ _ _ (submit_harmless true None _ _ _ _ _ _ _ _) orphaned_Inv).
Qed.

Lemma tick_leaves_nothing_overdue_witness :
  size (jobs (w_db w_busy)) = 2%nat
  ∧ ∃ w', run (tick (build_scheduler default_settings)) w_busy = (Ok tt, w')
    ∧ ∀ i j, jobs (w_db w_busy) !! i = Some j →
        overdue default_settings (clock (w_count w_busy)) j = true
        ∧ ∃ j', jobs (w_db w') !! i = Some j'
            ∧ overdue default_settings (clock (w_count w_busy)) j' = false.
Proof.
  split; [by vm_compute|].
  assert (forallb (λ p : uuid * Job, overdue default_settings (clock (w_count w_busy)) p.2)
    (map_to_list (jobs (w_db w_busy))) = true) as Hdue by (by vm_compute).
  destruct (tick_leaves_nothing_overdue (env := demo_env) default_settings true demo_calm w_busy)
    as (w' & Hrun & Hjobs & _).
  { apply ready_checked; [exact busy_Inv|]. by vm_compute. }
  exists w'. split; [exact Hrun|]. intros i j Hj. split.
  - exact (all_rows _ _ Hdue i j Hj).
  - destruct (Hjobs i j Hj) as (j' & St & Hover & _). exists j'. split; [apply St|exact Hover].
Defined.
