(* ===== verification/ClientSpec.v ===== *)
(** The client of the demonstration against the API: every job it posts is accepted. *)

From S2P Require Import Prelude PyStr PyFloat FloatBounds Json Domain Config Uuid DateTime Models Effects.
From S2P Require Import Repositories Queue Notifications Catalog Logic Total Lifecycle Invariant.
From S2P Require Import Submission Cancellation Execution Scheduling Worker Read Api Client Programs System Demo.
From S2P Require Import Guarantees WorkerSpec ServiceSpec ApiSpec SchedulerSpec QueueSpec DispatchSpec DomainSpec.
From S2P Require Import AttemptSpec HandlerSpec ExecutionSpec PipelineSpec SubmitSpec.
Import JobStatus.

Section ClientSpec.
Context {env : Env} (settings : Settings) (user_id : string).
Abbreviation user := (current_user_id (Some user_id)).

(** What the API asks of a body: a payload of its type, and values that fit the
    columns. *)
Definition submittable (b : JobSubmit) : Prop :=
  (∀ n, sub_max_attempts b = Some n → 1 <= n)
  ∧ ∃ p, normalized_payload settings (sub_type b) (sub_payload b) = Ok p
    ∧ row_fits settings (Some user_id) b None p.

Lemma active_jobs_insert job d d' :
  jobs d' = <[j_id job := job]> (jobs d) → jobs d !! j_id job = None →
  j_user_id job = user → j_status job = PENDING → active_jobs user d' = active_jobs user d + 1.
Proof.
  intros E Hfree Hu Hs. unfold active_jobs. rewrite E, (map_to_list_insert _ _ _ Hfree).
  rewrite filter_cons_True; [cbn [length]; lia|]. unfold status_in. cbn. by rewrite Hu, Hs, String.eqb_refl.
Qed.

(** What [n] posted jobs leave. *)
Record posted (n : nat) (w w' : World) : Prop := {
  po_jobs : jobs (w_db w) ⊆ jobs (w_db w');
  po_active : active_jobs user (w_db w') = active_jobs user (w_db w) + Z.of_nat n;
  po_window : ∀ k, window (w_count w) (6 * n + k) (w_db w) → window (w_count w') k (w_db w');
}.

Lemma posted_none w : posted 0 w w.
Proof. split; [done|cbn; lia|done]. Qed.

Lemma posted_add n n' w w1 w' : posted n w w1 → posted n' w1 w' → posted (n + n') w w'.
Proof.
  intros [Hj Ha Hw] [Hj' Ha' Hw']. split; [by etransitivity|lia|].
  intros k H. apply Hw', Hw. by replace (6 * n + (6 * n' + k))%nat with (6 * (n + n') + k)%nat by lia.
Qed.

(** One body. *)
Lemma post_returns b w :
  submittable b → active_jobs user (w_db w) < max_in_flight_jobs_per_user settings →
  window (w_count w) 6 (w_db w) →
  returns (run (post_to_api settings user_id b)) (λ r w', posted 1 w w' ∧ status_code r = 202
    ∧ ∃ a, content r = AcceptedBody a) w.
Proof.
  intros (Hmax & p & Hp & Hfit) Hlim Hwin.
  assert (valid_request (mkRequest (Some user_id) (SubmitJob b None)) = true) as Hvalid.
  { unfold valid_request. cbn. destruct (sub_max_attempts b) as [n|]; [|done].
    by apply Z.leb_le, Hmax. }
  destruct (acceptable_is_accepted settings (Some user_id) b None p w Hvalid) as (job & w' & Hrun & Hcr); [done|].
  eexists _, w'. split; [unfold post_to_api; by rewrite run_bind, run_try, Hrun|].
  split; [|split; [done|by eexists]].
  assert (jobs (w_db w) !! j_id job = None) as Hfree.
  { destruct Hcr as [(m & t & Hm1 & Hm2 & ->) _ _ _ _ _ _ Hc]. cbn. apply (wi_jobs _ _ _ Hwin). lia. }
  pose proof Hcr as [(m & t & _ & _ & Hjob) Hjobs _ _ _ _ _ Hc].
  split.
  - rewrite Hjobs. by apply insert_subseteq.
  - rewrite (active_jobs_insert job _ _ Hjobs Hfree); [done|by rewrite Hjob..].
  - intros k H. eapply created_window; [exact Hcr|exact H|lia].
Qed.

(** A client that takes no answer but 202. *)
Definition only_202 (post : string → JobSubmit → co response) (u : string) (b : JobSubmit) : co response :=
  response ← post u b;
  if status_code response =? 202 then Ret response else Throw (HTTPError "not accepted").

Lemma strict_post_returns b w :
  submittable b → active_jobs user (w_db w) < max_in_flight_jobs_per_user settings →
  window (w_count w) 6 (w_db w) →
  returns (run (only_202 (post_to_api settings) user_id b)) (λ r w', posted 1 w w' ∧ status_code r = 202
    ∧ ∃ a, content r = AcceptedBody a) w.
Proof.
  intros Hb Hlim Hwin. apply returns_run_bind. eapply returns_mono; [by apply post_returns|].
  intros r w' Hr. rewrite (proj1 (proj2 Hr)). by apply returns_run_ret.
Qed.

(** One round of it, and all of them. *)
Lemma submit_round_returns l n w :
  Forall submittable l →
  active_jobs user (w_db w) + Z.of_nat (length l) <= max_in_flight_jobs_per_user settings →
  window (w_count w) (6 * length l) (w_db w) →
  returns (run (submit_round (only_202 (post_to_api settings)) user_id l n))
    (λ r w', r = n + Z.of_nat (length l) ∧ posted (length l) w w') w.
Proof.
  intros Hl. revert n w. induction Hl as [|b l Hb _ IH]; intros n w Hlim Hwin.
  { apply returns_run_ret. split; [cbn; lia|apply posted_none]. }
  cbn [length submit_round] in *. apply returns_run_bind. eapply returns_mono.
  { apply strict_post_returns; [done|lia|]. by apply (window_sub _ _ _ _ _ Hwin); lia. }
  intros r w1 (Hpost & Hcode & a & Hbody). unfold raise_for_status, job_id_of. rewrite Hcode, Hbody.
  apply returns_run_bind, returns_run_ret, returns_run_bind, returns_run_ret.
  eapply returns_mono.
  { apply IH; [rewrite (po_active _ _ _ Hpost); lia|]. apply (po_window _ _ _ Hpost).
    by replace (6 * 1 + 6 * length l)%nat with (6 * S (length l))%nat by lia. }
  intros r' w2 [-> Hrest]. split; [lia|]. by apply (posted_add 1 (length l) w w1).
Qed.

Lemma submit_rounds_returns rounds n w :
  Forall submittable demo_jobs →
  active_jobs user (w_db w) + 7 * Z.of_nat rounds <= max_in_flight_jobs_per_user settings →
  window (w_count w) (42 * rounds) (w_db w) →
  returns (run (submit_rounds (only_202 (post_to_api settings)) user_id rounds n))
    (λ r w', r = n + 7 * Z.of_nat rounds ∧ posted (7 * rounds) w w') w.
Proof.
  intros Hdemo. revert n w. induction rounds as [|rounds IH]; intros n w Hlim Hwin.
  { apply returns_run_ret. split; [cbn; lia|apply posted_none]. }
  cbn [submit_rounds]. apply returns_run_bind. eapply returns_mono.
  { apply submit_round_returns; [done|cbn [length demo_jobs]; lia|].
    apply (window_sub _ _ _ _ _ Hwin); cbn [length demo_jobs]; lia. }
  intros r w1 [-> Hpost]. change (length demo_jobs) with 7%nat in *. eapply returns_mono.
  { apply IH; [rewrite (po_active _ _ _ Hpost); lia|]. apply (po_window _ _ _ Hpost).
    by replace (6 * 7 + 42 * rounds)%nat with (42 * S rounds)%nat by lia. }
  intros r' w2 [-> Hrest]. split; [lia|].
  replace (7 * S rounds)%nat with (7 + 7 * rounds)%nat by lia. by apply (posted_add 7 _ w w1).
Qed.

(** The demonstration jobs are submittable under every sensible configuration. *)
Lemma demo_jobs_submittable :
  varchar 64 user = true → 128 <= job_max_payload_bytes settings →
  1 <= job_default_max_attempts settings < 2 ^ 31 → Forall submittable demo_jobs.
Proof.
  intros Hu Hsize Hmax.
  assert (∀ ty p prio q, Z.of_nat (String.length (dumps (JDict p))) <= 128 →
    normalize_payload ty p settings = Ok q → dict_mem "notify_webhook" p = false →
    jsonb (JDict q) = true → submittable (mkJobSubmit ty p prio None)) as Hone.
  { intros ty p prio q Hlen Hq Hw Hj. split; [done|]. exists q. split.
    - unfold normalized_payload. cbn [sub_type sub_payload].
      rewrite (proj2 (Z.ltb_ge _ _)), Hq by lia. cbn. by rewrite Hw.
    - intros i t. set (j := new_job _ _ _ _ _ _ _ _).
      assert (job_types_ok j = varchar 64 user && int4 (job_default_max_attempts settings)
                               && jsonb (JDict q)) as E.
      { unfold job_types_ok. subst j. cbn -[jsonb varchar current_user_id]. unfold int4 at 1 2. cbn.
        by rewrite !andb_true_r. }
      cbv zeta. rewrite E, Hu, Hj. subst j. unfold job_checks_ok, int4. cbn.
      rewrite !andb_true_iff, !Z.leb_le, !Z.ltb_lt. lia. }
  repeat apply List.Forall_cons; [..|apply List.Forall_nil];
    (eapply Hone; [by vm_compute|reflexivity|reflexivity|by vm_compute]).
Qed.

(** The rounds of such a client return, and are those of the client. *)
Lemma strict_round post l n n' w w' :
  run (submit_round (only_202 post) user_id l n) w = (Ok n', w') →
  run (submit_round post user_id l n) w = (Ok n', w').
Proof.
  revert n w. induction l as [|b l IH]; intros n w; [done|]. cbn [submit_round].
  rewrite !run_bind. unfold only_202 at 1. rewrite run_bind.
  destruct (run (post user_id b) w) as [[r|e] w1]; [|done].
  destruct (status_code r =? 202); [|done]. cbn [run mret M_ret]. rewrite !run_bind.
  destruct (run (raise_for_status r) w1) as [[[]|e] w2]; [|done]. rewrite !run_bind.
  destruct (run (job_id_of r) w2) as [[i|e] w3]; [|done]. apply IH.
Qed.

Lemma strict_rounds post rounds n n' w w' :
  run (submit_rounds (only_202 post) user_id rounds n) w = (Ok n', w') →
  run (submit_rounds post user_id rounds n) w = (Ok n', w').
Proof.
  revert n w. induction rounds as [|rounds IH]; intros n w; [done|]. cbn [submit_rounds]. rewrite !run_bind.
  destruct (run (submit_round (only_202 post) user_id demo_jobs n) w) as [[m|e] w1] eqn:E; [|done].
  rewrite (strict_round _ _ _ _ _ _ E). apply IH.
Qed.

(** C31: the demonstration against the API: every job the client posts is answered
    with 202 (the run is that of a client that stops at any other answer), no
    request of the run fails, the client counts seven jobs a round, the user has
    that many more jobs in flight, and no row that was there is lost or changed.
    This holds for every number of rounds that leaves the user below the limit of
    jobs in flight, when the user's id fits its column (64 characters), the limit
    of a payload is at least 128 bytes, the default limit of attempts is a
    positive 32-bit integer and the identifiers drawn are new. *)
Theorem demonstration_is_accepted (rounds : Z) (w : World) :
  0 <= rounds → active_jobs user (w_db w) + 7 * rounds <= max_in_flight_jobs_per_user settings →
  varchar 64 user = true → 128 <= job_max_payload_bytes settings →
  1 <= job_default_max_attempts settings < 2 ^ 31 →
  window (w_count w) (42 * Z.to_nat rounds) (w_db w) →
  ∃ w', run (submit_demo_jobs (post_to_api settings) user_id rounds) w = (Ok (7 * rounds), w')
    ∧ run (submit_demo_jobs (only_202 (post_to_api settings)) user_id rounds) w = (Ok (7 * rounds), w')
    ∧ jobs (w_db w) ⊆ jobs (w_db w')
    ∧ active_jobs user (w_db w') = active_jobs user (w_db w) + 7 * rounds.
Proof.
  intros H0 Hlim Hu Hsize Hmax Hwin.
  destruct (submit_rounds_returns (Z.to_nat rounds) 0 w) as (r & w' & Hrun & -> & [Hj Ha _]);
    [by apply demo_jobs_submittable|lia|done|].
  rewrite Z2Nat.id, Z.add_0_l in Hrun by done.
  exists w'. split; [by apply strict_rounds|]. split; [exact Hrun|]. split; [done|lia].
Qed.
End ClientSpec.

Lemma demonstration_is_accepted_witness :
  ∃ w', run (submit_jobs_main (post_to_api default_settings) default_settings) init_world = (Ok 21, w')
    ∧ active_jobs "demo-user" (w_db w') = 21.
Proof.
  destruct (demonstration_is_accepted default_settings "demo-user" 3 init_world) as (w' & Hrun & _ & _ & Ha).
  - lia.
  - vm_compute. discriminate.
  - reflexivity.
  - vm_compute. discriminate.
  - split; [vm_compute; discriminate|vm_compute; reflexivity].
  - apply window_init, demo_distinct. by vm_compute.
  - exists w'. split; [exact Hrun|exact Ha].
Defined.
