(* ===== verification/SchemaSpec.v ===== *)
(** The two descriptions of the schema agree, and the checks that the statements
    of the model make are those of the schema. *)

From S2P Require Import Prelude PyStr PyFloat Json Domain Uuid Models Schema Effects Lifecycle Invariant.
From S2P Require Import System Demo.

(** ** The migration *)

(** C35: the initial migration runs on an empty database, creates exactly the
    tables, columns, constraints and indexes that the mapped classes declare, and
    its downgrade runs on the result and leaves nothing. *)
Theorem migration_builds_the_models :
  ∃ s, run_operations upgrade [] = Some s ∧ same_schema s metadata
       ∧ run_operations downgrade s = Some [].
Proof.
  eexists. split; [vm_compute; reflexivity|]. split; [|vm_compute; reflexivity].
  repeat (apply Forall2_cons; split); try apply Forall2_nil; try done;
    (split; [reflexivity|]; split; [reflexivity|]; split; [reflexivity|]); try reflexivity.
  cbn [t_indexes jobs_table]. do 4 apply perm_skip. apply perm_swap.
Qed.

(** ** Rows *)

Lemma accepts_opt {A} c (f : A → value) o :
  c_nullable c = true →
  accepts c (v_opt f o) = if_set (λ a, accepts c (f a)) o.
Proof. intros Hn. by destruct o. Qed.

Lemma enum_fits :
  (∀ t, varchar 40 (JobType_value t) = true) ∧ (∀ s, varchar 20 (JobStatus_value s) = true)
  ∧ (∀ p, varchar 10 (JobPriority_value p) = true)
  ∧ (∀ e, varchar 40 (JobEventType_value e) = true)
  ∧ (∀ s, varchar 20 (OutboxStatus.OutboxStatus_value s) = true)
  ∧ (∀ c, varchar 20 (NotificationChannel.NotificationChannel_value c) = true)
  ∧ (∀ s, varchar 20 (NotificationStatus.NotificationStatus_value s) = true).
Proof. repeat split; by intros []. Qed.

(** The unique index of a table, by name. *)
Definition index_named (name : string) (t : table) : sql_index :=
  default (index name [] false None) (List.find (λ x, String.eqb (ix_name x) name) (t_indexes t)).

Lemma any_option {A} (o : option A) : if_set (λ _, true) o = true.
Proof. by destruct o. Qed.

(** Conjunctions of the same tests. *)
Ltac same_tests := apply eq_true_iff_eq; rewrite !andb_true_iff; tauto.

(** Compares a row with the columns of its table. *)
Ltac conform :=
  destruct enum_fits as (Htype & Hstatus & Hpriority & Hevent & Houtbox & Hchannel & Hnotification);
  cbn [conforms t_columns c_name column server_default references String.eqb Ascii.eqb Bool.eqb
       job_row jobs_table attempt_row job_attempts_table event_row job_events_table
       dispatch_row_of dispatch_outbox_table notification_row notification_outbox_table];
  rewrite ?accepts_opt by reflexivity;
  cbn [accepts fits c_type column server_default references andb];
  rewrite ?Htype, ?Hstatus, ?Hpriority, ?Hevent, ?Houtbox, ?Hchannel, ?Hnotification, ?any_option.

Lemma jobs_conform j : conforms (t_columns jobs_table) (job_row j) = job_types_ok j.
Proof. conform. unfold job_types_ok. same_tests. Qed.

Lemma attempts_conform a : conforms (t_columns job_attempts_table) (attempt_row a) = attempt_types_ok a.
Proof. conform. unfold attempt_types_ok, attempt_result_ok. same_tests. Qed.

Lemma events_conform e : conforms (t_columns job_events_table) (event_row e) = event_types_ok e.
Proof.
  unfold event_types_ok. conform. destruct (e_from_status e), (e_to_status e); cbn [if_set]; rewrite ?Hstatus; same_tests.
Qed.

Lemma dispatch_conform o :
  conforms (t_columns dispatch_outbox_table) (dispatch_row_of o) = dispatch_types_ok o.
Proof. conform. unfold dispatch_types_ok. same_tests. Qed.

Lemma notifications_conform n :
  conforms (t_columns notification_outbox_table) (notification_row n) = notification_types_ok n.
Proof. conform. unfold notification_types_ok. same_tests. Qed.

Lemma jobs_checked j : checks_hold jobs_table (job_row j) = job_checks_ok j.
Proof. unfold checks_hold, job_checks_ok. cbn. same_tests. Qed.

(** ** Keys *)

(** Rows are stored under their identifiers. *)
Record keyed (d : Db) : Prop := {
  ky_jobs : ∀ i j, jobs d !! i = Some j → j_id j = i;
  ky_attempts : ∀ i a, job_attempts d !! i = Some a → a_id a = i;
  ky_events : ∀ i e, job_events d !! i = Some e → e_id e = i;
  ky_dispatch : ∀ i o, dispatch_outbox d !! i = Some o → d_id o = i;
  ky_notifications : ∀ i n, notification_outbox d !! i = Some n → n_id n = i;
}.

Lemma Inv_keyed strict d : Inv strict d → keyed d.
Proof.
  intros HI. split; intros i x Hx.
  - apply (inv_jobs _ _ HI i x Hx).
  - apply (inv_attempt _ _ HI i x Hx).
  - apply (inv_event _ _ HI i x Hx).
  - apply (inv_dispatch _ _ HI i x Hx).
  - apply (inv_notification _ _ HI i x Hx).
Qed.

Lemma is_free_rows {A} (id : A → uuid) (t : gmap uuid A) i :
  (∀ k a, t !! k = Some a → id a = k) →
  is_free i t = forallb (λ a, negb (i =? id a)%N) (map_to_list t).*2.
Proof.
  intros Hid. unfold is_free. apply eq_true_iff_eq. rewrite forallb_forall. destruct (t !! i) as [a|] eqn:Hi.
  - split; [done|]. intros H. specialize (H a). rewrite (Hid i a Hi), N.eqb_refl in H. apply H.
    apply list_elem_of_In, list_elem_of_fmap. exists (i, a). split; [done|]. by apply elem_of_map_to_list.
  - split; [|done]. intros _ a Ha.
    apply list_elem_of_In, list_elem_of_fmap in Ha as ([k x] & -> & Hk%elem_of_map_to_list). cbn. apply negb_true_iff, N.eqb_neq. intros ->. rewrite (Hid k x Hk) in Hi. congruence.
Qed.

Lemma forallb_rows {A} (p : row → bool) (f : A → row) (l : list A) : forallb p (f <$> l) = forallb (λ a, p (f a)) l.
Proof. induction l as [|a l IH]; [done|]. cbn. by f_equal. Qed.

Lemma forallb_same {A} (p q : A → bool) l : (∀ a, p a = q a) → forallb p l = forallb q l.
Proof. intros H. induction l as [|a l IH]; [done|]. cbn. by rewrite H, IH. Qed.

Lemma forallb_always {A} (l : list A) : forallb (λ _, true) l = true.
Proof. by induction l. Qed.

Lemma forallb_pairs {K A} (p : A → bool) (l : list (K * A)) : forallb (λ x, p x.2) l = forallb p l.*2.
Proof. induction l as [|a l IH]; [done|]. cbn. by f_equal. Qed.

Lemma negb_forallb {A} (p : A → bool) l : negb (forallb (λ a, negb (p a)) l) = existsb p l.
Proof. induction l as [|a l IH]; [done|]. cbn. by rewrite negb_andb, negb_involutive, IH. Qed.

Lemma existsb_rows {A} (p : row → bool) (f : A → row) (l : list A) : existsb p (f <$> l) = existsb (λ a, p (f a)) l.
Proof. induction l as [|a l IH]; [done|]. cbn. by f_equal. Qed.

(** The primary key and the reference to the job, of each table. *)
Lemma primary_keys :
  (∀ j k, same_primary_key jobs_table (job_row j) (job_row k) = (j_id j =? j_id k)%N)
  ∧ (∀ a b, same_primary_key job_attempts_table (attempt_row a) (attempt_row b) = (a_id a =? a_id b)%N)
  ∧ (∀ e f, same_primary_key job_events_table (event_row e) (event_row f) = (e_id e =? e_id f)%N)
  ∧ (∀ o p, same_primary_key dispatch_outbox_table (dispatch_row_of o) (dispatch_row_of p)
            = (d_id o =? d_id p)%N)
  ∧ (∀ n m, same_primary_key notification_outbox_table (notification_row n) (notification_row m)
            = (n_id n =? n_id m)%N).
Proof. repeat split; intros r s; unfold same_primary_key; cbn; by rewrite andb_true_r. Qed.

(** The columns of a table refer to the jobs by [job_id] alone. *)
Ltac solve_references :=
  first [ reflexivity
        | by intros c; cbn; intuition (subst; auto)
        | by eexists; cbn; split; [right; left; reflexivity|] ].

Section Statements.
Context (d : Db) (Hkeyed : keyed d).

Lemma jobs_exist i : existsb (λ s, same_value (VUuid i) (field "id" s)) (rows_of d "jobs") = job_exists i d.
Proof.
  change (rows_of d "jobs") with (job_row <$> (map_to_list (jobs d)).*2). rewrite existsb_rows.
  unfold job_exists. rewrite (is_free_rows j_id) by apply (ky_jobs _ Hkeyed). by rewrite negb_forallb.
Qed.

(** The keys of the tables, one by one. *)
Lemma free_by_key {A} (id : A → uuid) (f : A → row) (t : table) (rows : gmap uuid A) (a : A) :
  (∀ k x, rows !! k = Some x → id x = k) →
  (∀ x y, same_primary_key t (f x) (f y) = (id x =? id y)%N) →
  primary_key_free t (f <$> (map_to_list rows).*2) (f a) = is_free (id a) rows.
Proof.
  intros Hid Hkey. rewrite (is_free_rows id rows) by done. unfold primary_key_free. rewrite forallb_rows.
  apply forallb_same. intros x. by rewrite Hkey.
Qed.

Lemma unique_by_index {A} (f : A → row) (x : sql_index) (same : A → A → bool) (rows : gmap uuid A) (a : A) :
  (∀ y z, conflict x (f y) (f z) = same y z) →
  forallb (λ s, negb (conflict x (f a) s)) (f <$> (map_to_list rows).*2)
  = forallb (λ p, negb (same a p.2)) (map_to_list rows).
Proof.
  intros Hsame. rewrite forallb_rows.
  transitivity (forallb (λ y, negb (same a y)) (map_to_list rows).*2);
    [apply forallb_same; intros y; by rewrite Hsame|].
  symmetry. apply (forallb_pairs (λ y, negb (same a y))).
Qed.

Lemma not_unique (x : sql_index) (r : row) (l : list row) :
  ix_unique x = false → forallb (λ s, negb (conflict x r s)) l = true.
Proof.
  intros Hx. rewrite (forallb_same _ (λ _, true)); [apply forallb_always|].
  intros s. unfold conflict. by rewrite Hx.
Qed.

Lemma key_conflicts :
  (∀ j k, conflict (index_named "uq_jobs_user_idempotency_key" jobs_table) (job_row j) (job_row k)
          = same_idempotency_key j k)
  ∧ (∀ a b, conflict (index_named "uq_job_attempt_number" job_attempts_table) (attempt_row a) (attempt_row b)
            = (a_job_id a =? a_job_id b)%N && (a_attempt_number a =? a_attempt_number b))
  ∧ (∀ n m, conflict (index_named "uq_notification_dedupe_key" notification_outbox_table)
              (notification_row n) (notification_row m)
            = String.eqb (n_dedupe_key n) (n_dedupe_key m)).
Proof.
  split; [|split]; intros r s; unfold conflict; cbn; [|by rewrite andb_true_r..].
  unfold same_idempotency_key. rewrite andb_true_r. by destruct (j_idempotency_key r), (j_idempotency_key s).
Qed.

(** The unique indexes of the tables hold where the model finds no duplicate. *)
Lemma jobs_unique j :
  unique_indexes_hold jobs_table (rows_of d "jobs") (job_row j) = idempotency_key_free j (jobs d).
Proof.
  change (rows_of d "jobs") with (job_row <$> (map_to_list (jobs d)).*2).
  unfold unique_indexes_hold. cbn [t_indexes jobs_table forallb].
  rewrite !(not_unique (index _ _ NOT_UNIQUE _)) by done.
  rewrite (unique_by_index job_row _ same_idempotency_key) by apply (proj1 key_conflicts).
  cbn [andb]. by rewrite andb_true_r.
Qed.

Lemma attempts_unique a :
  unique_indexes_hold job_attempts_table (rows_of d "job_attempts") (attempt_row a)
  = attempt_number_free a (job_attempts d).
Proof.
  change (rows_of d "job_attempts") with (attempt_row <$> (map_to_list (job_attempts d)).*2).
  unfold unique_indexes_hold. cbn [t_indexes job_attempts_table forallb].
  rewrite (unique_by_index attempt_row _ (λ a b, (a_job_id a =? a_job_id b)%N
    && (a_attempt_number a =? a_attempt_number b))) by apply (proj2 key_conflicts).
  by rewrite andb_true_r.
Qed.

Lemma notifications_unique n :
  unique_indexes_hold notification_outbox_table (rows_of d "notification_outbox") (notification_row n)
  = dedupe_key_free (n_dedupe_key n) (notification_outbox d).
Proof.
  change (rows_of d "notification_outbox")
    with (notification_row <$> (map_to_list (notification_outbox d)).*2).
  unfold unique_indexes_hold. cbn [t_indexes notification_outbox_table forallb].
  rewrite !(not_unique (index _ _ NOT_UNIQUE _)) by done.
  rewrite (unique_by_index notification_row _ (λ n m, String.eqb (n_dedupe_key n) (n_dedupe_key m)))
    by apply (proj2 key_conflicts).
  cbn [andb]. by rewrite andb_true_r.
Qed.

(** The only references are those to the jobs. *)
Lemma references_exist t r i :
  (∀ c, In c (t_columns t) → c_references c = None ∨ c_references c = Some ("jobs", "id") ∧ c_name c = "job_id") →
  (∃ c, In c (t_columns t) ∧ c_references c = Some ("jobs", "id") ∧ c_name c = "job_id") →
  field "job_id" r = VUuid i → foreign_keys_hold t (rows_of d) r = job_exists i d.
Proof.
  intros Hall Hex Hr. rewrite <-jobs_exist. apply eq_true_iff_eq. unfold foreign_keys_hold.
  rewrite forallb_forall. split.
  - intros H. destruct Hex as (c & Hc & Href & Hname). specialize (H c Hc). by rewrite Href, Hname, Hr in H.
  - intros H c Hc. destruct (Hall c Hc) as [->|[-> ->]]; [done|]. by rewrite Hr.
Qed.
(** The INSERT of each table. *)
Definition by_schema {A} (e : option db_error) (accepted : A) : db_error + A :=
  match e with Some e => inl e | None => inr accepted end.

Lemma insert_job_by_schema j :
  insert_job j d
  = by_schema (insert_error (rows_of d) jobs_table (job_row j)) (d <| jobs := <[j_id j := j]> (jobs d) |>).
Proof.
  unfold insert_error. rewrite jobs_conform, jobs_checked. cbn [t_name jobs_table]. rewrite jobs_unique.
  change (foreign_keys_hold jobs_table (rows_of d) (job_row j)) with true.
  change (rows_of d "jobs") with (job_row <$> (map_to_list (jobs d)).*2).
  rewrite (free_by_key j_id job_row); [|apply (ky_jobs _ Hkeyed)|apply (proj1 primary_keys)].
  rewrite andb_true_r. unfold insert_job. destruct (negb _); [done|]. by destruct (_ && _ && _).
Qed.

Lemma insert_attempt_by_schema a :
  insert_attempt a d
  = by_schema (insert_error (rows_of d) job_attempts_table (attempt_row a))
      (d <| job_attempts := <[a_id a := a]> (job_attempts d) |>).
Proof.
  unfold insert_error. rewrite attempts_conform. cbn [t_name job_attempts_table]. rewrite attempts_unique.
  rewrite (references_exist job_attempts_table (attempt_row a) (a_job_id a)); [|solve_references..].
  change (checks_hold job_attempts_table (attempt_row a)) with true.
  change (rows_of d "job_attempts") with (attempt_row <$> (map_to_list (job_attempts d)).*2).
  rewrite (free_by_key a_id attempt_row); [|apply (ky_attempts _ Hkeyed)|apply (proj1 (proj2 primary_keys))].
  cbn [andb]. unfold insert_attempt. destruct (negb _); [done|]. by destruct (_ && _ && _).
Qed.

Lemma insert_event_by_schema e :
  insert_event e d
  = by_schema (insert_error (rows_of d) job_events_table (event_row e))
      (d <| job_events := <[e_id e := e]> (job_events d) |>).
Proof.
  unfold insert_error. rewrite events_conform. cbn [t_name job_events_table].
  rewrite (references_exist job_events_table (event_row e) (e_job_id e)); [|solve_references..].
  change (checks_hold job_events_table (event_row e)) with true.
  assert (unique_indexes_hold job_events_table (rows_of d "job_events") (event_row e) = true) as ->.
  { unfold unique_indexes_hold. cbn [t_indexes job_events_table forallb]. by rewrite not_unique. }
  change (rows_of d "job_events") with (event_row <$> (map_to_list (job_events d)).*2).
  rewrite (free_by_key e_id event_row); [|apply (ky_events _ Hkeyed)|apply (proj1 (proj2 (proj2 primary_keys)))].
  cbn [andb]. rewrite andb_true_r. unfold insert_event. destruct (negb _); [done|]. by destruct (_ && _).
Qed.

Lemma insert_dispatch_by_schema o :
  insert_dispatch o d
  = by_schema (insert_error (rows_of d) dispatch_outbox_table (dispatch_row_of o))
      (d <| dispatch_outbox := <[d_id o := o]> (dispatch_outbox d) |>).
Proof.
  unfold insert_error. rewrite dispatch_conform. cbn [t_name dispatch_outbox_table].
  rewrite (references_exist dispatch_outbox_table (dispatch_row_of o) (d_job_id o)); [|solve_references..].
  change (checks_hold dispatch_outbox_table (dispatch_row_of o)) with true.
  assert (unique_indexes_hold dispatch_outbox_table (rows_of d "dispatch_outbox") (dispatch_row_of o) = true) as ->.
  { unfold unique_indexes_hold. cbn [t_indexes dispatch_outbox_table forallb]. by rewrite not_unique. }
  change (rows_of d "dispatch_outbox") with (dispatch_row_of <$> (map_to_list (dispatch_outbox d)).*2).
  rewrite (free_by_key d_id dispatch_row_of);
    [|apply (ky_dispatch _ Hkeyed)|apply (proj1 (proj2 (proj2 (proj2 primary_keys))))].
  cbn [andb]. rewrite andb_true_r. unfold insert_dispatch. destruct (negb _); [done|]. by destruct (_ && _).
Qed.

(** [ON CONFLICT (dedupe_key) DO NOTHING] looks at its index before the other keys. *)
Definition dedupe_conflict (n : NotificationOutbox) : bool :=
  existsb (conflict (index_named "uq_notification_dedupe_key" notification_outbox_table) (notification_row n))
    (rows_of d "notification_outbox").

Lemma dedupe_conflict_free n :
  dedupe_conflict n = negb (dedupe_key_free (n_dedupe_key n) (notification_outbox d)).
Proof.
  rewrite <-notifications_unique. unfold dedupe_conflict, unique_indexes_hold.
  cbn [t_indexes notification_outbox_table forallb]. rewrite !(not_unique (index _ _ NOT_UNIQUE _)) by done.
  cbn [andb]. rewrite andb_true_r. by rewrite negb_forallb.
Qed.

Lemma insert_notification_by_schema n :
  insert_notification n d
  = if conforms (t_columns notification_outbox_table) (notification_row n) && dedupe_conflict n
    then inr (false, d)
    else by_schema (insert_error (rows_of d) notification_outbox_table (notification_row n))
           (true, d <| notification_outbox := <[n_id n := n]> (notification_outbox d) |>).
Proof.
  unfold insert_error. rewrite notifications_conform, dedupe_conflict_free.
  cbn [t_name notification_outbox_table]. rewrite notifications_unique.
  rewrite (references_exist notification_outbox_table (notification_row n) (n_job_id n)); [|solve_references..].
  change (checks_hold notification_outbox_table (notification_row n)) with true.
  change (rows_of d "notification_outbox")
    with (notification_row <$> (map_to_list (notification_outbox d)).*2).
  rewrite (free_by_key n_id notification_row);
    [|apply (ky_notifications _ Hkeyed)|apply (proj2 (proj2 (proj2 (proj2 primary_keys))))].
  cbn [andb]. unfold insert_notification. destruct (notification_types_ok n); cbn [negb andb]; [|done].
  destruct (dedupe_key_free _ _); cbn [negb andb]; [|done]. rewrite andb_true_r. by destruct (_ && _).
Qed.
(** The UPDATE of a job and of an attempt. *)
Lemma update_job_by_schema i guard values j :
  jobs d !! i = Some j →
  update_job i guard values d
  = if guard j
    then by_schema (update_error jobs_table (job_row (values j)))
           (1, d <| jobs := <[i := values j]> (jobs d) |>)
    else inr (0, d).
Proof.
  intros Hj. unfold update_error. rewrite jobs_conform, jobs_checked. unfold update_job. rewrite Hj.
  destruct (guard j); [|done]. destruct (negb _); [done|]. by destruct (job_checks_ok (values j)).
Qed.

Lemma update_attempt_by_schema k values a :
  job_attempts d !! k = Some a → attempt_types_ok a = true →
  a_worker_id (values a) = a_worker_id a → a_attempt_number (values a) = a_attempt_number a →
  update_attempt k values d
  = by_schema (update_error job_attempts_table (attempt_row (values a)))
      (d <| job_attempts := <[k := values a]> (job_attempts d) |>).
Proof.
  intros Ha Hok Hw Hn. unfold update_error. rewrite attempts_conform.
  change (checks_hold job_attempts_table (attempt_row (values a))) with true.
  unfold attempt_types_ok in *. rewrite Hw, Hn. apply andb_prop in Hok as [-> _]. cbn [andb].
  unfold update_attempt. rewrite Ha. by destruct (attempt_result_ok (values a)).
Qed.
End Statements.

(** C36: the statements of the model do what the declared schema says.  On a
    database whose rows are stored under their identifiers, as in every reachable
    one: the INSERT into each
    of the five tables fails with a bad value exactly when a column of the
    declared table does not take its value, fails with a violated constraint
    exactly when a declared CHECK, the primary key, a declared unique index (against
    the stored rows) or a declared foreign key is violated, and otherwise adds the
    row; a notification whose deduplication key is taken is skipped instead.  The
    UPDATE of a job that matches fails likewise when the new row does not fit the
    columns or a CHECK, and so does the closing of an attempt. *)
Theorem schema_checks_agree (d : Db) :
  keyed d →
  (∀ j, insert_job j d
     = by_schema (insert_error (rows_of d) jobs_table (job_row j)) (d <| jobs := <[j_id j := j]> (jobs d) |>))
  ∧ (∀ a, insert_attempt a d
     = by_schema (insert_error (rows_of d) job_attempts_table (attempt_row a))
         (d <| job_attempts := <[a_id a := a]> (job_attempts d) |>))
  ∧ (∀ e, insert_event e d
     = by_schema (insert_error (rows_of d) job_events_table (event_row e))
         (d <| job_events := <[e_id e := e]> (job_events d) |>))
  ∧ (∀ o, insert_dispatch o d
     = by_schema (insert_error (rows_of d) dispatch_outbox_table (dispatch_row_of o))
         (d <| dispatch_outbox := <[d_id o := o]> (dispatch_outbox d) |>))
  ∧ (∀ n, insert_notification n d
     = if conforms (t_columns notification_outbox_table) (notification_row n) && dedupe_conflict d n
       then inr (false, d)
       else by_schema (insert_error (rows_of d) notification_outbox_table (notification_row n))
              (true, d <| notification_outbox := <[n_id n := n]> (notification_outbox d) |>))
  ∧ (∀ i guard values j, jobs d !! i = Some j →
     update_job i guard values d
     = if guard j
       then by_schema (update_error jobs_table (job_row (values j)))
              (1, d <| jobs := <[i := values j]> (jobs d) |>)
       else inr (0, d))
  ∧ ∀ k values a, job_attempts d !! k = Some a →
     conforms (t_columns job_attempts_table) (attempt_row a) = true →
     a_worker_id (values a) = a_worker_id a → a_attempt_number (values a) = a_attempt_number a →
     update_attempt k values d
     = by_schema (update_error job_attempts_table (attempt_row (values a)))
         (d <| job_attempts := <[k := values a]> (job_attempts d) |>).
Proof.
  intros Hk. split; [by apply insert_job_by_schema|]. split; [by apply insert_attempt_by_schema|].
  split; [by apply insert_event_by_schema|]. split; [by apply insert_dispatch_by_schema|].
  split; [by apply insert_notification_by_schema|]. split; [by apply update_job_by_schema|].
  intros k values a Ha Hok. rewrite attempts_conform in Hok. by apply update_attempt_by_schema.
Qed.

(** ** At a concrete database *)

(** A job is stored once. *)
Lemma schema_checks_agree_witness :
  insert_job (row_at w_succeeded) (w_db w_succeeded) = inl ConstraintViolated.
Proof.
  pose proof (Inv_keyed true _ (reachable_Inv true s_succeeded (at_succeeded true))) as Hk.
  destruct (schema_checks_agree (w_db w_succeeded) Hk) as [H _]. rewrite H. by vm_compute.
Defined.
