(* ===== verification/Findings.v ===== *)
(** Runs the design does not mean to allow, exhibited as reachable states or as
    outcomes of the program: a retry budget exceeded when coroutines share a
    worker identity, an admission limit exceeded by racing submissions,
    notifications sent twice, and jobs that cannot finish. *)

From S2P Require Import Prelude PyStr PyFloat Json Domain Config Uuid Models Effects.
From S2P Require Import Repositories Queue Notifications Catalog Logic Lifecycle Invariant.
From S2P Require Import Submission Cancellation Execution Scheduling Worker Steps Transactions.
From S2P Require Import Read Api Programs System Demo WorkerSpec ServiceSpec SchedulerSpec.
Import JobStatus.

(** ** Coroutines run part of the way *)

Section Advance.
Context {env : Env} (strict : bool).

(** [n] awaits of a coroutine. *)
Fixpoint advance (n : nat) (c : co unit) (w : World) : co unit * World :=
  match n, c with
  | S n', Await m k => let '(r, w') := m w in advance n' (k r) w'
  | _, _ => (c, w)
  end.

Lemma advance_steps n c w o ts1 ts2 :
  steps strict (mkState w (ts1 ++ (o, c) :: ts2))
    (mkState (advance n c w).2 (ts1 ++ (o, (advance n c w).1) :: ts2)).
Proof.
  revert c w. induction n as [|n IH]; intros c w; [apply rtc_refl|].
  destruct c as [a|e|B m k]; try apply rtc_refl. eapply rtc_l; [apply step_run|].
  specialize (IH (k (m w).1) (m w).2). simpl. by destruct (m w).
Qed.

(** What a schedule does with the pool; the newest coroutine is the first. *)
Inductive action :=
| Spawn (t : option string * co unit)
| Advance (index awaits : nat).

Definition act_on (s : State) (a : action) : State :=
  match a with
  | Spawn t => mkState (st_world s) (t :: st_tasks s)
  | Advance i n =>
      match st_tasks s !! i with
      | Some (o, c) => mkState (advance n c (st_world s)).2
                         (<[i := (o, (advance n c (st_world s)).1)]> (st_tasks s))
      | None => s
      end
  end.

Definition play (l : list action) (s : State) : State := foldl act_on s l.

Definition legal (a : action) : Prop :=
  match a with Spawn t => program t.1 t.2 | Advance _ _ => True end.
End Advance.

Lemma play_steps `{env : Env} l s : Forall legal l → steps false s (play l s).
Proof.
  intros H. revert s. induction H as [|a l Ha _ IH]; intros s; [apply rtc_refl|].
  etransitivity; [|apply IH]. destruct s as [w ts], a as [[o c]|i n]; simpl in *.
  - by apply rtc_once, step_spawn.
  - destruct (ts !! i) as [[o c]|] eqn:Hi; [|apply rtc_refl].
    rewrite (insert_take_drop ts i _ (lookup_lt_Some _ _ _ Hi)).
    rewrite <- (take_drop_middle ts i (o, c) Hi) at 1. apply advance_steps.
Qed.

Ltac solve_legal :=
  repeat first [apply List.Forall_nil | apply List.Forall_cons];
  lazymatch goal with
  | |- legal (Advance _ _) => exact I
  | |- legal (Spawn _) =>
      first [apply pr_scheduler | apply pr_worker | apply pr_submit | apply pr_cancel]
  end.

(** ** A shared worker identity *)

(** Leases of a second, so that one expires while its holder is between two
    awaits. *)
Definition short_leases : Settings := default_settings <| worker_lease_seconds := 1 |>.

Definition short_worker : option string * co unit :=
  (Some "worker-1", _consume_loop (new_worker short_leases "worker-1") 1).

(** The first coroutine of the process claims attempt 1 of 2 and is delayed; the
    reaper requeues the job; a second coroutine of the same process claims
    attempt 2 and is delayed; the first one then finds the lease held by its own
    identity and schedules a retry; a third attempt is claimed. *)
Definition shared_identity_schedule : list action :=
  [Spawn (submit_task JobType.FLAKY [("fail_times", JInt 9)] 2 "key-1"); Advance 0 99;
   Spawn scheduler_task; Advance 0 99;
   Spawn short_worker; Advance 0 5;
   Spawn scheduler_task; Advance 0 99;
   Spawn short_worker; Advance 0 5;
   Advance 2 99;
   Spawn scheduler_task; Advance 0 99;
   Spawn short_worker; Advance 0 5].

Definition s_over_budget : State := play shared_identity_schedule initial.

(** C39: the retry budget is not kept when two coroutines of a process share its
    worker identity, as they do in [Worker]: a job limited to two attempts is
    seen running its third one. *)
Theorem shared_identity_exceeds_the_budget :
  reachable false s_over_budget
  ∧ jobs (st_db s_over_budget) !! first_job = Some (row_of s_over_budget)
  ∧ j_max_attempts (row_of s_over_budget) = 2
  ∧ j_attempts (row_of s_over_budget) = 3 ∧ j_status (row_of s_over_budget) = RUNNING.
Proof.
  assert (Forall legal shared_identity_schedule) as H by (unfold shared_identity_schedule; solve_legal).
  split; [exact (play_steps _ initial H)|]. split; [by vm_compute|]. split; [by vm_compute|].
  split; by vm_compute.
Qed.

(** ** Racing submissions *)

Definition one_job_settings : Settings := default_settings <| max_in_flight_jobs_per_user := 1 |>.

Definition limited_submission : option string * co unit :=
  (None, _ ← submit one_job_settings "alice" JobType.REPORT [] JobPriority.NORMAL None None; Ret tt).

(** Both count the jobs before either creates one. *)
Definition race_schedule : list action :=
  [Spawn limited_submission; Advance 0 3; Spawn limited_submission; Advance 0 3;
   Advance 0 99; Advance 1 99].

Definition s_over_limit : State := play race_schedule initial.

(** The limit of jobs in flight is checked before, not with, the creation:
    two racing submissions of a user limited to one job both succeed. *)
Theorem racing_submissions_exceed_the_limit :
  reachable false s_over_limit
  ∧ max_in_flight_jobs_per_user one_job_settings = 1
  ∧ active_jobs "alice" (st_db s_over_limit) = 2.
Proof.
  assert (Forall legal race_schedule) as H by (unfold race_schedule; solve_legal).
  split; [exact (play_steps _ initial H)|]. split; by vm_compute.
Qed.

(** ** A malformed webhook address *)

Definition malformed_url : string := "http://[".

(** The client raises [InvalidURL], which is not an [HTTPError], for a malformed
    address; other webhooks answer. *)
Definition malformed_url_env : Env := {|
  redis_state := gmap string (list string);
  redis_server := ListMap.list_map_server;
  clock := clock (Env:=demo_env);
  uuid7 := uuid7 (Env:=demo_env);
  uuid7_range := uuid7_range (Env:=demo_env);
  random_draw _ := fzero;
  locked_row _ _ := false;
  redis_down _ := false;
  http_post _ destination _ _ :=
    if String.eqb destination malformed_url then HttpRaised "InvalidURL" else HttpOk;
  hmac_sha256_hex _ _ := "00";
  session_sync _ row := row;
  other_isoformat _ := None;
  library_text _ := "error";
|}.

(** Two jobs, the second with a malformed address; both are cancelled, so both
    owners are to be notified, and the scheduler ticks twice. *)
Section MalformedUrl.
#[local] Existing Instance malformed_url_env | 0.

Definition two_notifications : schedule :=
  [submit_task JobType.ALWAYS_FAIL [("notify_webhook", JStr "https://hooks.example/a")] 1 "key-1";
   submit_task JobType.ALWAYS_FAIL [("notify_webhook", JStr malformed_url)] 1 "key-2";
   cancel_task 3%N; cancel_task 9%N; scheduler_task; scheduler_task].

Definition s_resent : State := mkState (run_schedule two_notifications init_world) [].
End MalformedUrl.

(** One malformed address makes a delivery batch fail as a whole: the
    notification delivered before it is rolled back to pending, and delivered
    again by the next tick, and so on at every tick. *)
Theorem malformed_address_resends_the_batch :
  reachable true s_resent
  ∧ dl_destination <$> w_sent (st_world s_resent)
    = ["https://hooks.example/a"; "https://hooks.example/a"]
  ∧ (λ p, (n_destination p.2, n_status p.2))
      <$> map_to_list (notification_outbox (st_db s_resent))
    = [(malformed_url, NotificationStatus.PENDING);
       ("https://hooks.example/a", NotificationStatus.PENDING)].
Proof.
  assert (Forall (λ t, program t.1 t.2) two_notifications) as H
    by (unfold two_notifications; solve_programs).
  split; [exact (run_schedule_reachable true _ H)|]. split; by vm_compute.
Qed.

(** ** A webhook address that does not fit its column *)

Section LongWebhook.
Context {env : Env} (j : Job).

(** [destination] is [String(255)]; a payload may hold any address. *)
Definition long_webhook : Prop := varchar 255 (notification_route j).2 = false.

Hypothesis Hlong : long_webhook.

Lemma wp_notify_long ev status result c m now d :
  wp (enqueue_terminal_notification j ev status result c m now) (λ _ _, False) d.
Proof.
  unfold enqueue_terminal_notification. unfold long_webhook in Hlong.
  destruct (notification_route j) as [channel destination]. simpl in Hlong.
  apply wp_bind, wp_bind, wp_generate_uuid7. intros k _. apply wp_bind, wp_txn_now. intros t.
  apply wp_statement. intros b d' E. unfold insert_notification, notification_types_ok in E.
  cbn [n_user_id n_destination n_dedupe_key] in E.
  rewrite Hlong, andb_false_r in E. done.
Qed.

Lemma wp_notify_long_then {A} ev status result c m now (f : unit → M A) (Q : A → Db → Prop) d :
  wp (x ← enqueue_terminal_notification j ev status result c m now; f x) Q d.
Proof. apply wp_bind. eapply wp_mono; [apply wp_notify_long|]. done. Qed.

(** C40: a job whose webhook address is longer than the column of the outbox can
    reach no terminal status: every write that would end it raises and leaves the
    database as it was.  That is, from RUNNING and from CANCELLING, its success,
    its failure (dead-lettered or not) and the end of its cancellation; from
    RUNNING, the reaper's dead letter; from PENDING and QUEUED, its expiry; from
    PENDING, QUEUED and RETRYING, its cancellation. *)
Theorem long_webhook_blocks_every_end (i k : uuid) (w : World) (worker : string) (now : datetime) :
  jobs (w_db w) !! i = Some j → j_id j = i →
  (j_status j ∈ [RUNNING; CANCELLING] → j_locked_by j = Some worker →
     (∀ result, commits (succeeded_body worker i k result now) w (λ _ _, False))
     ∧ (∀ code message dead, commits (failed_body worker i k code message dead now) w (λ _ _, False))
     ∧ commits (cancelled_body worker i k now) w (λ _ _, False))
  ∧ (j_status j = RUNNING → j_max_attempts j <= j_attempts j →
     commits (reap_row now j) w (λ _ _, False))
  ∧ (j_status j ∈ [PENDING; QUEUED] → commits (expire_row now j) w (λ _ _, False))
  ∧ (j_status j ∈ [PENDING; QUEUED; RETRYING] →
     ∀ reason, commits (cancel_locked i (j_user_id j) reason now) w (λ _ _, False)).
Proof.
  intros Hj Hid.
  split; [|split; [|split]].
  - intros Hs Hl. assert (locked_by worker j && status_in JobRepository._FINALIZABLE j = true) as Hg
      by (by apply (holds_guard worker i j (w_db w))).
    split; [|split]; intros;
      (apply transaction_commits; [unfold succeeded_body, failed_body, cancelled_body; raises_solve|]);
      apply wp_bind, wp_query; rewrite Hj;
      apply wp_bind, (wp_update_held _ _ _ _ _ j Hj Hg); apply wp_bind, wp_finish;
      apply wp_bind, wp_event_same_jobs; intros d1 _;
      first [apply wp_notify_long|apply wp_notify_long_then].
  - intros Hs Hmax. apply transaction_commits; [unfold reap_row; raises_solve|].
    unfold reap_row. rewrite (proj2 (Z.leb_le _ _) Hmax), Hid.
    apply wp_bind, (wp_update_held _ _ _ _ _ j Hj); [unfold status_is; by rewrite Hs|].
    apply wp_bind, wp_event_same_jobs. intros d1 _. apply wp_notify_long_then.
  - intros Hs. apply transaction_commits; [apply expire_raises|].
    unfold expire_row. rewrite Hid.
    apply wp_bind, (wp_update_held _ _ _ _ _ j Hj).
    { unfold status_in. by apply bool_decide_eq_true_2. }
    apply wp_bind, wp_query, wp_bind, wp_event_same_jobs. intros d1 _. apply wp_notify_long_then.
  - intros Hs reason. apply transaction_commits; [apply cancel_raises|].
    apply wp_bind, wp_query. rewrite Hj. unfold JobRepository.owned_by. rewrite String.eqb_refl.
    cbv zeta. rewrite !elem_of_cons, elem_of_nil in Hs.
    assert (Hg : status_in JobRepository._INACTIVE_CANCELLABLE j = true).
    { unfold status_in, JobRepository._INACTIVE_CANCELLABLE. apply bool_decide_eq_true_2. 
      rewrite !elem_of_cons. tauto. }
    destruct (j_status j) eqn:E; try (exfalso; intuition discriminate);
      cbn; (apply wp_bind, (wp_update_held _ _ _ _ _ j Hj Hg));
      apply wp_bind, wp_event_same_jobs; intros d1 _; apply wp_notify_long_then.
Qed.
End LongWebhook.

(** A running job with an address of 256 characters. *)
Definition long_address : string := Nat.iter 256 (String "a") EmptyString.
Definition w_long : World :=
  (transaction (claim_body default_settings "worker-1" 3%N 0)
     (run_schedule
        [submit_task JobType.ALWAYS_FAIL [("notify_webhook", JStr long_address)] 1 "key-1";
         scheduler_task] (init_world))).2.

#[local] Opaque w_long.

Lemma long_webhook_blocks_every_end_witness :
  commits (failed_body "worker-1" 3%N 5%N "ALWAYS_FAILS" "always fails" false 0) w_long
    (λ _ _, False).
Proof.
  destruct (long_webhook_blocks_every_end (row_at w_long)
              ltac:(by vm_compute) 3%N 5%N w_long "worker-1" 0) as [H _].
  - by vm_compute.
  - by vm_compute.
  - destruct H as (_ & H & _); [|by vm_compute|apply H].
    assert (j_status (row_at w_long) = RUNNING) as -> by (by vm_compute). apply list_elem_of_here.
Defined.

(** ** Numbers that are not JSON *)

(** The body parser reads [Infinity] and [NaN].  The first overflows in [int],
    which only catches [TypeError] and [ValueError]; the second is smaller than
    no minimum, passes the check, and is refused by the JSONB column. *)
Definition infinity : json := JFloat (S754_infinity false).
Definition not_a_number : json := JFloat S754_nan.

Definition submit_request (ty : JobType) (payload : dict) : request :=
  mkRequest (Some "alice") (SubmitJob (mkJobSubmit ty payload JobPriority.NORMAL None) None).

(** A payload with a number that is not finite is not answered with 422: the
    handler raises, an [OverflowError] for an integer parameter, an error of the
    database for a float one that passed the validation. *)
Theorem non_finite_number_is_a_server_error :
  (run (serve default_settings (submit_request JobType.REPORT [("pages", infinity)])) init_world).1
  = Err (OverflowError "cannot convert float infinity to integer")
  ∧ normalize_payload JobType.SLEEP [("duration_seconds", not_a_number)] default_settings
    = Ok [("duration_seconds", not_a_number); ("steps", JInt 10)]
  ∧ (run (serve default_settings (submit_request JobType.SLEEP [("duration_seconds", not_a_number)]))
       init_world).1 = Err (DataError "error").
Proof. split; [|split]; by vm_compute. Qed.
