(* ===== verification/Scenarios.v ===== *)
(** Whole lives of a job, from its submission to its notification, evaluated
    through every service, worker and queue of the model. *)

From S2P Require Import Prelude PyStr PyFloat Json Domain Config Uuid Models Effects.
From S2P Require Import Repositories Queue Notifications Catalog Submission Execution.
From S2P Require Import Scheduling Worker Lifecycle System Demo.
Import JobStatus.

(** The events of a job in the order of their (time-ordered) identifiers. *)
Definition by_identifier (a b : JobEvent) : Prop := (e_id a <= e_id b)%N.
#[local] Instance by_identifier_dec : RelDecision by_identifier.
Proof. intros a b. unfold by_identifier. apply _. Defined.

Definition event_log (w : World) : list JobEventType :=
  e_event_type <$> merge_sort by_identifier (map_to_list (job_events (w_db w))).*2.

(** A job that fails once goes through a retry and succeeds: it is submitted,
    dispatched, claimed, fails, waits, is promoted, claimed again and succeeds
    on its second attempt; its owner is notified once, and the queue is empty. *)
Theorem flaky_job_recovers :
  reachable true s_notified
  ∧ event_log w_notified
    = [JobEventType.SUBMITTED; JobEventType.QUEUED; JobEventType.STARTED;
       JobEventType.RETRY_SCHEDULED; JobEventType.QUEUED; JobEventType.STARTED;
       JobEventType.SUCCEEDED]
  ∧ (j_status (row_of s_notified), j_attempts (row_of s_notified), j_result (row_of s_notified))
    = (SUCCEEDED, 2, Some [("succeeded_on_attempt", JInt 2)])
  ∧ (λ p, n_status p.2) <$> map_to_list (notification_outbox (w_db w_notified))
    = [NotificationStatus.SENT]
  ∧ (JobQueue.depth "job_orchestrator" w_notified).1 = Ok 0.
Proof.
  split; [apply at_notified|]. split; [by vm_compute|]. split; [by vm_compute|].
  split; by vm_compute.
Qed.

(** A job that keeps failing is dead-lettered when its attempts are
    exhausted: its row is failed and marked, and its id stands in the
    dead-letter list. *)
Theorem exhausted_job_is_dead_lettered :
  reachable true s_exhausted
  ∧ event_log w_exhausted
    = [JobEventType.SUBMITTED; JobEventType.QUEUED; JobEventType.STARTED;
       JobEventType.RETRY_SCHEDULED; JobEventType.QUEUED; JobEventType.STARTED;
       JobEventType.FAILED]
  ∧ (j_status (row_of s_exhausted), j_attempts (row_of s_exhausted), j_error_code (row_of s_exhausted))
    = (FAILED, 2, Some "TRANSIENT_FAILURE")
  ∧ is_Some (j_dead_lettered_at (row_of s_exhausted))
  ∧ contents (w_redis w_exhausted) (JobQueue._dead_letter_key "job_orchestrator") = [uuid_str first_job].
Proof.
  split; [apply at_exhausted|]. split; [by vm_compute|]. split; [by vm_compute|].
  split; [eexists; by vm_compute|by vm_compute].
Qed.
